(** * trellofs: the virtual filesystem tree, embedded and verified

    A shallow embedding of the Go packages [trello] and [fs] of trellofs:
    the records fetched from the remote service, the reflection-driven
    field renderer [getMeta], the node variants with their [Update],
    [LookupChild], [ReadDir] and [ReadAt] methods, and the kernel-facing
    operations of [trelloFS] with its inode table.

    Conventions.
    - Go pointers are addresses into per-type arenas of the [Heap]; the nil
      pointer is [None].  Nodes shared by several parents are shared by
      address, as in the source.
    - Go integers are [Z]; where a conversion can wrap it is written out.
    - A Go run-time panic or a [log.Fatalf] is an [Abort]; everything else
      returns [Done].
    - Logging is dropped, except that the dereferences of pointers that can
      be nil, made while building a log line, are kept: they can panic. *)

From Stdlib Require Import ZArith String Ascii List Lia.
From Stdlib.Strings Require Import Byte.
From stdpp Require Import base option list strings gmap.

Local Open Scope Z_scope.

(** ** Outcomes of Go code *)

Inductive abort : Type :=
  | NilDeref          (* invalid memory address or nil pointer dereference *)
  | IndexOutOfRange   (* index out of range *)
  | SliceBounds       (* slice bounds out of range *)
  | TypeAssertion     (* interface conversion failed *)
  | ExplicitPanic     (* panic(...) *)
  | LogFatal.         (* log.Fatalf: the process exits *)

Inductive outcome (A : Type) : Type :=
  | Done (a : A)
  | Abort (why : abort).
Arguments Done {A} a.
Arguments Abort {A} why.

Definition bind {A B : Type} (m : outcome A) (k : A -> outcome B) : outcome B :=
  match m with
  | Done a => k a
  | Abort w => Abort w
  end.

Notation "'let*' x ':=' m 'in' k" := (bind m (fun x => k))
  (at level 10, x name, m at level 100, k at level 200).
Notation "'let*' ' p ':=' m 'in' k" := (bind m (fun x => match x with p => k end))
  (at level 10, p pattern, m at level 100, k at level 200).

(** Dereference of a pointer into an arena. *)
Definition deref {A : Type} (arena : list A) (p : nat) : outcome A :=
  match arena !! p with
  | Some a => Done a
  | None => Abort NilDeref
  end.

(** Go's [error] values that the program produces or compares against. *)
Inductive error : Type :=
  | EINVAL
  | ENOENT
  | EIO
  | EOF
  | ApiError (msg : string).

(** A Go [(T, error)] pair as returned by the remote queries. *)
Inductive result (A : Type) : Type :=
  | Ok (a : A)
  | Err (e : error).
Arguments Ok {A} a.
Arguments Err {A} e.

(** ** Package trello: the records of the remote service *)

Module Trello.

Module Workspace.
Record t : Type := mk {
  ID : string;
  Name : string;
  DisplayName : string;
  Desc : string
}.
End Workspace.

Module Board.
Record t : Type := mk {
  ID : string;
  Name : string;
  Desc : string;
  DescData : string;
  Closed : bool
}.
End Board.

Module List.
Record t : Type := mk {
  ID : string;
  Name : string;
  Closed : bool;
  Board : option Board.t      (* *Board *)
}.
Definition zero : t := mk EmptyString EmptyString false None.
End List.

Module CardLabel.
Record t : Type := mk {
  ID : string;
  Name : string
}.
End CardLabel.

Module Card.
Record t : Type := mk {
  ID : string;
  Name : string;
  Desc : string;
  ListID : string;
  BoardID : string;
  MemberIDs : list string;
  Labels : list CardLabel.t;
  Due : string;
  DueComplete : bool;
  LastActive : string;
  Board : option Board.t      (* *Board, no json tag *)
}.
Definition zero : t := mk EmptyString EmptyString EmptyString EmptyString EmptyString [] [] EmptyString false EmptyString None.
End Card.

(** The remote service as the program sees it: [ApiGet] on an endpoint
    followed by [json.Unmarshal] into the typed slice.  It is an
    environment, supplied anew at every kernel request. *)
Record Remote : Type := mkRemote {
  getWorkspaces : string -> result (list Workspace.t);
  getBoards : string -> result (list Board.t);
  getLists : string -> result (list List.t);
  getCards : string -> result (list Card.t)
}.

(** [MakeEndpoint]: the endpoint followed by [?fields=a,b,c] when fields
    are given. *)
Fixpoint join (sep : string) (l : list string) : string :=
  match l with
  | [] => EmptyString
  | [x] => x
  | x :: rest => x +:+ sep +:+ join sep rest
  end.

Definition MakeEndpoint (endpoint : string) (fields : list string) : string :=
  match fields with
  | [] => endpoint
  | _ => endpoint +:+ "?fields=" +:+ join "," fields
  end.

(** [TrelloCtx]: the credentials; its HTTP client is the [Remote]. *)
Module TrelloCtx.
Record t : Type := mk {
  ID : string;
  Key : string;
  Token : string
}.
End TrelloCtx.

(** [GetWorkspaces(ctx)]. *)
Definition GetWorkspaces (r : Remote) (ctx : TrelloCtx.t)
  : result (list Workspace.t) :=
  getWorkspaces r
    (MakeEndpoint ("/members/" +:+ TrelloCtx.ID ctx +:+ "/organizations")
       ["id"; "name"; "displayName"]).

(** [Workspace.GetBoards]. *)
Definition Workspace_GetBoards (r : Remote) (w : Workspace.t)
  : result (list Board.t) :=
  getBoards r
    (MakeEndpoint ("/organizations/" +:+ Workspace.ID w +:+ "/boards")
       ["id"; "name"; "desc"; "descData"; "closed"]).

(** [Board.GetCards].  The loop [for _, c := range cards { c.Board =
    board }] assigns to the loop's copy [c], so the slice that is returned
    holds the records as they were decoded. *)
Definition Board_GetCards (r : Remote) (b : Board.t) : result (list Card.t) :=
  getCards r (MakeEndpoint ("/boards/" +:+ Board.ID b +:+ "/cards") []).

(** [Board.GetLists]; the same loop over copies. *)
Definition Board_GetLists (r : Remote) (b : Board.t) : result (list List.t) :=
  getLists r (MakeEndpoint ("/boards/" +:+ Board.ID b +:+ "/lists") []).

(** [List.GetCards]; the same loop over copies. *)
Definition List_GetCards (r : Remote) (l : List.t) : result (list Card.t) :=
  getCards r (MakeEndpoint ("/lists/" +:+ List.ID l +:+ "/cards") []).

End Trello.

(** ** Run-time reflection, as far as [getMeta] uses it *)

Module Reflect.

(** Go types of struct fields. *)
Inductive type : Type :=
  | TString
  | TBool
  | TSlice (elem : type)
  | TPtr (elem : type)
  | TNamed (name : string).    (* a defined (struct) type *)

(** [reflect.Type.Name]: the name of a defined or predeclared type, and the
    empty string for slice and pointer types, which have no name. *)
Definition Name (t : type) : string :=
  match t with
  | TString => "string"
  | TBool => "bool"
  | TSlice _ => EmptyString
  | TPtr _ => EmptyString
  | TNamed n => n
  end.

(** Values held in the fields of the records above. *)
Inductive value : Type :=
  | VString (s : string)
  | VBool (b : bool)
  | VStrings (l : list string)
  | VLabels (l : list Trello.CardLabel.t)
  | VBoard (b : option Trello.Board.t).

Definition typeOf (v : value) : type :=
  match v with
  | VString _ => TString
  | VBool _ => TBool
  | VStrings _ => TSlice TString
  | VLabels _ => TSlice (TNamed "CardLabel")
  | VBoard _ => TPtr (TNamed "Board")
  end.

(** One struct field: its Go name, its [json] tag (empty when it has
    none) and its value. *)
Record field : Type := mkField {
  fieldName : string;
  jsonTag : string;
  fieldValue : value
}.

(** [reflect.ValueOf(card)], field by field in declaration order. *)
Definition ofCard (c : Trello.Card.t) : list field :=
  [ mkField "ID" "id" (VString (Trello.Card.ID c));
    mkField "Name" "name" (VString (Trello.Card.Name c));
    mkField "Desc" "desc" (VString (Trello.Card.Desc c));
    mkField "ListID" "idList" (VString (Trello.Card.ListID c));
    mkField "BoardID" "idBoard" (VString (Trello.Card.BoardID c));
    mkField "MemberIDs" "idMembers" (VStrings (Trello.Card.MemberIDs c));
    mkField "Labels" "labels" (VLabels (Trello.Card.Labels c));
    mkField "Due" "due" (VString (Trello.Card.Due c));
    mkField "DueComplete" "dueComplete" (VBool (Trello.Card.DueComplete c));
    mkField "LastActive" "dateLastActivity" (VString (Trello.Card.LastActive c));
    mkField "Board" EmptyString (VBoard (Trello.Card.Board c)) ].

End Reflect.

(** ** The field renderer (meta.go) *)

Record MetaEntry : Type := mkMetaEntry {
  entryName : string;
  entryContents : list byte
}.

(** The line feed that [fmt.Sprintf("%s\n", entry)] appends. *)
Definition LF : string := String (ascii_of_nat 10) EmptyString.

(** The body of the [case "[]string"] branch. *)
Definition joinLines (arr : list string) : string :=
  fold_left (fun contentStr entry => contentStr +:+ (entry +:+ LF)) arr EmptyString.

(** The [switch field.Type.Name()] of [getMeta]: the rendered text, [None]
    for the [default] branch ([unknown = true]); a failed type assertion
    panics. *)
Definition renderField (f : Reflect.field) : outcome (option string) :=
  let fieldVal := Reflect.fieldValue f in
  let tn := Reflect.Name (Reflect.typeOf fieldVal) in
  if String.eqb tn "string" then
    match fieldVal with
    | Reflect.VString s => Done (Some s)
    | _ => Abort TypeAssertion
    end
  else if String.eqb tn "bool" then
    match fieldVal with
    | Reflect.VBool b => Done (Some (if b then "true" else "false"))
    | _ => Abort TypeAssertion
    end
  else if String.eqb tn "[]string" then
    match fieldVal with
    | Reflect.VStrings arr => Done (Some (joinLines arr))
    | _ => Abort TypeAssertion
    end
  else Done None.

(** [getMeta], over the reflected fields of its argument. *)
Fixpoint getMetaFrom (fields : list Reflect.field) (entries : list MetaEntry)
  : outcome (list MetaEntry) :=
  match fields with
  | [] => Done entries
  | f :: rest =>
      let tag := Reflect.jsonTag f in
      if String.eqb tag EmptyString || String.eqb tag "-" then getMetaFrom rest entries
      else
        let* r := renderField f in
        match r with
        | None => getMetaFrom rest entries
        | Some contentStr =>
            getMetaFrom rest
              (entries ++
               [mkMetaEntry (Reflect.fieldName f) (list_byte_of_string contentStr)])
        end
  end.

Definition getMeta (item : list Reflect.field) : outcome (list MetaEntry) :=
  getMetaFrom item [].

(** ** Package fs: nodes (base.go, node.go) *)

(** [fuseops.InodeID] and [fuseops.DirOffset] are [uint64]. *)
Definition InodeID : Type := Z.
Definition RootInodeID : InodeID := 1.

Definition uint64_max : Z := 2 ^ 64 - 1.
Definition int64_max : Z := 2 ^ 63 - 1.

(** The conversion [int(x)] of a [uint64] on a 64-bit platform. *)
Definition int_of_uint64 (x : Z) : Z :=
  if x <=? int64_max then x else x - 2 ^ 64.

(** Time in nanoseconds counted from the zero [time.Time]. *)
Definition Time : Type := Z.
Definition zeroTime : Time := 0.

(** [time.Since(t)] at the instant [now]: a [Duration], saturating at the
    largest one. *)
Definition Since (now t : Time) : Z := Z.min (now - t) int64_max.

(** [fuseops.InodeAttributes]; the four time stamps are never set by this
    package and are left out. *)
Record InodeAttributes : Type := mkAttrs {
  Size : Z;
  Nlink : Z;
  Mode : Z;
  Uid : Z;
  Gid : Z
}.

(** [os.ModeDir], and the literal [0700 | os.ModeDir]. *)
Definition ModeDir : Z := Z.shiftl 1 31.
Definition dirMode : Z := Z.lor 448 ModeDir.

(** [BaseFSNode].  Its mutex is not modelled (every request holds the one
    lock of [trelloFS]); its [Ctx] is the one [TrelloCtx] of the mount,
    handed down unchanged from [fs.ctx] to every node that queries the
    remote service, and is passed to [Update] instead. *)
Record BaseFSNode : Type := mkBase {
  name : string;
  uid : Z;
  gid : Z;
  NodeID : InodeID;
  NodeAttrs : InodeAttributes;
  isDir : bool;
  TrelloID : string;
  lastUpdate : Time
}.

Definition SetNodeID (base : BaseFSNode) (id : InodeID) : BaseFSNode :=
  mkBase (name base) (uid base) (gid base) id (NodeAttrs base) (isDir base)
    (TrelloID base) (lastUpdate base).

(** [markUpdated], at the instant [now]. *)
Definition markUpdated (base : BaseFSNode) (now : Time) : BaseFSNode :=
  mkBase (name base) (uid base) (gid base) (NodeID base) (NodeAttrs base)
    (isDir base) (TrelloID base) now.

(** [shouldUpdate(interval)], the interval in whole seconds.  The source
    compares [delta.Seconds()] with the interval as floats; for a whole
    number of seconds that is the comparison of the nanosecond counts. *)
Definition shouldUpdate (base : BaseFSNode) (now : Time) (interval : Z) : bool :=
  interval * 1000000000 <=? Since now (lastUpdate base).

(** A directory node as the [Update] methods build it: mode
    [0700 | os.ModeDir], no inode number yet, never updated. *)
Definition newDirBase (nm : string) (u g : Z) (trelloID : string) : BaseFSNode :=
  mkBase nm u g 0 (mkAttrs 0 0 dirMode u g) true trelloID zeroTime.

(** The node variants.  Pointers to nodes are addresses in the arena of the
    pointed-to type. *)
Module FSCardMetaFile.
Record t : Type := mk {
  base : BaseFSNode;
  contents : list byte;
  Card : nat                      (* *trello.Card *)
}.
End FSCardMetaFile.

Module FSCard.
Record t : Type := mk {
  base : BaseFSNode;
  MetaFiles : list nat;           (* []*FSCardMetaFile *)
  ByName : gmap string nat;
  ByID : gmap string nat;
  Card : nat                      (* *trello.Card *)
}.
End FSCard.

Module FSList.
Record t : Type := mk {
  base : BaseFSNode;
  Cards : list nat;               (* []*FSCard *)
  ByID : gmap string nat;
  ByName : gmap string nat;
  BoardNode : nat;                (* *FSBoard *)
  List : nat                      (* *trello.List *)
}.
End FSList.

Module FSBoardCardsDirMeta.
Record t : Type := mk {
  base : BaseFSNode;
  BoardNode : nat                 (* *FSBoard *)
}.
End FSBoardCardsDirMeta.

Module FSBoardListsDirMeta.
Record t : Type := mk {
  base : BaseFSNode;
  BoardNode : nat                 (* *FSBoard *)
}.
End FSBoardListsDirMeta.

Module FSBoard.
Record t : Type := mk {
  base : BaseFSNode;
  MetaCardsDir : option nat;      (* *FSBoardCardsDirMeta *)
  MetaListsDir : option nat;      (* *FSBoardListsDirMeta *)
  Cards : list nat;               (* []*FSCard *)
  ByCardID : gmap string nat;
  ByCardName : gmap string nat;
  Lists : list nat;               (* []*FSList *)
  ByListID : gmap string nat;
  ByListName : gmap string nat;
  Board : Trello.Board.t          (* &boards[i]: never written again *)
}.
End FSBoard.

Module FSWorkspace.
Record t : Type := mk {
  base : BaseFSNode;
  Boards : list nat;              (* []*FSBoard *)
  ByID : gmap string nat;
  ByName : gmap string nat;
  Workspace : Trello.Workspace.t  (* &workspaces[i]: never written again *)
}.
End FSWorkspace.

Module TrelloTreeRoot.
Record t : Type := mk {
  base : BaseFSNode;
  workspaces : list nat;          (* []*FSWorkspace *)
  byID : gmap string nat;
  byName : gmap string nat
}.
End TrelloTreeRoot.

(** The Go heap as far as this package allocates in it: one arena per node
    type, the root node, and the loop variables whose address is stored in
    nodes ([&card], [&list]). *)
Record Heap : Type := mkHeap {
  root : TrelloTreeRoot.t;
  workspaces : list FSWorkspace.t;
  boards : list FSBoard.t;
  cardsDirs : list FSBoardCardsDirMeta.t;
  listsDirs : list FSBoardListsDirMeta.t;
  lists : list FSList.t;
  cards : list FSCard.t;
  metaFiles : list FSCardMetaFile.t;
  cardVars : list Trello.Card.t;
  listVars : list Trello.List.t
}.

(** A value of the interface [FSNode]: the dynamic type and the pointer. *)
Inductive FSNode : Type :=
  | NTrelloTreeRoot
  | NFSWorkspace (p : nat)
  | NFSBoard (p : nat)
  | NFSBoardCardsDirMeta (p : nat)
  | NFSBoardListsDirMeta (p : nat)
  | NFSList (p : nat)
  | NFSCard (p : nat)
  | NFSCardMetaFile (p : nat).

(** The embedded [BaseFSNode] of a node. *)
Definition getBase (h : Heap) (n : FSNode) : outcome BaseFSNode :=
  match n with
  | NTrelloTreeRoot => Done (TrelloTreeRoot.base (root h))
  | NFSWorkspace p => let* x := deref (workspaces h) p in Done (FSWorkspace.base x)
  | NFSBoard p => let* x := deref (boards h) p in Done (FSBoard.base x)
  | NFSBoardCardsDirMeta p =>
      let* x := deref (cardsDirs h) p in Done (FSBoardCardsDirMeta.base x)
  | NFSBoardListsDirMeta p =>
      let* x := deref (listsDirs h) p in Done (FSBoardListsDirMeta.base x)
  | NFSList p => let* x := deref (lists h) p in Done (FSList.base x)
  | NFSCard p => let* x := deref (cards h) p in Done (FSCard.base x)
  | NFSCardMetaFile p =>
      let* x := deref (metaFiles h) p in Done (FSCardMetaFile.base x)
  end.

(** Writing one field of the heap. *)
Definition set_root (h : Heap) (x : TrelloTreeRoot.t) : Heap :=
  mkHeap x (workspaces h) (boards h) (cardsDirs h) (listsDirs h) (lists h)
    (cards h) (metaFiles h) (cardVars h) (listVars h).
Definition set_workspaces (h : Heap) (x : list FSWorkspace.t) : Heap :=
  mkHeap (root h) x (boards h) (cardsDirs h) (listsDirs h) (lists h)
    (cards h) (metaFiles h) (cardVars h) (listVars h).
Definition set_boards (h : Heap) (x : list FSBoard.t) : Heap :=
  mkHeap (root h) (workspaces h) x (cardsDirs h) (listsDirs h) (lists h)
    (cards h) (metaFiles h) (cardVars h) (listVars h).
Definition set_cardsDirs (h : Heap) (x : list FSBoardCardsDirMeta.t) : Heap :=
  mkHeap (root h) (workspaces h) (boards h) x (listsDirs h) (lists h)
    (cards h) (metaFiles h) (cardVars h) (listVars h).
Definition set_listsDirs (h : Heap) (x : list FSBoardListsDirMeta.t) : Heap :=
  mkHeap (root h) (workspaces h) (boards h) (cardsDirs h) x (lists h)
    (cards h) (metaFiles h) (cardVars h) (listVars h).
Definition set_lists (h : Heap) (x : list FSList.t) : Heap :=
  mkHeap (root h) (workspaces h) (boards h) (cardsDirs h) (listsDirs h) x
    (cards h) (metaFiles h) (cardVars h) (listVars h).
Definition set_cards (h : Heap) (x : list FSCard.t) : Heap :=
  mkHeap (root h) (workspaces h) (boards h) (cardsDirs h) (listsDirs h)
    (lists h) x (metaFiles h) (cardVars h) (listVars h).
Definition set_metaFiles (h : Heap) (x : list FSCardMetaFile.t) : Heap :=
  mkHeap (root h) (workspaces h) (boards h) (cardsDirs h) (listsDirs h)
    (lists h) (cards h) x (cardVars h) (listVars h).
Definition set_cardVars (h : Heap) (x : list Trello.Card.t) : Heap :=
  mkHeap (root h) (workspaces h) (boards h) (cardsDirs h) (listsDirs h)
    (lists h) (cards h) (metaFiles h) x (listVars h).
Definition set_listVars (h : Heap) (x : list Trello.List.t) : Heap :=
  mkHeap (root h) (workspaces h) (boards h) (cardsDirs h) (listsDirs h)
    (lists h) (cards h) (metaFiles h) (cardVars h) x.

(** ** The variable of a [for _, x := range xs] loop

    Two [Update] methods store the address of the loop variable in the
    node they build ([Card: &card], [List: &list]).  Up to Go 1.21 a range
    loop has one variable, assigned at every iteration, so all nodes built
    by one call share one cell, which holds the last element once the loop
    is over; from Go 1.22 on (as selected by the module's [go] directive)
    every iteration has a variable of its own.  The development holds for
    both. *)
Class GoToolchain : Type := {
  loopvar_per_iteration : bool
}.

Section RangeLoop.
Context {tc : GoToolchain} {A : Type}.

(** On entry to the loop: [vars] is the arena of such variables. *)
Definition enterLoop (vars : list A) (zero : A) : list A :=
  if loopvar_per_iteration then vars else vars ++ [zero].

(** At the start of an iteration over [x]: the arena, and the address
    [&x] during this iteration.  [shared] is the length of the arena
    before the loop was entered. *)
Definition loopVar (vars : list A) (shared : nat) (x : A) : list A * nat :=
  if loopvar_per_iteration then (vars ++ [x], length vars)
  else (<[shared:=x]> vars, shared).
End RangeLoop.

(** ** [Update] *)

(** The triple [(new, removed, error)] returned by [Update]. *)
Record UpdateResult : Type := mkUpdateResult {
  added : list FSNode;
  removed : list FSNode;
  failure : option error
}.

Definition updateFailed (e : error) : UpdateResult := mkUpdateResult [] [] (Some e).
Definition updateOk (newNodes : list FSNode) : UpdateResult :=
  mkUpdateResult newNodes [] None.

(** *** root.go *)

(** One iteration of the loop of [TrelloTreeRoot.Update]: the arena of
    workspace nodes, the root node, and [newNodes]. *)
Definition TrelloTreeRoot_Update_body
    (st : list FSWorkspace.t * TrelloTreeRoot.t * list FSNode)
    (ws : Trello.Workspace.t)
  : list FSWorkspace.t * TrelloTreeRoot.t * list FSNode :=
  let '(arena, node, newNodes) := st in
  match TrelloTreeRoot.byID node !! Trello.Workspace.ID ws with
  | Some _ => st
  | None =>
      let b := TrelloTreeRoot.base node in
      let newItem :=
        FSWorkspace.mk
          (newDirBase (Trello.Workspace.Name ws) (uid b) (gid b)
             (Trello.Workspace.ID ws))
          [] ∅ ∅ ws in
      let p := length arena in
      (arena ++ [newItem],
       TrelloTreeRoot.mk b
         (TrelloTreeRoot.workspaces node ++ [p])
         (<[Trello.Workspace.ID ws := p]> (TrelloTreeRoot.byID node))
         (<[Trello.Workspace.Name ws := p]> (TrelloTreeRoot.byName node)),
       newNodes ++ [NFSWorkspace p])
  end.

Definition TrelloTreeRoot_Update (r : Trello.Remote) (ctx : Trello.TrelloCtx.t)
    (now : Time) (h : Heap) : outcome (Heap * UpdateResult) :=
  match Trello.GetWorkspaces r ctx with
  | Err e => Done (h, updateFailed e)
  | Ok wss =>
      let '(arena, node, newNodes) :=
        fold_left TrelloTreeRoot_Update_body wss (workspaces h, root h, []) in
      let node' :=
        TrelloTreeRoot.mk (markUpdated (TrelloTreeRoot.base node) now)
          (TrelloTreeRoot.workspaces node) (TrelloTreeRoot.byID node)
          (TrelloTreeRoot.byName node) in
      Done (set_root (set_workspaces h arena) node', updateOk newNodes)
  end.

(** *** workspace.go *)

Definition newFSBoard (u g : Z) (board : Trello.Board.t) : FSBoard.t :=
  FSBoard.mk
    (newDirBase (Trello.Board.Name board) u g (Trello.Board.ID board))
    None None [] ∅ ∅ [] ∅ ∅ board.

(** One iteration of the loop of [FSWorkspace.Update]. *)
Definition FSWorkspace_Update_body
    (st : list FSBoard.t * FSWorkspace.t * list FSNode)
    (board : Trello.Board.t)
  : list FSBoard.t * FSWorkspace.t * list FSNode :=
  let '(arena, node, newNodes) := st in
  match FSWorkspace.ByID node !! Trello.Board.ID board with
  | Some _ => st
  | None =>
      let b := FSWorkspace.base node in
      let p := length arena in
      (arena ++ [newFSBoard (uid b) (gid b) board],
       FSWorkspace.mk b
         (FSWorkspace.Boards node ++ [p])
         (<[Trello.Board.ID board := p]> (FSWorkspace.ByID node))
         (<[Trello.Board.Name board := p]> (FSWorkspace.ByName node))
         (FSWorkspace.Workspace node),
       newNodes ++ [NFSBoard p])
  end.

Definition FSWorkspace_Update (r : Trello.Remote) (now : Time) (p : nat)
    (h : Heap) : outcome (Heap * UpdateResult) :=
  let* node0 := deref (workspaces h) p in
  match Trello.Workspace_GetBoards r (FSWorkspace.Workspace node0) with
  | Err e => Done (h, updateFailed e)
  | Ok bs =>
      let '(arena, node, newNodes) :=
        fold_left FSWorkspace_Update_body bs (boards h, node0, []) in
      let node' :=
        FSWorkspace.mk (markUpdated (FSWorkspace.base node) now)
          (FSWorkspace.Boards node) (FSWorkspace.ByID node)
          (FSWorkspace.ByName node) (FSWorkspace.Workspace node) in
      Done (set_workspaces (set_boards h arena) (<[p:=node']> (workspaces h)),
            updateOk newNodes)
  end.

(** *** board.go, list.go, card.go *)

Definition newFSCard (u g : Z) (card : Trello.Card.t) (cell : nat) : FSCard.t :=
  FSCard.mk
    (newDirBase (Trello.Card.Name card) u g (Trello.Card.ID card))
    [] ∅ ∅ cell.

(** A board node with one more card registered: appended to [Cards] and
    entered in both indices. *)
Definition FSBoard_addCard (boardNode : FSBoard.t) (card : Trello.Card.t)
    (q : nat) : FSBoard.t :=
  FSBoard.mk (FSBoard.base boardNode)
    (FSBoard.MetaCardsDir boardNode) (FSBoard.MetaListsDir boardNode)
    (FSBoard.Cards boardNode ++ [q])
    (<[Trello.Card.ID card := q]> (FSBoard.ByCardID boardNode))
    (<[Trello.Card.Name card := q]> (FSBoard.ByCardName boardNode))
    (FSBoard.Lists boardNode) (FSBoard.ByListID boardNode)
    (FSBoard.ByListName boardNode) (FSBoard.Board boardNode).

Definition FSBoard_addList (boardNode : FSBoard.t) (l : Trello.List.t)
    (q : nat) : FSBoard.t :=
  FSBoard.mk (FSBoard.base boardNode)
    (FSBoard.MetaCardsDir boardNode) (FSBoard.MetaListsDir boardNode)
    (FSBoard.Cards boardNode) (FSBoard.ByCardID boardNode)
    (FSBoard.ByCardName boardNode)
    (FSBoard.Lists boardNode ++ [q])
    (<[Trello.List.ID l := q]> (FSBoard.ByListID boardNode))
    (<[Trello.List.Name l := q]> (FSBoard.ByListName boardNode))
    (FSBoard.Board boardNode).

Definition FSList_addCard (node : FSList.t) (card : Trello.Card.t) (q : nat)
  : FSList.t :=
  FSList.mk (FSList.base node)
    (FSList.Cards node ++ [q])
    (<[Trello.Card.ID card := q]> (FSList.ByID node))
    (<[Trello.Card.Name card := q]> (FSList.ByName node))
    (FSList.BoardNode node) (FSList.List node).

(** [FSBoard.Update]: the two fixed sub-directories, made once. *)
Definition FSBoard_Update (now : Time) (p : nat) (h : Heap)
  : outcome (Heap * UpdateResult) :=
  let* node := deref (boards h) p in
  match FSBoard.MetaCardsDir node, FSBoard.MetaListsDir node with
  | Some _, Some _ => Done (h, updateOk [])
  | _, _ =>
      let b := FSBoard.base node in
      let pc := length (cardsDirs h) in
      let pl := length (listsDirs h) in
      let metaCards :=
        FSBoardCardsDirMeta.mk
          (newDirBase "cards" (uid b) (gid b) (TrelloID b +:+ "/cards")) p in
      let metaLists :=
        FSBoardListsDirMeta.mk
          (newDirBase "lists" (uid b) (gid b) (TrelloID b +:+ "/lists")) p in
      let node' :=
        FSBoard.mk (markUpdated b now) (Some pc) (Some pl)
          (FSBoard.Cards node) (FSBoard.ByCardID node) (FSBoard.ByCardName node)
          (FSBoard.Lists node) (FSBoard.ByListID node) (FSBoard.ByListName node)
          (FSBoard.Board node) in
      Done (set_boards
              (set_listsDirs
                 (set_cardsDirs h (cardsDirs h ++ [metaCards]))
                 (listsDirs h ++ [metaLists]))
              (<[p:=node']> (boards h)),
            updateOk [NFSBoardCardsDirMeta pc; NFSBoardListsDirMeta pl])
  end.

Section Updates.
Context {tc : GoToolchain}.

(** One iteration of the loop of [FSBoardCardsDirMeta.Update]: the arena
    of card nodes, the arena of loop variables, the board node, and
    [newNodes].  [u], [g] are the [uid], [gid] of the [cards] node. *)
Definition FSBoardCardsDirMeta_Update_body (u g : Z) (shared : nat)
    (st : list FSCard.t * list Trello.Card.t * FSBoard.t * list FSNode)
    (card : Trello.Card.t)
  : list FSCard.t * list Trello.Card.t * FSBoard.t * list FSNode :=
  let '(arena, vars, boardNode, newNodes) := st in
  let '(vars', cell) := loopVar vars shared card in
  match FSBoard.ByCardID boardNode !! Trello.Card.ID card with
  | Some _ => (arena, vars', boardNode, newNodes)
  | None =>
      let q := length arena in
      (arena ++ [newFSCard u g card cell], vars',
       FSBoard_addCard boardNode card q,
       newNodes ++ [NFSCard q])
  end.

Definition FSBoardCardsDirMeta_Update (r : Trello.Remote) (now : Time)
    (p : nat) (h : Heap) : outcome (Heap * UpdateResult) :=
  let* node := deref (cardsDirs h) p in
  let* boardNode0 := deref (boards h) (FSBoardCardsDirMeta.BoardNode node) in
  match Trello.Board_GetCards r (FSBoard.Board boardNode0) with
  | Err e => Done (h, updateFailed e)
  | Ok cs =>
      let b := FSBoardCardsDirMeta.base node in
      let '(arena, vars, boardNode, newNodes) :=
        fold_left
          (FSBoardCardsDirMeta_Update_body (uid b) (gid b) (length (cardVars h)))
          cs
          (cards h, enterLoop (cardVars h) Trello.Card.zero, boardNode0, []) in
      let node' :=
        FSBoardCardsDirMeta.mk (markUpdated b now)
          (FSBoardCardsDirMeta.BoardNode node) in
      Done (set_cardsDirs
              (set_boards
                 (set_cardVars (set_cards h arena) vars)
                 (<[FSBoardCardsDirMeta.BoardNode node := boardNode]> (boards h)))
              (<[p:=node']> (cardsDirs h)),
            updateOk newNodes)
  end.

(** One iteration of the loop of [FSBoardListsDirMeta.Update]. *)
Definition FSBoardListsDirMeta_Update_body (u g : Z) (pb : nat) (shared : nat)
    (st : list FSList.t * list Trello.List.t * FSBoard.t * list FSNode)
    (l : Trello.List.t)
  : list FSList.t * list Trello.List.t * FSBoard.t * list FSNode :=
  let '(arena, vars, boardNode, newNodes) := st in
  let '(vars', cell) := loopVar vars shared l in
  match FSBoard.ByListID boardNode !! Trello.List.ID l with
  | Some _ => (arena, vars', boardNode, newNodes)
  | None =>
      let q := length arena in
      let newList :=
        FSList.mk (newDirBase (Trello.List.Name l) u g (Trello.List.ID l))
          [] ∅ ∅ pb cell in
      (arena ++ [newList], vars',
       FSBoard_addList boardNode l q,
       newNodes ++ [NFSList q])
  end.

Definition FSBoardListsDirMeta_Update (r : Trello.Remote) (now : Time)
    (p : nat) (h : Heap) : outcome (Heap * UpdateResult) :=
  let* node := deref (listsDirs h) p in
  let pb := FSBoardListsDirMeta.BoardNode node in
  let* boardNode0 := deref (boards h) pb in
  match Trello.Board_GetLists r (FSBoard.Board boardNode0) with
  | Err e => Done (h, updateFailed e)
  | Ok ls =>
      let b := FSBoardListsDirMeta.base node in
      let '(arena, vars, boardNode, newNodes) :=
        fold_left
          (FSBoardListsDirMeta_Update_body (uid b) (gid b) pb (length (listVars h)))
          ls
          (lists h, enterLoop (listVars h) Trello.List.zero, boardNode0, []) in
      let node' := FSBoardListsDirMeta.mk (markUpdated b now) pb in
      Done (set_listsDirs
              (set_boards
                 (set_listVars (set_lists h arena) vars)
                 (<[pb:=boardNode]> (boards h)))
              (<[p:=node']> (listsDirs h)),
            updateOk newNodes)
  end.

(** One iteration of the loop of [FSList.Update]: the arena of card
    nodes, the arena of loop variables, the list node, the board node,
    and [newNodes].  A card the board already knows is reused; a card
    the list does not know yet is appended to the list and to the board
    alike. *)
Definition FSList_Update_body (u g : Z) (shared : nat)
    (st : list FSCard.t * list Trello.Card.t * FSList.t * FSBoard.t * list FSNode)
    (card : Trello.Card.t)
  : list FSCard.t * list Trello.Card.t * FSList.t * FSBoard.t * list FSNode :=
  let '(arena, vars, node, boardNode, newNodes) := st in
  let '(vars', cell) := loopVar vars shared card in
  let '(arena', newCard, newNodes') :=
    match FSBoard.ByCardID boardNode !! Trello.Card.ID card with
    | Some q => (arena, q, newNodes)
    | None =>
        (arena ++ [newFSCard u g card cell], length arena,
         newNodes ++ [NFSCard (length arena)])
    end in
  match FSList.ByID node !! Trello.Card.ID card with
  | Some _ => (arena', vars', node, boardNode, newNodes')
  | None =>
      (arena', vars',
       FSList_addCard node card newCard,
       FSBoard_addCard boardNode card newCard,
       newNodes')
  end.

Definition FSList_Update (r : Trello.Remote) (now : Time) (p : nat)
    (h : Heap) : outcome (Heap * UpdateResult) :=
  let* node0 := deref (lists h) p in
  let pb := FSList.BoardNode node0 in
  let* boardNode0 := deref (boards h) pb in
  let* l := deref (listVars h) (FSList.List node0) in
  match Trello.List_GetCards r l with
  | Err e => Done (h, updateFailed e)
  | Ok cs =>
      let b := FSList.base node0 in
      let '(arena, vars, node, boardNode, newNodes) :=
        fold_left
          (FSList_Update_body (uid b) (gid b) (length (cardVars h)))
          cs
          (cards h, enterLoop (cardVars h) Trello.Card.zero,
           node0, boardNode0, []) in
      let node' :=
        FSList.mk (markUpdated (FSList.base node) now)
          (FSList.Cards node) (FSList.ByID node) (FSList.ByName node)
          (FSList.BoardNode node) (FSList.List node) in
      Done (set_lists
              (set_boards
                 (set_cardVars (set_cards h arena) vars)
                 (<[pb:=boardNode]> (boards h)))
              (<[p:=node']> (lists h)),
            updateOk newNodes)
  end.

End Updates.

(** One iteration of the loop of [FSCard.Update]: a field file for every
    entry whose name the card does not have yet.  [0600] is 384. *)
Definition FSCard_Update_body
    (st : list FSCardMetaFile.t * FSCard.t * list FSNode)
    (entry : MetaEntry)
  : list FSCardMetaFile.t * FSCard.t * list FSNode :=
  let '(arena, node, newNodes) := st in
  match FSCard.ByName node !! entryName entry with
  | Some _ => st
  | None =>
      let b := FSCard.base node in
      let trelloID := TrelloID b +:+ "/_meta/" +:+ entryName entry in
      let metaFile :=
        FSCardMetaFile.mk
          (mkBase (entryName entry) (uid b) (gid b) 0
             (mkAttrs (Z.of_nat (length (entryContents entry))) 1 384 (uid b) (gid b))
             false trelloID zeroTime)
          (entryContents entry)
          (FSCard.Card node) in
      let q := length arena in
      (arena ++ [metaFile],
       FSCard.mk b
         (FSCard.MetaFiles node ++ [q])
         (<[entryName entry := q]> (FSCard.ByName node))
         (<[trelloID := q]> (FSCard.ByID node))
         (FSCard.Card node),
       newNodes ++ [NFSCardMetaFile q])
  end.

(** [FSCard.Update].  It issues no query: it renders the record the card
    node points to.  The log line at its head reads [board.Name] through
    [node.Card.Board], which panics when that pointer is nil.  The
    time stamp of the node is not advanced. *)
Definition FSCard_Update (p : nat) (h : Heap) : outcome (Heap * UpdateResult) :=
  let* node0 := deref (cards h) p in
  let* card := deref (cardVars h) (FSCard.Card node0) in
  match Trello.Card.Board card with
  | None => Abort NilDeref
  | Some _ =>
      let* meta := getMeta (Reflect.ofCard card) in
      let '(arena, node, newNodes) :=
        fold_left FSCard_Update_body meta (metaFiles h, node0, []) in
      Done (set_cards (set_metaFiles h arena) (<[p:=node]> (cards h)),
            updateOk newNodes)
  end.

(** [FSCardMetaFile.Update]. *)
Definition FSCardMetaFile_Update (h : Heap) : outcome (Heap * UpdateResult) :=
  Done (h, updateFailed EINVAL).

(** ** The methods of the interface [FSNode], by dynamic type *)

Section Methods.
Context {tc : GoToolchain}.

(** [ShouldUpdate]: the refresh interval of each variant, in seconds. *)
Definition ShouldUpdate (h : Heap) (now : Time) (n : FSNode) : outcome bool :=
  match n with
  | NFSCardMetaFile _ => Done false
  | _ =>
      let* b := getBase h n in
      Done (shouldUpdate b now
              match n with
              | NTrelloTreeRoot => 60
              | NFSWorkspace _ => 60
              | NFSBoard _ => 30
              | NFSBoardCardsDirMeta _ => 30
              | NFSBoardListsDirMeta _ => 60
              | NFSList _ => 30
              | NFSCard _ => 30
              | NFSCardMetaFile _ => 0
              end)
  end.

Definition Update (r : Trello.Remote) (ctx : Trello.TrelloCtx.t) (now : Time)
    (n : FSNode) (h : Heap) : outcome (Heap * UpdateResult) :=
  match n with
  | NTrelloTreeRoot => TrelloTreeRoot_Update r ctx now h
  | NFSWorkspace p => FSWorkspace_Update r now p h
  | NFSBoard p => FSBoard_Update now p h
  | NFSBoardCardsDirMeta p => FSBoardCardsDirMeta_Update r now p h
  | NFSBoardListsDirMeta p => FSBoardListsDirMeta_Update r now p h
  | NFSList p => FSList_Update r now p h
  | NFSCard p => FSCard_Update p h
  | NFSCardMetaFile _ => FSCardMetaFile_Update h
  end.

End Methods.

(** ** [LookupChild] *)

(** The scan [for _, c := range children { if c.GetName() == name ... }]. *)
Fixpoint lookupName {A : Type} (arena : list A) (baseOf : A -> BaseFSNode)
    (children : list nat) (nm : string) : outcome (option nat) :=
  match children with
  | [] => Done None
  | p :: rest =>
      let* x := deref arena p in
      if String.eqb (name (baseOf x)) nm then Done (Some p)
      else lookupName arena baseOf rest nm
  end.

Definition found (mk : nat -> FSNode) (o : option nat) : result FSNode :=
  match o with
  | Some p => Ok (mk p)
  | None => Err ENOENT
  end.

Definition TrelloTreeRoot_LookupChild (h : Heap) (nm : string)
  : outcome (result FSNode) :=
  let* o := lookupName (workspaces h) FSWorkspace.base
              (TrelloTreeRoot.workspaces (root h)) nm in
  Done (found NFSWorkspace o).

Definition FSWorkspace_LookupChild (h : Heap) (p : nat) (nm : string)
  : outcome (result FSNode) :=
  let* node := deref (workspaces h) p in
  let* o := lookupName (boards h) FSBoard.base (FSWorkspace.Boards node) nm in
  Done (found NFSBoard o).

(** [FSBoard.LookupChild] hands out [MetaListsDir] or [MetaCardsDir] as
    they are; when the pointer is still nil, its one caller panics on the
    [child.GetNodeID()] that follows, which is the [Abort] here. *)
Definition FSBoard_LookupChild (h : Heap) (p : nat) (nm : string)
  : outcome (result FSNode) :=
  let* node := deref (boards h) p in
  if String.eqb nm "lists" then
    match FSBoard.MetaListsDir node with
    | Some q => Done (Ok (NFSBoardListsDirMeta q))
    | None => Abort NilDeref
    end
  else if String.eqb nm "cards" then
    match FSBoard.MetaCardsDir node with
    | Some q => Done (Ok (NFSBoardCardsDirMeta q))
    | None => Abort NilDeref
    end
  else Done (Err ENOENT).

Definition FSBoardCardsDirMeta_LookupChild (h : Heap) (p : nat) (nm : string)
  : outcome (result FSNode) :=
  let* node := deref (cardsDirs h) p in
  let* boardNode := deref (boards h) (FSBoardCardsDirMeta.BoardNode node) in
  let* o := lookupName (cards h) FSCard.base (FSBoard.Cards boardNode) nm in
  Done (found NFSCard o).

Definition FSBoardListsDirMeta_LookupChild (h : Heap) (p : nat) (nm : string)
  : outcome (result FSNode) :=
  let* node := deref (listsDirs h) p in
  let* boardNode := deref (boards h) (FSBoardListsDirMeta.BoardNode node) in
  let* o := lookupName (lists h) FSList.base (FSBoard.Lists boardNode) nm in
  Done (found NFSList o).

Definition FSList_LookupChild (h : Heap) (p : nat) (nm : string)
  : outcome (result FSNode) :=
  let* node := deref (lists h) p in
  let* o := lookupName (cards h) FSCard.base (FSList.Cards node) nm in
  Done (found NFSCard o).

Definition FSCard_LookupChild (h : Heap) (p : nat) (nm : string)
  : outcome (result FSNode) :=
  let* node := deref (cards h) p in
  let* o := lookupName (metaFiles h) FSCardMetaFile.base (FSCard.MetaFiles node) nm in
  Done (found NFSCardMetaFile o).

Definition LookupChild (h : Heap) (n : FSNode) (nm : string)
  : outcome (result FSNode) :=
  match n with
  | NTrelloTreeRoot => TrelloTreeRoot_LookupChild h nm
  | NFSWorkspace p => FSWorkspace_LookupChild h p nm
  | NFSBoard p => FSBoard_LookupChild h p nm
  | NFSBoardCardsDirMeta p => FSBoardCardsDirMeta_LookupChild h p nm
  | NFSBoardListsDirMeta p => FSBoardListsDirMeta_LookupChild h p nm
  | NFSList p => FSList_LookupChild h p nm
  | NFSCard p => FSCard_LookupChild h p nm
  | NFSCardMetaFile _ => Done (Err ENOENT)
  end.

(** ** [ReadDir] *)

Inductive DirentType : Type := DT_Unknown | DT_File | DT_Directory.

(** [fuseutil.Dirent]. *)
Record Dirent : Type := mkDirent {
  Offset : Z;
  Inode : InodeID;
  Name : string;
  Type_ : DirentType
}.

(** [fuseutil.WriteDirent] belongs to the FUSE library: it serialises one
    entry into the buffer and returns the number of bytes written, or 0
    when the entry does not fit.  The serialised length of an entry is
    left to the library, and is positive. *)
Class FuseLib : Type := {
  direntLen : Dirent -> Z;
  direntLen_pos : forall d, 0 < direntLen d
}.

Section ReadDir.
Context {fl : FuseLib}.

(** The byte count returned for a buffer of [bufLen] bytes. *)
Definition WriteDirent (bufLen : Z) (d : Dirent) : Z :=
  if direntLen d <=? bufLen then direntLen d else 0.

(** The loop [for i := offset; i < len(children); i++] shared by every
    [ReadDir], from index [i] on, [children] being the children from that
    index on.  [dstLen] is [len(dst)], [size] the bytes used so far and
    [written] the entries serialised so far, in order. *)
Fixpoint readDirLoop {C : Type} (baseOf : C -> outcome BaseFSNode)
    (ty : DirentType) (children : list C) (i : Z) (dstLen size : Z)
    (written : list Dirent) : outcome (Z * list Dirent) :=
  match children with
  | [] => Done (size, written)
  | c :: rest =>
      let* b := baseOf c in
      let d := mkDirent (i + 1) (NodeID b) (name b) ty in
      let tmp := WriteDirent (dstLen - size) d in
      if tmp =? 0 then Done (size, written)
      else readDirLoop baseOf ty rest (i + 1) dstLen (size + tmp) (written ++ [d])
  end.

(** The whole loop from [offset]: indexing with a negative [i] panics. *)
Definition readDir {C : Type} (baseOf : C -> outcome BaseFSNode)
    (ty : DirentType) (children : list C) (dstLen offset : Z)
  : outcome (Z * list Dirent) :=
  if offset <? 0 then Abort IndexOutOfRange
  else readDirLoop baseOf ty (drop (Z.to_nat offset) children) offset dstLen 0 [].

Definition baseAt {A : Type} (arena : list A) (baseOf : A -> BaseFSNode)
    (p : nat) : outcome BaseFSNode :=
  let* x := deref arena p in Done (baseOf x).

Definition TrelloTreeRoot_ReadDir (h : Heap) (dstLen offset : Z) :=
  readDir (baseAt (workspaces h) FSWorkspace.base) DT_Directory
    (TrelloTreeRoot.workspaces (root h)) dstLen offset.

Definition FSWorkspace_ReadDir (h : Heap) (p : nat) (dstLen offset : Z) :=
  let* node := deref (workspaces h) p in
  readDir (baseAt (boards h) FSBoard.base) DT_Directory
    (FSWorkspace.Boards node) dstLen offset.

(** [FSBoard.ReadDir]: the two entries [MetaCardsDir], [MetaListsDir]. *)
Definition FSBoard_ReadDir (h : Heap) (p : nat) (dstLen offset : Z) :=
  let* node := deref (boards h) p in
  let entries :=
    [ match FSBoard.MetaCardsDir node with
      | Some q => baseAt (cardsDirs h) FSBoardCardsDirMeta.base q
      | None => Abort NilDeref
      end;
      match FSBoard.MetaListsDir node with
      | Some q => baseAt (listsDirs h) FSBoardListsDirMeta.base q
      | None => Abort NilDeref
      end ] in
  readDir (fun e => e) DT_Directory entries dstLen offset.

Definition FSBoardCardsDirMeta_ReadDir (h : Heap) (p : nat) (dstLen offset : Z) :=
  let* node := deref (cardsDirs h) p in
  let* boardNode := deref (boards h) (FSBoardCardsDirMeta.BoardNode node) in
  readDir (baseAt (cards h) FSCard.base) DT_Directory
    (FSBoard.Cards boardNode) dstLen offset.

Definition FSBoardListsDirMeta_ReadDir (h : Heap) (p : nat) (dstLen offset : Z) :=
  let* node := deref (listsDirs h) p in
  let* boardNode := deref (boards h) (FSBoardListsDirMeta.BoardNode node) in
  readDir (baseAt (lists h) FSList.base) DT_Directory
    (FSBoard.Lists boardNode) dstLen offset.

Definition FSList_ReadDir (h : Heap) (p : nat) (dstLen offset : Z) :=
  let* node := deref (lists h) p in
  let* boardNode := deref (boards h) (FSList.BoardNode node) in
  readDir (baseAt (cards h) FSCard.base) DT_Directory
    (FSList.Cards node) dstLen offset.

(** [FSCard.ReadDir]; its first log line reads [node.Card.Board.Name]. *)
Definition FSCard_ReadDir (h : Heap) (p : nat) (dstLen offset : Z) :=
  let* node := deref (cards h) p in
  let* card := deref (cardVars h) (FSCard.Card node) in
  match Trello.Card.Board card with
  | None => Abort NilDeref
  | Some _ =>
      readDir (baseAt (metaFiles h) FSCardMetaFile.base) DT_File
        (FSCard.MetaFiles node) dstLen offset
  end.

Definition ReadDir (h : Heap) (n : FSNode) (dstLen offset : Z)
  : outcome (Z * list Dirent) :=
  match n with
  | NTrelloTreeRoot => TrelloTreeRoot_ReadDir h dstLen offset
  | NFSWorkspace p => FSWorkspace_ReadDir h p dstLen offset
  | NFSBoard p => FSBoard_ReadDir h p dstLen offset
  | NFSBoardCardsDirMeta p => FSBoardCardsDirMeta_ReadDir h p dstLen offset
  | NFSBoardListsDirMeta p => FSBoardListsDirMeta_ReadDir h p dstLen offset
  | NFSList p => FSList_ReadDir h p dstLen offset
  | NFSCard p => FSCard_ReadDir h p dstLen offset
  | NFSCardMetaFile _ => Done (0, [])
  end.

End ReadDir.

(** ** [ReadAt] *)

(** The built-in [copy(dst, src)]: the buffer afterwards and the count. *)
Definition copy (dst src : list byte) : list byte * Z :=
  let n := Nat.min (length dst) (length src) in
  (take n src ++ drop n dst, Z.of_nat n).

(** [BaseFSNode.ReadAt], inherited by every directory variant. *)
Definition BaseFSNode_ReadAt (dst : list byte) (offset : Z)
  : list byte * Z * option error :=
  (dst, 0, None).

(** [FSCardMetaFile.ReadAt].  Its log line reads [node.Card.Board.Name];
    the slice expression [node.contents[offset:]] panics for a negative
    offset. *)
Definition FSCardMetaFile_ReadAt (h : Heap) (p : nat) (dst : list byte)
    (offset : Z) : outcome (list byte * Z * option error) :=
  let* node := deref (metaFiles h) p in
  let* card := deref (cardVars h) (FSCardMetaFile.Card node) in
  match Trello.Card.Board card with
  | None => Abort NilDeref
  | Some _ =>
      let contents := FSCardMetaFile.contents node in
      if Z.of_nat (length contents) <? offset then Done (dst, 0, Some EOF)
      else if offset <? 0 then Abort SliceBounds
      else
        let '(dst', n) := copy dst (drop (Z.to_nat offset) contents) in
        if n <? Z.of_nat (length dst) then Done (dst', n, Some EOF)
        else Done (dst', n, None)
  end.

Definition ReadAt (h : Heap) (n : FSNode) (dst : list byte) (offset : Z)
  : outcome (list byte * Z * option error) :=
  match n with
  | NFSCardMetaFile p => FSCardMetaFile_ReadAt h p dst offset
  | _ => Done (BaseFSNode_ReadAt dst offset)
  end.

(** ** The file system (fs.go) *)

Record trelloFS : Type := mkFS {
  heap : Heap;
  fs_uid : Z;
  fs_gid : Z;
  inodes : list (option FSNode);       (* []FSNode; the nil interface is None *)
  freeInodes : list InodeID;
  byID : gmap string InodeID;
  ctx : Trello.TrelloCtx.t
}.

(** [initRoot]. *)
Definition initRoot (u g : Z) : TrelloTreeRoot.t :=
  TrelloTreeRoot.mk
    (mkBase "/" u g RootInodeID (mkAttrs 0 0 dirMode u g) true "rootID" zeroTime)
    [] ∅ ∅.

(** [NewTrelloFS]: a table of [RootInodeID+1] slots, the root in the last. *)
Definition NewTrelloFS (u g : Z) (c : Trello.TrelloCtx.t) : trelloFS :=
  mkFS (mkHeap (initRoot u g) [] [] [] [] [] [] [] [] [])
    u g [None; Some NTrelloTreeRoot] [] ∅ c.

(** [n.SetNodeID(id)] on the node an interface value points to. *)
Definition setNodeID (h : Heap) (n : FSNode) (id : InodeID) : Heap :=
  match n with
  | NTrelloTreeRoot =>
      let x := root h in
      set_root h
        (TrelloTreeRoot.mk (SetNodeID (TrelloTreeRoot.base x) id)
           (TrelloTreeRoot.workspaces x) (TrelloTreeRoot.byID x)
           (TrelloTreeRoot.byName x))
  | NFSWorkspace p =>
      set_workspaces h
        (alter (fun x =>
           FSWorkspace.mk (SetNodeID (FSWorkspace.base x) id)
             (FSWorkspace.Boards x) (FSWorkspace.ByID x) (FSWorkspace.ByName x)
             (FSWorkspace.Workspace x)) p (workspaces h))
  | NFSBoard p =>
      set_boards h
        (alter (fun x =>
           FSBoard.mk (SetNodeID (FSBoard.base x) id)
             (FSBoard.MetaCardsDir x) (FSBoard.MetaListsDir x)
             (FSBoard.Cards x) (FSBoard.ByCardID x) (FSBoard.ByCardName x)
             (FSBoard.Lists x) (FSBoard.ByListID x) (FSBoard.ByListName x)
             (FSBoard.Board x)) p (boards h))
  | NFSBoardCardsDirMeta p =>
      set_cardsDirs h
        (alter (fun x =>
           FSBoardCardsDirMeta.mk (SetNodeID (FSBoardCardsDirMeta.base x) id)
             (FSBoardCardsDirMeta.BoardNode x)) p (cardsDirs h))
  | NFSBoardListsDirMeta p =>
      set_listsDirs h
        (alter (fun x =>
           FSBoardListsDirMeta.mk (SetNodeID (FSBoardListsDirMeta.base x) id)
             (FSBoardListsDirMeta.BoardNode x)) p (listsDirs h))
  | NFSList p =>
      set_lists h
        (alter (fun x =>
           FSList.mk (SetNodeID (FSList.base x) id)
             (FSList.Cards x) (FSList.ByID x) (FSList.ByName x)
             (FSList.BoardNode x) (FSList.List x)) p (lists h))
  | NFSCard p =>
      set_cards h
        (alter (fun x =>
           FSCard.mk (SetNodeID (FSCard.base x) id)
             (FSCard.MetaFiles x) (FSCard.ByName x) (FSCard.ByID x)
             (FSCard.Card x)) p (cards h))
  | NFSCardMetaFile p =>
      set_metaFiles h
        (alter (fun x =>
           FSCardMetaFile.mk (SetNodeID (FSCardMetaFile.base x) id)
             (FSCardMetaFile.contents x) (FSCardMetaFile.Card x)) p (metaFiles h))
  end.

(** One iteration of [for _, n := range add] in [refreshNode]: the most
    recently freed slot when there is one, a new slot at the end of the
    table otherwise. *)
Definition addNode (fs : trelloFS) (n : FSNode) : outcome trelloFS :=
  let* b := getBase (heap fs) n in
  let numFree := length (freeInodes fs) in
  let* '(id, inodes', free') :=
    match last (freeInodes fs) with
    | Some id =>
        if id <? Z.of_nat (length (inodes fs))
        then Done (id, <[Z.to_nat id := Some n]> (inodes fs),
                   take (numFree - 1) (freeInodes fs))
        else Abort IndexOutOfRange
    | None =>
        Done (Z.of_nat (length (inodes fs)), inodes fs ++ [Some n], freeInodes fs)
    end in
  Done (mkFS (setNodeID (heap fs) n id) (fs_uid fs) (fs_gid fs)
          inodes' free' (<[TrelloID b := id]> (byID fs)) (ctx fs)).

Fixpoint addNodes (fs : trelloFS) (add : list FSNode) : outcome trelloFS :=
  match add with
  | [] => Done fs
  | n :: rest => let* fs' := addNode fs n in addNodes fs' rest
  end.

Definition with_heap (fs : trelloFS) (h : Heap) : trelloFS :=
  mkFS h (fs_uid fs) (fs_gid fs) (inodes fs) (freeInodes fs) (byID fs) (ctx fs).

Section Requests.
Context {tc : GoToolchain} {fl : FuseLib}.

(** [refreshNode].  The error of a failed [Update] is logged and the
    function returns; the removed nodes are only logged. *)
Definition refreshNode (r : Trello.Remote) (now : Time) (fs : trelloFS)
    (node : FSNode) : outcome trelloFS :=
  let* due := ShouldUpdate (heap fs) now node in
  if negb due then Done fs
  else
    let* '(h, res) := Update r (ctx fs) now node (heap fs) in
    match failure res with
    | Some _ => Done (with_heap fs h)
    | None => addNodes (with_heap fs h) (added res)
    end.

(** The slot [fs.inodes[id]] for a [uint64] index. *)
Definition slot (fs : trelloFS) (id : InodeID) : outcome (option FSNode) :=
  if (0 <=? id) && (id <? Z.of_nat (length (inodes fs))) then
    match inodes fs !! Z.to_nat id with
    | Some s => Done s
    | None => Abort IndexOutOfRange
    end
  else Abort IndexOutOfRange.

(** [fuseops.ChildInodeEntry], as far as it is filled in. *)
Record ChildInodeEntry : Type := mkEntry {
  Child : InodeID;
  Attributes : InodeAttributes;
  AttributesExpiration : Time;
  EntryExpiration : Time
}.

(** [365 * 24 * time.Hour], in nanoseconds. *)
Definition oneYear : Z := 365 * 24 * 3600 * 1000000000.

(** [LookUpInode]; [pid] is [op.OpContext.Pid]. *)
Definition LookUpInode (r : Trello.Remote) (now : Time) (fs : trelloFS)
    (pid : Z) (parentID : InodeID) (nm : string)
  : outcome (trelloFS * result ChildInodeEntry) :=
  if pid =? 0 then Done (fs, Err EINVAL)
  else
    let* s := slot fs parentID in
    match s with
    | None => Abort LogFatal
    | Some parent =>
        let* fs' := refreshNode r now fs parent in
        let* found := LookupChild (heap fs') parent nm in
        match found with
        | Err _ => Done (fs', Err ENOENT)
        | Ok child =>
            let* b := getBase (heap fs') child in
            Done (fs', Ok (mkEntry (NodeID b) (NodeAttrs b)
                             (now + oneYear) (now + oneYear)))
        end
    end.

(** [GetInodeAttributes]. *)
Definition GetInodeAttributes (now : Time) (fs : trelloFS) (pid : Z)
    (id : InodeID) : outcome (result (InodeAttributes * Time)) :=
  if pid =? 0 then Done (Err EINVAL)
  else
    let* s := slot fs id in
    match s with
    | None => Abort NilDeref
    | Some n =>
        let* b := getBase (heap fs) n in
        Done (Ok (NodeAttrs b, now + oneYear))
    end.

(** [ReadDir] of the file system: [op.BytesRead] and the entries
    serialised into [op.Dst], whose length is [dstLen]. *)
Definition fsReadDir (r : Trello.Remote) (now : Time) (fs : trelloFS)
    (id : InodeID) (dstLen : Z) (offset : Z)
  : outcome (trelloFS * result (Z * list Dirent)) :=
  let* s := slot fs id in
  match s with
  | None => Done (fs, Err ENOENT)
  | Some parent =>
      let* fs' := refreshNode r now fs parent in
      let* out := ReadDir (heap fs') parent dstLen (int_of_uint64 offset) in
      Done (fs', Ok out)
  end.

(** What [ReadFile] leaves in the request: the buffer, [op.BytesRead],
    and the error it returns ([None] for nil). *)
Record ReadFileResult : Type := mkReadFileResult {
  Dst : list byte;
  BytesRead : Z;
  status : option error
}.

(** [ReadFile].  An inode number past the table is an explicit panic; an
    [io.EOF] from [ReadAt] is turned into nil. *)
Definition ReadFile (fs : trelloFS) (pid : Z) (id : InodeID)
    (dst : list byte) (offset : Z) : outcome ReadFileResult :=
  if pid =? 0 then Done (mkReadFileResult dst 0 (Some EINVAL))
  else if Z.of_nat (length (inodes fs)) <=? int_of_uint64 id
  then Abort ExplicitPanic
  else
    let* s := slot fs id in
    match s with
    | None => Abort NilDeref
    | Some node =>
        let* '(dst', bytes, e) := ReadAt (heap fs) node dst offset in
        let* _ := getBase (heap fs) node in
        match e with
        | Some EOF => Done (mkReadFileResult dst' bytes None)
        | _ => Done (mkReadFileResult dst' bytes e)
        end
    end.

End Requests.

(** ** What a directory lists *)

(** [f] over a list, stopping at the first [Abort]. *)
Fixpoint mapM {C B : Type} (f : C -> outcome B) (l : list C) : outcome (list B) :=
  match l with
  | [] => Done []
  | c :: rest =>
      let* b := f c in
      let* bs := mapM f rest in
      Done (b :: bs)
  end.

(** The children that [ReadDir] of a node enumerates, in its order: the
    type it gives their entries, and their embedded [BaseFSNode]. *)
Definition dirChildren (h : Heap) (n : FSNode)
  : outcome (DirentType * list BaseFSNode) :=
  match n with
  | NTrelloTreeRoot =>
      let* bs := mapM (baseAt (workspaces h) FSWorkspace.base)
                   (TrelloTreeRoot.workspaces (root h)) in
      Done (DT_Directory, bs)
  | NFSWorkspace p =>
      let* node := deref (workspaces h) p in
      let* bs := mapM (baseAt (boards h) FSBoard.base) (FSWorkspace.Boards node) in
      Done (DT_Directory, bs)
  | NFSBoard p =>
      let* node := deref (boards h) p in
      match FSBoard.MetaCardsDir node, FSBoard.MetaListsDir node with
      | Some pc, Some pl =>
          let* c := baseAt (cardsDirs h) FSBoardCardsDirMeta.base pc in
          let* l := baseAt (listsDirs h) FSBoardListsDirMeta.base pl in
          Done (DT_Directory, [c; l])
      | _, _ => Abort NilDeref
      end
  | NFSBoardCardsDirMeta p =>
      let* node := deref (cardsDirs h) p in
      let* boardNode := deref (boards h) (FSBoardCardsDirMeta.BoardNode node) in
      let* bs := mapM (baseAt (cards h) FSCard.base) (FSBoard.Cards boardNode) in
      Done (DT_Directory, bs)
  | NFSBoardListsDirMeta p =>
      let* node := deref (listsDirs h) p in
      let* boardNode := deref (boards h) (FSBoardListsDirMeta.BoardNode node) in
      let* bs := mapM (baseAt (lists h) FSList.base) (FSBoard.Lists boardNode) in
      Done (DT_Directory, bs)
  | NFSList p =>
      let* node := deref (lists h) p in
      let* boardNode := deref (boards h) (FSList.BoardNode node) in
      let* bs := mapM (baseAt (cards h) FSCard.base) (FSList.Cards node) in
      Done (DT_Directory, bs)
  | NFSCard p =>
      let* node := deref (cards h) p in
      let* card := deref (cardVars h) (FSCard.Card node) in
      match Trello.Card.Board card with
      | None => Abort NilDeref
      | Some _ =>
          let* bs := mapM (baseAt (metaFiles h) FSCardMetaFile.base)
                       (FSCard.MetaFiles node) in
          Done (DT_File, bs)
      end
  | NFSCardMetaFile _ => Done (DT_File, [])
  end.

(** The entries of children [bs], the first of them at index [i]: entry
    number [j] carries the offset [j + 1]. *)
Fixpoint entriesFrom (ty : DirentType) (bs : list BaseFSNode) (i : Z)
  : list Dirent :=
  match bs with
  | [] => []
  | b :: rest => mkDirent (i + 1) (NodeID b) (name b) ty :: entriesFrom ty rest (i + 1)
  end.

Section Fitting.
Context {fl : FuseLib}.

(** The serialised length of a run of entries. *)
Fixpoint totalLen (ds : list Dirent) : Z :=
  match ds with
  | [] => 0
  | d :: rest => direntLen d + totalLen rest
  end.

(** How many leading entries of [ds] fit into [room] bytes. *)
Fixpoint fitCount (room : Z) (ds : list Dirent) : nat :=
  match ds with
  | [] => 0%nat
  | d :: rest =>
      if direntLen d <=? room then S (fitCount (room - direntLen d) rest)
      else 0%nat
  end.

End Fitting.

(** ** The query behind a refresh *)

Definition errorOf {A : Type} (x : result A) : option error :=
  match x with
  | Ok _ => None
  | Err e => Some e
  end.

(** The error, if any, of the remote query that [Update] of a node issues;
    [FSBoard], [FSCard] and [FSCardMetaFile] issue none. *)
Definition queryError (r : Trello.Remote) (c : Trello.TrelloCtx.t) (h : Heap)
    (n : FSNode) : outcome (option error) :=
  match n with
  | NTrelloTreeRoot => Done (errorOf (Trello.GetWorkspaces r c))
  | NFSWorkspace p =>
      let* node := deref (workspaces h) p in
      Done (errorOf (Trello.Workspace_GetBoards r (FSWorkspace.Workspace node)))
  | NFSBoardCardsDirMeta p =>
      let* node := deref (cardsDirs h) p in
      let* boardNode := deref (boards h) (FSBoardCardsDirMeta.BoardNode node) in
      Done (errorOf (Trello.Board_GetCards r (FSBoard.Board boardNode)))
  | NFSBoardListsDirMeta p =>
      let* node := deref (listsDirs h) p in
      let* boardNode := deref (boards h) (FSBoardListsDirMeta.BoardNode node) in
      Done (errorOf (Trello.Board_GetLists r (FSBoard.Board boardNode)))
  | NFSList p =>
      let* node := deref (lists h) p in
      let* _ := deref (boards h) (FSList.BoardNode node) in
      let* l := deref (listVars h) (FSList.List node) in
      Done (errorOf (Trello.List_GetCards r l))
  | NFSBoard _ | NFSCard _ | NFSCardMetaFile _ => Done None
  end.

(** ** Cards shared between a board and one of its lists *)

(** The card nodes that a board node [nb] and one of its list nodes [nl]
    refer to, in the arena of card nodes: both indices point at nodes of
    the indexed id that are children; every child is indexed under its own
    id; what the list indexes, the board indexes at the same address; and
    every child of the board bears the name [nm] gives its id. *)
Record shared_cards (nm : string -> string) (arena : list FSCard.t)
    (nb : FSBoard.t) (nl : FSList.t) : Prop := mkShared {
  board_index : forall id q,
    FSBoard.ByCardID nb !! id = Some q ->
    q ∈ FSBoard.Cards nb
    /\ exists c, arena !! q = Some c /\ TrelloID (FSCard.base c) = id;
  board_cards : forall q,
    q ∈ FSBoard.Cards nb ->
    exists c, arena !! q = Some c
              /\ FSBoard.ByCardID nb !! TrelloID (FSCard.base c) = Some q
              /\ name (FSCard.base c) = nm (TrelloID (FSCard.base c));
  list_index : forall id q,
    FSList.ByID nl !! id = Some q ->
    FSBoard.ByCardID nb !! id = Some q /\ q ∈ FSList.Cards nl;
  list_cards : forall q,
    q ∈ FSList.Cards nl ->
    exists c, arena !! q = Some c
              /\ FSList.ByID nl !! TrelloID (FSCard.base c) = Some q
}.

(** The name of a reported card is the one [nm] gives its id. *)
Definition wellNamed (nm : string -> string) (card : Trello.Card.t) : Prop :=
  Trello.Card.Name card = nm (Trello.Card.ID card).

Section BothViews.
Context {tc : GoToolchain}.

(** Refresh the [cards] directory [pc] and then the list [pl], or the
    other way round; the heap afterwards. *)
Definition refreshBoth (cardsFirst : bool) (r : Trello.Remote) (now : Time)
    (pc pl : nat) (h : Heap) : outcome Heap :=
  if cardsFirst then
    let* '(h1, _) := FSBoardCardsDirMeta_Update r now pc h in
    let* '(h2, _) := FSList_Update r now pl h1 in
    Done h2
  else
    let* '(h1, _) := FSList_Update r now pl h in
    let* '(h2, _) := FSBoardCardsDirMeta_Update r now pc h1 in
    Done h2.

End BothViews.

(** ** Well-formed states *)

(** Every occupied slot of the inode table holds a live node whose inode
    number is the index of the slot. *)
Definition table_ok (fs : trelloFS) : Prop :=
  forall i n,
    inodes fs !! i = Some (Some n) ->
    exists b, getBase (heap fs) n = Done b /\ NodeID b = Z.of_nat i.

(** No card node has ever been marked as updated. *)
Definition card_stamps_zero (h : Heap) : Prop :=
  Forall (fun c => lastUpdate (FSCard.base c) = zeroTime) (cards h).

(** From [l] to [l'] every node stays at its address and keeps its inode
    number. *)
Definition arena_le {A : Type} (baseOf : A -> BaseFSNode) (l l' : list A) : Prop :=
  forall i x,
    l !! i = Some x ->
    exists x', l' !! i = Some x' /\ NodeID (baseOf x') = NodeID (baseOf x).

Record heap_le (h h' : Heap) : Prop := mkHeapLe {
  le_root : NodeID (TrelloTreeRoot.base (root h')) = NodeID (TrelloTreeRoot.base (root h));
  le_workspaces : arena_le FSWorkspace.base (workspaces h) (workspaces h');
  le_boards : arena_le FSBoard.base (boards h) (boards h');
  le_cardsDirs : arena_le FSBoardCardsDirMeta.base (cardsDirs h) (cardsDirs h');
  le_listsDirs : arena_le FSBoardListsDirMeta.base (listsDirs h) (listsDirs h');
  le_lists : arena_le FSList.base (lists h) (lists h');
  le_cards : arena_le FSCard.base (cards h) (cards h');
  le_metaFiles : arena_le FSCardMetaFile.base (metaFiles h) (metaFiles h')
}.

(** The nodes [add] are distinct, dangling in [h] and live in [h']. *)
Definition fresh_nodes (h h' : Heap) (add : list FSNode) : Prop :=
  NoDup add
  /\ forall n, n ∈ add ->
       getBase h n = Abort NilDeref /\ exists b, getBase h' n = Done b.

(** A loop that, at every step, either leaves its arena and its list of
    new nodes alone or appends one node to the arena and its address to
    the list: overall, the arena has grown by some [ext], all satisfying
    [P], and the list by the addresses of [ext]. *)
Definition grows {A : Type} (P : A -> Prop) (mk : nat -> FSNode)
    (arena : list A) (news : list FSNode)
    (arena' : list A) (news' : list FSNode) : Prop :=
  exists ext,
    arena' = arena ++ ext
    /\ news' = news ++ map mk (seq (length arena) (length ext))
    /\ Forall P ext.

(** What every [Update] guarantees of the heap [h'] it leaves and of the
    nodes it returns. *)
Definition frames (h h' : Heap) (res : UpdateResult) : Prop :=
  heap_le h h'
  /\ fresh_nodes h h' (added res)
  /\ (card_stamps_zero h -> card_stamps_zero h').

(** The invariant of a mount. *)
Definition well_formed (fs : trelloFS) : Prop :=
  freeInodes fs = [] /\ table_ok fs /\ card_stamps_zero (heap fs).

(** ** Toolchains and the FUSE library *)

(** The loop-variable semantics before and from Go 1.22. *)
Definition go_1_21 : GoToolchain := {| loopvar_per_iteration := false |}.
Definition go_1_22 : GoToolchain := {| loopvar_per_iteration := true |}.
#[export] Existing Instance go_1_21.

(** The layout of [fuse_dirent] that [fuseutil.WriteDirent] produces: a
    header of 24 bytes, then the name padded to a multiple of 8 bytes. *)
Definition fuse_dirent_len (d : Dirent) : Z :=
  24 + 8 * ((Z.of_nat (String.length (Name d)) + 7) / 8).

#[export] Instance fuse_dirent_layout : FuseLib.
Proof.
  refine {| direntLen := fuse_dirent_len |}.
  intros d. unfold fuse_dirent_len.
  assert (0 <= (Z.of_nat (String.length (Name d)) + 7) / 8)
    by (apply Z.div_pos; lia).
  lia.
Defined.

(** ** Requests over the lifetime of a mount *)

(** One kernel request, with the remote service and the clock as they are
    while it is served. *)
Inductive request : Type :=
  | ReqLookUpInode (pid : Z) (parent : InodeID) (nm : string)
  | ReqGetInodeAttributes (pid : Z) (id : InodeID)
  | ReqReadDir (id : InodeID) (dstLen : Z) (offset : Z)
  | ReqReadFile (pid : Z) (id : InodeID) (dst : list byte) (offset : Z).

Section Lifetime.
Context {tc : GoToolchain} {fl : FuseLib}.

(** The file system after one request; the reply is dropped. *)
Definition serve (fs : trelloFS) (e : Trello.Remote * Time * request)
  : outcome trelloFS :=
  let '(r, now, req) := e in
  match req with
  | ReqLookUpInode pid parent nm =>
      let* '(fs', _) := LookUpInode r now fs pid parent nm in Done fs'
  | ReqGetInodeAttributes pid id =>
      let* _ := GetInodeAttributes now fs pid id in Done fs
  | ReqReadDir id dstLen offset =>
      let* '(fs', _) := fsReadDir r now fs id dstLen offset in Done fs'
  | ReqReadFile pid id dst offset =>
      let* _ := ReadFile fs pid id dst offset in Done fs
  end.

Fixpoint serveAll (fs : trelloFS) (trace : list (Trello.Remote * Time * request))
  : outcome trelloFS :=
  match trace with
  | [] => Done fs
  | e :: rest => let* fs' := serve fs e in serveAll fs' rest
  end.

End Lifetime.

(** ** The scenario: workspace W, board B, list L, card C *)

Module Scenario.

Definition boardB : Trello.Board.t :=
  Trello.Board.mk "b1" "B" EmptyString EmptyString false.

(** The card as decoded, [board] being what the decoder left in its
    [Board] pointer. *)
Definition cardC (board : option Trello.Board.t) : Trello.Card.t :=
  Trello.Card.mk "c1" "C" EmptyString "l1" "b1" [] [] EmptyString false
    EmptyString board.

Definition answer {A : Type} (ep expected : string) (a : list A)
    (otherwise : result (list A)) : result (list A) :=
  if String.eqb ep expected then Ok a else otherwise.

Definition remote (board : option Trello.Board.t) : Trello.Remote :=
  Trello.mkRemote
    (fun ep =>
       answer ep "/members/me/organizations?fields=id,name,displayName"
         [Trello.Workspace.mk "w1" "W" "W" EmptyString] (Err (ApiError ep)))
    (fun ep =>
       answer ep "/organizations/w1/boards?fields=id,name,desc,descData,closed"
         [boardB] (Err (ApiError ep)))
    (fun ep =>
       answer ep "/boards/b1/lists"
         [Trello.List.mk "l1" "L" false None] (Err (ApiError ep)))
    (fun ep =>
       answer ep "/boards/b1/cards" [cardC board]
         (answer ep "/lists/l1/cards" [cardC board] (Err (ApiError ep)))).

Definition ctx : Trello.TrelloCtx.t := Trello.TrelloCtx.mk "me" "key" "token".

(** Some instant of the year 2022, in nanoseconds from the zero time. *)
Definition now : Time := 63800000000000000000.

Section Walk.
Context {tc : GoToolchain} {fl : FuseLib}.

(** Resolve a path from the root, one [LookUpInode] per segment. *)
Fixpoint walk (r : Trello.Remote) (fs : trelloFS) (dir : InodeID)
    (path : list string) : outcome (trelloFS * result ChildInodeEntry) :=
  match path with
  | [] => Done (fs, Err EINVAL)
  | [nm] => LookUpInode r now fs 1 dir nm
  | nm :: rest =>
      let* '(fs', e) := LookUpInode r now fs 1 dir nm in
      match e with
      | Ok entry => walk r fs' (Child entry) rest
      | Err x => Done (fs', Err x)
      end
  end.

(** Look up [/W/B/cards/C] and [/W/B/lists/L/C], then list the card
    directory, which refreshes the card node. *)
Definition mounted (board : option Trello.Board.t)
  : outcome (trelloFS * result ChildInodeEntry * result ChildInodeEntry *
             result (Z * list Dirent)) :=
  let r := remote board in
  let fs0 := NewTrelloFS 1000 1000 ctx in
  let* '(fs1, viaCards) := walk r fs0 RootInodeID ["W"; "B"; "cards"; "C"] in
  let* '(fs2, viaLists) := walk r fs1 RootInodeID ["W"; "B"; "lists"; "L"; "C"] in
  match viaCards with
  | Err x => Done (fs2, viaCards, viaLists, Err x)
  | Ok entry =>
      let* '(fs3, listing) := fsReadDir r now fs2 (Child entry) 4096 0 in
      Done (fs3, viaCards, viaLists, listing)
  end.

(** After that, look up the file [file] in [/W/B/cards/C] and read it
    into [dst] from offset 0. *)
Definition readField (board : option Trello.Board.t) (file : string)
    (dst : list byte) : outcome (result (ChildInodeEntry * ReadFileResult)) :=
  let* '(fs, _, _, _) := mounted board in
  let* '(fs', f) :=
    walk (remote board) fs RootInodeID ["W"; "B"; "cards"; "C"; file] in
  match f with
  | Err x => Done (Err x)
  | Ok entry =>
      let* out := ReadFile fs' 1 (Child entry) dst 0 in
      Done (Ok (entry, out))
  end.

End Walk.

(** The inode number in the reply to a [LookUpInode]. *)
Definition inodeOf (reply : result ChildInodeEntry) : result InodeID :=
  match reply with
  | Ok entry => Ok (Child entry)
  | Err x => Err x
  end.

(** The replies of the scenario that the claims are about: the inode of
    the card by either path, and the names listed in its directory. *)
Definition summary {tc : GoToolchain} {fl : FuseLib}
    (board : option Trello.Board.t)
  : outcome (result InodeID * result InodeID * result (list string)) :=
  let* '(_, viaCards, viaLists, listing) := mounted board in
  Done (inodeOf viaCards, inodeOf viaLists,
        match listing with Ok (_, ds) => Ok (map Name ds) | Err x => Err x end).

End Scenario.

(** ** Small heaps to instantiate the theorems at *)

Module Demo.

Definition board : Trello.Board.t :=
  Trello.Board.mk "b1" "B" EmptyString EmptyString false.

Definition card : Trello.Card.t :=
  Trello.Card.mk "c1" "C" EmptyString "l1" "b1" [] [] EmptyString false
    EmptyString (Some board).

(** A card with two members. *)
Definition cardWithMembers : Trello.Card.t :=
  Trello.Card.mk "c1" "C" EmptyString "l1" "b1" ["a"; "b"] [] EmptyString
    false EmptyString (Some board).

(** One field file, [DueComplete], of one card. *)
Definition fileNode : FSCardMetaFile.t :=
  FSCardMetaFile.mk
    (mkBase "DueComplete" 1000 1000 3 (mkAttrs 5 1 384 1000 1000) false
       "c1/_meta/DueComplete" zeroTime)
    (list_byte_of_string "false") 0.

Definition fileHeap : Heap :=
  mkHeap (initRoot 1000 1000) [] [] [] [] [] [] [fileNode] [card] [].

(** A remote service that reports three workspaces. *)
Definition remote3 : Trello.Remote :=
  Trello.mkRemote
    (fun _ => Ok [ Trello.Workspace.mk "w1" "a" "A" EmptyString;
                   Trello.Workspace.mk "w2" "b" "B" EmptyString;
                   Trello.Workspace.mk "w3" "c" "C" EmptyString ])
    (fun ep => Err (ApiError ep))
    (fun ep => Err (ApiError ep))
    (fun ep => Err (ApiError ep)).

(** The root directory once those three workspaces have inodes 2, 3, 4. *)
Definition workspaceNode (id nm : string) (ino : InodeID) : FSWorkspace.t :=
  FSWorkspace.mk (SetNodeID (newDirBase nm 1000 1000 id) ino) [] ∅ ∅
    (Trello.Workspace.mk id nm nm EmptyString).

Definition heap3 : Heap :=
  mkHeap
    (TrelloTreeRoot.mk (TrelloTreeRoot.base (initRoot 1000 1000))
       [0; 1; 2]%nat
       (<["w3" := 2%nat]> (<["w2" := 1%nat]> (<["w1" := 0%nat]> ∅)))
       (<["c" := 2%nat]> (<["b" := 1%nat]> (<["a" := 0%nat]> ∅))))
    [workspaceNode "w1" "a" 2; workspaceNode "w2" "b" 3; workspaceNode "w3" "c" 4]
    [] [] [] [] [] [] [] [].

(** A remote service whose every query fails. *)
Definition offline : Trello.Remote :=
  Trello.mkRemote
    (fun ep => Err (ApiError ep)) (fun ep => Err (ApiError ep))
    (fun ep => Err (ApiError ep)) (fun ep => Err (ApiError ep)).

(** One card node, not refreshed yet, and the record it points to. *)
Definition cardHeap : Heap :=
  mkHeap (initRoot 1000 1000) [] [] [] [] []
    [newFSCard 1000 1000 card 0] [] [card] [].

(** The same heap after the first [FSCard.Update] of that node. *)
Definition cardHeap1 : Heap :=
  Eval vm_compute in
    match FSCard_Update 0 cardHeap with
    | Done (h, _) => h
    | Abort _ => cardHeap
    end.

(** A remote service with one workspace [W] whose two boards, [b1] and
    [b2], are both named [X]. *)
Definition twins : Trello.Remote :=
  Trello.mkRemote
    (fun _ => Ok [Trello.Workspace.mk "w1" "W" "W" EmptyString])
    (fun _ => Ok [ Trello.Board.mk "b1" "X" EmptyString EmptyString false;
                   Trello.Board.mk "b2" "X" EmptyString EmptyString false ])
    (fun ep => Err (ApiError ep))
    (fun ep => Err (ApiError ep)).


(** A remote service with one board whose cards [c1] and [c2] are both
    named [X]; [c2] is on the list [L2]. *)
Definition cardX (id : string) : Trello.Card.t :=
  Trello.Card.mk id "X" EmptyString "l2" "b1" [] [] EmptyString false
    EmptyString None.

Definition namesakes : Trello.Remote :=
  Trello.mkRemote
    (fun _ => Ok [Trello.Workspace.mk "w1" "W" "W" EmptyString])
    (fun _ => Ok [board])
    (fun _ => Ok [Trello.List.mk "l2" "L2" false None])
    (fun ep =>
       if String.eqb ep "/boards/b1/cards" then Ok [cardX "c1"; cardX "c2"]
       else Ok [cardX "c2"]).

(** A board with its two sub-directories and one list, no card known
    yet, and a remote service that reports the card [c1], named [#c1],
    on the board and on the list. *)
Definition naming (id : string) : string := "#" +:+ id.

Definition cardNamed (id : string) : Trello.Card.t :=
  Trello.Card.mk id (naming id) EmptyString "l1" "b1" [] [] EmptyString false
    EmptyString (Some board).

Definition boardHeap : Heap :=
  mkHeap (initRoot 1000 1000) []
    [FSBoard.mk (SetNodeID (newDirBase "B" 1000 1000 "b1") 3)
       (Some 0%nat) (Some 0%nat) [] ∅ ∅ [0%nat] (<["l1" := 0%nat]> ∅)
       (<["L" := 0%nat]> ∅) board]
    [FSBoardCardsDirMeta.mk (SetNodeID (newDirBase "cards" 1000 1000 "b1/cards") 4) 0]
    [FSBoardListsDirMeta.mk (SetNodeID (newDirBase "lists" 1000 1000 "b1/lists") 5) 0]
    [FSList.mk (SetNodeID (newDirBase "L" 1000 1000 "l1") 6) [] ∅ ∅ 0 0]
    [] [] [] [Trello.List.mk "l1" "L" false None].

Definition oneCard : Trello.Remote :=
  Trello.mkRemote
    (fun ep => Err (ApiError ep)) (fun ep => Err (ApiError ep))
    (fun ep => Err (ApiError ep))
    (fun _ => Ok [cardNamed "c1"]).

(** A remote service whose one board has the cards [c1] and [c2], and
    what the file [ID] of the first of them reads, under a toolchain. *)
Definition twoCards : Trello.Remote :=
  Trello.mkRemote
    (fun _ => Ok [Trello.Workspace.mk "w1" "W" "W" EmptyString])
    (fun _ => Ok [board])
    (fun ep => Err (ApiError ep))
    (fun _ => Ok [cardNamed "c1"; cardNamed "c2"]).

Definition readFirstID (tc : GoToolchain) : outcome (result (list byte)) :=
  let fs0 := NewTrelloFS 1000 1000 (Trello.TrelloCtx.mk "me" "key" "token") in
  let* '(fs1, f) :=
    Scenario.walk twoCards fs0 RootInodeID ["W"; "B"; "cards"; "#c1"; "ID"] in
  match f with
  | Err x => Done (Err x)
  | Ok entry =>
      let* out := ReadFile fs1 1 (Child entry) (repeat "x"%byte 4) 0 in
      Done (Ok (take (Z.to_nat (BytesRead out)) (Dst out)))
  end.

(** A short life of a mount against [remote3]: the root is listed, one
    workspace is looked up, its attributes are read. *)
Definition trace3 : list (Trello.Remote * Time * request) :=
  [ (remote3, 63800000000000000000, ReqReadDir 1 4096 0);
    (remote3, 63800000001000000000, ReqLookUpInode 7 1 "b");
    (offline, 63800000002000000000, ReqGetInodeAttributes 7 3) ].

Definition mount3 : trelloFS :=
  Eval vm_compute in
    match serveAll (NewTrelloFS 1000 1000 (Trello.TrelloCtx.mk "me" "key" "token"))
            trace3 with
    | Done fs => fs
    | Abort _ => NewTrelloFS 1000 1000 (Trello.TrelloCtx.mk "me" "key" "token")
    end.

End Demo.

(** ** Package trello: the test double of the HTTP client (trello.go) *)

(** Go's package [strings], as far as [doTestAPIGet] uses it.  [Split]
    and [ReplaceAll] are given for a separator of one byte, which is how
    the program calls them. *)
Module Strings.

Definition HasPrefix (s prefix : string) : bool := String.prefix prefix s.

Fixpoint dropBytes (n : nat) (s : string) : string :=
  match n, s with
  | S k, String _ rest => dropBytes k rest
  | _, _ => s
  end.

Definition TrimPrefix (s prefix : string) : string :=
  if HasPrefix s prefix then dropBytes (String.length prefix) s else s.

Fixpoint Split (s : string) (sep : ascii) : list string :=
  match s with
  | EmptyString => [EmptyString]
  | String c rest =>
      if Ascii.eqb c sep then EmptyString :: Split rest sep
      else
        match Split rest sep with
        | [] => [String c EmptyString]
        | x :: xs => String c x :: xs
        end
  end.

Fixpoint ReplaceAll (s : string) (old new : ascii) : string :=
  match s with
  | EmptyString => EmptyString
  | String c rest =>
      String (if Ascii.eqb c old then new else c) (ReplaceAll rest old new)
  end.

End Strings.

(** The operating system as [doTestAPIGet] sees it: the environment
    variables, [os.Stat] (its error, [None] for nil), whether an error is
    [os.ErrNotExist], and [ioutil.ReadFile]. *)
Module OS.
Record Env : Type := mkEnv {
  Getenv : string -> string;
  Stat : string -> option error;
  IsNotExist : error -> bool;
  ReadFile : string -> result (list byte)
}.
End OS.

Module TestAPI.

(** The tail of [doTestAPIGet], from [os.Stat(testfn)] on. *)
Definition readTestFile (env : OS.Env) (testfn : string) : result (list byte) :=
  match OS.Stat env testfn with
  | Some err =>
      if OS.IsNotExist env err then Err err else OS.ReadFile env testfn
  | None => OS.ReadFile env testfn
  end.

(** [doTestAPIGet]: the reply to an endpoint is read from a file of the
    directory named by [TRELLOFS_TEST]. *)
Definition doTestAPIGet (env : OS.Env) (endpoint : string)
  : outcome (result (list byte)) :=
  if Strings.HasPrefix endpoint "https://api.trello.com/1/" then
    Done (Err (ApiError ("improper endpoint for GET: " +:+ endpoint)))
  else
    match Strings.Split endpoint "?" with
    | [] => Abort IndexOutOfRange
    | ep0 :: _ =>
        let ep :=
          if Strings.HasPrefix ep0 "/" then Strings.TrimPrefix ep0 "/" else ep0 in
        if String.eqb ep EmptyString then Done (Err (ApiError "empty endpoint"))
        else
          let fn := Strings.ReplaceAll ep "/" "-" in
          let tdir := OS.Getenv env "TRELLOFS_TEST" in
          Done (readTestFile env (tdir +:+ "/" +:+ fn +:+ ".json"))
    end.

(** [http.NewRequest] and [client.Do] followed by [io.ReadAll] belong to
    the Go library: whether a method and a URL make a request, and the
    body of the reply to a request. *)
Record Request : Type := mkRequest {
  Method : string;
  URL : string;
  Header : list (string * string)
}.

Record Client : Type := mkClient {
  checkRequest : string -> string -> option error;
  fetch : Request -> result (list byte)
}.

(** One double quote. *)
Definition DQ : string := String (ascii_of_nat 34) EmptyString.

(** [TrelloCtx.NewRequest]. *)
Definition NewRequest (cl : Client) (t : Trello.TrelloCtx.t)
    (method endpoint : string) : result Request :=
  let endpoint :=
    if negb (Strings.HasPrefix endpoint "/") then "/" +:+ endpoint else endpoint in
  let ep := "https://api.trello.com/1" +:+ endpoint in
  match checkRequest cl method ep with
  | Some err => Err err
  | None =>
      let auth :=
        "OAuth oauth_consumer_key=" +:+ DQ +:+ Trello.TrelloCtx.Key t +:+ DQ
        +:+ ", oauth_token=" +:+ DQ +:+ Trello.TrelloCtx.Token t +:+ DQ in
      Ok (mkRequest method ep
            [("Authorization", auth); ("Accept", "application/json")])
  end.

(** [TrelloCtx.ApiGet]: from the test files when [TRELLOFS_TEST] is set,
    over HTTP otherwise. *)
Definition ApiGet (env : OS.Env) (cl : Client) (t : Trello.TrelloCtx.t)
    (endpoint : string) : outcome (result (list byte)) :=
  if negb (String.eqb (OS.Getenv env "TRELLOFS_TEST") EmptyString) then
    doTestAPIGet env endpoint
  else
    match NewRequest cl t "GET" endpoint with
    | Err err => Done (Err err)
    | Ok req => Done (fetch cl req)
    end.

(** The endpoint that a query of this package passes to [ApiGet]: what a
    remote service that answers every endpoint with that endpoint is
    asked. *)
Definition recorder : Trello.Remote :=
  Trello.mkRemote
    (fun ep => Err (ApiError ep)) (fun ep => Err (ApiError ep))
    (fun ep => Err (ApiError ep)) (fun ep => Err (ApiError ep)).

Definition endpointOf {A : Type} (query : Trello.Remote -> result A) : string :=
  match query recorder with
  | Err (ApiError ep) => ep
  | _ => EmptyString
  end.

End TestAPI.

(** A test directory in which every file exists and holds its own name. *)
Module Fixtures.

Definition env : OS.Env :=
  OS.mkEnv
    (fun v => if String.eqb v "TRELLOFS_TEST" then "/tmp/t" else EmptyString)
    (fun _ => None) (fun _ => false)
    (fun file => Ok (list_byte_of_string file)).

(** The same machine with [TRELLOFS_TEST] unset. *)
Definition production : OS.Env :=
  OS.mkEnv (fun _ => EmptyString) (fun _ => None) (fun _ => false)
    (fun file => Ok (list_byte_of_string file)).

(** A client that accepts every request and replies with its URL. *)
Definition client : TestAPI.Client :=
  TestAPI.mkClient (fun _ _ => None)
    (fun req => Ok (list_byte_of_string (TestAPI.URL req))).

Definition ctx : Trello.TrelloCtx.t := Trello.TrelloCtx.mk "me" "key" "token".

End Fixtures.

(** Equality of interface values is decidable. *)
#[export] Instance FSNode_eq_dec : EqDecision FSNode.
Proof. solve_decision. Defined.

(** The node of one field file as the loop of [FSCard.Update] builds it
    for a card node with base [b] and record [card]. *)
Definition newFSCardMetaFile (b : BaseFSNode) (card : nat) (entry : MetaEntry)
  : FSCardMetaFile.t :=
  FSCardMetaFile.mk
    (mkBase (entryName entry) (uid b) (gid b) 0
       (mkAttrs (Z.of_nat (length (entryContents entry))) 1 384 (uid b) (gid b))
       false (TrelloID b +:+ "/_meta/" +:+ entryName entry) zeroTime)
    (entryContents entry) card.

(** The fields of a card record that become files, with their text, in
    the order of the files. *)
Definition cardFields (card : Trello.Card.t) : list (string * string) :=
  [ ("ID", Trello.Card.ID card);
    ("Name", Trello.Card.Name card);
    ("Desc", Trello.Card.Desc card);
    ("ListID", Trello.Card.ListID card);
    ("BoardID", Trello.Card.BoardID card);
    ("Due", Trello.Card.Due card);
    ("DueComplete", if Trello.Card.DueComplete card then "true" else "false");
    ("LastActive", Trello.Card.LastActive card) ].

(** ** How the heap evolves over the lifetime of a mount *)

(** A base without its time stamp: two bases that agree on it differ at
    most in the instant of their last refresh. *)
Definition stampless (b : BaseFSNode) : BaseFSNode := markUpdated b zeroTime.

(** From one state of a node to a later one, for each kind of node: the
    base keeps everything but the time stamp, the sequence of children
    is extended at its end, the index by id keeps what it held, and the
    pointers that are not nil stay what they are. *)
Record root_ev (x x' : TrelloTreeRoot.t) : Prop := mkRootEv {
  root_base : stampless (TrelloTreeRoot.base x') = stampless (TrelloTreeRoot.base x);
  root_children :
    TrelloTreeRoot.workspaces x `prefix_of` TrelloTreeRoot.workspaces x';
  root_index : TrelloTreeRoot.byID x ⊆ TrelloTreeRoot.byID x'
}.

Record workspace_ev (x x' : FSWorkspace.t) : Prop := mkWorkspaceEv {
  workspace_base : stampless (FSWorkspace.base x') = stampless (FSWorkspace.base x);
  workspace_children : FSWorkspace.Boards x `prefix_of` FSWorkspace.Boards x';
  workspace_index : FSWorkspace.ByID x ⊆ FSWorkspace.ByID x';
  workspace_record : FSWorkspace.Workspace x' = FSWorkspace.Workspace x
}.

Record board_ev (x x' : FSBoard.t) : Prop := mkBoardEv {
  board_base : stampless (FSBoard.base x') = stampless (FSBoard.base x);
  board_dirs : forall pc pl,
    FSBoard.MetaCardsDir x = Some pc ->
    FSBoard.MetaListsDir x = Some pl ->
    FSBoard.MetaCardsDir x' = Some pc /\ FSBoard.MetaListsDir x' = Some pl;
  board_cards_ev : FSBoard.Cards x `prefix_of` FSBoard.Cards x';
  board_cards_index : FSBoard.ByCardID x ⊆ FSBoard.ByCardID x';
  board_lists : FSBoard.Lists x `prefix_of` FSBoard.Lists x';
  board_lists_index : FSBoard.ByListID x ⊆ FSBoard.ByListID x';
  board_record : FSBoard.Board x' = FSBoard.Board x
}.

Record cardsDir_ev (x x' : FSBoardCardsDirMeta.t) : Prop := mkCardsDirEv {
  cardsDir_base :
    stampless (FSBoardCardsDirMeta.base x') = stampless (FSBoardCardsDirMeta.base x);
  cardsDir_board : FSBoardCardsDirMeta.BoardNode x' = FSBoardCardsDirMeta.BoardNode x
}.

Record listsDir_ev (x x' : FSBoardListsDirMeta.t) : Prop := mkListsDirEv {
  listsDir_base :
    stampless (FSBoardListsDirMeta.base x') = stampless (FSBoardListsDirMeta.base x);
  listsDir_board : FSBoardListsDirMeta.BoardNode x' = FSBoardListsDirMeta.BoardNode x
}.

Record list_ev (x x' : FSList.t) : Prop := mkListEv {
  list_base : stampless (FSList.base x') = stampless (FSList.base x);
  list_children : FSList.Cards x `prefix_of` FSList.Cards x';
  list_index_ev : FSList.ByID x ⊆ FSList.ByID x';
  list_board : FSList.BoardNode x' = FSList.BoardNode x;
  list_record : FSList.List x' = FSList.List x
}.

Record card_ev (x x' : FSCard.t) : Prop := mkCardEv {
  card_base : stampless (FSCard.base x') = stampless (FSCard.base x);
  card_children : FSCard.MetaFiles x `prefix_of` FSCard.MetaFiles x';
  card_index : FSCard.ByName x ⊆ FSCard.ByName x';
  card_record : FSCard.Card x' = FSCard.Card x
}.

Record file_ev (x x' : FSCardMetaFile.t) : Prop := mkFileEv {
  file_base : stampless (FSCardMetaFile.base x') = stampless (FSCardMetaFile.base x);
  file_contents : FSCardMetaFile.contents x' = FSCardMetaFile.contents x;
  file_record : FSCardMetaFile.Card x' = FSCardMetaFile.Card x
}.

(** From [l] to [l'] every element stays at its address, related by [R]
    to what it was. *)
Definition arena_ev {A : Type} (R : A -> A -> Prop) (l l' : list A) : Prop :=
  forall i x, l !! i = Some x -> exists x', l' !! i = Some x' /\ R x x'.

Record evolves (h h' : Heap) : Prop := mkEvolves {
  ev_root : root_ev (root h) (root h');
  ev_workspaces : arena_ev workspace_ev (workspaces h) (workspaces h');
  ev_boards : arena_ev board_ev (boards h) (boards h');
  ev_cardsDirs : arena_ev cardsDir_ev (cardsDirs h) (cardsDirs h');
  ev_listsDirs : arena_ev listsDir_ev (listsDirs h) (listsDirs h');
  ev_lists : arena_ev list_ev (lists h) (lists h');
  ev_cards : arena_ev card_ev (cards h) (cards h');
  ev_metaFiles : arena_ev file_ev (metaFiles h) (metaFiles h');
  ev_cardVars : cardVars h `prefix_of` cardVars h';
  ev_listVars : listVars h `prefix_of` listVars h'
}.

(** A node is live when its address lies in its arena. *)
Definition live (h : Heap) (n : FSNode) : Prop :=
  match n with
  | NTrelloTreeRoot => True
  | NFSWorkspace p => (p < length (workspaces h))%nat
  | NFSBoard p => (p < length (boards h))%nat
  | NFSBoardCardsDirMeta p => (p < length (cardsDirs h))%nat
  | NFSBoardListsDirMeta p => (p < length (listsDirs h))%nat
  | NFSList p => (p < length (lists h))%nat
  | NFSCard p => (p < length (cards h))%nat
  | NFSCardMetaFile p => (p < length (metaFiles h))%nat
  end.

(** The nodes [add] are all the nodes that are live in [h'] and were
    not in [h]. *)
Definition complete (h h' : Heap) (add : list FSNode) : Prop :=
  forall n, live h' n -> live h n \/ n ∈ add.

(** Every live node sits in the inode table. *)
Definition tabled (fs : trelloFS) : Prop :=
  forall n, live (heap fs) n -> exists i, inodes fs !! i = Some (Some n).

(** A board has its two sub-directories or none of them, and none only
    as long as it was never refreshed. *)
Definition paired (h : Heap) : Prop :=
  Forall (fun x =>
            (exists pc pl, FSBoard.MetaCardsDir x = Some pc
                           /\ FSBoard.MetaListsDir x = Some pl)
            \/ (FSBoard.MetaCardsDir x = None /\ FSBoard.MetaListsDir x = None
                /\ lastUpdate (FSBoard.base x) = zeroTime))
    (boards h).

(** A card record that carries a board. *)
Definition boarded (vars : list Trello.Card.t) (cell : nat) : Prop :=
  exists card board,
    vars !! cell = Some card /\ Trello.Card.Board card = Some board.

(** A field file whose attributes are those of a regular file with the
    size of its contents, and whose record carries a board. *)
Definition file_ok (vars : list Trello.Card.t) (f : FSCardMetaFile.t) : Prop :=
  Size (NodeAttrs (FSCardMetaFile.base f))
  = Z.of_nat (length (FSCardMetaFile.contents f))
  /\ Nlink (NodeAttrs (FSCardMetaFile.base f)) = 1
  /\ Mode (NodeAttrs (FSCardMetaFile.base f)) = 384
  /\ isDir (FSCardMetaFile.base f) = false
  /\ boarded vars (FSCardMetaFile.Card f).

Definition files_ok (h : Heap) : Prop :=
  Forall (file_ok (cardVars h)) (metaFiles h).

(** The invariant of a mount, with what the table and the files add. *)
Definition sound (fs : trelloFS) : Prop :=
  well_formed fs /\ tabled fs /\ paired (heap fs) /\ files_ok (heap fs).

(** What a loop does to the arena of its variables: the cells below
    [shared] stay as they are. *)
Definition keeps_below {A : Type} (shared : nat) (v v' : list A) : Prop :=
  (shared <= length v)%nat ->
  take shared v' = take shared v /\ (shared <= length v')%nat.

(** A board node as [FSWorkspace.Update] makes it: without its two
    sub-directories, never refreshed. *)
Definition board_is_new (x : FSBoard.t) : Prop :=
  FSBoard.MetaCardsDir x = None /\ FSBoard.MetaListsDir x = None
  /\ lastUpdate (FSBoard.base x) = zeroTime.

(** The attributes of a field file: those of a regular file with the
    size of its contents. *)
Definition file_attrs_ok (f : FSCardMetaFile.t) : Prop :=
  Size (NodeAttrs (FSCardMetaFile.base f))
  = Z.of_nat (length (FSCardMetaFile.contents f))
  /\ Nlink (NodeAttrs (FSCardMetaFile.base f)) = 1
  /\ Mode (NodeAttrs (FSCardMetaFile.base f)) = 384
  /\ isDir (FSCardMetaFile.base f) = false.

(** What every [Update] guarantees besides [frames]: the nodes it returns
    are all the new ones, and none when it fails; boards stay paired and
    field files in order. *)
Definition settles (h h' : Heap) (res : UpdateResult) : Prop :=
  complete h h' (added res)
  /\ (failure res <> None -> added res = [])
  /\ (paired h -> paired h')
  /\ (files_ok h -> files_ok h').

(** ** A session that reaches a field file *)

Module Session.

Definition credentials : Trello.TrelloCtx.t :=
  Trello.TrelloCtx.mk "me" "key" "token".

Definition start : trelloFS := NewTrelloFS 1000 1000 credentials.

Definition noon : Time := 63800000000000000000.

(** The path [W/B/cards/#c1/ID] is resolved name by name against
    [Demo.twoCards]: the inodes 2 (the workspace), 3 (the board), 4 and 5
    (its two sub-directories), 6 and 7 (the cards), 8 to 15 (the files
    of the first card). *)
Definition path : list (Trello.Remote * Time * request) :=
  [ (Demo.twoCards, noon, ReqLookUpInode 7 1 "W");
    (Demo.twoCards, noon, ReqLookUpInode 7 2 "B");
    (Demo.twoCards, noon, ReqLookUpInode 7 3 "cards");
    (Demo.twoCards, noon, ReqLookUpInode 7 4 "#c1");
    (Demo.twoCards, noon, ReqLookUpInode 7 6 "ID") ].

Definition mount : trelloFS :=
  Eval vm_compute in
    match serveAll start path with
    | Done fs => fs
    | Abort _ => start
    end.

(** What the session does afterwards, the service gone. *)
Definition afterwards : list (Trello.Remote * Time * request) :=
  [ (Demo.offline, noon + 3600000000000, ReqReadDir 1 4096 0);
    (Demo.offline, noon + 3600000000000, ReqLookUpInode 7 6 "Name") ].

Definition mount' : trelloFS :=
  Eval vm_compute in
    match serveAll mount afterwards with
    | Done fs => fs
    | Abort _ => mount
    end.

(** [Demo.boardHeap] once its [cards] directory has been refreshed
    against [Demo.oneCard]: the board has the card [c1], the list [L]
    has not been refreshed yet. *)
Definition boardHeap1 : Heap :=
  Eval vm_compute in
    match FSBoardCardsDirMeta_Update Demo.oneCard noon 0 Demo.boardHeap with
    | Done (h, _) => h
    | Abort _ => Demo.boardHeap
    end.

End Session.

(** ** No dangling pointer *)

(** The pointers that a node of each kind holds lie below the sizes of
    the arenas they point into: [nB] boards, [nCD] and [nLD]
    sub-directories, [nL] lists, [nC] cards, [nF] field files, [nLV]
    list records. *)
Definition workspace_closed (nB : nat) (x : FSWorkspace.t) : Prop :=
  Forall (fun q => (q < nB)%nat) (FSWorkspace.Boards x).

Definition board_closed (nCD nLD nC nL : nat) (x : FSBoard.t) : Prop :=
  (forall pc, FSBoard.MetaCardsDir x = Some pc -> (pc < nCD)%nat)
  /\ (forall pl, FSBoard.MetaListsDir x = Some pl -> (pl < nLD)%nat)
  /\ Forall (fun q => (q < nC)%nat) (FSBoard.Cards x)
  /\ (forall id q, FSBoard.ByCardID x !! id = Some q -> (q < nC)%nat)
  /\ Forall (fun q => (q < nL)%nat) (FSBoard.Lists x).

Definition list_closed (nB nLV nC : nat) (x : FSList.t) : Prop :=
  (FSList.BoardNode x < nB)%nat
  /\ (FSList.List x < nLV)%nat
  /\ Forall (fun q => (q < nC)%nat) (FSList.Cards x).

Definition card_closed (nF : nat) (x : FSCard.t) : Prop :=
  Forall (fun q => (q < nF)%nat) (FSCard.MetaFiles x).

(** A heap in which every child, every board of a sub-directory or list
    and every record of a list is there. *)
Record closed (h : Heap) : Prop := mkClosed {
  cl_root :
    Forall (fun q => (q < length (workspaces h))%nat)
      (TrelloTreeRoot.workspaces (root h));
  cl_workspaces : Forall (workspace_closed (length (boards h))) (workspaces h);
  cl_boards :
    Forall (board_closed (length (cardsDirs h)) (length (listsDirs h))
              (length (cards h)) (length (lists h))) (boards h);
  cl_cardsDirs :
    Forall (fun x => (FSBoardCardsDirMeta.BoardNode x < length (boards h))%nat)
      (cardsDirs h);
  cl_listsDirs :
    Forall (fun x => (FSBoardListsDirMeta.BoardNode x < length (boards h))%nat)
      (listsDirs h);
  cl_lists :
    Forall (list_closed (length (boards h)) (length (listVars h))
              (length (cards h))) (lists h);
  cl_cards : Forall (card_closed (length (metaFiles h))) (cards h)
}.

(** A card node whose record carries a board: what [FSCard.Update]
    needs of it. *)
Definition renders (h : Heap) (p : nat) : Prop :=
  exists node, cards h !! p = Some node /\ boarded (cardVars h) (FSCard.Card node).

(** [c'] stands where [c] stood: whenever [c] had a base, [c'] has one
    with the same name and inode number. *)
Definition stands {C C' : Type} (f : C -> outcome BaseFSNode)
    (f' : C' -> outcome BaseFSNode) (c : C) (c' : C') : Prop :=
  forall b, f c = Done b ->
    exists b', f' c' = Done b' /\ name b' = name b /\ NodeID b' = NodeID b.

(** ** Requests that are in order *)

(** A node that, if it is a card directory, has a record with a board. *)
Definition card_has_board (h : Heap) (n : FSNode) : Prop :=
  forall p, n = NFSCard p -> renders h p.

(** A board that has its two sub-directories. *)
Definition board_has_dirs (h : Heap) (n : FSNode) : Prop :=
  forall p, n = NFSBoard p ->
    exists x pc pl,
      boards h !! p = Some x
      /\ FSBoard.MetaCardsDir x = Some pc /\ FSBoard.MetaListsDir x = Some pl.

(** A request in order: the inode number is that of a slot of the table
    (which holds a node, unless the request is a [ReadDir]); a card
    directory that is looked into has a record with a board; the offset
    of a [ReadDir] is below [2^63] and that of a [ReadFile] is not
    negative.  A caller with pid 0 is turned away at once. *)
Definition in_order (fs : trelloFS) (req : request) : Prop :=
  match req with
  | ReqLookUpInode pid parent nm =>
      pid = 0
      \/ exists n, slot fs parent = Done (Some n) /\ card_has_board (heap fs) n
  | ReqGetInodeAttributes pid id =>
      pid = 0 \/ exists n, slot fs id = Done (Some n)
  | ReqReadDir id dstLen offset =>
      0 <= offset <= int64_max
      /\ exists s, slot fs id = Done s
                   /\ forall n, s = Some n -> card_has_board (heap fs) n
  | ReqReadFile pid id dst offset =>
      pid = 0 \/ (0 <= offset /\ exists n, slot fs id = Done (Some n))
  end.

(** ** A card that has all its field files *)

(** The card node at [p] has a record with a board, and a file under the
    name of every field that [getMeta] renders of that record: what a
    run of [FSCard.Update] leaves. *)
Definition rendered (h : Heap) (p : nat) : Prop :=
  exists node card board meta,
    cards h !! p = Some node
    /\ cardVars h !! FSCard.Card node = Some card
    /\ Trello.Card.Board card = Some board
    /\ getMeta (Reflect.ofCard card) = Done meta
    /\ forall entry, entry ∈ meta ->
         is_Some (FSCard.ByName node !! entryName entry).

(** A field file stays what it is from an earlier state of the mount to
    a later one: it is at the same address, with the same name, inode
    number and contents, and the table of the later state has it under
    that number. *)
Definition file_stays (fs1 fs2 : trelloFS) (q : nat) : Prop :=
  exists f1 f2,
    metaFiles (heap fs1) !! q = Some f1
    /\ metaFiles (heap fs2) !! q = Some f2
    /\ name (FSCardMetaFile.base f2) = name (FSCardMetaFile.base f1)
    /\ NodeID (FSCardMetaFile.base f2) = NodeID (FSCardMetaFile.base f1)
    /\ FSCardMetaFile.contents f2 = FSCardMetaFile.contents f1
    /\ slot fs2 (NodeID (FSCardMetaFile.base f2)) = Done (Some (NFSCardMetaFile q)).

(** ** A list node and the record of its list *)

(** The pointer of the list node leads to the record of the list the
    node was made for: the id and the name in it are those of the
    node. *)
Definition own_record (vars : list Trello.List.t) (x : FSList.t) : Prop :=
  exists l,
    vars !! FSList.List x = Some l
    /\ Trello.List.ID l = TrelloID (FSList.base x)
    /\ Trello.List.Name l = name (FSList.base x).

Definition lists_own (h : Heap) : Prop :=
  Forall (own_record (listVars h)) (lists h).

(** ** A board with two lists *)

Module TwoLists.

(** The lists [L1] and [L2] of the board [B]; the card [c1], named
    [#c1], is on [L1], and [L2] has no card. *)
Definition remote : Trello.Remote :=
  Trello.mkRemote
    (fun _ => Ok [Trello.Workspace.mk "w1" "W" "W" EmptyString])
    (fun _ => Ok [Demo.board])
    (fun _ => Ok [ Trello.List.mk "l1" "L1" false None;
                   Trello.List.mk "l2" "L2" false None ])
    (fun ep =>
       Scenario.answer ep "/boards/b1/cards" [Demo.cardNamed "c1"]
         (Scenario.answer ep "/lists/l1/cards" [Demo.cardNamed "c1"]
            (Scenario.answer ep "/lists/l2/cards" [] (Err (ApiError ep))))).

(** The inode of the card by either path, [W/B/cards/#c1] first. *)
Definition views (tc : GoToolchain)
  : outcome (result InodeID * result InodeID) :=
  let fs0 := NewTrelloFS 1000 1000 Scenario.ctx in
  let* '(fs1, viaCards) :=
    Scenario.walk remote fs0 RootInodeID ["W"; "B"; "cards"; "#c1"] in
  let* '(_, viaList) :=
    Scenario.walk remote fs1 RootInodeID ["W"; "B"; "lists"; "L1"; "#c1"] in
  Done (Scenario.inodeOf viaCards, Scenario.inodeOf viaList).

(** The heap once [W/B/lists/L1] has been resolved, under a toolchain:
    the two list nodes are there, neither of them refreshed, and the
    board has no card yet. *)
Definition resolved (tc : GoToolchain) : Heap :=
  let fs0 := NewTrelloFS 1000 1000 Scenario.ctx in
  match Scenario.walk remote fs0 RootInodeID ["W"; "B"; "lists"; "L1"] with
  | Done (fs, _) => heap fs
  | Abort _ => heap fs0
  end.

Definition heap22 : Heap := Eval vm_compute in resolved go_1_22.

End TwoLists.

(** ** The session of [Session], cut before the card is refreshed *)

Module Again.

Definition before : list (Trello.Remote * Time * request) :=
  [ (Demo.twoCards, Session.noon, ReqLookUpInode 7 1 "W");
    (Demo.twoCards, Session.noon, ReqLookUpInode 7 2 "B");
    (Demo.twoCards, Session.noon, ReqLookUpInode 7 3 "cards");
    (Demo.twoCards, Session.noon, ReqLookUpInode 7 4 "#c1") ].

Definition mount : trelloFS :=
  Eval vm_compute in
    match serveAll Session.start before with
    | Done fs => fs
    | Abort _ => Session.start
    end.

End Again.

(** * Properties *)

(** ** Basic facts about outcomes and dereferences *)

Lemma bind_Done {A B : Type} (m : outcome A) (k : A -> outcome B) (b : B) :
  bind m k = Done b -> exists a, m = Done a /\ k a = Done b.
Proof. destruct m as [a|w]; simpl; [eauto | discriminate]. Qed.

Lemma deref_Done {A : Type} (arena : list A) (p : nat) (a : A) :
  deref arena p = Done a <-> arena !! p = Some a.
Proof.
  unfold deref. destruct (arena !! p); split; intros E;
    inversion E; subst; reflexivity.
Qed.

Lemma deref_Some {A : Type} (arena : list A) (p : nat) (a : A) :
  arena !! p = Some a -> deref arena p = Done a.
Proof. apply deref_Done. Qed.

(** ** The field renderer *)

Lemma renderField_string (n tag s : string) :
  renderField (Reflect.mkField n tag (Reflect.VString s)) = Done (Some s).
Proof. reflexivity. Qed.

Lemma renderField_bool (n tag : string) (b : bool) :
  renderField (Reflect.mkField n tag (Reflect.VBool b))
  = Done (Some (if b then "true" else "false")).
Proof. reflexivity. Qed.

(** The name of the type [[]string] is empty, so the [case "[]string"]
    branch is never taken and the field falls to [default]. *)
Lemma renderField_strings (n tag : string) (arr : list string) :
  renderField (Reflect.mkField n tag (Reflect.VStrings arr)) = Done None.
Proof. reflexivity. Qed.

(** What the [case "[]string"] branch would have produced. *)
Example joinLines_a_b :
  list_byte_of_string (joinLines ["a"; "b"])
  = ["a"%byte; x0a; "b"%byte; x0a].
Proof. reflexivity. Qed.

(** For every card record, [getMeta] returns exactly eight blobs, named
    after the Go fields [ID], [Name], [Desc], [ListID], [BoardID], [Due],
    [DueComplete] and [LastActive]: the string fields verbatim and the
    boolean as the text true or false.  [MemberIDs], [Labels] and [Board]
    yield none. *)
Lemma getMeta_card (c : Trello.Card.t) :
  getMeta (Reflect.ofCard c)
  = Done
      [ mkMetaEntry "ID" (list_byte_of_string (Trello.Card.ID c));
        mkMetaEntry "Name" (list_byte_of_string (Trello.Card.Name c));
        mkMetaEntry "Desc" (list_byte_of_string (Trello.Card.Desc c));
        mkMetaEntry "ListID" (list_byte_of_string (Trello.Card.ListID c));
        mkMetaEntry "BoardID" (list_byte_of_string (Trello.Card.BoardID c));
        mkMetaEntry "Due" (list_byte_of_string (Trello.Card.Due c));
        mkMetaEntry "DueComplete"
          (list_byte_of_string
             (if Trello.Card.DueComplete c then "true" else "false"));
        mkMetaEntry "LastActive" (list_byte_of_string (Trello.Card.LastActive c)) ].
Proof. reflexivity. Qed.

(** C2 (the code at the failing input): for the card record whose
    string-list field [MemberIDs] is [["a"; "b"]], [getMeta] returns the
    blobs of the seven string fields, verbatim, and of the boolean field,
    as the text false, and no blob at all for [MemberIDs], where the claim
    expects the 4 bytes a, line feed, b, line feed. *)
Theorem getMeta_string_list_dropped :
  getMeta (Reflect.ofCard Demo.cardWithMembers)
  = Done
      [ mkMetaEntry "ID" (list_byte_of_string "c1");
        mkMetaEntry "Name" (list_byte_of_string "C");
        mkMetaEntry "Desc" [];
        mkMetaEntry "ListID" (list_byte_of_string "l1");
        mkMetaEntry "BoardID" (list_byte_of_string "b1");
        mkMetaEntry "Due" [];
        mkMetaEntry "DueComplete" (list_byte_of_string "false");
        mkMetaEntry "LastActive" [] ]
  /\ renderField (Reflect.mkField "MemberIDs" "idMembers"
                    (Reflect.VStrings (Trello.Card.MemberIDs Demo.cardWithMembers)))
     = Done None
  /\ list_byte_of_string (joinLines (Trello.Card.MemberIDs Demo.cardWithMembers))
     = ["a"%byte; x0a; "b"%byte; x0a].
Proof. split_and!; reflexivity. Qed.

(** ** Reading a field file *)

Lemma copy_spec (dst src : list byte) :
  copy dst src
  = (take (Nat.min (length dst) (length src)) src
       ++ drop (Nat.min (length dst) (length src)) dst,
     Z.of_nat (Nat.min (length dst) (length src))).
Proof. reflexivity. Qed.

(** C5 (amended): for a field file with contents of length [L] whose card
    record holds a board pointer, every buffer and every offset that is
    not negative: past the end ([L < offset]) the read returns 0 bytes and
    [io.EOF]; otherwise it copies [n = min(len(dst), L - offset)] bytes
    from [offset] to the head of the buffer, returns [n], and returns
    [io.EOF] exactly when [n < len(dst)], that is when the buffer is
    strictly larger than the [L - offset] bytes that remain. *)
Theorem FSCardMetaFile_ReadAt_spec (h : Heap) (p : nat)
    (node : FSCardMetaFile.t) (card : Trello.Card.t) (board : Trello.Board.t)
    (dst : list byte) (offset : Z) :
  metaFiles h !! p = Some node ->
  cardVars h !! FSCardMetaFile.Card node = Some card ->
  Trello.Card.Board card = Some board ->
  0 <= offset ->
  let L := Z.of_nat (length (FSCardMetaFile.contents node)) in
  let n := Z.min (Z.of_nat (length dst)) (L - offset) in
  (L < offset ->
     ReadAt h (NFSCardMetaFile p) dst offset = Done (dst, 0, Some EOF))
  /\ (offset <= L ->
     ReadAt h (NFSCardMetaFile p) dst offset
     = Done (take (Z.to_nat n)
               (drop (Z.to_nat offset) (FSCardMetaFile.contents node))
               ++ drop (Z.to_nat n) dst,
             n,
             if L - offset <? Z.of_nat (length dst) then Some EOF else None)).
Proof.
  intros Hn Hc Hb Hoff L n. unfold ReadAt, FSCardMetaFile_ReadAt.
  rewrite (deref_Some _ _ _ Hn). cbn [bind].
  rewrite (deref_Some _ _ _ Hc). cbn [bind]. rewrite Hb.
  fold L. split; intros HL.
  - destruct (Z.ltb_spec L offset); [reflexivity | lia].
  - destruct (Z.ltb_spec L offset); [lia |].
    destruct (Z.ltb_spec offset 0); [lia |].
    rewrite copy_spec, length_drop.
    assert (Hmin : Z.of_nat (Nat.min (length dst)
                     (length (FSCardMetaFile.contents node) - Z.to_nat offset)) = n)
      by (unfold n, L; lia).
    rewrite Hmin.
    assert (Hnat : Nat.min (length dst)
                     (length (FSCardMetaFile.contents node) - Z.to_nat offset)
                   = Z.to_nat n) by lia.
    rewrite Hnat.
    destruct (Z.ltb_spec n (Z.of_nat (length dst)));
      destruct (Z.ltb_spec (L - offset) (Z.of_nat (length dst)));
      try reflexivity; unfold n in *; lia.
Qed.

(** C5 (as stated, refuted): the field file [DueComplete] of the scenario
    holds the 5 bytes of the text false; read at offset 0 into a buffer of
    exactly 5 bytes, all 5 bytes are copied, the end of the contents is
    reached, and the error returned is nil, not [io.EOF]. *)
Lemma ReadAt_exact_fit_no_EOF :
  (let* '(fs, _, _, _) := Scenario.mounted (Some Scenario.boardB) in
   ReadAt (heap fs) (NFSCardMetaFile 6) (repeat "x"%byte 5) 0)
  = Done (list_byte_of_string "false", 5, None).
Proof. vm_compute. reflexivity. Qed.

Lemma FSCardMetaFile_ReadAt_spec_witness :
  ReadAt Demo.fileHeap (NFSCardMetaFile 0) (repeat "x"%byte 8) 2
  = Done (list_byte_of_string "lsexxxxx", 3, Some EOF).
Proof.
  destruct (FSCardMetaFile_ReadAt_spec Demo.fileHeap 0 Demo.fileNode Demo.card
              Demo.board (repeat "x"%byte 8) 2
              eq_refl eq_refl eq_refl ltac:(lia)) as [_ H].
  rewrite H; [reflexivity | simpl; lia].
Defined.

(** The file system turns [io.EOF] into nil: both a read that reports the
    end of the data and one that does not complete without an error. *)
Example ReadFile_swallows_EOF :
  Scenario.readField (Some Scenario.boardB) "DueComplete" (repeat "x"%byte 8)
  = Done (Ok (mkEntry 14 (mkAttrs 5 1 384 1000 1000)
                (Scenario.now + oneYear) (Scenario.now + oneYear),
              mkReadFileResult (list_byte_of_string "falsexxx") 5 None)).
Proof. vm_compute. reflexivity. Qed.

(** ** Reading a directory as a file *)

Lemma int_of_uint64_le (x : Z) : int_of_uint64 x <= x.
Proof. unfold int_of_uint64. destruct (x <=? int64_max); lia. Qed.

Lemma slot_Some (fs : trelloFS) (id : InodeID) (s : option FSNode) :
  0 <= id -> inodes fs !! Z.to_nat id = Some s -> slot fs id = Done s.
Proof.
  intros Hid Hs. unfold slot.
  pose proof (lookup_lt_Some _ _ _ Hs) as Hlt.
  destruct (Z.leb_spec 0 id); [|lia].
  destruct (Z.ltb_spec id (Z.of_nat (length (inodes fs)))); [|lia].
  simpl. rewrite Hs. reflexivity.
Qed.

(** C8 (as stated, refuted): on a fresh mount, [ReadFile] on the root
    directory (inode 1) completes without an error, having read 0
    bytes. *)
Lemma ReadFile_root_succeeds :
  ReadFile (NewTrelloFS 1000 1000 Scenario.ctx) 1 RootInodeID
    (repeat "x"%byte 4) 0
  = Done (mkReadFileResult (repeat "x"%byte 4) 0 None).
Proof. vm_compute. reflexivity. Qed.

(** For every inode number whose slot holds a node that is not a field
    file, a [ReadFile] request from a process other than 0 completes
    without an error: 0 bytes read, the buffer untouched. *)
Lemma ReadFile_of_directory
    (fs : trelloFS) (pid : Z) (id : InodeID) (n : FSNode) (b : BaseFSNode)
    (dst : list byte) (offset : Z) :
  pid <> 0 ->
  0 <= id ->
  inodes fs !! Z.to_nat id = Some (Some n) ->
  (forall p, n <> NFSCardMetaFile p) ->
  getBase (heap fs) n = Done b ->
  ReadFile fs pid id dst offset = Done (mkReadFileResult dst 0 None).
Proof.
  intros Hpid Hid Hs Hn Hb. unfold ReadFile.
  destruct (Z.eqb_spec pid 0); [contradiction|].
  pose proof (lookup_lt_Some _ _ _ Hs) as Hlt.
  pose proof (int_of_uint64_le id).
  destruct (Z.leb_spec (Z.of_nat (length (inodes fs))) (int_of_uint64 id)); [lia|].
  rewrite (slot_Some _ _ _ Hid Hs). cbn [bind].
  assert (HR : ReadAt (heap fs) n dst offset = Done (dst, 0, None)).
  { destruct n; try reflexivity. exfalso. eapply Hn. reflexivity. }
  rewrite HR. cbn [bind]. rewrite Hb. reflexivity.
Qed.

(** ** The scenario *)

(** C3 (as stated, refuted): in the scenario, once the card directory has
    been listed (which refreshes the card node), the name [dueComplete]
    does not resolve in [/W/B/cards/C]. *)
Lemma scenario_no_dueComplete :
  Scenario.readField (Some Scenario.boardB) "dueComplete" (repeat "x"%byte 8)
  = Done (Err ENOENT).
Proof. vm_compute. reflexivity. Qed.

(** C3 (amended): in the scenario, the card record holding a board
    pointer, [/W/B/cards/C] and [/W/B/lists/L/C] resolve to the same
    inode; the card directory lists one file per rendered field, named
    after the Go field; the file named [DueComplete] has size 5 and its
    full contents are the 5 bytes of the text false.  This holds under
    both loop-variable semantics. *)
Theorem scenario_DueComplete (tc : GoToolchain) :
  Scenario.summary (Some Scenario.boardB)
  = Done (Ok 6, Ok 6,
          Ok ["ID"; "Name"; "Desc"; "ListID"; "BoardID"; "Due";
              "DueComplete"; "LastActive"])
  /\ Scenario.readField (Some Scenario.boardB) "DueComplete" (repeat "x"%byte 8)
     = Done (Ok (mkEntry 14 (mkAttrs 5 1 384 1000 1000)
                   (Scenario.now + oneYear) (Scenario.now + oneYear),
                 mkReadFileResult (list_byte_of_string "falsexxx") 5 None)).
Proof. destruct tc as [[|]]; split; vm_compute; reflexivity. Qed.

(** Where two cards are built by one refresh, the toolchain shows: with
    one loop variable for the whole loop, the node of the first card
    points at the record of the last. *)
Example loop_variable_shared :
  Demo.readFirstID go_1_21 = Done (Ok (list_byte_of_string "c2"))
  /\ Demo.readFirstID go_1_22 = Done (Ok (list_byte_of_string "c1")).
Proof. split; vm_compute; reflexivity. Qed.

(** With the card record as [GetCards] leaves it when the reply has no
    board object, the first refresh of the card node dereferences the nil
    [Board] pointer. *)
Example scenario_nil_board :
  Scenario.summary None = Abort NilDeref.
Proof. vm_compute. reflexivity. Qed.

(** ** Listing a directory page by page *)

Section Pagination.
Context {fl : FuseLib}.

Lemma totalLen_nonneg (ds : list Dirent) : 0 <= totalLen ds.
Proof.
  induction ds as [|d ds IH]; simpl; [lia|].
  pose proof (direntLen_pos d). lia.
Qed.

Lemma totalLen_take_le (ds : list Dirent) (k : nat) :
  totalLen (take k ds) <= totalLen ds.
Proof.
  revert k. induction ds as [|d ds IH]; intros [|k]; simpl; try lia.
  - pose proof (totalLen_nonneg ds). pose proof (direntLen_pos d). lia.
  - specialize (IH k). lia.
Qed.

Lemma fitCount_le_length (room : Z) (ds : list Dirent) :
  (fitCount room ds <= length ds)%nat.
Proof.
  revert room. induction ds as [|d ds IH]; intros room; simpl; [lia|].
  destruct (direntLen d <=? room); [specialize (IH (room - direntLen d))|]; lia.
Qed.

(** The entries that fit never exceed the room. *)
Lemma fitCount_fits (room : Z) (ds : list Dirent) :
  0 <= room -> totalLen (take (fitCount room ds) ds) <= room.
Proof.
  revert room. induction ds as [|d ds IH]; intros room Hr; simpl; [lia|].
  destruct (Z.leb_spec (direntLen d) room); simpl; [|lia].
  pose proof (direntLen_pos d).
  specialize (IH (room - direntLen d)). lia.
Qed.

(** A buffer that holds the first [K] entries and not one more. *)
Lemma fitCount_exact (room : Z) (ds : list Dirent) (K : nat) :
  (K < length ds)%nat ->
  totalLen (take K ds) <= room < totalLen (take (S K) ds) ->
  fitCount room ds = K.
Proof.
  revert room ds. induction K as [|K IH]; intros room [|d ds] Hlen [Hlo Hhi];
    simpl in *; try lia.
  - destruct (Z.leb_spec (direntLen d) room); [lia | reflexivity].
  - pose proof (totalLen_nonneg (take K ds)).
    destruct (Z.leb_spec (direntLen d) room); [|lia].
    f_equal. apply IH; [lia|]. lia.
Qed.

(** Everything fits exactly when the room is at least the total. *)
Lemma fitCount_all (room : Z) (ds : list Dirent) :
  totalLen ds <= room -> fitCount room ds = length ds.
Proof.
  revert room. induction ds as [|d ds IH]; intros room Hr; simpl in *; [reflexivity|].
  pose proof (totalLen_nonneg ds).
  destruct (Z.leb_spec (direntLen d) room); [|lia].
  f_equal. apply IH. lia.
Qed.

Lemma fitCount_not_all_nonneg (room : Z) (ds : list Dirent) :
  0 <= room -> room < totalLen ds -> (fitCount room ds < length ds)%nat.
Proof.
  revert room. induction ds as [|d ds IH]; intros room H0 Hr; simpl in *; [lia|].
  destruct (Z.leb_spec (direntLen d) room); [|lia].
  specialize (IH (room - direntLen d)). lia.
Qed.

Lemma fitCount_not_all (room : Z) (ds : list Dirent) :
  ds <> [] -> room < totalLen ds -> (fitCount room ds < length ds)%nat.
Proof.
  destruct ds as [|d ds]; intros Hne Hr; [congruence|]. simpl in *.
  destruct (Z.leb_spec (direntLen d) room); [|lia].
  pose proof (fitCount_not_all_nonneg (room - direntLen d) ds). lia.
Qed.

Lemma entriesFrom_length (ty : DirentType) (bs : list BaseFSNode) (i : Z) :
  length (entriesFrom ty bs i) = length bs.
Proof. revert i. induction bs as [|b bs IH]; intros i; simpl; [|rewrite IH]; reflexivity. Qed.

Lemma entriesFrom_drop (ty : DirentType) (bs : list BaseFSNode) (i : Z) (k : nat) :
  drop k (entriesFrom ty bs i) = entriesFrom ty (drop k bs) (i + Z.of_nat k).
Proof.
  revert i k. induction bs as [|b bs IH]; intros i [|k]; simpl.
  - reflexivity.
  - reflexivity.
  - f_equal; [f_equal; lia | do 2 f_equal; lia].
  - rewrite IH. f_equal. lia.
Qed.

Lemma entriesFrom_offset (ty : DirentType) (bs : list BaseFSNode) (i : Z)
    (j : nat) (d : Dirent) :
  entriesFrom ty bs i !! j = Some d -> Offset d = i + Z.of_nat j + 1.
Proof.
  revert i j. induction bs as [|b bs IH]; intros i [|j] E; simpl in *;
    try discriminate.
  - inversion E; subst. simpl. lia.
  - apply IH in E. lia.
Qed.

Lemma mapM_drop {C B : Type} (f : C -> outcome B) (l : list C) (bs : list B)
    (k : nat) :
  mapM f l = Done bs -> mapM f (drop k l) = Done (drop k bs).
Proof.
  revert bs k. induction l as [|c l IH]; intros bs k E; simpl in E.
  - inversion E; subst. rewrite !drop_nil. reflexivity.
  - apply bind_Done in E as (b & Eb & E).
    apply bind_Done in E as (bs' & Ebs & E). inversion E; subst; clear E.
    destruct k as [|k]; simpl.
    + rewrite Eb. cbn [bind]. rewrite Ebs. reflexivity.
    + apply IH. exact Ebs.
Qed.

(** The loop writes the leading entries that fit, and stops there. *)
Lemma readDirLoop_spec {C : Type} (baseOf : C -> outcome BaseFSNode)
    (ty : DirentType) (children : list C) (bs : list BaseFSNode)
    (i dstLen size : Z) (written : list Dirent) :
  mapM baseOf children = Done bs ->
  let ds := entriesFrom ty bs i in
  let M := fitCount (dstLen - size) ds in
  readDirLoop baseOf ty children i dstLen size written
  = Done (size + totalLen (take M ds), written ++ take M ds).
Proof.
  revert bs i size written.
  induction children as [|c children IH]; intros bs i size written E; simpl in E.
  - inversion E; subst. simpl. rewrite app_nil_r. f_equal. f_equal. lia.
  - apply bind_Done in E as (b & Eb & E).
    apply bind_Done in E as (bs' & Ebs & E). inversion E; subst; clear E.
    simpl. rewrite Eb. cbn [bind]. unfold WriteDirent.
    pose proof (direntLen_pos (mkDirent (i + 1) (NodeID b) (name b) ty)) as Hpos.
    destruct (Z.leb_spec (direntLen (mkDirent (i + 1) (NodeID b) (name b) ty))
                (dstLen - size)) as [Hfit|Hfit].
    + destruct (Z.eqb_spec (direntLen (mkDirent (i + 1) (NodeID b) (name b) ty)) 0);
        [lia|].
      rewrite (IH bs' (i + 1) _ (written ++ [mkDirent (i + 1) (NodeID b) (name b) ty]) Ebs).
      simpl. rewrite <- app_assoc. simpl.
      replace (dstLen - (size + direntLen (mkDirent (i + 1) (NodeID b) (name b) ty)))
        with (dstLen - size - direntLen (mkDirent (i + 1) (NodeID b) (name b) ty))
        by lia.
      f_equal. f_equal. lia.
    + simpl. rewrite app_nil_r. f_equal. f_equal. lia.
Qed.

Lemma readDir_spec {C : Type} (baseOf : C -> outcome BaseFSNode)
    (ty : DirentType) (children : list C) (bs : list BaseFSNode)
    (dstLen : Z) (k : nat) :
  mapM baseOf children = Done bs ->
  let rest := drop k (entriesFrom ty bs 0) in
  let M := fitCount dstLen rest in
  readDir baseOf ty children dstLen (Z.of_nat k)
  = Done (totalLen (take M rest), take M rest).
Proof.
  intros E rest M. unfold readDir.
  destruct (Z.ltb_spec (Z.of_nat k) 0); [lia|].
  rewrite Nat2Z.id.
  rewrite (readDirLoop_spec baseOf ty _ (drop k bs) (Z.of_nat k) dstLen 0 []
             (mapM_drop _ _ _ k E)).
  unfold M, rest. rewrite entriesFrom_drop. simpl.
  replace (dstLen - 0) with dstLen by lia. reflexivity.
Qed.

(** Every variant's [ReadDir] is that loop over [dirChildren]. *)
Lemma ReadDir_spec (h : Heap) (n : FSNode) (ty : DirentType)
    (bs : list BaseFSNode) (dstLen : Z) (k : nat) :
  dirChildren h n = Done (ty, bs) ->
  let rest := drop k (entriesFrom ty bs 0) in
  let M := fitCount dstLen rest in
  ReadDir h n dstLen (Z.of_nat k) = Done (totalLen (take M rest), take M rest).
Proof.
  intros E rest M. destruct n as [|p|p|p|p|p|p|p]; simpl in E |- *.
  - apply bind_Done in E as (bs' & Ebs & E). inversion E; subst; clear E.
    unfold TrelloTreeRoot_ReadDir. apply readDir_spec. exact Ebs.
  - apply bind_Done in E as (node & En & E).
    apply bind_Done in E as (bs' & Ebs & E). inversion E; subst; clear E.
    unfold FSWorkspace_ReadDir. rewrite En. cbn [bind].
    apply readDir_spec. exact Ebs.
  - apply bind_Done in E as (node & En & E).
    unfold FSBoard_ReadDir. rewrite En. cbn [bind].
    destruct (FSBoard.MetaCardsDir node) as [pc|]; [|discriminate].
    destruct (FSBoard.MetaListsDir node) as [pl|]; [|discriminate].
    apply bind_Done in E as (c & Ec & E).
    apply bind_Done in E as (l & El & E). inversion E; subst; clear E.
    apply readDir_spec. simpl. rewrite Ec. cbn [bind]. rewrite El. reflexivity.
  - apply bind_Done in E as (node & En & E).
    apply bind_Done in E as (bn & Ebn & E).
    apply bind_Done in E as (bs' & Ebs & E). inversion E; subst; clear E.
    unfold FSBoardCardsDirMeta_ReadDir. rewrite En. cbn [bind]. rewrite Ebn. cbn [bind].
    apply readDir_spec. exact Ebs.
  - apply bind_Done in E as (node & En & E).
    apply bind_Done in E as (bn & Ebn & E).
    apply bind_Done in E as (bs' & Ebs & E). inversion E; subst; clear E.
    unfold FSBoardListsDirMeta_ReadDir. rewrite En. cbn [bind]. rewrite Ebn. cbn [bind].
    apply readDir_spec. exact Ebs.
  - apply bind_Done in E as (node & En & E).
    apply bind_Done in E as (bn & Ebn & E).
    apply bind_Done in E as (bs' & Ebs & E). inversion E; subst; clear E.
    unfold FSList_ReadDir. rewrite En. cbn [bind]. rewrite Ebn. cbn [bind].
    apply readDir_spec. exact Ebs.
  - apply bind_Done in E as (node & En & E).
    apply bind_Done in E as (card & Ec & E).
    unfold FSCard_ReadDir. rewrite En. cbn [bind]. rewrite Ec. cbn [bind].
    destruct (Trello.Card.Board card); [|discriminate].
    apply bind_Done in E as (bs' & Ebs & E). inversion E; subst; clear E.
    apply readDir_spec. exact Ebs.
  - inversion E; subst. unfold M, rest. simpl. rewrite drop_nil. reflexivity.
Qed.

(** C4 (amended): for every directory node with children [bs] and every
    buffer that holds the first [K] entries and not one more ([K] less
    than the number of children), [ReadDir] from index 0 writes exactly
    the first [K] entries, in order, entry number [i] carrying the offset
    [i + 1]; and [ReadDir] from offset [K] into a buffer of [dstLen2]
    bytes writes, in order, the leading entries among the remaining ones
    that fit into that buffer: all of the remaining ones exactly when
    their total length is at most [dstLen2], fewer otherwise. *)
Theorem ReadDir_pagination (h : Heap) (n : FSNode) (ty : DirentType)
    (bs : list BaseFSNode) (dstLen : Z) (K : nat) :
  dirChildren h n = Done (ty, bs) ->
  (K < length bs)%nat ->
  totalLen (take K (entriesFrom ty bs 0)) <= dstLen
    < totalLen (take (S K) (entriesFrom ty bs 0)) ->
  let ds := entriesFrom ty bs 0 in
  ReadDir h n dstLen 0 = Done (totalLen (take K ds), take K ds)
  /\ length (take K ds) = K
  /\ (forall i d, take K ds !! i = Some d -> Offset d = Z.of_nat i + 1)
  /\ (forall dstLen2,
        let rest := drop K ds in
        let M := fitCount dstLen2 rest in
        ReadDir h n dstLen2 (Z.of_nat K)
        = Done (totalLen (take M rest), take M rest)
        /\ length rest = (length bs - K)%nat
        /\ (totalLen rest <= dstLen2 -> take M rest = rest)
        /\ (dstLen2 < totalLen rest -> (length (take M rest) < length bs - K)%nat)).
Proof.
  intros E HK Hfit ds.
  assert (Hlen : length ds = length bs) by apply entriesFrom_length.
  split; [|split; [|split]].
  - pose proof (ReadDir_spec h n ty bs dstLen 0 E) as R. simpl in R.
    rewrite drop_0 in R. fold ds in R.
    rewrite (fitCount_exact dstLen ds K) in R; [exact R | lia | exact Hfit].
  - rewrite length_take. lia.
  - intros i d Hd. apply lookup_take_Some in Hd as [Hd _].
    apply entriesFrom_offset in Hd. lia.
  - intros dstLen2 rest M.
    assert (Hrest : length rest = (length bs - K)%nat)
      by (unfold rest; rewrite length_drop; lia).
    split; [|split; [|split]].
    + apply ReadDir_spec. exact E.
    + exact Hrest.
    + intros Hall. unfold M. rewrite fitCount_all by exact Hall.
      apply firstn_all.
    + intros Hless.
      assert (Hne : rest <> []) by (intros E0; rewrite E0 in Hrest; simpl in Hrest; lia).
      pose proof (fitCount_not_all _ _ Hne Hless) as Hlt.
      rewrite length_take. fold M. lia.
Qed.

End Pagination.

(** C4 (as stated, refuted): the root directory of a mount with three
    workspaces [a], [b], [c]; a buffer of 32 bytes holds exactly one of
    their entries.  The first [ReadDir], from 0, writes the entry of [a]
    with offset 1; the second, from offset 1, writes the entry of [b]
    alone, not the two remaining children. *)
Lemma ReadDir_second_page_partial :
  (let fs0 := NewTrelloFS 1000 1000 Scenario.ctx in
   let* '(fs1, page1) := fsReadDir Demo.remote3 Scenario.now fs0 RootInodeID 32 0 in
   let* '(_, page2) := fsReadDir Demo.remote3 Scenario.now fs1 RootInodeID 32 1 in
   Done (page1, page2))
  = Done (Ok (32, [mkDirent 1 2 "a" DT_Directory]),
          Ok (32, [mkDirent 2 3 "b" DT_Directory])).
Proof. vm_compute. reflexivity. Qed.

Lemma ReadDir_pagination_witness :
  ReadDir Demo.heap3 NTrelloTreeRoot 32 0
  = Done (32, [mkDirent 1 2 "a" DT_Directory])
  /\ ReadDir Demo.heap3 NTrelloTreeRoot 64 1
     = Done (64, [mkDirent 2 3 "b" DT_Directory; mkDirent 3 4 "c" DT_Directory])
  /\ ReadDir Demo.heap3 NTrelloTreeRoot 32 1
     = Done (32, [mkDirent 2 3 "b" DT_Directory]).
Proof.
  destruct (ReadDir_pagination Demo.heap3 NTrelloTreeRoot DT_Directory
              (map FSWorkspace.base (workspaces Demo.heap3)) 32 1
              eq_refl ltac:(simpl; lia)
              ltac:(split; vm_compute; [discriminate | reflexivity]))
    as (H1 & _ & _ & H2).
  split; [exact H1|].
  split; [destruct (H2 64) as [H _] | destruct (H2 32) as [H _]]; exact H.
Defined.

(** ** A refresh whose query fails *)

Lemma shouldUpdate_mono (b : BaseFSNode) (now later interval : Z) :
  now <= later ->
  shouldUpdate b now interval = true -> shouldUpdate b later interval = true.
Proof.
  unfold shouldUpdate, Since. intros Hle H.
  apply Z.leb_le in H. apply Z.leb_le. lia.
Qed.

Lemma ShouldUpdate_mono {tc : GoToolchain} (h : Heap) (n : FSNode) (now later : Time) :
  now <= later ->
  ShouldUpdate h now n = Done true -> ShouldUpdate h later n = Done true.
Proof.
  intros Hle. unfold ShouldUpdate.
  destruct n; try discriminate;
    (destruct (getBase h _) as [b|w]; cbn [bind]; [|discriminate];
     intros E; inversion E as [E']; rewrite E';
     rewrite (shouldUpdate_mono b now later _ Hle E'); reflexivity).
Qed.

Lemma with_heap_same (fs : trelloFS) : with_heap fs (heap fs) = fs.
Proof. destruct fs; reflexivity. Qed.

Lemma errorOf_Some {A : Type} (x : result A) (e : error) :
  errorOf x = Some e -> x = Err e.
Proof. destruct x; simpl; intros E; inversion E; reflexivity. Qed.

(** A failed query: [Update] returns the heap as it found it. *)
Lemma Update_query_failed {tc : GoToolchain} (r : Trello.Remote)
    (c : Trello.TrelloCtx.t) (now : Time) (h : Heap) (n : FSNode) (e : error) :
  queryError r c h n = Done (Some e) ->
  Update r c now n h = Done (h, updateFailed e)
  /\ exists b, getBase h n = Done b.
Proof.
  intros Q. destruct n as [|p|p|p|p|p|p|p]; simpl in Q; try discriminate.
  - inversion Q as [Q']. apply errorOf_Some in Q'.
    simpl. unfold TrelloTreeRoot_Update. rewrite Q'. eauto.
  - apply bind_Done in Q as (node & En & Q). inversion Q as [Q'].
    apply errorOf_Some in Q'.
    simpl. unfold FSWorkspace_Update. rewrite En. cbn [bind]. rewrite Q'. eauto.
  - apply bind_Done in Q as (node & En & Q).
    apply bind_Done in Q as (bn & Eb & Q). inversion Q as [Q'].
    apply errorOf_Some in Q'.
    simpl. unfold FSBoardCardsDirMeta_Update. rewrite En. cbn [bind].
    rewrite Eb. cbn [bind]. rewrite Q'. eauto.
  - apply bind_Done in Q as (node & En & Q).
    apply bind_Done in Q as (bn & Eb & Q). inversion Q as [Q'].
    apply errorOf_Some in Q'.
    simpl. unfold FSBoardListsDirMeta_Update. rewrite En. cbn [bind].
    rewrite Eb. cbn [bind]. rewrite Q'. eauto.
  - apply bind_Done in Q as (node & En & Q).
    apply bind_Done in Q as (bn & Eb & Q).
    apply bind_Done in Q as (l & El & Q). inversion Q as [Q'].
    apply errorOf_Some in Q'.
    simpl. unfold FSList_Update. rewrite En. cbn [bind].
    rewrite Eb. cbn [bind]. rewrite El. cbn [bind]. rewrite Q'. eauto.
Qed.

(** C7: if the remote query that the refresh of a directory node issues
    fails with [e], then [Update] returns the heap unchanged (child
    sequences, indices and time stamps included) together with [e] and no
    nodes; [refreshNode] leaves the whole file system unchanged, its inode
    table included; and, the time stamp not having advanced, a refresh
    that was due is still due at any later instant. *)
Theorem failed_refresh_mutates_nothing {tc : GoToolchain} {fl : FuseLib}
    (r : Trello.Remote) (now : Time) (fs : trelloFS) (n : FSNode) (e : error) :
  queryError r (ctx fs) (heap fs) n = Done (Some e) ->
  Update r (ctx fs) now n (heap fs) = Done (heap fs, updateFailed e)
  /\ refreshNode r now fs n = Done fs
  /\ (forall later, now <= later ->
        ShouldUpdate (heap fs) now n = Done true ->
        ShouldUpdate (heap fs) later n = Done true).
Proof.
  intros Q. destruct (Update_query_failed r (ctx fs) now (heap fs) n e Q)
    as [HU [b Hb]].
  split; [exact HU|]. split.
  - unfold refreshNode.
    assert (HS : exists due, ShouldUpdate (heap fs) now n = Done due).
    { unfold ShouldUpdate. destruct n; try (rewrite Hb; cbn [bind]; eauto).
      eauto. }
    destruct HS as [due HS]. rewrite HS. cbn [bind].
    destruct due; simpl; [|reflexivity].
    rewrite HU. cbn [bind]. simpl. rewrite with_heap_same. reflexivity.
  - intros later Hle. apply ShouldUpdate_mono. exact Hle.
Qed.

Lemma failed_refresh_mutates_nothing_witness :
  refreshNode Demo.offline Scenario.now (NewTrelloFS 1000 1000 Scenario.ctx)
    NTrelloTreeRoot
  = Done (NewTrelloFS 1000 1000 Scenario.ctx).
Proof.
  destruct (failed_refresh_mutates_nothing Demo.offline Scenario.now
              (NewTrelloFS 1000 1000 Scenario.ctx)
              NTrelloTreeRoot
              (ApiError "/members/me/organizations?fields=id,name,displayName")
              eq_refl) as (_ & H & _).
  exact H.
Defined.

(** The request that triggered the failed refresh goes on with the
    children the node already has: [refreshNode] does not hand the error
    to its caller. *)
Example ReadDir_after_failed_refresh :
  fsReadDir Demo.offline Scenario.now (NewTrelloFS 1000 1000 Scenario.ctx)
    RootInodeID 4096 0
  = Done (NewTrelloFS 1000 1000 Scenario.ctx, Ok (0, [])).
Proof. vm_compute. reflexivity. Qed.

(** ** Refreshing a card twice *)

Lemma FSCard_Update_body_skip
    (arena : list FSCardMetaFile.t) (node : FSCard.t) (news : list FSNode)
    (entry : MetaEntry) :
  is_Some (FSCard.ByName node !! entryName entry) ->
  FSCard_Update_body (arena, node, news) entry = (arena, node, news).
Proof. intros [q Hq]. unfold FSCard_Update_body. rewrite Hq. reflexivity. Qed.

Lemma FSCard_Update_body_new
    (arena : list FSCardMetaFile.t) (node : FSCard.t) (news : list FSNode)
    (entry : MetaEntry) :
  FSCard.ByName node !! entryName entry = None ->
  exists file byID,
    FSCard_Update_body (arena, node, news) entry
    = (arena ++ [file],
       FSCard.mk (FSCard.base node) (FSCard.MetaFiles node ++ [length arena])
         (<[entryName entry := length arena]> (FSCard.ByName node)) byID
         (FSCard.Card node),
       news ++ [NFSCardMetaFile (length arena)]).
Proof. intros Hq. unfold FSCard_Update_body. rewrite Hq. eauto. Qed.

(** Once every entry has its file, the loop changes nothing. *)
Lemma FSCard_Update_loop_skip
    (meta : list MetaEntry) (arena : list FSCardMetaFile.t) (node : FSCard.t)
    (news : list FSNode) :
  (forall entry, entry ∈ meta -> is_Some (FSCard.ByName node !! entryName entry)) ->
  fold_left FSCard_Update_body meta (arena, node, news) = (arena, node, news).
Proof.
  induction meta as [|entry meta IH]; intros Hall; cbn [fold_left]; [reflexivity|].
  rewrite FSCard_Update_body_skip by (apply Hall; left).
  apply IH. intros e He. apply Hall. right. exact He.
Qed.

(** The loop only adds names, keeps the embedded base and the record
    pointer, and leaves every entry with a file. *)
Lemma FSCard_Update_loop_names
    (meta : list MetaEntry) (arena : list FSCardMetaFile.t) (node : FSCard.t)
    (news : list FSNode) :
  forall arena' node' news',
    fold_left FSCard_Update_body meta (arena, node, news) = (arena', node', news') ->
    FSCard.base node' = FSCard.base node
    /\ FSCard.Card node' = FSCard.Card node
    /\ (forall k, is_Some (FSCard.ByName node !! k) -> is_Some (FSCard.ByName node' !! k))
    /\ (forall entry, entry ∈ meta -> is_Some (FSCard.ByName node' !! entryName entry)).
Proof.
  revert arena node news.
  induction meta as [|entry meta IH]; intros arena node news arena' node' news' E;
    cbn [fold_left] in E.
  - inversion E; subst. repeat split; auto. intros e He. inversion He.
  - destruct (FSCard.ByName node !! entryName entry) as [q|] eqn:Hq.
    + rewrite FSCard_Update_body_skip in E by (rewrite Hq; eauto).
      destruct (IH _ _ _ _ _ _ E) as (Hb & Hc & Hmono & Hall).
      repeat split; auto.
      intros e He. apply elem_of_cons in He as [->|He]; [|auto].
      apply Hmono. rewrite Hq. eauto.
    + destruct (FSCard_Update_body_new arena node news entry Hq) as (file & byID' & Eb).
      rewrite Eb in E.
      destruct (IH _ _ _ _ _ _ E) as (Hb & Hc & Hmono & Hall). simpl in *.
      repeat split; auto.
      * intros k Hk. apply Hmono.
        destruct (decide (entryName entry = k)) as [->|Hne].
        -- rewrite lookup_insert_eq. eauto.
        -- rewrite lookup_insert_ne by exact Hne. exact Hk.
      * intros e He. apply elem_of_cons in He as [->|He]; [|auto].
        apply Hmono. rewrite lookup_insert_eq. eauto.
Qed.

(** On the heap that one run of [FSCard.Update] leaves, before anything
    else happens to it, a second run returns no new nodes and leaves the
    heap as it is.  Neither run advances the time stamp of the card, so
    [ShouldUpdate] answers as before; for a card node whose time stamp is
    the zero time, as every card node is built, the answer is true at any
    instant at least 30 seconds after the zero time. *)
Lemma FSCard_Update_rerun {tc : GoToolchain} (h h1 : Heap) (p : nat)
    (res : UpdateResult) :
  FSCard_Update p h = Done (h1, res) ->
  FSCard_Update p h1 = Done (h1, updateOk [])
  /\ (forall now, ShouldUpdate h1 now (NFSCard p) = ShouldUpdate h now (NFSCard p))
  /\ (forall node now,
        cards h !! p = Some node ->
        lastUpdate (FSCard.base node) = zeroTime ->
        30 * 1000000000 <= now ->
        ShouldUpdate h1 now (NFSCard p) = Done true).
Proof.
  intros U. unfold FSCard_Update in U.
  apply bind_Done in U as (node0 & En & U).
  apply bind_Done in U as (card & Ec & U).
  destruct (Trello.Card.Board card) as [board|] eqn:Hboard; [|discriminate].
  apply bind_Done in U as (meta & Em & U).
  destruct (fold_left FSCard_Update_body meta (metaFiles h, node0, []))
    as [[arena node] news] eqn:Hfold.
  inversion U; subst h1 res; clear U.
  destruct (FSCard_Update_loop_names _ _ _ _ _ _ _ Hfold) as (Hb & Hc & _ & Hall).
  apply deref_Done in En. apply deref_Done in Ec.
  pose proof (lookup_lt_Some _ _ _ En) as Hlt.
  assert (Hnode : cards (set_cards (set_metaFiles h arena) (<[p:=node]> (cards h))) !! p
                  = Some node)
    by (simpl; apply list_lookup_insert_eq; exact Hlt).
  split; [|split].
  - unfold FSCard_Update. rewrite (deref_Some _ _ _ Hnode). cbn [bind].
    simpl cardVars. rewrite Hc, (deref_Some _ _ _ Ec). cbn [bind].
    rewrite Hboard, Em. cbn [bind]. simpl metaFiles.
    rewrite (FSCard_Update_loop_skip meta arena node [] Hall).
    simpl cards. rewrite list_insert_insert_eq.
    destruct h; reflexivity.
  - intros now. unfold ShouldUpdate, getBase.
    rewrite (deref_Some _ _ _ Hnode), (deref_Some _ _ _ En). cbn [bind].
    rewrite Hb. reflexivity.
  - intros node1 now En1 Hz Hnow. rewrite En in En1. inversion En1; subst node1.
    unfold ShouldUpdate, getBase. rewrite (deref_Some _ _ _ Hnode). cbn [bind].
    rewrite Hb. unfold shouldUpdate, Since. rewrite Hz. unfold zeroTime, int64_max.
    f_equal. apply Z.leb_le. lia.
Qed.

(** ** Children with the same name *)



(** A scan over freshly appended nodes finds the first with the name. *)
Lemma lookupName_fresh {A : Type} (baseOf : A -> BaseFSNode) (xs pre : list A)
    (nm : string) (i : nat) (x : A) :
  xs !! i = Some x ->
  name (baseOf x) = nm ->
  (forall j x', (j < i)%nat -> xs !! j = Some x' -> name (baseOf x') <> nm) ->
  lookupName (pre ++ xs) baseOf (seq (length pre) (length xs)) nm
  = Done (Some (length pre + i)%nat).
Proof.
  revert pre i. induction xs as [|x0 xs IH]; intros pre i Hi Hnm Hfirst;
    [discriminate|].
  simpl length. simpl seq. cbn [lookupName].
  rewrite (deref_Some (pre ++ x0 :: xs) (length pre) x0)
    by (rewrite lookup_app_r by lia; rewrite Nat.sub_diag; reflexivity).
  cbn [bind].
  destruct i as [|i].
  - simpl in Hi. inversion Hi; subst x0.
    rewrite (proj2 (String.eqb_eq _ _) Hnm). f_equal. f_equal. lia.
  - assert (Hne : name (baseOf x0) <> nm) by (apply (Hfirst 0%nat); [lia | reflexivity]).
    rewrite (proj2 (String.eqb_neq _ _) Hne).
    replace (pre ++ x0 :: xs) with ((pre ++ [x0]) ++ xs)
      by (rewrite <- app_assoc; reflexivity).
    replace (S (length pre)) with (length (pre ++ [x0]))
      by (rewrite length_app; simpl; lia).
    rewrite (IH (pre ++ [x0]) i Hi Hnm).
    + f_equal. f_equal. rewrite length_app. simpl. lia.
    + intros j x' Hj Hx'. apply (Hfirst (S j)); [lia | exact Hx'].
Qed.





(** ** One card node for both views *)

Section SharedCards.
Context {tc : GoToolchain}.
Variable nm : string -> string.

(** The board learns a card it did not know: a new node at the end of the
    arena. *)
Lemma shared_cards_new (arena : list FSCard.t) (nb : FSBoard.t) (nl : FSList.t)
    (u g : Z) (card : Trello.Card.t) (cell : nat) :
  shared_cards nm arena nb nl ->
  FSBoard.ByCardID nb !! Trello.Card.ID card = None ->
  Trello.Card.Name card = nm (Trello.Card.ID card) ->
  shared_cards nm (arena ++ [newFSCard u g card cell])
    (FSBoard_addCard nb card (length arena)) nl.
Proof.
  intros S Hnone Hname.
  assert (Hat : (arena ++ [newFSCard u g card cell]) !! length arena
                = Some (newFSCard u g card cell))
    by (rewrite lookup_app_r by lia; rewrite Nat.sub_diag; reflexivity).
  split; unfold FSBoard_addCard;
    cbn [FSBoard.ByCardID FSBoard.Cards].
  - intros id q H.
    destruct (decide (Trello.Card.ID card = id)) as [<-|Hne].
    + rewrite lookup_insert_eq in H. inversion H; subst q. split.
      * apply elem_of_app. right. apply list_elem_of_singleton. reflexivity.
      * exists (newFSCard u g card cell). split; [exact Hat | reflexivity].
    + rewrite lookup_insert_ne in H by exact Hne.
      destruct (board_index _ _ _ _ S id q H) as [Hin (c & Hc & Hid)]. split.
      * apply elem_of_app. left. exact Hin.
      * exists c. split; [apply lookup_app_l_Some; exact Hc | exact Hid].
  - intros q Hin. apply elem_of_app in Hin as [Hin|Hin].
    + destruct (board_cards _ _ _ _ S q Hin) as (c & Hc & Hidx & Hn).
      exists c. split; [apply lookup_app_l_Some; exact Hc|]. split; [|exact Hn].
      rewrite lookup_insert_ne; [exact Hidx|].
      intros Heq. rewrite <- Heq in Hidx. congruence.
    + apply list_elem_of_singleton in Hin. subst q.
      exists (newFSCard u g card cell). split; [exact Hat|]. split.
      * apply lookup_insert_eq.
      * exact Hname.
  - intros id q H. destruct (list_index _ _ _ _ S id q H) as [Hb Hin].
    split; [|exact Hin].
    rewrite lookup_insert_ne; [exact Hb|]. intros Heq. subst id. congruence.
  - intros q Hin. destruct (list_cards _ _ _ _ S q Hin) as (c & Hc & Hidx).
    exists c. split; [apply lookup_app_l_Some; exact Hc | exact Hidx].
Qed.

(** The board is handed, once more, a card it knows. *)
Lemma shared_cards_again (arena : list FSCard.t) (nb : FSBoard.t) (nl : FSList.t)
    (card : Trello.Card.t) (q : nat) :
  shared_cards nm arena nb nl ->
  FSBoard.ByCardID nb !! Trello.Card.ID card = Some q ->
  shared_cards nm arena (FSBoard_addCard nb card q) nl.
Proof.
  intros S Hq.
  destruct (board_index _ _ _ _ S _ _ Hq) as [Hqin _].
  split; unfold FSBoard_addCard; cbn [FSBoard.ByCardID FSBoard.Cards];
    rewrite ?(insert_id _ _ _ Hq).
  - intros id q' H. destruct (board_index _ _ _ _ S id q' H) as [Hin Hc].
    split; [apply elem_of_app; left; exact Hin | exact Hc].
  - intros q' Hin. apply (board_cards _ _ _ _ S).
    apply elem_of_app in Hin as [Hin|Hin]; [exact Hin|].
    apply list_elem_of_singleton in Hin. subst q'. exact Hqin.
  - apply (list_index _ _ _ _ S).
  - apply (list_cards _ _ _ _ S).
Qed.

(** The list learns a card that the board knows. *)
Lemma shared_cards_listed (arena : list FSCard.t) (nb : FSBoard.t) (nl : FSList.t)
    (card : Trello.Card.t) (q : nat) :
  shared_cards nm arena nb nl ->
  FSBoard.ByCardID nb !! Trello.Card.ID card = Some q ->
  FSList.ByID nl !! Trello.Card.ID card = None ->
  shared_cards nm arena nb (FSList_addCard nl card q).
Proof.
  intros S Hq Hnone.
  split; unfold FSList_addCard; cbn [FSList.ByID FSList.Cards].
  - apply (board_index _ _ _ _ S).
  - apply (board_cards _ _ _ _ S).
  - intros id q' H.
    destruct (decide (Trello.Card.ID card = id)) as [<-|Hne].
    + rewrite lookup_insert_eq in H. inversion H; subst q'. split; [exact Hq|].
      apply elem_of_app. right. apply list_elem_of_singleton. reflexivity.
    + rewrite lookup_insert_ne in H by exact Hne.
      destruct (list_index _ _ _ _ S id q' H) as [Hb Hin].
      split; [exact Hb | apply elem_of_app; left; exact Hin].
  - intros q' Hin. apply elem_of_app in Hin as [Hin|Hin].
    + destruct (list_cards _ _ _ _ S q' Hin) as (c & Hc & Hidx).
      exists c. split; [exact Hc|].
      rewrite lookup_insert_ne; [exact Hidx|].
      intros Heq. rewrite <- Heq in Hidx. congruence.
    + apply list_elem_of_singleton in Hin. subst q'.
      destruct (board_index _ _ _ _ S _ _ Hq) as [_ (c & Hc & Hid)].
      exists c. split; [exact Hc|]. rewrite Hid. apply lookup_insert_eq.
Qed.

(** Only the children and the id index of the list node matter. *)
Lemma shared_cards_list_ext (arena : list FSCard.t) (nb : FSBoard.t)
    (nl nl' : FSList.t) :
  shared_cards nm arena nb nl ->
  FSList.Cards nl' = FSList.Cards nl ->
  FSList.ByID nl' = FSList.ByID nl ->
  shared_cards nm arena nb nl'.
Proof.
  intros S Hc Hi. split.
  - apply (board_index _ _ _ _ S).
  - apply (board_cards _ _ _ _ S).
  - rewrite Hc, Hi. apply (list_index _ _ _ _ S).
  - rewrite Hc, Hi. apply (list_cards _ _ _ _ S).
Qed.

End SharedCards.

Section BothViewsProofs.
Context {tc : GoToolchain}.
Variable nm : string -> string.

Lemma FSBoardCardsDirMeta_Update_body_shared (u g : Z) (shared : nat)
    (arena : list FSCard.t) (vars : list Trello.Card.t) (nb : FSBoard.t)
    (news : list FSNode) (nl : FSList.t) (card : Trello.Card.t) :
  shared_cards nm arena nb nl ->
  wellNamed nm card ->
  exists arena' vars' nb' news',
    FSBoardCardsDirMeta_Update_body u g shared (arena, vars, nb, news) card
    = (arena', vars', nb', news')
    /\ shared_cards nm arena' nb' nl
    /\ FSBoard.Board nb' = FSBoard.Board nb.
Proof.
  intros S Hname. unfold FSBoardCardsDirMeta_Update_body.
  destruct (loopVar vars shared card) as [vars' cell].
  destruct (FSBoard.ByCardID nb !! Trello.Card.ID card) as [q|] eqn:Hq.
  - eexists _, _, _, _. split; [reflexivity|]. split; [exact S | reflexivity].
  - eexists _, _, _, _. split; [reflexivity|]. split; [|reflexivity].
    apply shared_cards_new; assumption.
Qed.

Lemma FSBoardCardsDirMeta_Update_loop_shared (u g : Z) (shared : nat)
    (nl : FSList.t) (cs : list Trello.Card.t) :
  forall (arena : list FSCard.t) (vars : list Trello.Card.t) (nb : FSBoard.t)
         (news : list FSNode),
    shared_cards nm arena nb nl ->
    Forall (wellNamed nm) cs ->
    exists arena' vars' nb' news',
      fold_left (FSBoardCardsDirMeta_Update_body u g shared) cs
        (arena, vars, nb, news)
      = (arena', vars', nb', news')
      /\ shared_cards nm arena' nb' nl
      /\ FSBoard.Board nb' = FSBoard.Board nb.
Proof.
  induction cs as [|card cs IH]; intros arena vars nb news S Hall.
  - eexists _, _, _, _. split; [reflexivity|]. split; [exact S | reflexivity].
  - apply Forall_cons in Hall as [Hcard Hall]. cbn [fold_left].
    destruct (FSBoardCardsDirMeta_Update_body_shared u g shared arena vars nb
                news nl card S Hcard) as (a1 & v1 & b1 & w1 & E1 & S1 & B1).
    rewrite E1.
    destruct (IH a1 v1 b1 w1 S1 Hall) as (a2 & v2 & b2 & w2 & E2 & S2 & B2).
    eexists _, _, _, _. split; [exact E2|]. split; [exact S2 | congruence].
Qed.

Lemma FSList_Update_body_shared (u g : Z) (shared : nat)
    (arena : list FSCard.t) (vars : list Trello.Card.t) (nl : FSList.t)
    (nb : FSBoard.t) (news : list FSNode) (card : Trello.Card.t) :
  shared_cards nm arena nb nl ->
  wellNamed nm card ->
  exists arena' vars' nl' nb' news',
    FSList_Update_body u g shared (arena, vars, nl, nb, news) card
    = (arena', vars', nl', nb', news')
    /\ shared_cards nm arena' nb' nl'
    /\ FSBoard.Board nb' = FSBoard.Board nb
    /\ FSList.base nl' = FSList.base nl
    /\ FSList.BoardNode nl' = FSList.BoardNode nl
    /\ FSList.List nl' = FSList.List nl
    /\ is_Some (FSList.ByID nl' !! Trello.Card.ID card)
    /\ (forall id, is_Some (FSList.ByID nl !! id) -> is_Some (FSList.ByID nl' !! id)).
Proof.
  intros S Hname. unfold FSList_Update_body.
  destruct (loopVar vars shared card) as [vars' cell].
  destruct (FSBoard.ByCardID nb !! Trello.Card.ID card) as [q|] eqn:Hq;
    destruct (FSList.ByID nl !! Trello.Card.ID card) as [q'|] eqn:Hl.
  - eexists _, _, _, _, _. split; [reflexivity|].
    split_and!; auto.
  - eexists _, _, _, _, _. split; [reflexivity|].
    split; [|split_and!; try reflexivity].
    + apply shared_cards_listed; [| |exact Hl].
      * apply shared_cards_again; assumption.
      * unfold FSBoard_addCard. cbn [FSBoard.ByCardID]. apply lookup_insert_eq.
    + unfold FSList_addCard. cbn [FSList.ByID]. rewrite lookup_insert_eq. eauto.
    + intros id Hid. unfold FSList_addCard. cbn [FSList.ByID].
      destruct (decide (Trello.Card.ID card = id)) as [<-|Hne].
      * rewrite lookup_insert_eq. eauto.
      * rewrite lookup_insert_ne by exact Hne. exact Hid.
  - exfalso. destruct (list_index _ _ _ _ S _ _ Hl) as [Hb _]. congruence.
  - eexists _, _, _, _, _. split; [reflexivity|].
    split; [|split_and!; try reflexivity].
    + apply shared_cards_listed; [| |exact Hl].
      * apply shared_cards_new; assumption.
      * unfold FSBoard_addCard. cbn [FSBoard.ByCardID]. apply lookup_insert_eq.
    + unfold FSList_addCard. cbn [FSList.ByID]. rewrite lookup_insert_eq. eauto.
    + intros id Hid. unfold FSList_addCard. cbn [FSList.ByID].
      destruct (decide (Trello.Card.ID card = id)) as [<-|Hne].
      * rewrite lookup_insert_eq. eauto.
      * rewrite lookup_insert_ne by exact Hne. exact Hid.
Qed.

Lemma FSList_Update_loop_shared (u g : Z) (shared : nat)
    (cs : list Trello.Card.t) :
  forall (arena : list FSCard.t) (vars : list Trello.Card.t) (nl : FSList.t)
         (nb : FSBoard.t) (news : list FSNode),
    shared_cards nm arena nb nl ->
    Forall (wellNamed nm) cs ->
    exists arena' vars' nl' nb' news',
      fold_left (FSList_Update_body u g shared) cs (arena, vars, nl, nb, news)
      = (arena', vars', nl', nb', news')
      /\ shared_cards nm arena' nb' nl'
      /\ FSBoard.Board nb' = FSBoard.Board nb
      /\ FSList.base nl' = FSList.base nl
      /\ FSList.BoardNode nl' = FSList.BoardNode nl
      /\ FSList.List nl' = FSList.List nl
      /\ (forall card, card ∈ cs -> is_Some (FSList.ByID nl' !! Trello.Card.ID card))
      /\ (forall id, is_Some (FSList.ByID nl !! id) -> is_Some (FSList.ByID nl' !! id)).
Proof.
  induction cs as [|card cs IH]; intros arena vars nl nb news S Hall.
  - eexists _, _, _, _, _. split; [reflexivity|].
    split_and!; auto. intros c Hc. inversion Hc.
  - apply Forall_cons in Hall as [Hcard Hall]. cbn [fold_left].
    destruct (FSList_Update_body_shared u g shared arena vars nl nb news card
                S Hcard)
      as (a1 & v1 & l1 & b1 & w1 & E1 & S1 & B1 & Ba1 & N1 & L1 & Hin1 & Hm1).
    rewrite E1.
    destruct (IH a1 v1 l1 b1 w1 S1 Hall)
      as (a2 & v2 & l2 & b2 & w2 & E2 & S2 & B2 & Ba2 & N2 & L2 & Hin2 & Hm2).
    eexists _, _, _, _, _. split; [exact E2|].
    split; [exact S2|]. split_and!; try congruence.
    + intros c Hc. apply elem_of_cons in Hc as [->|Hc]; [|auto].
      apply Hm2. exact Hin1.
    + intros id Hid. apply Hm2, Hm1. exact Hid.
Qed.

(** A scan finds [q0] when it is among the children and every child of
    that name is [q0]. *)
Lemma lookupName_unique (arena : list FSCard.t) (l : list nat) (x : string)
    (q0 : nat) (c0 : FSCard.t) :
  q0 ∈ l ->
  arena !! q0 = Some c0 ->
  name (FSCard.base c0) = x ->
  (forall q, q ∈ l ->
     exists c, arena !! q = Some c /\ (name (FSCard.base c) = x -> q = q0)) ->
  lookupName arena FSCard.base l x = Done (Some q0).
Proof.
  intros Hin H0 Hx. induction l as [|q l IH]; intros Hall; [inversion Hin|].
  cbn [lookupName].
  destruct (Hall q) as (c & Hc & Hq); [left|].
  rewrite (deref_Some _ _ _ Hc). cbn [bind].
  destruct (String.eqb_spec (name (FSCard.base c)) x) as [E|E].
  - rewrite (Hq E). reflexivity.
  - apply elem_of_cons in Hin as [->|Hin].
    + exfalso. rewrite H0 in Hc. inversion Hc; subst c. contradiction.
    + apply IH; [exact Hin|]. intros q' Hq'. apply Hall. right. exact Hq'.
Qed.

(** Under [shared_cards], with names a one-to-one function of ids, a card
    that the list indexes is found under its name at the same address by
    the board and by the list. *)
Lemma shared_cards_lookup (arena : list FSCard.t) (nb : FSBoard.t)
    (nl : FSList.t) (card : Trello.Card.t) :
  (forall a b, nm a = nm b -> a = b) ->
  shared_cards nm arena nb nl ->
  wellNamed nm card ->
  is_Some (FSList.ByID nl !! Trello.Card.ID card) ->
  exists q c,
    lookupName arena FSCard.base (FSBoard.Cards nb) (Trello.Card.Name card)
    = Done (Some q)
    /\ lookupName arena FSCard.base (FSList.Cards nl) (Trello.Card.Name card)
       = Done (Some q)
    /\ arena !! q = Some c
    /\ TrelloID (FSCard.base c) = Trello.Card.ID card.
Proof.
  intros Hinj S Hname [q Hq].
  destruct (list_index _ _ _ _ S _ _ Hq) as [Hb Hinl].
  destruct (board_index _ _ _ _ S _ _ Hb) as [Hinb (c & Hc & Hid)].
  destruct (board_cards _ _ _ _ S _ Hinb) as (c' & Hc' & _ & Hn).
  rewrite Hc in Hc'. inversion Hc'; subst c'; clear Hc'.
  assert (Hcname : name (FSCard.base c) = Trello.Card.Name card)
    by (rewrite Hn, Hid; symmetry; exact Hname).
  exists q, c. split_and!; auto.
  - apply (lookupName_unique arena _ _ q c Hinb Hc Hcname).
    intros q' Hq'.
    destruct (board_cards _ _ _ _ S _ Hq') as (c' & Hc' & Hidx' & Hn').
    exists c'. split; [exact Hc'|]. intros E.
    assert (Hid' : TrelloID (FSCard.base c') = Trello.Card.ID card).
    { apply Hinj. rewrite <- Hn', E. exact Hname. }
    rewrite Hid' in Hidx'. congruence.
  - apply (lookupName_unique arena _ _ q c Hinl Hc Hcname).
    intros q' Hq'.
    destruct (list_cards _ _ _ _ S _ Hq') as (c' & Hc' & Hidx').
    exists c'. split; [exact Hc'|]. intros E.
    destruct (list_index _ _ _ _ S _ _ Hidx') as [Hb' _].
    destruct (board_index _ _ _ _ S _ _ Hb') as [Hinb' _].
    destruct (board_cards _ _ _ _ S _ Hinb') as (c'' & Hc'' & _ & Hn'').
    rewrite Hc' in Hc''. inversion Hc''; subst c''; clear Hc''.
    assert (Hid' : TrelloID (FSCard.base c') = Trello.Card.ID card).
    { apply Hinj. rewrite <- Hn'', E. exact Hname. }
    rewrite Hid' in Hidx'. congruence.
Qed.

(** [FSBoardCardsDirMeta.Update] keeps the board and its list in step. *)
Lemma FSBoardCardsDirMeta_Update_shared (r : Trello.Remote) (now : Time)
    (h : Heap) (pc pb : nat) (ncd : FSBoardCardsDirMeta.t) (nb : FSBoard.t)
    (nl : FSList.t) (cs : list Trello.Card.t) :
  cardsDirs h !! pc = Some ncd ->
  FSBoardCardsDirMeta.BoardNode ncd = pb ->
  boards h !! pb = Some nb ->
  Trello.Board_GetCards r (FSBoard.Board nb) = Ok cs ->
  shared_cards nm (cards h) nb nl ->
  Forall (wellNamed nm) cs ->
  exists h' res ncd' nb',
    FSBoardCardsDirMeta_Update r now pc h = Done (h', res)
    /\ cardsDirs h' !! pc = Some ncd'
    /\ FSBoardCardsDirMeta.BoardNode ncd' = pb
    /\ boards h' !! pb = Some nb'
    /\ FSBoard.Board nb' = FSBoard.Board nb
    /\ lists h' = lists h
    /\ listVars h' = listVars h
    /\ shared_cards nm (cards h') nb' nl.
Proof.
  intros Hc Hbn Hb Hq S Hall. subst pb.
  destruct (FSBoardCardsDirMeta_Update_loop_shared
              (uid (FSBoardCardsDirMeta.base ncd)) (gid (FSBoardCardsDirMeta.base ncd))
              (length (cardVars h)) nl cs (cards h)
              (enterLoop (cardVars h) Trello.Card.zero) nb [] S Hall)
    as (a' & v' & nb' & w' & E & S' & B').
  unfold FSBoardCardsDirMeta_Update.
  rewrite (deref_Some _ _ _ Hc). cbn [bind].
  rewrite (deref_Some _ _ _ Hb). cbn [bind].
  rewrite Hq, E.
  eexists _, _,
    (FSBoardCardsDirMeta.mk (markUpdated (FSBoardCardsDirMeta.base ncd) now)
       (FSBoardCardsDirMeta.BoardNode ncd)), nb'.
  split; [reflexivity|]. simpl.
  split_and!.
  - apply list_lookup_insert_eq. eapply lookup_lt_Some. exact Hc.
  - reflexivity.
  - apply list_lookup_insert_eq. eapply lookup_lt_Some. exact Hb.
  - exact B'.
  - reflexivity.
  - reflexivity.
  - exact S'.
Qed.

(** [FSList.Update] does, and afterwards the list indexes every card
    reported for it. *)
Lemma FSList_Update_shared (r : Trello.Remote) (now : Time)
    (h : Heap) (pl pb : nat) (nl : FSList.t) (nb : FSBoard.t)
    (lrec : Trello.List.t) (cs : list Trello.Card.t) :
  lists h !! pl = Some nl ->
  FSList.BoardNode nl = pb ->
  boards h !! pb = Some nb ->
  listVars h !! FSList.List nl = Some lrec ->
  Trello.List_GetCards r lrec = Ok cs ->
  shared_cards nm (cards h) nb nl ->
  Forall (wellNamed nm) cs ->
  exists h' res nl' nb',
    FSList_Update r now pl h = Done (h', res)
    /\ lists h' !! pl = Some nl'
    /\ FSList.BoardNode nl' = pb
    /\ FSList.List nl' = FSList.List nl
    /\ boards h' !! pb = Some nb'
    /\ FSBoard.Board nb' = FSBoard.Board nb
    /\ cardsDirs h' = cardsDirs h
    /\ listVars h' = listVars h
    /\ shared_cards nm (cards h') nb' nl'
    /\ (forall card, card ∈ cs -> is_Some (FSList.ByID nl' !! Trello.Card.ID card))
    /\ (forall id, is_Some (FSList.ByID nl !! id) -> is_Some (FSList.ByID nl' !! id)).
Proof.
  intros Hl Hbn Hb Hv Hq S Hall. subst pb.
  destruct (FSList_Update_loop_shared
              (uid (FSList.base nl)) (gid (FSList.base nl))
              (length (cardVars h)) cs (cards h)
              (enterLoop (cardVars h) Trello.Card.zero) nl nb [] S Hall)
    as (a' & v' & nl' & nb' & w' & E & S' & B' & Ba' & N' & L' & Hin & Hmono).
  unfold FSList_Update.
  rewrite (deref_Some _ _ _ Hl). cbn [bind].
  rewrite (deref_Some _ _ _ Hb). cbn [bind].
  rewrite (deref_Some _ _ _ Hv). cbn [bind].
  rewrite Hq, E.
  eexists _, _,
    (FSList.mk (markUpdated (FSList.base nl') now) (FSList.Cards nl')
       (FSList.ByID nl') (FSList.ByName nl') (FSList.BoardNode nl')
       (FSList.List nl')), nb'.
  split; [reflexivity|]. simpl.
  split_and!.
  - apply list_lookup_insert_eq. eapply lookup_lt_Some. exact Hl.
  - exact N'.
  - exact L'.
  - apply list_lookup_insert_eq. eapply lookup_lt_Some. exact Hb.
  - exact B'.
  - reflexivity.
  - reflexivity.
  - eapply shared_cards_list_ext; [exact S' | reflexivity | reflexivity].
  - exact Hin.
  - exact Hmono.
Qed.

(** C1 (amended): let the names of cards be a one-to-one function of
    their ids, in the replies and among the cards the board already has,
    and let the node of the list hold the record of its own list: the id
    in the record that its pointer leads to is the id the node was made
    for.  For every card record reported both by the query of the board's
    [cards] directory and by the query of the cards of that list,
    whichever of the two is refreshed first, looking up the card's name
    under [cards] and under the list returns the same card node: the same
    address in the heap, hence the same inode number, attributes and
    field files; it is the node of that card's id. *)
Theorem card_shared_by_both_views (r : Trello.Remote) (now : Time) (h : Heap)
    (pc pl pb : nat) (ncd : FSBoardCardsDirMeta.t) (nl : FSList.t)
    (nb : FSBoard.t) (lrec : Trello.List.t) (cs_b cs_l : list Trello.Card.t)
    (card : Trello.Card.t) (cardsFirst : bool) :
  (forall a b, nm a = nm b -> a = b) ->
  cardsDirs h !! pc = Some ncd ->
  FSBoardCardsDirMeta.BoardNode ncd = pb ->
  lists h !! pl = Some nl ->
  FSList.BoardNode nl = pb ->
  boards h !! pb = Some nb ->
  listVars h !! FSList.List nl = Some lrec ->
  Trello.List.ID lrec = TrelloID (FSList.base nl) ->
  shared_cards nm (cards h) nb nl ->
  Trello.Board_GetCards r (FSBoard.Board nb) = Ok cs_b ->
  Trello.getCards r
    (Trello.MakeEndpoint ("/lists/" +:+ TrelloID (FSList.base nl) +:+ "/cards") [])
  = Ok cs_l ->
  Forall (wellNamed nm) cs_b ->
  Forall (wellNamed nm) cs_l ->
  card ∈ cs_b ->
  card ∈ cs_l ->
  exists h2 q node,
    refreshBoth cardsFirst r now pc pl h = Done h2
    /\ LookupChild h2 (NFSBoardCardsDirMeta pc) (Trello.Card.Name card)
       = Done (Ok (NFSCard q))
    /\ LookupChild h2 (NFSList pl) (Trello.Card.Name card)
       = Done (Ok (NFSCard q))
    /\ cards h2 !! q = Some node
    /\ TrelloID (FSCard.base node) = Trello.Card.ID card.
Proof.
  intros Hinj Hc Hcb Hl Hlb Hb Hv Hown S Hqb Hql0 Hwb Hwl Hinb Hinl.
  assert (Hql : Trello.List_GetCards r lrec = Ok cs_l)
    by (unfold Trello.List_GetCards; rewrite Hown; exact Hql0).
  assert (Hname : wellNamed nm card)
    by (eapply Forall_forall in Hwl; [exact Hwl | exact Hinl]).
  assert (Hfinal : forall h2 ncd2 nb2 nl2,
            cardsDirs h2 !! pc = Some ncd2 ->
            FSBoardCardsDirMeta.BoardNode ncd2 = pb ->
            boards h2 !! pb = Some nb2 ->
            lists h2 !! pl = Some nl2 ->
            shared_cards nm (cards h2) nb2 nl2 ->
            is_Some (FSList.ByID nl2 !! Trello.Card.ID card) ->
            exists q node,
              LookupChild h2 (NFSBoardCardsDirMeta pc) (Trello.Card.Name card)
              = Done (Ok (NFSCard q))
              /\ LookupChild h2 (NFSList pl) (Trello.Card.Name card)
                 = Done (Ok (NFSCard q))
              /\ cards h2 !! q = Some node
              /\ TrelloID (FSCard.base node) = Trello.Card.ID card).
  { intros h2 ncd2 nb2 nl2 Hc2 Hcb2 Hb2 Hl2 S2 Hidx.
    destruct (shared_cards_lookup (cards h2) nb2 nl2 card Hinj S2 Hname Hidx)
      as (q & c & Lb & Ll & Hq & Hid).
    exists q, c. split_and!; auto.
    - unfold LookupChild, FSBoardCardsDirMeta_LookupChild.
      rewrite (deref_Some _ _ _ Hc2). cbn [bind]. rewrite Hcb2.
      rewrite (deref_Some _ _ _ Hb2). cbn [bind]. rewrite Lb. reflexivity.
    - unfold LookupChild, FSList_LookupChild.
      rewrite (deref_Some _ _ _ Hl2). cbn [bind]. rewrite Ll. reflexivity. }
  unfold refreshBoth. destruct cardsFirst.
  - destruct (FSBoardCardsDirMeta_Update_shared r now h pc pb ncd nb nl cs_b
                Hc Hcb Hb Hqb S Hwb)
      as (h1 & res1 & ncd1 & nb1 & U1 & Hc1 & Hcb1 & Hb1 & HB1 & Hls1 & Hvs1 & S1).
    rewrite U1. cbn [bind].
    rewrite <- Hls1 in Hl. rewrite <- Hvs1 in Hv.
    destruct (FSList_Update_shared r now h1 pl pb nl nb1 lrec cs_l
                Hl Hlb Hb1 Hv Hql S1 Hwl)
      as (h2 & res2 & nl2 & nb2 & U2 & Hl2 & Hlb2 & _ & Hb2 & _ & Hcs2 & _ & S2
          & Hidx & _).
    rewrite U2. cbn [bind].
    rewrite <- Hcs2 in Hc1.
    destruct (Hfinal h2 ncd1 nb2 nl2 Hc1 Hcb1 Hb2 Hl2 S2 (Hidx card Hinl))
      as (q & node & H1 & H2 & H3 & H4).
    exists h2, q, node. split_and!; auto.
  - destruct (FSList_Update_shared r now h pl pb nl nb lrec cs_l
                Hl Hlb Hb Hv Hql S Hwl)
      as (h1 & res1 & nl1 & nb1 & U1 & Hl1 & Hlb1 & _ & Hb1 & HB1 & Hcs1 & _ & S1
          & Hidx & _).
    rewrite U1. cbn [bind].
    rewrite <- Hcs1 in Hc. rewrite <- HB1 in Hqb.
    destruct (FSBoardCardsDirMeta_Update_shared r now h1 pc pb ncd nb1 nl1 cs_b
                Hc Hcb Hb1 Hqb S1 Hwb)
      as (h2 & res2 & ncd2 & nb2 & U2 & Hc2 & Hcb2 & Hb2 & _ & Hls2 & _ & S2).
    rewrite U2. cbn [bind].
    rewrite <- Hls2 in Hl1.
    destruct (Hfinal h2 ncd2 nb2 nl1 Hc2 Hcb2 Hb2 Hl1 S2 (Hidx card Hinl))
      as (q & node & H1 & H2 & H3 & H4).
    exists h2, q, node. split_and!; auto.
Qed.

End BothViewsProofs.

(** A board and a list that know no card yet satisfy the invariant. *)
Lemma shared_cards_empty (nm : string -> string) (arena : list FSCard.t)
    (nb : FSBoard.t) (nl : FSList.t) :
  FSBoard.Cards nb = [] -> FSBoard.ByCardID nb = ∅ ->
  FSList.Cards nl = [] -> FSList.ByID nl = ∅ ->
  shared_cards nm arena nb nl.
Proof.
  intros Hc Hi Hlc Hli. split.
  - intros id q H. rewrite Hi, lookup_empty in H. discriminate.
  - intros q H. rewrite Hc in H. inversion H.
  - intros id q H. rewrite Hli, lookup_empty in H. discriminate.
  - intros q H. rewrite Hlc in H. inversion H.
Qed.

(** C1 (as stated, refuted): the board of the workspace has the cards
    [c1] and [c2], both named [X]; [c2] is on the list [L2], so it is
    reported by the query of the board's cards and by the query of the
    list.  With [cards] refreshed first, its name resolves to inode 6
    (the node of [c1]) under [/W/B/cards] and to inode 7 (the node of
    [c2]) under [/W/B/lists/L2]. *)
Lemma namesake_cards_resolve_apart :
  (let fs0 := NewTrelloFS 1000 1000 Scenario.ctx in
   let* '(fs1, viaCards) :=
     Scenario.walk Demo.namesakes fs0 RootInodeID ["W"; "B"; "cards"; "X"] in
   let* '(_, viaList) :=
     Scenario.walk Demo.namesakes fs1 RootInodeID ["W"; "B"; "lists"; "L2"; "X"] in
   Done (Scenario.inodeOf viaCards, Scenario.inodeOf viaList))
  = Done (Ok 6, Ok 7).
Proof. vm_compute. reflexivity. Qed.

(** ** The inode table over the lifetime of a mount *)

Lemma getBase_setNodeID (h : Heap) (n : FSNode) (id : InodeID) (b : BaseFSNode) :
  getBase h n = Done b ->
  getBase (setNodeID h n id) n = Done (SetNodeID b id).
Proof.
  destruct n as [|p|p|p|p|p|p|p]; simpl; intros E.
  - inversion E; subst. reflexivity.
  - apply bind_Done in E as (x & Ex & E). inversion E; subst. apply deref_Done in Ex.
    unfold deref. rewrite list_lookup_alter_eq, Ex. reflexivity.
  - apply bind_Done in E as (x & Ex & E). inversion E; subst. apply deref_Done in Ex.
    unfold deref. rewrite list_lookup_alter_eq, Ex. reflexivity.
  - apply bind_Done in E as (x & Ex & E). inversion E; subst. apply deref_Done in Ex.
    unfold deref. rewrite list_lookup_alter_eq, Ex. reflexivity.
  - apply bind_Done in E as (x & Ex & E). inversion E; subst. apply deref_Done in Ex.
    unfold deref. rewrite list_lookup_alter_eq, Ex. reflexivity.
  - apply bind_Done in E as (x & Ex & E). inversion E; subst. apply deref_Done in Ex.
    unfold deref. rewrite list_lookup_alter_eq, Ex. reflexivity.
  - apply bind_Done in E as (x & Ex & E). inversion E; subst. apply deref_Done in Ex.
    unfold deref. rewrite list_lookup_alter_eq, Ex. reflexivity.
  - apply bind_Done in E as (x & Ex & E). inversion E; subst. apply deref_Done in Ex.
    unfold deref. rewrite list_lookup_alter_eq, Ex. reflexivity.
Qed.

(** With no freed slot, an allocation takes the next slot after the end
    of the table, whose index becomes the inode number of the node. *)
Lemma addNode_appends (fs fs' : trelloFS) (n : FSNode) :
  freeInodes fs = [] ->
  addNode fs n = Done fs' ->
  inodes fs' = inodes fs ++ [Some n]
  /\ freeInodes fs' = []
  /\ exists b,
       getBase (heap fs') n = Done b
       /\ NodeID b = Z.of_nat (length (inodes fs))
       /\ byID fs' !! TrelloID b = Some (Z.of_nat (length (inodes fs))).
Proof.
  intros Hfree E. unfold addNode in E.
  apply bind_Done in E as (b & Eb & E). rewrite Hfree in E. simpl in E.
  inversion E; subst fs'; clear E. simpl.
  split; [reflexivity|]. split; [reflexivity|].
  exists (SetNodeID b (Z.of_nat (length (inodes fs)))).
  split; [apply getBase_setNodeID; exact Eb|]. split; [reflexivity|].
  simpl. apply lookup_insert_eq.
Qed.

Lemma addNodes_appends (add : list FSNode) :
  forall fs fs',
    freeInodes fs = [] ->
    addNodes fs add = Done fs' ->
    inodes fs' = inodes fs ++ map Some add /\ freeInodes fs' = [].
Proof.
  induction add as [|n add IH]; intros fs fs' Hfree E; simpl in E.
  - inversion E; subst. rewrite app_nil_r. auto.
  - apply bind_Done in E as (fs1 & E1 & E).
    destruct (addNode_appends fs fs1 n Hfree E1) as (Hi & Hf & _).
    destruct (IH fs1 fs' Hf E) as (Hi' & Hf').
    split; [|exact Hf']. rewrite Hi', Hi, <- app_assoc. reflexivity.
Qed.

Section LifetimeProofs.
Context {tc : GoToolchain} {fl : FuseLib}.

Lemma refreshNode_appends (r : Trello.Remote) (now : Time) (fs fs' : trelloFS)
    (n : FSNode) :
  freeInodes fs = [] ->
  refreshNode r now fs n = Done fs' ->
  freeInodes fs' = [] /\ exists add, inodes fs' = inodes fs ++ map Some add.
Proof.
  intros Hfree E. unfold refreshNode in E.
  apply bind_Done in E as (due & _ & E).
  destruct due; simpl in E.
  - apply bind_Done in E as ([h res] & _ & E).
    destruct (failure res).
    + inversion E; subst. simpl. split; [exact Hfree|].
      exists []. rewrite app_nil_r. reflexivity.
    + apply addNodes_appends in E as [Hi Hf]; [|exact Hfree].
      split; [exact Hf|]. exists (added res). exact Hi.
  - inversion E; subst. split; [exact Hfree|].
    exists []. rewrite app_nil_r. reflexivity.
Qed.

Lemma serve_appends (fs fs' : trelloFS) (e : Trello.Remote * Time * request) :
  freeInodes fs = [] ->
  serve fs e = Done fs' ->
  freeInodes fs' = [] /\ exists add, inodes fs' = inodes fs ++ map Some add.
Proof.
  intros Hfree E.
  assert (Hsame : freeInodes fs = [] /\ exists add, inodes fs = inodes fs ++ map Some add)
    by (split; [exact Hfree | exists []; rewrite app_nil_r; reflexivity]).
  destruct e as [[r now] req]. destruct req as [pid parent nm|pid id|id dstLen offset|pid id dst offset];
    simpl in E.
  - apply bind_Done in E as ([fs1 reply] & E1 & E). inversion E; subst fs1; clear E.
    unfold LookUpInode in E1. destruct (pid =? 0).
    + inversion E1; subst. exact Hsame.
    + apply bind_Done in E1 as (s & _ & E1). destruct s as [parent'|]; [|discriminate].
      apply bind_Done in E1 as (fs1 & Er & E1).
      apply bind_Done in E1 as (found' & _ & E1).
      assert (fs' = fs1).
      { destruct found' as [child|x].
        - apply bind_Done in E1 as (b & _ & E1). inversion E1. reflexivity.
        - inversion E1. reflexivity. }
      subst fs1. apply (refreshNode_appends r now fs fs' parent' Hfree Er).
  - apply bind_Done in E as (reply & _ & E). inversion E; subst. exact Hsame.
  - apply bind_Done in E as ([fs1 reply] & E1 & E). inversion E; subst fs1; clear E.
    unfold fsReadDir in E1.
    apply bind_Done in E1 as (s & _ & E1). destruct s as [parent'|].
    + apply bind_Done in E1 as (fs1 & Er & E1).
      apply bind_Done in E1 as (out & _ & E1). inversion E1; subst fs1.
      apply (refreshNode_appends r now fs fs' parent' Hfree Er).
    + inversion E1; subst. exact Hsame.
  - apply bind_Done in E as (reply & _ & E). inversion E; subst. exact Hsame.
Qed.

End LifetimeProofs.

(** ** Nodes keep their addresses and their inode numbers *)

Lemma arena_le_refl {A : Type} (baseOf : A -> BaseFSNode) (l : list A) :
  arena_le baseOf l l.
Proof. intros i x H. eauto. Qed.

Lemma arena_le_app {A : Type} (baseOf : A -> BaseFSNode) (l ext : list A) :
  arena_le baseOf l (l ++ ext).
Proof. intros i x H. exists x. split; [apply lookup_app_l_Some; exact H | reflexivity]. Qed.

Lemma arena_le_insert {A : Type} (baseOf : A -> BaseFSNode) (l : list A)
    (p : nat) (x y : A) :
  l !! p = Some x ->
  NodeID (baseOf y) = NodeID (baseOf x) ->
  arena_le baseOf l (<[p:=y]> l).
Proof.
  intros Hp Hid i z Hz. destruct (decide (p = i)) as [<-|Hne].
  - exists y. rewrite list_lookup_insert_eq by (eapply lookup_lt_Some; exact Hp).
    rewrite Hp in Hz. inversion Hz; subst. auto.
  - exists z. rewrite list_lookup_insert_ne by exact Hne. auto.
Qed.

Lemma heap_le_refl (h : Heap) : heap_le h h.
Proof. split; try apply arena_le_refl. reflexivity. Qed.

(** What [heap_le] is for: a live node stays live, with its number. *)
Lemma heap_le_getBase (h h' : Heap) (n : FSNode) (b : BaseFSNode) :
  heap_le h h' ->
  getBase h n = Done b ->
  exists b', getBase h' n = Done b' /\ NodeID b' = NodeID b.
Proof.
  intros L E. destruct n as [|p|p|p|p|p|p|p]; simpl in E |- *.
  - inversion E; subst. eexists. split; [reflexivity | apply (le_root _ _ L)].
  - apply bind_Done in E as (x & Ex & E). inversion E; subst. apply deref_Done in Ex.
    destruct (le_workspaces _ _ L _ _ Ex) as (x' & Hx' & Hid).
    rewrite (deref_Some _ _ _ Hx'). eauto.
  - apply bind_Done in E as (x & Ex & E). inversion E; subst. apply deref_Done in Ex.
    destruct (le_boards _ _ L _ _ Ex) as (x' & Hx' & Hid).
    rewrite (deref_Some _ _ _ Hx'). eauto.
  - apply bind_Done in E as (x & Ex & E). inversion E; subst. apply deref_Done in Ex.
    destruct (le_cardsDirs _ _ L _ _ Ex) as (x' & Hx' & Hid).
    rewrite (deref_Some _ _ _ Hx'). eauto.
  - apply bind_Done in E as (x & Ex & E). inversion E; subst. apply deref_Done in Ex.
    destruct (le_listsDirs _ _ L _ _ Ex) as (x' & Hx' & Hid).
    rewrite (deref_Some _ _ _ Hx'). eauto.
  - apply bind_Done in E as (x & Ex & E). inversion E; subst. apply deref_Done in Ex.
    destruct (le_lists _ _ L _ _ Ex) as (x' & Hx' & Hid).
    rewrite (deref_Some _ _ _ Hx'). eauto.
  - apply bind_Done in E as (x & Ex & E). inversion E; subst. apply deref_Done in Ex.
    destruct (le_cards _ _ L _ _ Ex) as (x' & Hx' & Hid).
    rewrite (deref_Some _ _ _ Hx'). eauto.
  - apply bind_Done in E as (x & Ex & E). inversion E; subst. apply deref_Done in Ex.
    destruct (le_metaFiles _ _ L _ _ Ex) as (x' & Hx' & Hid).
    rewrite (deref_Some _ _ _ Hx'). eauto.
Qed.

(** ** Loops that append *)

Lemma grows_refl {A : Type} (P : A -> Prop) (mk : nat -> FSNode)
    (arena : list A) (news : list FSNode) :
  grows P mk arena news arena news.
Proof. exists []. rewrite !app_nil_r. auto. Qed.

Lemma grows_one {A : Type} (P : A -> Prop) (mk : nat -> FSNode)
    (arena : list A) (news : list FSNode) (x : A) :
  P x -> grows P mk arena news (arena ++ [x]) (news ++ [mk (length arena)]).
Proof. intros Hx. exists [x]. auto. Qed.

Lemma grows_trans {A : Type} (P : A -> Prop) (mk : nat -> FSNode)
    (a1 a2 a3 : list A) (n1 n2 n3 : list FSNode) :
  grows P mk a1 n1 a2 n2 -> grows P mk a2 n2 a3 n3 -> grows P mk a1 n1 a3 n3.
Proof.
  intros (e1 & -> & -> & P1) (e2 & -> & -> & P2). exists (e1 ++ e2).
  split; [rewrite app_assoc; reflexivity|]. split; [|apply Forall_app; auto].
  rewrite !length_app, seq_app, map_app, <- app_assoc. reflexivity.
Qed.

Lemma fold_left_grows {S X A : Type} (P : A -> Prop) (mk : nat -> FSNode)
    (body : S -> X -> S) (arenaOf : S -> list A) (newsOf : S -> list FSNode) :
  (forall s x, grows P mk (arenaOf s) (newsOf s)
                 (arenaOf (body s x)) (newsOf (body s x))) ->
  forall xs s, grows P mk (arenaOf s) (newsOf s)
                 (arenaOf (fold_left body xs s)) (newsOf (fold_left body xs s)).
Proof.
  intros Hstep xs. induction xs as [|x xs IH]; intros s; simpl.
  - apply grows_refl.
  - eapply grows_trans; [apply Hstep | apply IH].
Qed.

Lemma fold_left_keeps {S X B : Type} (body : S -> X -> S) (proj : S -> B) :
  (forall s x, proj (body s x) = proj s) ->
  forall xs s, proj (fold_left body xs s) = proj s.
Proof.
  intros Hstep xs. induction xs as [|x xs IH]; intros s; simpl; [reflexivity|].
  rewrite IH. apply Hstep.
Qed.

(** The addresses of what a loop appended to an arena are fresh nodes. *)
Lemma fresh_from_arena {A : Type} (h h' : Heap) (mk : nat -> FSNode)
    (arenaOf : Heap -> list A) (baseOf : A -> BaseFSNode) (ext : list A) :
  (forall h0 p, getBase h0 (mk p) = (let* x := deref (arenaOf h0) p in Done (baseOf x))) ->
  (forall p q, mk p = mk q -> p = q) ->
  arenaOf h' = arenaOf h ++ ext ->
  fresh_nodes h h' (map mk (seq (length (arenaOf h)) (length ext))).
Proof.
  intros Hget Hinj Hext. split.
  - apply NoDup_fmap_2; [intros p q; apply Hinj | apply NoDup_seq].
  - intros n Hn. apply list_elem_of_fmap in Hn as (k & -> & Hk).
    apply elem_of_seq in Hk. rewrite !Hget. split.
    + unfold deref. rewrite lookup_ge_None_2 by lia. reflexivity.
    + rewrite Hext. destruct (lookup_lt_is_Some_2 (arenaOf h ++ ext) k) as [x Hx].
      { rewrite length_app. lia. }
      rewrite (deref_Some _ _ _ Hx). simpl. eauto.
Qed.

(** ** Every [Update] keeps what exists and adds fresh nodes *)

Lemma fresh_nodes_nil (h h' : Heap) : fresh_nodes h h' [].
Proof. split; [apply NoDup_nil; exact I | intros n Hn; inversion Hn]. Qed.

Lemma frames_failed (h : Heap) (e : error) : frames h h (updateFailed e).
Proof. split; [apply heap_le_refl|]. split; [apply fresh_nodes_nil | auto]. Qed.

Lemma TrelloTreeRoot_Update_frame (r : Trello.Remote) (c : Trello.TrelloCtx.t)
    (now : Time) (h h' : Heap) (res : UpdateResult) :
  TrelloTreeRoot_Update r c now h = Done (h', res) -> frames h h' res.
Proof.
  unfold TrelloTreeRoot_Update. destruct (Trello.GetWorkspaces r c) as [wss|e].
  2: { intros E; inversion E; subst. apply frames_failed. }
  pose proof (fold_left_grows (fun _ => True) NFSWorkspace
                TrelloTreeRoot_Update_body (fun s => s.1.1) (fun s => s.2)) as G.
  pose proof (fold_left_keeps TrelloTreeRoot_Update_body
                (fun s => TrelloTreeRoot.base s.1.2)) as K.
  specialize (G ltac:(intros [[a n] w] x; unfold TrelloTreeRoot_Update_body; simpl;
                      destruct (TrelloTreeRoot.byID n !! Trello.Workspace.ID x);
                      [apply grows_refl | apply grows_one; exact I])
                wss (workspaces h, root h, [])).
  specialize (K ltac:(intros [[a n] w] x; unfold TrelloTreeRoot_Update_body; simpl;
                      destruct (TrelloTreeRoot.byID n !! Trello.Workspace.ID x);
                      reflexivity)
                wss (workspaces h, root h, [])).
  destruct (fold_left TrelloTreeRoot_Update_body wss (workspaces h, root h, []))
    as [[arena node] news].
  simpl in G, K. destruct G as (ext & -> & -> & _).
  intros E; inversion E; subst h' res; clear E.
  split; [|split].
  - split; simpl; try apply arena_le_refl.
    + rewrite K. reflexivity.
    + apply arena_le_app.
  - simpl. apply (fresh_from_arena h _ NFSWorkspace workspaces FSWorkspace.base ext).
    + reflexivity.
    + intros p q Hpq. inversion Hpq. reflexivity.
    + reflexivity.
  - auto.
Qed.

Lemma FSWorkspace_Update_frame (r : Trello.Remote) (now : Time) (p : nat)
    (h h' : Heap) (res : UpdateResult) :
  FSWorkspace_Update r now p h = Done (h', res) -> frames h h' res.
Proof.
  unfold FSWorkspace_Update. intros E.
  apply bind_Done in E as (node0 & Hp & E). apply deref_Done in Hp.
  destruct (Trello.Workspace_GetBoards r (FSWorkspace.Workspace node0)) as [bs|e].
  2: { inversion E; subst. apply frames_failed. }
  pose proof (fold_left_grows (fun _ => True) NFSBoard
                FSWorkspace_Update_body (fun s => s.1.1) (fun s => s.2)) as G.
  pose proof (fold_left_keeps FSWorkspace_Update_body
                (fun s => FSWorkspace.base s.1.2)) as K.
  specialize (G ltac:(intros [[a n] w] x; unfold FSWorkspace_Update_body; simpl;
                      destruct (FSWorkspace.ByID n !! Trello.Board.ID x);
                      [apply grows_refl | apply grows_one; exact I])
                bs (boards h, node0, [])).
  specialize (K ltac:(intros [[a n] w] x; unfold FSWorkspace_Update_body; simpl;
                      destruct (FSWorkspace.ByID n !! Trello.Board.ID x);
                      reflexivity)
                bs (boards h, node0, [])).
  destruct (fold_left FSWorkspace_Update_body bs (boards h, node0, []))
    as [[arena node] news].
  simpl in G, K. destruct G as (ext & -> & -> & _).
  inversion E; subst h' res; clear E.
  split; [|split].
  - split; simpl; try reflexivity; try apply arena_le_refl.
    + apply (arena_le_insert _ _ _ node0); [exact Hp | simpl; rewrite K; reflexivity].
    + apply arena_le_app.
  - simpl. apply (fresh_from_arena h _ NFSBoard boards FSBoard.base ext).
    + reflexivity.
    + intros a b Hab. inversion Hab. reflexivity.
    + reflexivity.
  - auto.
Qed.

Lemma FSBoard_Update_frame (now : Time) (p : nat) (h h' : Heap)
    (res : UpdateResult) :
  FSBoard_Update now p h = Done (h', res) -> frames h h' res.
Proof.
  unfold FSBoard_Update. intros E.
  apply bind_Done in E as (node & Hp & E). apply deref_Done in Hp.
  assert (Hnew : forall x y,
            Done (set_boards
                    (set_listsDirs (set_cardsDirs h (cardsDirs h ++ [x]))
                       (listsDirs h ++ [y]))
                    (<[p:=FSBoard.mk (markUpdated (FSBoard.base node) now)
                            (Some (length (cardsDirs h))) (Some (length (listsDirs h)))
                            (FSBoard.Cards node) (FSBoard.ByCardID node)
                            (FSBoard.ByCardName node) (FSBoard.Lists node)
                            (FSBoard.ByListID node) (FSBoard.ByListName node)
                            (FSBoard.Board node)]> (boards h)),
                  updateOk [NFSBoardCardsDirMeta (length (cardsDirs h));
                            NFSBoardListsDirMeta (length (listsDirs h))])
            = Done (h', res) -> frames h h' res).
  { intros x y E'. inversion E'; subst h' res; clear E'.
    split; [|split].
    - split; simpl; try reflexivity; try apply arena_le_refl; try apply arena_le_app.
      apply (arena_le_insert _ _ _ node); [exact Hp | reflexivity].
    - split.
      + simpl. apply NoDup_cons. split.
        * intros Hin. apply list_elem_of_singleton in Hin. discriminate.
        * apply NoDup_singleton.
      + intros n Hn. simpl in Hn.
        apply elem_of_cons in Hn as [->|Hn];
          [|apply list_elem_of_singleton in Hn; subst n]; simpl; unfold deref.
        * rewrite lookup_ge_None_2 by lia.
          rewrite lookup_app_r by lia. rewrite Nat.sub_diag. simpl. eauto.
        * rewrite lookup_ge_None_2 by lia.
          rewrite lookup_app_r by lia. rewrite Nat.sub_diag. simpl. eauto.
    - auto. }
  destruct (FSBoard.MetaCardsDir node), (FSBoard.MetaListsDir node);
    try (apply (Hnew _ _ E)).
  inversion E; subst.
  split; [apply heap_le_refl|]. split; [apply fresh_nodes_nil | auto].
Qed.

Section UpdateFrames.
Context {tc : GoToolchain}.

Lemma FSBoardCardsDirMeta_Update_frame (r : Trello.Remote) (now : Time)
    (p : nat) (h h' : Heap) (res : UpdateResult) :
  FSBoardCardsDirMeta_Update r now p h = Done (h', res) -> frames h h' res.
Proof.
  unfold FSBoardCardsDirMeta_Update. intros E.
  apply bind_Done in E as (node & Hp & E). apply deref_Done in Hp.
  apply bind_Done in E as (bn0 & Hb & E). apply deref_Done in Hb.
  destruct (Trello.Board_GetCards r (FSBoard.Board bn0)) as [cs|e].
  2: { inversion E; subst. apply frames_failed. }
  set (body := FSBoardCardsDirMeta_Update_body
                 (uid (FSBoardCardsDirMeta.base node))
                 (gid (FSBoardCardsDirMeta.base node)) (length (cardVars h))) in *.
  set (s0 := (cards h, enterLoop (cardVars h) Trello.Card.zero, bn0,
              @nil FSNode)) in *.
  pose proof (fold_left_grows
                (fun c => lastUpdate (FSCard.base c) = zeroTime) NFSCard
                body (fun s => s.1.1.1) (fun s => s.2)) as G.
  pose proof (fold_left_keeps body (fun s => FSBoard.base s.1.2)) as K.
  specialize (G ltac:(intros [[[a v] b] w] x; unfold body, FSBoardCardsDirMeta_Update_body;
                      simpl; destruct (loopVar v (length (cardVars h)) x);
                      destruct (FSBoard.ByCardID b !! Trello.Card.ID x);
                      [apply grows_refl | apply grows_one; reflexivity])
                cs s0).
  specialize (K ltac:(intros [[[a v] b] w] x; unfold body, FSBoardCardsDirMeta_Update_body;
                      simpl; destruct (loopVar v (length (cardVars h)) x);
                      destruct (FSBoard.ByCardID b !! Trello.Card.ID x);
                      reflexivity)
                cs s0).
  destruct (fold_left body cs s0) as [[[arena vars] bn] news].
  simpl in G, K. destruct G as (ext & -> & -> & Pext).
  inversion E; subst h' res; clear E.
  split; [|split].
  - split; simpl; try reflexivity; try apply arena_le_refl.
    + apply (arena_le_insert _ _ _ bn0); [exact Hb | rewrite K; reflexivity].
    + apply (arena_le_insert _ _ _ node); [exact Hp | reflexivity].
    + apply arena_le_app.
  - simpl. apply (fresh_from_arena h _ NFSCard cards FSCard.base ext).
    + reflexivity.
    + intros a b Hab. inversion Hab. reflexivity.
    + reflexivity.
  - unfold card_stamps_zero. simpl. intros Hz. apply Forall_app. auto.
Qed.

Lemma FSBoardListsDirMeta_Update_frame (r : Trello.Remote) (now : Time)
    (p : nat) (h h' : Heap) (res : UpdateResult) :
  FSBoardListsDirMeta_Update r now p h = Done (h', res) -> frames h h' res.
Proof.
  unfold FSBoardListsDirMeta_Update. intros E.
  apply bind_Done in E as (node & Hp & E). apply deref_Done in Hp.
  apply bind_Done in E as (bn0 & Hb & E). apply deref_Done in Hb.
  destruct (Trello.Board_GetLists r (FSBoard.Board bn0)) as [ls|e].
  2: { inversion E; subst. apply frames_failed. }
  set (body := FSBoardListsDirMeta_Update_body
                 (uid (FSBoardListsDirMeta.base node))
                 (gid (FSBoardListsDirMeta.base node))
                 (FSBoardListsDirMeta.BoardNode node) (length (listVars h))) in *.
  set (s0 := (lists h, enterLoop (listVars h) Trello.List.zero, bn0,
              @nil FSNode)) in *.
  pose proof (fold_left_grows (fun _ => True) NFSList
                body (fun s => s.1.1.1) (fun s => s.2)) as G.
  pose proof (fold_left_keeps body (fun s => FSBoard.base s.1.2)) as K.
  specialize (G ltac:(intros [[[a v] b] w] x; unfold body, FSBoardListsDirMeta_Update_body;
                      simpl; destruct (loopVar v (length (listVars h)) x);
                      destruct (FSBoard.ByListID b !! Trello.List.ID x);
                      [apply grows_refl | apply grows_one; exact I])
                ls s0).
  specialize (K ltac:(intros [[[a v] b] w] x; unfold body, FSBoardListsDirMeta_Update_body;
                      simpl; destruct (loopVar v (length (listVars h)) x);
                      destruct (FSBoard.ByListID b !! Trello.List.ID x);
                      reflexivity)
                ls s0).
  destruct (fold_left body ls s0) as [[[arena vars] bn] news].
  simpl in G, K. destruct G as (ext & -> & -> & _).
  inversion E; subst h' res; clear E.
  split; [|split].
  - split; simpl; try reflexivity; try apply arena_le_refl.
    + apply (arena_le_insert _ _ _ bn0); [exact Hb | rewrite K; reflexivity].
    + apply (arena_le_insert _ _ _ node); [exact Hp | reflexivity].
    + apply arena_le_app.
  - simpl. apply (fresh_from_arena h _ NFSList lists FSList.base ext).
    + reflexivity.
    + intros a b Hab. inversion Hab. reflexivity.
    + reflexivity.
  - auto.
Qed.

Lemma FSList_Update_frame (r : Trello.Remote) (now : Time)
    (p : nat) (h h' : Heap) (res : UpdateResult) :
  FSList_Update r now p h = Done (h', res) -> frames h h' res.
Proof.
  unfold FSList_Update. intros E.
  apply bind_Done in E as (node0 & Hp & E). apply deref_Done in Hp.
  apply bind_Done in E as (bn0 & Hb & E). apply deref_Done in Hb.
  apply bind_Done in E as (l & _ & E).
  destruct (Trello.List_GetCards r l) as [cs|e].
  2: { inversion E; subst. apply frames_failed. }
  set (body := FSList_Update_body (uid (FSList.base node0))
                 (gid (FSList.base node0)) (length (cardVars h))) in *.
  set (s0 := (cards h, enterLoop (cardVars h) Trello.Card.zero, node0, bn0,
              @nil FSNode)) in *.
  pose proof (fold_left_grows
                (fun c => lastUpdate (FSCard.base c) = zeroTime) NFSCard
                body (fun s => s.1.1.1.1) (fun s => s.2)) as G.
  pose proof (fold_left_keeps body (fun s => FSBoard.base s.1.2)) as K.
  pose proof (fold_left_keeps body (fun s => FSList.base s.1.1.2)) as KL.
  specialize (G ltac:(intros [[[[a v] n] b] w] x; unfold body, FSList_Update_body;
                      simpl; destruct (loopVar v (length (cardVars h)) x);
                      destruct (FSBoard.ByCardID b !! Trello.Card.ID x);
                      destruct (FSList.ByID n !! Trello.Card.ID x);
                      first [apply grows_refl | apply grows_one; reflexivity])
                cs s0).
  specialize (K ltac:(intros [[[[a v] n] b] w] x; unfold body, FSList_Update_body;
                      simpl; destruct (loopVar v (length (cardVars h)) x);
                      destruct (FSBoard.ByCardID b !! Trello.Card.ID x);
                      destruct (FSList.ByID n !! Trello.Card.ID x);
                      reflexivity)
                cs s0).
  specialize (KL ltac:(intros [[[[a v] n] b] w] x; unfold body, FSList_Update_body;
                       simpl; destruct (loopVar v (length (cardVars h)) x);
                       destruct (FSBoard.ByCardID b !! Trello.Card.ID x);
                       destruct (FSList.ByID n !! Trello.Card.ID x);
                       reflexivity)
                cs s0).
  destruct (fold_left body cs s0) as [[[[arena vars] node] bn] news].
  simpl in G, K, KL. destruct G as (ext & -> & -> & Pext).
  inversion E; subst h' res; clear E.
  split; [|split].
  - split; simpl; try reflexivity; try apply arena_le_refl.
    + apply (arena_le_insert _ _ _ bn0); [exact Hb | rewrite K; reflexivity].
    + apply (arena_le_insert _ _ _ node0); [exact Hp | simpl; rewrite KL; reflexivity].
    + apply arena_le_app.
  - simpl. apply (fresh_from_arena h _ NFSCard cards FSCard.base ext).
    + reflexivity.
    + intros a b Hab. inversion Hab. reflexivity.
    + reflexivity.
  - unfold card_stamps_zero. simpl. intros Hz. apply Forall_app. auto.
Qed.

End UpdateFrames.

Lemma FSCard_Update_frame (p : nat) (h h' : Heap) (res : UpdateResult) :
  FSCard_Update p h = Done (h', res) -> frames h h' res.
Proof.
  unfold FSCard_Update. intros E.
  apply bind_Done in E as (node0 & Hp & E). apply deref_Done in Hp.
  apply bind_Done in E as (card & _ & E).
  destruct (Trello.Card.Board card); [|discriminate].
  apply bind_Done in E as (meta & _ & E).
  pose proof (fold_left_grows (fun _ => True) NFSCardMetaFile
                FSCard_Update_body (fun s => s.1.1) (fun s => s.2)) as G.
  pose proof (fold_left_keeps FSCard_Update_body (fun s => FSCard.base s.1.2)) as K.
  specialize (G ltac:(intros [[a n] w] x; unfold FSCard_Update_body; simpl;
                      destruct (FSCard.ByName n !! entryName x);
                      [apply grows_refl | apply grows_one; exact I])
                meta (metaFiles h, node0, [])).
  specialize (K ltac:(intros [[a n] w] x; unfold FSCard_Update_body; simpl;
                      destruct (FSCard.ByName n !! entryName x);
                      reflexivity)
                meta (metaFiles h, node0, [])).
  destruct (fold_left FSCard_Update_body meta (metaFiles h, node0, []))
    as [[arena node] news].
  simpl in G, K. destruct G as (ext & -> & -> & _).
  inversion E; subst h' res; clear E.
  split; [|split].
  - split; simpl; try reflexivity; try apply arena_le_refl.
    + apply (arena_le_insert _ _ _ node0); [exact Hp | rewrite K; reflexivity].
    + apply arena_le_app.
  - simpl. apply (fresh_from_arena h _ NFSCardMetaFile metaFiles
                    FSCardMetaFile.base ext).
    + reflexivity.
    + intros a b Hab. inversion Hab. reflexivity.
    + reflexivity.
  - unfold card_stamps_zero. simpl. intros Hz.
    apply Forall_insert; [exact Hz|]. rewrite K.
    eapply Forall_lookup_1 in Hz; [exact Hz | exact Hp].
Qed.

(** Whatever the node, its [Update] keeps every live node at its address
    with its inode number, returns nodes that did not exist before, and
    leaves the time stamps of cards at zero. *)
Lemma Update_frame {tc : GoToolchain} (r : Trello.Remote)
    (c : Trello.TrelloCtx.t) (now : Time) (n : FSNode) (h h' : Heap)
    (res : UpdateResult) :
  Update r c now n h = Done (h', res) -> frames h h' res.
Proof.
  destruct n as [|p|p|p|p|p|p|p]; simpl.
  - apply TrelloTreeRoot_Update_frame.
  - apply FSWorkspace_Update_frame.
  - apply FSBoard_Update_frame.
  - apply FSBoardCardsDirMeta_Update_frame.
  - apply FSBoardListsDirMeta_Update_frame.
  - apply FSList_Update_frame.
  - apply FSCard_Update_frame.
  - unfold FSCardMetaFile_Update. intros E; inversion E; subst. apply frames_failed.
Qed.

(** ** Allocation keeps the table well formed *)

Lemma getBase_setNodeID_other (h : Heap) (n m : FSNode) (id : InodeID) :
  n <> m -> getBase (setNodeID h n id) m = getBase h m.
Proof.
  intros Hne.
  destruct n as [|p|p|p|p|p|p|p], m as [|q|q|q|q|q|q|q]; simpl;
    try reflexivity; try contradiction;
    unfold deref; rewrite list_lookup_alter_ne by congruence; reflexivity.
Qed.

Lemma setNodeID_stamps (h : Heap) (n : FSNode) (id : InodeID) :
  card_stamps_zero h -> card_stamps_zero (setNodeID h n id).
Proof.
  unfold card_stamps_zero. intros Hz. destruct n; simpl; try exact Hz.
  apply Forall_alter; [exact Hz|]. intros x _ Hx. exact Hx.
Qed.

Lemma addNode_well_formed (fs : trelloFS) (n : FSNode) (b : BaseFSNode) :
  well_formed fs ->
  getBase (heap fs) n = Done b ->
  (forall i, inodes fs !! i <> Some (Some n)) ->
  exists fs',
    addNode fs n = Done fs'
    /\ well_formed fs'
    /\ inodes fs' = inodes fs ++ [Some n]
    /\ (forall m, m <> n -> getBase (heap fs') m = getBase (heap fs) m).
Proof.
  intros (Hfree & Htab & Hz) Hb Hnew.
  eexists. unfold addNode. rewrite Hb. cbn [bind]. rewrite Hfree. simpl.
  split; [reflexivity|]. simpl. split; [|split].
  - split; [reflexivity|]. split; [|apply setNodeID_stamps; exact Hz].
    intros i m Hi. simpl in Hi |- *.
    destruct (decide (i < length (inodes fs))%nat) as [Hlt|Hge].
    + rewrite lookup_app_l in Hi by exact Hlt.
      assert (Hne : n <> m) by (intros ->; apply (Hnew i); exact Hi).
      rewrite (getBase_setNodeID_other _ _ _ _ Hne). apply Htab. exact Hi.
    + rewrite lookup_app_r in Hi by lia.
      destruct (i - length (inodes fs))%nat as [|k] eqn:Hk; [|destruct k; discriminate].
      simpl in Hi. inversion Hi; subst m.
      rewrite (getBase_setNodeID _ _ _ _ Hb). eexists. split; [reflexivity|].
      simpl. f_equal. lia.
  - reflexivity.
  - intros m Hm. apply getBase_setNodeID_other. congruence.
Qed.

Lemma addNodes_well_formed (add : list FSNode) :
  forall fs,
    well_formed fs ->
    NoDup add ->
    (forall n, n ∈ add ->
       (exists b, getBase (heap fs) n = Done b)
       /\ forall i, inodes fs !! i <> Some (Some n)) ->
    exists fs',
      addNodes fs add = Done fs'
      /\ well_formed fs'
      /\ inodes fs' = inodes fs ++ map Some add.
Proof.
  induction add as [|n add IH]; intros fs Hwf Hnd Hall.
  - exists fs. simpl. rewrite app_nil_r. auto.
  - apply NoDup_cons in Hnd as [Hnotin Hnd].
    destruct (Hall n) as [[b Hb] Hnew]; [left|].
    destruct (addNode_well_formed fs n b Hwf Hb Hnew) as (fs1 & E1 & Hwf1 & Hi1 & Hoth).
    destruct (IH fs1 Hwf1 Hnd) as (fs2 & E2 & Hwf2 & Hi2).
    + intros m Hm. destruct (Hall m) as [[bm Hbm] Hnewm]; [right; exact Hm|].
      assert (Hne : m <> n) by (intros ->; contradiction).
      split.
      * exists bm. rewrite (Hoth m Hne). exact Hbm.
      * intros i Hi. rewrite Hi1 in Hi.
        destruct (decide (i < length (inodes fs))%nat) as [Hlt|Hge].
        -- rewrite lookup_app_l in Hi by exact Hlt. apply (Hnewm i). exact Hi.
        -- rewrite lookup_app_r in Hi by lia.
           destruct (i - length (inodes fs))%nat as [|k]; [|destruct k; discriminate].
           simpl in Hi. inversion Hi. congruence.
    + exists fs2. simpl. rewrite E1. cbn [bind]. split; [exact E2|].
      split; [exact Hwf2|]. rewrite Hi2, Hi1, <- app_assoc. reflexivity.
Qed.

Section WellFormed.
Context {tc : GoToolchain} {fl : FuseLib}.

Lemma refreshNode_well_formed (r : Trello.Remote) (now : Time)
    (fs fs' : trelloFS) (n : FSNode) :
  well_formed fs ->
  refreshNode r now fs n = Done fs' ->
  well_formed fs'.
Proof.
  intros Hwf E. unfold refreshNode in E.
  apply bind_Done in E as (due & _ & E). destruct due; simpl in E.
  2: { inversion E; subst. exact Hwf. }
  apply bind_Done in E as ([h res] & EU & E).
  destruct (Update_frame r (ctx fs) now n (heap fs) h res EU) as (L & [Hnd Hfresh] & Hz).
  destruct Hwf as (Hfree & Htab & Hst).
  assert (Hwf1 : well_formed (with_heap fs h)).
  { split; [exact Hfree|]. split; [|apply Hz; exact Hst].
    intros i m Hi. simpl in Hi |- *.
    destruct (Htab i m Hi) as (b & Hb & Hid).
    destruct (heap_le_getBase _ _ _ _ L Hb) as (b' & Hb' & Hid').
    exists b'. split; [exact Hb' | congruence]. }
  destruct (failure res).
  - inversion E; subst. exact Hwf1.
  - destruct (addNodes_well_formed (added res) (with_heap fs h) Hwf1 Hnd)
      as (fs2 & E2 & Hwf2 & _).
    + intros m Hm. destruct (Hfresh m Hm) as [Hdang Hlive]. split; [exact Hlive|].
      intros i Hi. simpl in Hi. destruct (Htab i m Hi) as (b & Hb & _).
      rewrite Hb in Hdang. discriminate.
    + rewrite E2 in E. inversion E; subst. exact Hwf2.
Qed.

Lemma serve_well_formed (fs fs' : trelloFS) (e : Trello.Remote * Time * request) :
  well_formed fs -> serve fs e = Done fs' -> well_formed fs'.
Proof.
  intros Hwf E.
  destruct e as [[r now] req].
  destruct req as [pid parent nm|pid id|id dstLen offset|pid id dst offset];
    simpl in E.
  - apply bind_Done in E as ([fs1 reply] & E1 & E). inversion E; subst fs1; clear E.
    unfold LookUpInode in E1. destruct (pid =? 0).
    + inversion E1; subst. exact Hwf.
    + apply bind_Done in E1 as (s & _ & E1). destruct s as [parent'|]; [|discriminate].
      apply bind_Done in E1 as (fs1 & Er & E1).
      apply bind_Done in E1 as (found' & _ & E1).
      assert (fs' = fs1).
      { destruct found' as [child|x].
        - apply bind_Done in E1 as (b & _ & E1). inversion E1. reflexivity.
        - inversion E1. reflexivity. }
      subst fs1. apply (refreshNode_well_formed r now fs fs' parent' Hwf Er).
  - apply bind_Done in E as (reply & _ & E). inversion E; subst. exact Hwf.
  - apply bind_Done in E as ([fs1 reply] & E1 & E). inversion E; subst fs1; clear E.
    unfold fsReadDir in E1.
    apply bind_Done in E1 as (s & _ & E1). destruct s as [parent'|].
    + apply bind_Done in E1 as (fs1 & Er & E1).
      apply bind_Done in E1 as (out & _ & E1). inversion E1; subst fs1.
      apply (refreshNode_well_formed r now fs fs' parent' Hwf Er).
    + inversion E1; subst. exact Hwf.
  - apply bind_Done in E as (reply & _ & E). inversion E; subst. exact Hwf.
Qed.

Lemma NewTrelloFS_well_formed (u g : Z) (c : Trello.TrelloCtx.t) :
  well_formed (NewTrelloFS u g c).
Proof.
  split; [reflexivity|]. split; [|apply Forall_nil; exact I].
  intros i n Hi. destruct i as [|[|i]]; simpl in Hi; try discriminate.
  inversion Hi; subst n. simpl. eexists. split; reflexivity.
Qed.

Lemma serveAll_well_formed (trace : list (Trello.Remote * Time * request)) :
  forall fs fs',
    well_formed fs -> serveAll fs trace = Done fs' -> well_formed fs'.
Proof.
  induction trace as [|e trace IH]; intros fs fs' Hwf E; simpl in E.
  - inversion E; subst. exact Hwf.
  - apply bind_Done in E as (fs1 & E1 & E).
    apply (IH fs1 fs'); [|exact E]. apply (serve_well_formed fs fs1 e Hwf E1).
Qed.

(** Over the lifetime of a mount the refresh of a card is always due: no
    card node is ever marked as updated. *)
Lemma card_refresh_always_due (u g : Z) (c : Trello.TrelloCtx.t)
    (trace : list (Trello.Remote * Time * request)) (fs : trelloFS)
    (p : nat) (node : FSCard.t) (now : Time) :
  serveAll (NewTrelloFS u g c) trace = Done fs ->
  cards (heap fs) !! p = Some node ->
  30 * 1000000000 <= now ->
  ShouldUpdate (heap fs) now (NFSCard p) = Done true.
Proof.
  intros Hrun Hp Hnow.
  destruct (serveAll_well_formed trace _ _ (NewTrelloFS_well_formed u g c) Hrun)
    as (_ & _ & Hz).
  eapply Forall_lookup_1 in Hz; [|exact Hp]. simpl in Hz.
  unfold ShouldUpdate, getBase. rewrite (deref_Some _ _ _ Hp). cbn [bind].
  unfold shouldUpdate, Since. rewrite Hz. unfold zeroTime, int64_max.
  f_equal. apply Z.leb_le. lia.
Qed.


End WellFormed.


(** ** The test double of the HTTP client *)

Section TestAPIProofs.
Local Arguments String.append !_ _ /.

Lemma Split_nonempty (s : string) (sep : ascii) : Strings.Split s sep <> [].
Proof.
  destruct s as [|c s]; simpl; [discriminate|].
  destruct (Ascii.eqb c sep); [discriminate|].
  destruct (Strings.Split s sep); discriminate.
Qed.

Lemma Split_no_sep (s : string) (sep : ascii) :
  sep ∉ list_ascii_of_string s -> Strings.Split s sep = [s].
Proof.
  induction s as [|c s IH]; simpl; intros Hn; [reflexivity|].
  apply not_elem_of_cons in Hn as [Hc Hs].
  destruct (Ascii.eqb_spec c sep) as [->|_]; [contradiction|].
  rewrite (IH Hs). reflexivity.
Qed.

Lemma Split_app (a b : string) (sep : ascii) :
  sep ∉ list_ascii_of_string a ->
  Strings.Split (a +:+ String sep b) sep = a :: Strings.Split b sep.
Proof.
  induction a as [|c a IH]; simpl; intros Hn.
  - rewrite Ascii.eqb_refl. reflexivity.
  - apply not_elem_of_cons in Hn as [Hc Hs].
    destruct (Ascii.eqb_spec c sep) as [->|_]; [contradiction|].
    rewrite (IH Hs). reflexivity.
Qed.

Lemma chars_app (a b : string) :
  list_ascii_of_string (a +:+ b) = list_ascii_of_string a ++ list_ascii_of_string b.
Proof. induction a as [|c a IH]; simpl; [reflexivity | f_equal; exact IH]. Qed.

Lemma HasPrefix_app (p a b : string) (c : ascii) :
  c ∉ list_ascii_of_string p ->
  Strings.HasPrefix (a +:+ String c b) p = Strings.HasPrefix a p.
Proof.
  unfold Strings.HasPrefix. revert a.
  induction p as [|x p IH]; intros a Hn; [destruct a; reflexivity|].
  apply not_elem_of_cons in Hn as [Hx Hp].
  destruct a as [|y a]; simpl.
  - destruct (ascii_dec x c) as [->|_]; [contradiction | reflexivity].
  - destruct (ascii_dec x y); [apply IH; exact Hp | reflexivity].
Qed.

Lemma ReplaceAll_app (a b : string) (old new : ascii) :
  Strings.ReplaceAll (a +:+ b) old new
  = Strings.ReplaceAll a old new +:+ Strings.ReplaceAll b old new.
Proof. induction a as [|c a IH]; simpl; [reflexivity | f_equal; exact IH]. Qed.

Lemma ReplaceAll_clean (s : string) (old new : ascii) :
  new <> old -> old ∉ list_ascii_of_string (Strings.ReplaceAll s old new).
Proof.
  intros Hne. induction s as [|c s IH]; simpl.
  - apply not_elem_of_nil.
  - apply not_elem_of_cons. split; [|exact IH].
    destruct (Ascii.eqb_spec c old) as [->|Hc]; congruence.
Qed.

Lemma ReplaceAll_empty (s : string) (old new : ascii) :
  Strings.ReplaceAll s old new = EmptyString -> s = EmptyString.
Proof. destruct s; simpl; [reflexivity | discriminate]. Qed.

(** What follows the first question mark of an endpoint does not change
    which test file answers it. *)
Lemma doTestAPIGet_query (env : OS.Env) (ep q : string) :
  "?"%char ∉ list_ascii_of_string ep ->
  Strings.HasPrefix ep "https://api.trello.com/1/" = false ->
  TestAPI.doTestAPIGet env (ep +:+ String "?" q) = TestAPI.doTestAPIGet env ep.
Proof.
  intros Hq Himp. unfold TestAPI.doTestAPIGet.
  rewrite HasPrefix_app, Himp.
  2: { vm_compute. intros H. repeat (apply elem_of_cons in H as [H|H]; [discriminate|]).
       inversion H. }
  rewrite (Split_app _ _ _ Hq), (Split_no_sep _ _ Hq). reflexivity.
Qed.

(** X1: a selection of fields appended to an endpoint does not change
    which test file answers it. *)
Theorem doTestAPIGet_ignores_fields (env : OS.Env) (ep : string)
    (fields : list string) :
  "?"%char ∉ list_ascii_of_string ep ->
  Strings.HasPrefix ep "https://api.trello.com/1/" = false ->
  TestAPI.doTestAPIGet env (Trello.MakeEndpoint ep fields)
  = TestAPI.doTestAPIGet env ep.
Proof.
  intros Hq Himp. unfold Trello.MakeEndpoint.
  destruct fields as [|f fields]; [reflexivity|].
  apply (doTestAPIGet_query env ep ("fields=" +:+ Trello.join "," (f :: fields)) Hq Himp).
Qed.

Lemma string_app_assoc (a b c : string) : (a +:+ b) +:+ c = a +:+ (b +:+ c).
Proof. induction a as [|x a IH]; simpl; [reflexivity | f_equal; exact IH]. Qed.

Lemma not_in_chars_app (c : ascii) (a b : string) :
  c ∉ list_ascii_of_string a -> c ∉ list_ascii_of_string b ->
  c ∉ list_ascii_of_string (a +:+ b).
Proof. intros Ha Hb. rewrite chars_app. apply not_elem_of_app. auto. Qed.

(** An endpoint with a leading slash and no query is answered from the
    file named after it, slashes turned into dashes. *)
Lemma doTestAPIGet_slash (env : OS.Env) (s : string) :
  "?"%char ∉ list_ascii_of_string s ->
  s <> EmptyString ->
  TestAPI.doTestAPIGet env ("/" +:+ s)
  = Done (TestAPI.readTestFile env
            (OS.Getenv env "TRELLOFS_TEST" +:+ "/"
             +:+ Strings.ReplaceAll s "/" "-" +:+ ".json")).
Proof.
  intros Hq Hne. unfold TestAPI.doTestAPIGet.
  change (Strings.HasPrefix ("/" +:+ s) "https://api.trello.com/1/") with false.
  rewrite Split_no_sep.
  2: { simpl. apply not_elem_of_cons. split; [discriminate | exact Hq]. }
  destruct s as [|c s]; [contradiction | reflexivity].
Qed.

Ltac no_char :=
  repeat first
    [ apply not_in_chars_app
    | assumption
    | (apply not_elem_of_cons; split; [discriminate|])
    | solve [vm_compute; let H := fresh in intros H;
             repeat (apply elem_of_cons in H as [H|H]; [discriminate|]); inversion H] ].

(** X2: with [TRELLOFS_TEST] set, the reply to each of the five queries
    of the package is read from one file of that directory, named after
    the kind of record and the id the query is about. *)
Theorem ApiGet_test_files (env : OS.Env) (cl : TestAPI.Client)
    (t : Trello.TrelloCtx.t) (tdir : string) :
  OS.Getenv env "TRELLOFS_TEST" = tdir ->
  tdir <> EmptyString ->
  let dash := fun s => Strings.ReplaceAll s "/" "-" in
  let file := fun nm => Done (TestAPI.readTestFile env (tdir +:+ "/" +:+ nm +:+ ".json")) in
  (forall c : Trello.TrelloCtx.t,
     "?"%char ∉ list_ascii_of_string (Trello.TrelloCtx.ID c) ->
     TestAPI.ApiGet env cl t (TestAPI.endpointOf (fun r => Trello.GetWorkspaces r c))
     = file ("members-" +:+ dash (Trello.TrelloCtx.ID c) +:+ "-organizations"))
  /\ (forall w : Trello.Workspace.t,
     "?"%char ∉ list_ascii_of_string (Trello.Workspace.ID w) ->
     TestAPI.ApiGet env cl t (TestAPI.endpointOf (fun r => Trello.Workspace_GetBoards r w))
     = file ("organizations-" +:+ dash (Trello.Workspace.ID w) +:+ "-boards"))
  /\ (forall b : Trello.Board.t,
     "?"%char ∉ list_ascii_of_string (Trello.Board.ID b) ->
     TestAPI.ApiGet env cl t (TestAPI.endpointOf (fun r => Trello.Board_GetCards r b))
     = file ("boards-" +:+ dash (Trello.Board.ID b) +:+ "-cards")
     /\ TestAPI.ApiGet env cl t (TestAPI.endpointOf (fun r => Trello.Board_GetLists r b))
        = file ("boards-" +:+ dash (Trello.Board.ID b) +:+ "-lists"))
  /\ (forall l : Trello.List.t,
     "?"%char ∉ list_ascii_of_string (Trello.List.ID l) ->
     TestAPI.ApiGet env cl t (TestAPI.endpointOf (fun r => Trello.List_GetCards r l))
     = file ("lists-" +:+ dash (Trello.List.ID l) +:+ "-cards")).
Proof.
  intros Htdir Hne dash file.
  assert (Hmode : forall ep, TestAPI.ApiGet env cl t ep = TestAPI.doTestAPIGet env ep).
  { intros ep. unfold TestAPI.ApiGet. rewrite Htdir.
    destruct (String.eqb_spec tdir EmptyString); [contradiction | reflexivity]. }
  assert (Hq : forall pre id post fields,
            "?"%char ∉ list_ascii_of_string pre ->
            "?"%char ∉ list_ascii_of_string post ->
            "?"%char ∉ list_ascii_of_string id ->
            pre <> EmptyString ->
            TestAPI.doTestAPIGet env
              (Trello.MakeEndpoint ("/" +:+ pre +:+ id +:+ post) fields)
            = file (dash pre +:+ dash id +:+ dash post)).
  { intros pre id post fields Hpre Hpost Hid Hpne.
    assert (Hdrop : TestAPI.doTestAPIGet env
                      (Trello.MakeEndpoint ("/" +:+ pre +:+ id +:+ post) fields)
                    = TestAPI.doTestAPIGet env ("/" +:+ pre +:+ id +:+ post)).
    { unfold Trello.MakeEndpoint. destruct fields as [|f fields]; [reflexivity|].
      apply (doTestAPIGet_query env _ ("fields=" +:+ Trello.join "," (f :: fields)));
        [simpl; no_char | reflexivity]. }
    rewrite Hdrop.
    rewrite doTestAPIGet_slash; [|no_char | destruct pre; [congruence | simpl; discriminate]].
    unfold file, dash. rewrite Htdir, !ReplaceAll_app. reflexivity. }
  split_and!.
  - intros c Hc. rewrite Hmode.
    change (TestAPI.endpointOf (fun r => Trello.GetWorkspaces r c))
      with (Trello.MakeEndpoint
              ("/" +:+ "members/" +:+ Trello.TrelloCtx.ID c +:+ "/organizations")
              ["id"; "name"; "displayName"]).
    rewrite Hq; [reflexivity | no_char | no_char | exact Hc | discriminate].
  - intros w Hw. rewrite Hmode.
    change (TestAPI.endpointOf (fun r => Trello.Workspace_GetBoards r w))
      with (Trello.MakeEndpoint
              ("/" +:+ "organizations/" +:+ Trello.Workspace.ID w +:+ "/boards")
              ["id"; "name"; "desc"; "descData"; "closed"]).
    rewrite Hq; [reflexivity | no_char | no_char | exact Hw | discriminate].
  - intros b Hb. rewrite !Hmode.
    change (TestAPI.endpointOf (fun r => Trello.Board_GetCards r b))
      with (Trello.MakeEndpoint
              ("/" +:+ "boards/" +:+ Trello.Board.ID b +:+ "/cards") []).
    change (TestAPI.endpointOf (fun r => Trello.Board_GetLists r b))
      with (Trello.MakeEndpoint
              ("/" +:+ "boards/" +:+ Trello.Board.ID b +:+ "/lists") []).
    rewrite !Hq; [split; reflexivity | no_char ..]; discriminate.
  - intros l Hl. rewrite Hmode.
    change (TestAPI.endpointOf (fun r => Trello.List_GetCards r l))
      with (Trello.MakeEndpoint
              ("/" +:+ "lists/" +:+ Trello.List.ID l +:+ "/cards") []).
    rewrite Hq; [reflexivity | no_char | no_char | exact Hl | discriminate].
Qed.

(** X3: whatever the endpoint, [doTestAPIGet] returns: it rejects the
    endpoint before it looks at any file, or it answers from one file
    that lies directly in the directory [TRELLOFS_TEST], whose name is
    not empty and holds no slash. *)
Theorem doTestAPIGet_stays_in_directory (env : OS.Env) (endpoint : string) :
  TestAPI.doTestAPIGet env endpoint
  = Done (Err (ApiError ("improper endpoint for GET: " +:+ endpoint)))
  \/ TestAPI.doTestAPIGet env endpoint = Done (Err (ApiError "empty endpoint"))
  \/ exists fn,
       fn <> EmptyString
       /\ ("/"%char ∉ list_ascii_of_string fn)
       /\ TestAPI.doTestAPIGet env endpoint
          = Done (TestAPI.readTestFile env
                    (OS.Getenv env "TRELLOFS_TEST" +:+ "/" +:+ fn +:+ ".json")).
Proof.
  unfold TestAPI.doTestAPIGet.
  destruct (Strings.HasPrefix endpoint "https://api.trello.com/1/"); [left; reflexivity|].
  right.
  destruct (Strings.Split endpoint "?") as [|ep0 rest] eqn:Hs.
  { exfalso. apply (Split_nonempty _ _ Hs). }
  set (ep := if Strings.HasPrefix ep0 "/" then Strings.TrimPrefix ep0 "/" else ep0).
  cbv zeta.
  destruct (String.eqb_spec ep EmptyString) as [He|He]; [left; reflexivity|].
  right. exists (Strings.ReplaceAll ep "/" "-"). split_and!.
  - intros Hr. apply He. apply (ReplaceAll_empty _ _ _ Hr).
  - apply ReplaceAll_clean. discriminate.
  - reflexivity.
Qed.

Lemma HasPrefix_first (c p : ascii) (x y : string) :
  Strings.HasPrefix (String c x) (String p EmptyString)
  = Strings.HasPrefix (String c y) (String p EmptyString).
Proof.
  unfold Strings.HasPrefix. simpl. destruct (ascii_dec p c); [|reflexivity].
  destruct x, y; reflexivity.
Qed.

(** X4: an endpoint without its leading slash is answered as the same
    endpoint with it, over HTTP and from the test files alike, unless
    the test files are in use and the endpoint is a whole URL of the
    service. *)
Theorem ApiGet_leading_slash (env : OS.Env) (cl : TestAPI.Client)
    (t : Trello.TrelloCtx.t) (endpoint : string) :
  Strings.HasPrefix endpoint "/" = false ->
  OS.Getenv env "TRELLOFS_TEST" = EmptyString
  \/ Strings.HasPrefix endpoint "https://api.trello.com/1/" = false ->
  TestAPI.ApiGet env cl t endpoint = TestAPI.ApiGet env cl t ("/" +:+ endpoint).
Proof.
  intros Hs Hmode. unfold TestAPI.ApiGet.
  destruct (String.eqb_spec (OS.Getenv env "TRELLOFS_TEST") EmptyString) as [He|He];
    simpl.
  - unfold TestAPI.NewRequest. rewrite Hs.
    destruct endpoint as [|c e]; reflexivity.
  - destruct Hmode as [Hm|Himp]; [contradiction|].
    unfold TestAPI.doTestAPIGet. rewrite Himp.
    change (Strings.HasPrefix ("/" +:+ endpoint) "https://api.trello.com/1/")
      with false.
    cbn [Strings.Split]. change (Ascii.eqb "/" "?") with false. cbv iota.
    destruct (Strings.Split endpoint "?") as [|ep0 rest] eqn:Hsp.
    { exfalso. apply (Split_nonempty _ _ Hsp). }
    assert (Hep0 : Strings.HasPrefix ep0 "/" = false).
    { destruct endpoint as [|c e]; simpl in Hsp.
      - inversion Hsp. reflexivity.
      - revert Hsp. destruct (Ascii.eqb c "?"); [intros Hsp; inversion Hsp; reflexivity|].
        destruct (Strings.Split e "?"); intros Hsp; inversion Hsp; subst;
          rewrite (HasPrefix_first c "/" _ e); exact Hs. }
    rewrite Hep0.
    destruct ep0 as [|c e]; reflexivity.
Qed.

End TestAPIProofs.

Lemma doTestAPIGet_ignores_fields_witness :
  TestAPI.doTestAPIGet Fixtures.env "/boards/b1/cards?fields=id,name"
  = Done (Ok (list_byte_of_string "/tmp/t/boards-b1-cards.json")).
Proof.
  change "/boards/b1/cards?fields=id,name"
    with (Trello.MakeEndpoint "/boards/b1/cards" ["id"; "name"]).
  rewrite (doTestAPIGet_ignores_fields Fixtures.env "/boards/b1/cards" ["id"; "name"]).
  - reflexivity.
  - vm_compute. intros H.
    repeat (apply elem_of_cons in H as [H|H]; [discriminate|]). inversion H.
  - reflexivity.
Defined.

Lemma ApiGet_test_files_witness :
  TestAPI.ApiGet Fixtures.env Fixtures.client Fixtures.ctx
    (TestAPI.endpointOf (fun r => Trello.GetWorkspaces r Fixtures.ctx))
  = Done (Ok (list_byte_of_string "/tmp/t/members-me-organizations.json")).
Proof.
  destruct (ApiGet_test_files Fixtures.env Fixtures.client Fixtures.ctx "/tmp/t")
    as (H & _); [reflexivity | discriminate |].
  rewrite (H Fixtures.ctx); [reflexivity|].
  vm_compute. intros Hin.
  repeat (apply elem_of_cons in Hin as [Hin|Hin]; [discriminate|]). inversion Hin.
Defined.

Lemma ApiGet_leading_slash_witness :
  TestAPI.ApiGet Fixtures.production Fixtures.client Fixtures.ctx "boards/b1/lists"
  = Done (Ok (list_byte_of_string "https://api.trello.com/1/boards/b1/lists"))
  /\ TestAPI.ApiGet Fixtures.env Fixtures.client Fixtures.ctx "boards/b1/lists"
     = Done (Ok (list_byte_of_string "/tmp/t/boards-b1-lists.json")).
Proof.
  split.
  - rewrite (ApiGet_leading_slash Fixtures.production Fixtures.client Fixtures.ctx
               "boards/b1/lists"); [reflexivity | reflexivity | left; reflexivity].
  - rewrite (ApiGet_leading_slash Fixtures.env Fixtures.client Fixtures.ctx
               "boards/b1/lists"); [reflexivity | reflexivity | right; reflexivity].
Defined.

(** ** Looking a name up and listing it *)

Lemma lookupName_find {A : Type} (arena : list A) (baseOf : A -> BaseFSNode)
    (children : list nat) (bs : list BaseFSNode) (nm : string) :
  mapM (baseAt arena baseOf) children = Done bs ->
  match List.find (fun b => String.eqb (name b) nm) bs with
  | Some b =>
      exists p x,
        lookupName arena baseOf children nm = Done (Some p)
        /\ p ∈ children /\ arena !! p = Some x /\ baseOf x = b
  | None => lookupName arena baseOf children nm = Done None
  end.
Proof.
  revert bs. induction children as [|p children IH]; intros bs E; simpl in E.
  - inversion E; subst. reflexivity.
  - apply bind_Done in E as (b & Eb & E).
    apply bind_Done in E as (bs' & Ebs & E). inversion E; subst bs; clear E.
    unfold baseAt in Eb. apply bind_Done in Eb as (x & Ex & Eb).
    inversion Eb; subst b; clear Eb.
    simpl. rewrite Ex. cbn [bind].
    destruct (String.eqb (name (baseOf x)) nm).
    + exists p, x. apply deref_Done in Ex. split_and!; auto. left.
    + specialize (IH bs' Ebs).
      destruct (List.find (fun b => String.eqb (name b) nm) bs') as [b|].
      * destruct IH as (q & y & Hl & Hin & Hy & Hb). exists q, y.
        split_and!; auto. right. exact Hin.
      * exact IH.
Qed.

(** X5: a directory resolves a name to the first of the children it
    lists that bears the name, and to no node when it lists none of that
    name.  (A board resolves the two fixed names it gives its two
    sub-directories.) *)
Theorem LookupChild_first_listed (h : Heap) (n : FSNode) (ty : DirentType)
    (bs : list BaseFSNode) (nm : string) :
  dirChildren h n = Done (ty, bs) ->
  (forall p, n = NFSBoard p -> map name bs = ["cards"; "lists"]) ->
  match List.find (fun b => String.eqb (name b) nm) bs with
  | Some b =>
      exists child,
        LookupChild h n nm = Done (Ok child) /\ getBase h child = Done b
  | None => LookupChild h n nm = Done (Err ENOENT)
  end.
Proof.
  intros E Hboard.
  assert (Hgen : forall (A : Type) (arena : list A) (baseOf : A -> BaseFSNode)
                   (mk : nat -> FSNode) (children : list nat),
             (forall p, getBase h (mk p)
                        = (let* x := deref arena p in Done (baseOf x))) ->
             mapM (baseAt arena baseOf) children = Done bs ->
             match List.find (fun b => String.eqb (name b) nm) bs with
             | Some b =>
                 exists child,
                   (let* o := lookupName arena baseOf children nm in
                    Done (found mk o)) = Done (Ok child)
                   /\ getBase h child = Done b
             | None =>
                 (let* o := lookupName arena baseOf children nm in
                  Done (found mk o)) = Done (Err ENOENT)
             end).
  { intros A arena baseOf mk children Hget Em.
    pose proof (lookupName_find arena baseOf children bs nm Em) as F.
    destruct (List.find (fun b => String.eqb (name b) nm) bs) as [b|].
    - destruct F as (p & x & Hl & _ & Hx & Hb). exists (mk p).
      rewrite Hl. cbn [bind found]. split; [reflexivity|].
      rewrite Hget, (deref_Some _ _ _ Hx). cbn [bind]. rewrite Hb. reflexivity.
    - rewrite F. reflexivity. }
  destruct n as [|p|p|p|p|p|p|p]; simpl in E |- *.
  - apply bind_Done in E as (bs0 & Em & E). inversion E; subst.
    apply (Hgen _ _ _ NFSWorkspace _ (fun _ => eq_refl) Em).
  - apply bind_Done in E as (node & Hp & E). apply bind_Done in E as (bs0 & Em & E).
    inversion E; subst. unfold FSWorkspace_LookupChild. rewrite Hp. cbn [bind].
    apply (Hgen _ _ _ NFSBoard _ (fun _ => eq_refl) Em).
  - apply bind_Done in E as (node & Hp & E).
    unfold FSBoard_LookupChild. rewrite Hp. cbn [bind].
    destruct (FSBoard.MetaCardsDir node) as [pc|]; [|discriminate].
    destruct (FSBoard.MetaListsDir node) as [pl|]; [|discriminate].
    apply bind_Done in E as (c & Ec & E). apply bind_Done in E as (l & El & E).
    inversion E; subst ty bs; clear E.
    specialize (Hboard p eq_refl). simpl in Hboard.
    inversion Hboard as [[Hc Hl]]. simpl. rewrite Hc, Hl.
    destruct (String.eqb_spec nm "lists") as [->|Hnl].
    + simpl. exists (NFSBoardListsDirMeta pl). split; [reflexivity|].
      simpl. unfold baseAt in El. exact El.
    + destruct (String.eqb_spec nm "cards") as [->|Hnc].
      * simpl. exists (NFSBoardCardsDirMeta pc). split; [reflexivity|].
        simpl. unfold baseAt in Ec. exact Ec.
      * destruct (String.eqb_spec "cards" nm) as [<-|_]; [contradiction|].
        destruct (String.eqb_spec "lists" nm) as [<-|_]; [contradiction|].
        reflexivity.
  - apply bind_Done in E as (node & Hp & E). apply bind_Done in E as (bn & Hb & E).
    apply bind_Done in E as (bs0 & Em & E). inversion E; subst.
    unfold FSBoardCardsDirMeta_LookupChild. rewrite Hp. cbn [bind]. rewrite Hb. cbn [bind].
    apply (Hgen _ _ _ NFSCard _ (fun _ => eq_refl) Em).
  - apply bind_Done in E as (node & Hp & E). apply bind_Done in E as (bn & Hb & E).
    apply bind_Done in E as (bs0 & Em & E). inversion E; subst.
    unfold FSBoardListsDirMeta_LookupChild. rewrite Hp. cbn [bind]. rewrite Hb. cbn [bind].
    apply (Hgen _ _ _ NFSList _ (fun _ => eq_refl) Em).
  - apply bind_Done in E as (node & Hp & E). apply bind_Done in E as (bn & Hb & E).
    apply bind_Done in E as (bs0 & Em & E). inversion E; subst.
    unfold FSList_LookupChild. rewrite Hp. cbn [bind].
    apply (Hgen _ _ _ NFSCard _ (fun _ => eq_refl) Em).
  - apply bind_Done in E as (node & Hp & E). apply bind_Done in E as (card & Hc & E).
    destruct (Trello.Card.Board card); [|discriminate].
    apply bind_Done in E as (bs0 & Em & E). inversion E; subst.
    unfold FSCard_LookupChild. rewrite Hp. cbn [bind].
    apply (Hgen _ _ _ NFSCardMetaFile _ (fun _ => eq_refl) Em).
  - inversion E; subst. reflexivity.
Qed.

Lemma LookupChild_first_listed_witness :
  dirChildren Demo.heap3 NTrelloTreeRoot
  = Done (DT_Directory,
          [ SetNodeID (newDirBase "a" 1000 1000 "w1") 2;
            SetNodeID (newDirBase "b" 1000 1000 "w2") 3;
            SetNodeID (newDirBase "c" 1000 1000 "w3") 4 ])
  /\ LookupChild Demo.heap3 NTrelloTreeRoot "b" = Done (Ok (NFSWorkspace 1))
  /\ LookupChild Demo.heap3 NTrelloTreeRoot "d" = Done (Err ENOENT).
Proof.
  assert (E : dirChildren Demo.heap3 NTrelloTreeRoot
              = Done (DT_Directory,
                      [ SetNodeID (newDirBase "a" 1000 1000 "w1") 2;
                        SetNodeID (newDirBase "b" 1000 1000 "w2") 3;
                        SetNodeID (newDirBase "c" 1000 1000 "w3") 4 ]))
    by reflexivity.
  split; [exact E|]. split.
  - pose proof (LookupChild_first_listed _ _ _ _ "b" E) as H.
    simpl in H. destruct H as (child & Hc & _); [discriminate|].
    pose proof Hc as Hc'. vm_compute in Hc'. inversion Hc'; subst child. exact Hc.
  - apply (LookupChild_first_listed _ _ _ _ "d" E). discriminate.
Defined.

(** ** What a listing puts into the buffer *)

Section Buffer.
Context {fl : FuseLib}.

Lemma fitCount_stops (room : Z) (ds : list Dirent) (d : Dirent) :
  ds !! fitCount room ds = Some d ->
  room - totalLen (take (fitCount room ds) ds) < direntLen d.
Proof.
  revert room. induction ds as [|x ds IH]; intros room H; simpl in H |- *.
  - discriminate.
  - destruct (Z.leb_spec (direntLen x) room) as [Hle|Hgt]; simpl in H |- *.
    + specialize (IH _ H). lia.
    + inversion H; subst. lia.
Qed.

(** X6: a listing never writes more than the buffer holds.  From a valid
    offset it writes a run of the entries that start there, returns the
    bytes they take, and stops only at the end of the directory or at the
    first entry that no longer fits. *)
Theorem ReadDir_fits_buffer (h : Heap) (n : FSNode) (ty : DirentType)
    (bs : list BaseFSNode) (dstLen offset : Z) :
  dirChildren h n = Done (ty, bs) ->
  0 <= dstLen ->
  0 <= offset ->
  exists size ds,
    ReadDir h n dstLen offset = Done (size, ds)
    /\ size = totalLen ds
    /\ 0 <= size <= dstLen
    /\ ds `prefix_of` drop (Z.to_nat offset) (entriesFrom ty bs 0)
    /\ forall d,
         drop (Z.to_nat offset) (entriesFrom ty bs 0) !! length ds = Some d ->
         dstLen - size < direntLen d.
Proof.
  intros E Hd Ho.
  pose proof (ReadDir_spec h n ty bs dstLen (Z.to_nat offset) E) as S.
  rewrite Z2Nat.id in S by exact Ho. cbv zeta in S.
  set (rest := drop (Z.to_nat offset) (entriesFrom ty bs 0)) in *.
  set (M := fitCount dstLen rest) in *.
  exists (totalLen (take M rest)), (take M rest). split_and!.
  - exact S.
  - reflexivity.
  - apply totalLen_nonneg.
  - apply fitCount_fits. exact Hd.
  - apply prefix_take.
  - intros d Hdl. rewrite length_take_le in Hdl by apply fitCount_le_length.
    apply (fitCount_stops dstLen rest d Hdl).
Qed.

(** X7: from an offset at or past the number of children a listing is
    empty, whatever the buffer. *)
Theorem ReadDir_past_end (h : Heap) (n : FSNode) (ty : DirentType)
    (bs : list BaseFSNode) (dstLen offset : Z) :
  dirChildren h n = Done (ty, bs) ->
  Z.of_nat (length bs) <= offset ->
  ReadDir h n dstLen offset = Done (0, []).
Proof.
  intros E Ho.
  pose proof (ReadDir_spec h n ty bs dstLen (Z.to_nat offset) E) as S.
  rewrite Z2Nat.id in S by lia. cbv zeta in S.
  rewrite drop_ge in S by (rewrite entriesFrom_length; lia).
  exact S.
Qed.

(** A negative index into the children panics, whatever the directory. *)
Lemma ReadDir_negative (h : Heap) (n : FSNode) (dstLen offset : Z) :
  offset < 0 ->
  (forall p, n <> NFSCardMetaFile p) ->
  exists w, ReadDir h n dstLen offset = Abort w.
Proof.
  intros Ho Hn.
  assert (R : forall (C : Type) (baseOf : C -> outcome BaseFSNode) ty children,
            readDir baseOf ty children dstLen offset = Abort IndexOutOfRange).
  { intros. unfold readDir. destruct (Z.ltb_spec offset 0); [reflexivity | lia]. }
  destruct n as [|p|p|p|p|p|p|p]; simpl.
  - eexists. apply R.
  - unfold FSWorkspace_ReadDir. destruct (deref (workspaces h) p); simpl; eauto.
  - unfold FSBoard_ReadDir. destruct (deref (boards h) p); simpl; eauto.
  - unfold FSBoardCardsDirMeta_ReadDir.
    destruct (deref (cardsDirs h) p) as [x|]; simpl; eauto.
    destruct (deref (boards h) (FSBoardCardsDirMeta.BoardNode x)); simpl; eauto.
  - unfold FSBoardListsDirMeta_ReadDir.
    destruct (deref (listsDirs h) p) as [x|]; simpl; eauto.
    destruct (deref (boards h) (FSBoardListsDirMeta.BoardNode x)); simpl; eauto.
  - unfold FSList_ReadDir.
    destruct (deref (lists h) p) as [x|]; simpl; eauto.
    destruct (deref (boards h) (FSList.BoardNode x)); simpl; eauto.
  - unfold FSCard_ReadDir.
    destruct (deref (cards h) p) as [x|]; simpl; eauto.
    destruct (deref (cardVars h) (FSCard.Card x)) as [c|]; simpl; eauto.
    destruct (Trello.Card.Board c); eauto.
  - exfalso. apply (Hn p). reflexivity.
Qed.

Context {tc : GoToolchain}.

(** X8: the offset of a [ReadDir] request is an unsigned 64-bit number
    that the file system converts to [int]; at [2^63] and above the
    conversion is negative and the request on a directory panics. *)
Theorem fsReadDir_huge_offset_panics (r : Trello.Remote) (now : Time)
    (fs : trelloFS) (id : InodeID) (parent : FSNode) (dstLen offset : Z) :
  slot fs id = Done (Some parent) ->
  (forall p, parent <> NFSCardMetaFile p) ->
  2 ^ 63 <= offset < 2 ^ 64 ->
  exists w, fsReadDir r now fs id dstLen offset = Abort w.
Proof.
  intros Hs Hn Ho. unfold fsReadDir. rewrite Hs. cbn [bind].
  destruct (refreshNode r now fs parent) as [fs'|w]; [|eauto]. cbn [bind].
  destruct (ReadDir_negative (heap fs') parent dstLen (int_of_uint64 offset))
    as [w Hw]; [|exact Hn|].
  - unfold int_of_uint64, int64_max.
    destruct (Z.leb_spec offset (2 ^ 63 - 1)); lia.
  - rewrite Hw. eauto.
Qed.

End Buffer.

Lemma ReadDir_fits_buffer_witness :
  ReadDir Demo.heap3 NTrelloTreeRoot 40 0
  = Done (32, [mkDirent 1 2 "a" DT_Directory]).
Proof.
  destruct (ReadDir_fits_buffer Demo.heap3 NTrelloTreeRoot DT_Directory
              [ SetNodeID (newDirBase "a" 1000 1000 "w1") 2;
                SetNodeID (newDirBase "b" 1000 1000 "w2") 3;
                SetNodeID (newDirBase "c" 1000 1000 "w3") 4 ] 40 0)
    as (size & ds & HR & _); [reflexivity | lia | lia |].
  pose proof HR as HR'. vm_compute in HR'. inversion HR'; subst size ds. exact HR.
Defined.

Lemma ReadDir_past_end_witness :
  ReadDir Demo.heap3 NTrelloTreeRoot 4096 3 = Done (0, []).
Proof.
  apply (ReadDir_past_end Demo.heap3 NTrelloTreeRoot DT_Directory
           [ SetNodeID (newDirBase "a" 1000 1000 "w1") 2;
             SetNodeID (newDirBase "b" 1000 1000 "w2") 3;
             SetNodeID (newDirBase "c" 1000 1000 "w3") 4 ]);
    [reflexivity | simpl; lia].
Defined.

Lemma fsReadDir_huge_offset_panics_witness :
  fsReadDir Demo.remote3 63800000003000000000 Demo.mount3 1 4096 (2 ^ 63)
  = Abort IndexOutOfRange.
Proof.
  destruct (fsReadDir_huge_offset_panics Demo.remote3 63800000003000000000
              Demo.mount3 1 NTrelloTreeRoot 4096 (2 ^ 63))
    as [w Hw]; [reflexivity | discriminate | lia |].
  pose proof Hw as Hw'. vm_compute in Hw'. inversion Hw'; subst w. exact Hw.
Defined.

(** ** Loops, step by step *)

(** A relation between the states of a loop that holds of every step,
    and is reflexive and transitive, holds of the whole loop. *)
Lemma fold_left_rel {S X : Type} (R : S -> S -> Prop) (body : S -> X -> S) :
  (forall s, R s s) ->
  (forall a b c, R a b -> R b c -> R a c) ->
  (forall s x, R s (body s x)) ->
  forall xs s, R s (fold_left body xs s).
Proof.
  intros Hrefl Htrans Hstep xs. induction xs as [|x xs IH]; intros s; simpl.
  - apply Hrefl.
  - eapply Htrans; [apply Hstep | apply IH].
Qed.

(** The same for an invariant of the state, the steps being over the
    elements of the list. *)
Lemma fold_left_inv {S X : Type} (I : S -> Prop) (body : S -> X -> S)
    (xs : list X) :
  (forall s x, x ∈ xs -> I s -> I (body s x)) ->
  forall s, I s -> I (fold_left body xs s).
Proof.
  induction xs as [|x xs IH]; intros Hstep s Hs; simpl; [exact Hs|].
  apply IH.
  - intros s' x' Hx'. apply Hstep. right. exact Hx'.
  - apply Hstep; [left | exact Hs].
Qed.

(** ** A list hands its cards to the board *)

Section ListAndBoard.
Context {tc : GoToolchain}.

(** X9: whatever a list gains in a refresh, the board gains too, in the
    same order at the end of its own sequence of cards, whether or not
    the board listed the card before. *)
Theorem FSList_Update_appends_to_board (r : Trello.Remote) (now : Time)
    (p : nat) (h h' : Heap) (res : UpdateResult)
    (node0 : FSList.t) (bn0 : FSBoard.t) :
  lists h !! p = Some node0 ->
  boards h !! FSList.BoardNode node0 = Some bn0 ->
  FSList_Update r now p h = Done (h', res) ->
  exists node' bn' ext,
    lists h' !! p = Some node'
    /\ boards h' !! FSList.BoardNode node0 = Some bn'
    /\ FSList.Cards node' = FSList.Cards node0 ++ ext
    /\ FSBoard.Cards bn' = FSBoard.Cards bn0 ++ ext.
Proof.
  intros Hp Hb E. unfold FSList_Update in E.
  rewrite (deref_Some _ _ _ Hp) in E. cbn [bind] in E.
  rewrite (deref_Some _ _ _ Hb) in E. cbn [bind] in E.
  apply bind_Done in E as (l & _ & E).
  destruct (Trello.List_GetCards r l) as [cs|e].
  2: { inversion E; subst. exists node0, bn0, []. rewrite !app_nil_r. auto. }
  set (body := FSList_Update_body (uid (FSList.base node0))
                 (gid (FSList.base node0)) (length (cardVars h))) in *.
  set (s0 := (cards h, enterLoop (cardVars h) Trello.Card.zero, node0, bn0,
              @nil FSNode)) in *.
  pose proof (fold_left_rel
                (fun s s' : list FSCard.t * list Trello.Card.t * FSList.t
                            * FSBoard.t * list FSNode =>
                   exists ext,
                     FSList.Cards s'.1.1.2 = FSList.Cards s.1.1.2 ++ ext
                     /\ FSBoard.Cards s'.1.2 = FSBoard.Cards s.1.2 ++ ext)
                body) as G.
  specialize (G ltac:(intros s; exists []; rewrite !app_nil_r; auto)).
  specialize (G ltac:(intros a b c (e1 & H1 & H2) (e2 & H3 & H4);
                      exists (e1 ++ e2); rewrite H3, H1, H4, H2, !app_assoc; auto)).
  specialize (G ltac:(intros [[[[a v] n] b] w] x; unfold body, FSList_Update_body;
                      simpl; destruct (loopVar v (length (cardVars h)) x);
                      destruct (FSBoard.ByCardID b !! Trello.Card.ID x);
                      destruct (FSList.ByID n !! Trello.Card.ID x); simpl;
                      first [ exists []; rewrite !app_nil_r; split; reflexivity
                            | eexists [_]; split; reflexivity ])
                cs s0).
  destruct (fold_left body cs s0) as [[[[arena vars] node] bn] news].
  simpl in G. destruct G as (ext & HL & HB).
  inversion E; subst h' res; clear E. simpl.
  eexists _, bn, ext. split_and!.
  - apply list_lookup_insert_eq. eapply lookup_lt_Some. exact Hp.
  - apply list_lookup_insert_eq. eapply lookup_lt_Some. exact Hb.
  - simpl. exact HL.
  - exact HB.
Qed.

End ListAndBoard.

(** ** One query per interval *)

Lemma getBase_setNodeID_stamp (h : Heap) (m n : FSNode) (id : InodeID)
    (b : BaseFSNode) :
  getBase h n = Done b ->
  exists b', getBase (setNodeID h m id) n = Done b'
             /\ lastUpdate b' = lastUpdate b.
Proof.
  intros Hb. destruct (decide (m = n)) as [->|Hne].
  - rewrite (getBase_setNodeID _ _ _ _ Hb). eexists. split; reflexivity.
  - rewrite (getBase_setNodeID_other _ _ _ _ Hne). eauto.
Qed.

Lemma addNodes_stamp (add : list FSNode) :
  forall fs fs' n b,
    addNodes fs add = Done fs' ->
    getBase (heap fs) n = Done b ->
    exists b', getBase (heap fs') n = Done b' /\ lastUpdate b' = lastUpdate b.
Proof.
  induction add as [|m add IH]; intros fs fs' n b E Hb; simpl in E.
  - inversion E; subst. eauto.
  - apply bind_Done in E as (fs1 & E1 & E).
    unfold addNode in E1. apply bind_Done in E1 as (bm & _ & E1).
    apply bind_Done in E1 as ([[id ino] free] & _ & E1).
    inversion E1; subst fs1; clear E1.
    destruct (getBase_setNodeID_stamp (heap fs) m n id b Hb) as (b1 & Hb1 & Hs1).
    destruct (IH _ fs' n b1 E Hb1) as (b' & Hb' & Hs').
    exists b'. split; [exact Hb' | congruence].
Qed.

Section Throttle.
Context {tc : GoToolchain} {fl : FuseLib}.

(** A refresh that went through leaves the time of the refresh in the
    node, for the five kinds of directory that query the service. *)
Lemma Update_marks (r : Trello.Remote) (c : Trello.TrelloCtx.t) (now : Time)
    (n : FSNode) (h h' : Heap) (res : UpdateResult) :
  Update r c now n h = Done (h', res) ->
  failure res = None ->
  match n with
  | NFSBoard _ | NFSCard _ | NFSCardMetaFile _ => True
  | _ => exists b, getBase h' n = Done b /\ lastUpdate b = now
  end.
Proof.
  intros E Hok. destruct n as [|p|p|p|p|p|p|p]; try exact I; simpl in E.
  - unfold TrelloTreeRoot_Update in E.
    destruct (Trello.GetWorkspaces r c); [|inversion E; subst; discriminate].
    destruct (fold_left _ _ _) as [[arena node] news].
    inversion E; subst. simpl. eauto.
  - unfold FSWorkspace_Update in E.
    apply bind_Done in E as (node0 & Hp & E). apply deref_Done in Hp.
    destruct (Trello.Workspace_GetBoards r _); [|inversion E; subst; discriminate].
    destruct (fold_left _ _ _) as [[arena node] news].
    inversion E; subst. simpl. unfold deref.
    rewrite list_lookup_insert_eq by (eapply lookup_lt_Some; exact Hp).
    simpl. eauto.
  - unfold FSBoardCardsDirMeta_Update in E.
    apply bind_Done in E as (node0 & Hp & E). apply deref_Done in Hp.
    apply bind_Done in E as (bn0 & Hb & E).
    destruct (Trello.Board_GetCards r _); [|inversion E; subst; discriminate].
    destruct (fold_left _ _ _) as [[[arena vars] bn] news].
    inversion E; subst. simpl. unfold deref.
    rewrite list_lookup_insert_eq by (eapply lookup_lt_Some; exact Hp).
    simpl. eauto.
  - unfold FSBoardListsDirMeta_Update in E.
    apply bind_Done in E as (node0 & Hp & E). apply deref_Done in Hp.
    apply bind_Done in E as (bn0 & Hb & E).
    destruct (Trello.Board_GetLists r _); [|inversion E; subst; discriminate].
    destruct (fold_left _ _ _) as [[[arena vars] bn] news].
    inversion E; subst. simpl. unfold deref.
    rewrite list_lookup_insert_eq by (eapply lookup_lt_Some; exact Hp).
    simpl. eauto.
  - unfold FSList_Update in E.
    apply bind_Done in E as (node0 & Hp & E). apply deref_Done in Hp.
    apply bind_Done in E as (bn0 & Hb & E).
    apply bind_Done in E as (l & Hl & E).
    destruct (Trello.List_GetCards r _); [|inversion E; subst; discriminate].
    destruct (fold_left _ _ _) as [[[[arena vars] node] bn] news].
    inversion E; subst. simpl. unfold deref.
    rewrite list_lookup_insert_eq by (eapply lookup_lt_Some; exact Hp).
    simpl. eauto.
Qed.

(** X10: once the refresh of a directory that queries the service has
    gone through at some instant, no request refreshes it again before
    its interval has passed since: 60 seconds for the root, a workspace
    and the [lists] directory of a board, 30 seconds for the [cards]
    directory of a board and for a list.  Until then a refresh leaves
    the file system as it is, whatever the service would answer. *)
Theorem refresh_throttled (r : Trello.Remote) (now : Time) (fs fs' : trelloFS)
    (n : FSNode) (h : Heap) (res : UpdateResult) :
  ShouldUpdate (heap fs) now n = Done true ->
  Update r (ctx fs) now n (heap fs) = Done (h, res) ->
  failure res = None ->
  refreshNode r now fs n = Done fs' ->
  forall interval : Z,
    match n with
    | NTrelloTreeRoot | NFSWorkspace _ | NFSBoardListsDirMeta _ => interval = 60
    | NFSBoardCardsDirMeta _ | NFSList _ => interval = 30
    | _ => False
    end ->
    forall (r' : Trello.Remote) (later : Time),
      later < now + interval * 1000000000 ->
      refreshNode r' later fs' n = Done fs'.
Proof.
  intros Hdue EU Hok ER interval Hint r' later Hlater.
  pose proof (Update_marks r (ctx fs) now n (heap fs) h res EU Hok) as Hm.
  unfold refreshNode in ER. rewrite Hdue in ER. cbn [bind negb] in ER.
  rewrite EU in ER. cbn [bind] in ER. rewrite Hok in ER.
  assert (Hb : exists b, getBase (heap fs') n = Done b /\ lastUpdate b = now).
  { destruct n; try contradiction;
      destruct Hm as (b & Hb & Hs);
      destruct (addNodes_stamp _ _ _ _ _ ER Hb) as (b' & Hb' & Hs');
      exists b'; (split; [exact Hb' | congruence]). }
  destruct Hb as (b & Hb & Hs).
  assert (Hnot : ShouldUpdate (heap fs') later n = Done false).
  { unfold ShouldUpdate.
    destruct n; try contradiction; rewrite Hb; cbn [bind]; subst interval;
      unfold shouldUpdate, Since; rewrite Hs; f_equal;
      apply Z.leb_gt; unfold int64_max; lia. }
  unfold refreshNode. rewrite Hnot. reflexivity.
Qed.

End Throttle.

(** ** The record behind a card node *)

Lemma cards_body_shared (u g : Z) (shared : nat) (arena : list FSCard.t)
    (vars : list Trello.Card.t) (bn : FSBoard.t) (news : list FSNode)
    (x : Trello.Card.t) :
  @FSBoardCardsDirMeta_Update_body go_1_21 u g shared (arena, vars, bn, news) x
  = match FSBoard.ByCardID bn !! Trello.Card.ID x with
    | Some _ => (arena, <[shared:=x]> vars, bn, news)
    | None =>
        (arena ++ [newFSCard u g x shared], <[shared:=x]> vars,
         FSBoard_addCard bn x (length arena), news ++ [NFSCard (length arena)])
    end.
Proof. reflexivity. Qed.

Lemma cards_body_own (u g : Z) (shared : nat) (arena : list FSCard.t)
    (vars : list Trello.Card.t) (bn : FSBoard.t) (news : list FSNode)
    (x : Trello.Card.t) :
  @FSBoardCardsDirMeta_Update_body go_1_22 u g shared (arena, vars, bn, news) x
  = match FSBoard.ByCardID bn !! Trello.Card.ID x with
    | Some _ => (arena, vars ++ [x], bn, news)
    | None =>
        (arena ++ [newFSCard u g x (length vars)], vars ++ [x],
         FSBoard_addCard bn x (length arena), news ++ [NFSCard (length arena)])
    end.
Proof. reflexivity. Qed.

(** With one variable for the whole loop, every card node the loop
    builds points at that variable, which holds the last card in the
    end. *)
Lemma cards_loop_shared_variable (u g : Z) (shared : nat) (cs : list Trello.Card.t) :
  forall arena vars bn news arena' vars' bn' news',
    (shared < length vars)%nat ->
    fold_left (@FSBoardCardsDirMeta_Update_body go_1_21 u g shared) cs
      (arena, vars, bn, news) = (arena', vars', bn', news') ->
    grows (fun c => FSCard.Card c = shared) NFSCard arena news arena' news'
    /\ vars' !! shared
       = match last cs with Some x => Some x | None => vars !! shared end.
Proof.
  induction cs as [|x cs IH]; intros arena vars bn news arena' vars' bn' news' Hlt E;
    cbn [fold_left] in E.
  - inversion E; subst. split; [apply grows_refl | reflexivity].
  - rewrite cards_body_shared in E.
    assert (Hcell : <[shared:=x]> vars !! shared = Some x)
      by (apply list_lookup_insert_eq; exact Hlt).
    assert (Hlen : (shared < length (<[shared:=x]> vars))%nat)
      by (rewrite length_insert; exact Hlt).
    rewrite last_cons.
    destruct (FSBoard.ByCardID bn !! Trello.Card.ID x).
    + destruct (IH _ _ _ _ _ _ _ _ Hlen E) as [G Hv]. split; [exact G|].
      rewrite Hv, Hcell. destruct (last cs); reflexivity.
    + destruct (IH _ _ _ _ _ _ _ _ Hlen E) as [G Hv]. split.
      * eapply grows_trans; [|exact G]. apply grows_one. reflexivity.
      * rewrite Hv, Hcell. destruct (last cs); reflexivity.
Qed.

(** With a variable per iteration, every card node the loop builds
    points at a variable of its own, which holds the card the node was
    built for. *)
Lemma cards_loop_own_variable (u g : Z) (shared : nat) (cs : list Trello.Card.t) :
  forall arena vars bn news arena' vars' bn' news',
    fold_left (@FSBoardCardsDirMeta_Update_body go_1_22 u g shared) cs
      (arena, vars, bn, news) = (arena', vars', bn', news') ->
    vars `prefix_of` vars'
    /\ exists ext,
         arena' = arena ++ ext
         /\ news' = news ++ map NFSCard (seq (length arena) (length ext))
         /\ Forall (fun c =>
                      exists card,
                        vars' !! FSCard.Card c = Some card
                        /\ name (FSCard.base c) = Trello.Card.Name card
                        /\ TrelloID (FSCard.base c) = Trello.Card.ID card) ext.
Proof.
  induction cs as [|x cs IH]; intros arena vars bn news arena' vars' bn' news' E;
    cbn [fold_left] in E.
  - inversion E; subst. split; [reflexivity|]. exists [].
    rewrite !app_nil_r. split_and!; auto.
  - rewrite cards_body_own in E.
    destruct (FSBoard.ByCardID bn !! Trello.Card.ID x).
    + destruct (IH _ _ _ _ _ _ _ _ E) as [Hpre G]. split; [|exact G].
      etransitivity; [|exact Hpre]. apply prefix_app_r. reflexivity.
    + destruct (IH _ _ _ _ _ _ _ _ E) as [Hpre (ext & -> & -> & Hall)]. split.
      * etransitivity; [|exact Hpre]. apply prefix_app_r. reflexivity.
      * exists (newFSCard u g x (length vars) :: ext). split_and!.
        -- rewrite <- app_assoc. reflexivity.
        -- rewrite length_app, <- app_assoc. simpl. rewrite Nat.add_1_r. reflexivity.
        -- apply Forall_cons. split; [|exact Hall].
           exists x. simpl. split_and!; try reflexivity.
           destruct Hpre as [k ->]. rewrite <- app_assoc.
           rewrite lookup_app_r by lia. rewrite Nat.sub_diag. reflexivity.
Qed.

(** X11: the card nodes that one refresh of a [cards] directory builds
    store the address of the loop variable.  Under a toolchain with one
    variable per loop (Go before 1.22) they all point at one record,
    which is the last card of the reply, whatever their own names and
    ids; with a variable per iteration each points at the record it was
    built for. *)
Theorem card_records_by_toolchain (r : Trello.Remote) (now : Time) (p : nat)
    (h : Heap) (node : FSBoardCardsDirMeta.t) (bn0 : FSBoard.t)
    (cs : list Trello.Card.t) :
  cardsDirs h !! p = Some node ->
  boards h !! FSBoardCardsDirMeta.BoardNode node = Some bn0 ->
  Trello.Board_GetCards r (FSBoard.Board bn0) = Ok cs ->
  (exists h' res,
     @FSBoardCardsDirMeta_Update go_1_21 r now p h = Done (h', res)
     /\ forall q, NFSCard q ∈ added res ->
          exists c, cards h' !! q = Some c
                    /\ cardVars h' !! FSCard.Card c = last cs)
  /\ (exists h' res,
        @FSBoardCardsDirMeta_Update go_1_22 r now p h = Done (h', res)
        /\ forall q, NFSCard q ∈ added res ->
             exists c card,
               cards h' !! q = Some c
               /\ cardVars h' !! FSCard.Card c = Some card
               /\ name (FSCard.base c) = Trello.Card.Name card
               /\ TrelloID (FSCard.base c) = Trello.Card.ID card).
Proof.
  intros Hp Hb Hq. split.
  - unfold FSBoardCardsDirMeta_Update.
    rewrite (deref_Some _ _ _ Hp). cbn [bind].
    rewrite (deref_Some _ _ _ Hb). cbn [bind]. rewrite Hq.
    destruct (fold_left _ cs _) as [[[arena vars] bn] news] eqn:E.
    pose proof E as E0.
    apply cards_loop_shared_variable in E as [(ext & -> & -> & Hall) Hv].
    2: { unfold enterLoop. simpl. rewrite length_app. simpl. lia. }
    eexists _, _. split; [reflexivity|]. simpl.
    intros q Hin. apply list_elem_of_fmap in Hin as (k & Hk & Hin).
    inversion Hk; subst k; clear Hk. apply elem_of_seq in Hin.
    destruct (lookup_lt_is_Some_2 ext (q - length (cards h))) as [c Hc]; [lia|].
    exists c. split.
    + rewrite lookup_app_r by lia. exact Hc.
    + eapply Forall_lookup_1 in Hall; [|exact Hc]. simpl in Hall. rewrite Hall, Hv.
      destruct (last cs) as [x|] eqn:Hl; [reflexivity|].
      apply last_None in Hl. subst cs. simpl in E0. inversion E0 as [[Ha Hvars Hbn Hn]].
      apply (f_equal length) in Ha. rewrite length_app in Ha. lia.
  - unfold FSBoardCardsDirMeta_Update.
    rewrite (deref_Some _ _ _ Hp). cbn [bind].
    rewrite (deref_Some _ _ _ Hb). cbn [bind]. rewrite Hq.
    destruct (fold_left _ cs _) as [[[arena vars] bn] news] eqn:E.
    apply cards_loop_own_variable in E as [Hpre (ext & -> & -> & Hall)].
    eexists _, _. split; [reflexivity|]. simpl.
    intros q Hin. apply list_elem_of_fmap in Hin as (k & Hk & Hin).
    inversion Hk; subst k; clear Hk. apply elem_of_seq in Hin.
    destruct (lookup_lt_is_Some_2 ext (q - length (cards h))) as [c Hc]; [lia|].
    eapply Forall_lookup_1 in Hall; [|exact Hc]. simpl in Hall.
    destruct Hall as (card & Hcard & Hn & Hi).
    exists c, card. split_and!; auto.
    rewrite lookup_app_r by lia. exact Hc.
Qed.

(** ** The files of a card that has none yet *)

Lemma FSCard_Update_loop_new (meta : list MetaEntry) :
  forall (arena : list FSCardMetaFile.t) (node : FSCard.t) (news : list FSNode),
    NoDup (map entryName meta) ->
    (forall e, e ∈ meta -> FSCard.ByName node !! entryName e = None) ->
    exists byName byID,
      fold_left FSCard_Update_body meta (arena, node, news)
      = (arena ++ map (newFSCardMetaFile (FSCard.base node) (FSCard.Card node)) meta,
         FSCard.mk (FSCard.base node)
           (FSCard.MetaFiles node ++ seq (length arena) (length meta))
           byName byID (FSCard.Card node),
         news ++ map NFSCardMetaFile (seq (length arena) (length meta))).
Proof.
  induction meta as [|e meta IH]; intros arena node news Hnd Hnew.
  - simpl. rewrite !app_nil_r. destruct node. eauto.
  - cbn [fold_left].
    set (node1 :=
           FSCard.mk (FSCard.base node)
             (FSCard.MetaFiles node ++ [length arena])
             (<[entryName e := length arena]> (FSCard.ByName node))
             (<[TrelloID (FSCard.base node) +:+ "/_meta/" +:+ entryName e
                := length arena]> (FSCard.ByID node))
             (FSCard.Card node)).
    assert (Eb : FSCard_Update_body (arena, node, news) e
                 = (arena ++ [newFSCardMetaFile (FSCard.base node) (FSCard.Card node) e],
                    node1, news ++ [NFSCardMetaFile (length arena)])).
    { unfold FSCard_Update_body. rewrite (Hnew e) by left. reflexivity. }
    rewrite Eb.
    simpl in Hnd. apply NoDup_cons in Hnd as [Hnotin Hnd].
    destruct (IH (arena ++ [newFSCardMetaFile (FSCard.base node) (FSCard.Card node) e])
                node1 (news ++ [NFSCardMetaFile (length arena)]) Hnd) as (i1 & n1 & E).
    + intros e' He'. unfold node1. cbn [FSCard.ByName].
      rewrite lookup_insert_ne.
      * apply Hnew. right. exact He'.
      * intros Heq. apply Hnotin. rewrite Heq.
        apply list_elem_of_fmap. exists e'. split; [reflexivity | exact He'].
    + rewrite E. exists i1, n1. unfold node1.
      cbn [FSCard.base FSCard.MetaFiles FSCard.Card].
      rewrite length_app. simpl length.
      replace (length arena + 1)%nat with (S (length arena)) by lia.
      rewrite <- !app_assoc. reflexivity.
Qed.

(** The nodes appended to an arena, read back through their addresses. *)
Lemma mapM_appended {A : Type} (baseOf : A -> BaseFSNode) (xs : list A) :
  forall pre,
    mapM (baseAt (pre ++ xs) baseOf) (seq (length pre) (length xs))
    = Done (map baseOf xs).
Proof.
  induction xs as [|x xs IH]; intros pre; simpl; [reflexivity|].
  unfold baseAt at 1. unfold deref.
  rewrite lookup_app_r by lia. rewrite Nat.sub_diag. simpl.
  specialize (IH (pre ++ [x])). rewrite <- app_assoc, length_app in IH.
  simpl in IH. rewrite Nat.add_1_r in IH. rewrite IH. reflexivity.
Qed.

(** X12: the first refresh of a card node that has no files yet, from the
    record the node points at (which must carry a board): eight files
    are made, in the order [ID], [Name], [Desc], [ListID], [BoardID],
    [Due], [DueComplete], [LastActive]; they are what the card directory
    lists; and each name resolves to its file, which holds the text of
    the field (true or false for the boolean) and whose size attribute
    is the length of that text. *)
Theorem FSCard_Update_fresh (h : Heap) (p : nat) (node : FSCard.t)
    (card : Trello.Card.t) (board : Trello.Board.t) :
  cards h !! p = Some node ->
  FSCard.MetaFiles node = [] ->
  FSCard.ByName node = ∅ ->
  cardVars h !! FSCard.Card node = Some card ->
  Trello.Card.Board card = Some board ->
  exists h',
    FSCard_Update p h
    = Done (h', updateOk (map NFSCardMetaFile (seq (length (metaFiles h)) 8)))
    /\ (exists bs,
          dirChildren h' (NFSCard p) = Done (DT_File, bs)
          /\ map name bs = map fst (cardFields card))
    /\ forall (i : nat) (nm text : string),
         cardFields card !! i = Some (nm, text) ->
         LookupChild h' (NFSCard p) nm
         = Done (Ok (NFSCardMetaFile (length (metaFiles h) + i)))
         /\ exists f,
              metaFiles h' !! (length (metaFiles h) + i)%nat = Some f
              /\ FSCardMetaFile.contents f = list_byte_of_string text
              /\ Size (NodeAttrs (FSCardMetaFile.base f))
                 = Z.of_nat (length (FSCardMetaFile.contents f))
              /\ Mode (NodeAttrs (FSCardMetaFile.base f)) = 384
              /\ isDir (FSCardMetaFile.base f) = false.
Proof.
  intros Hp Hfiles Hnames Hc Hb.
  set (meta := map (fun f : string * string =>
                      mkMetaEntry f.1 (list_byte_of_string f.2)) (cardFields card)).
  assert (Hmeta : getMeta (Reflect.ofCard card) = Done meta) by reflexivity.
  destruct (FSCard_Update_loop_new meta (metaFiles h) node [])
    as (byName & byID & E).
  { unfold meta. rewrite map_map. simpl. compute_done. }
  { intros e _. rewrite Hnames. apply lookup_empty. }
  rewrite Hfiles in E. cbn [app] in E.
  change (length meta) with 8%nat in E.
  eexists. unfold FSCard_Update.
  rewrite (deref_Some _ _ _ Hp). cbn [bind].
  rewrite (deref_Some _ _ _ Hc). cbn [bind]. rewrite Hb, Hmeta. cbn [bind].
  rewrite E.
  split; [reflexivity|].
  set (files := map (newFSCardMetaFile (FSCard.base node) (FSCard.Card node)) meta).
  assert (Hlen : length files = 8%nat) by reflexivity.
  pose proof (lookup_lt_Some _ _ _ Hp) as Hplt.
  assert (Hp' : forall x : FSCard.t, <[p:=x]> (cards h) !! p = Some x)
    by (intros; apply list_lookup_insert_eq; assumption).
  pose proof (mapM_appended FSCardMetaFile.base files (metaFiles h)) as M.
  rewrite Hlen in M.
  split.
  - exists (map FSCardMetaFile.base files). split.
    + cbn [dirChildren set_cards set_metaFiles cards cardVars metaFiles].
      rewrite (deref_Some _ _ _ (Hp' _)). cbn [bind FSCard.Card FSCard.MetaFiles].
      rewrite (deref_Some _ _ _ Hc). cbn [bind]. rewrite Hb.
      rewrite M. reflexivity.
    + reflexivity.
  - intros i nm text Hi.
    assert (Hilt : (i < 8)%nat) by (apply lookup_lt_Some in Hi; exact Hi).
    assert (Hf : files !! i
                 = Some (newFSCardMetaFile (FSCard.base node) (FSCard.Card node)
                           (mkMetaEntry nm (list_byte_of_string text)))).
    { unfold files, meta. rewrite !list_lookup_fmap, Hi. reflexivity. }
    split.
    + cbn [LookupChild]. unfold FSCard_LookupChild.
      cbn [set_cards set_metaFiles cards metaFiles].
      rewrite (deref_Some _ _ _ (Hp' _)). cbn [bind FSCard.MetaFiles].
      pose proof (lookupName_fresh FSCardMetaFile.base files (metaFiles h) nm i _
                    Hf eq_refl) as L.
      rewrite Hlen in L. rewrite L; [reflexivity|].
      intros j x' Hj Hx' Heq.
      assert (Hnd : NoDup (map (fun x => name (FSCardMetaFile.base x)) files))
        by (unfold files, meta; rewrite !map_map; simpl; compute_done).
      assert (j = i); [|lia].
      eapply NoDup_lookup; [exact Hnd | |].
      * rewrite list_lookup_fmap, Hx'. simpl. rewrite Heq. reflexivity.
      * rewrite list_lookup_fmap, Hf. reflexivity.
    + exists (newFSCardMetaFile (FSCard.base node) (FSCard.Card node)
                (mkMetaEntry nm (list_byte_of_string text))).
      split; [|split_and!; reflexivity].
      cbn [set_cards set_metaFiles metaFiles]. rewrite lookup_app_r by lia.
      replace (length (metaFiles h) + i - length (metaFiles h))%nat with i by lia.
      exact Hf.
Qed.

(** ** The shape of what each [Update] returns *)

Lemma TrelloTreeRoot_Update_shape (r : Trello.Remote) (c : Trello.TrelloCtx.t)
    (now : Time) (h h' : Heap) (res : UpdateResult) :
  TrelloTreeRoot_Update r c now h = Done (h', res) ->
  (exists e, Trello.GetWorkspaces r c = Err e /\ h' = h /\ res = updateFailed e)
  \/ exists wss arena node news,
       Trello.GetWorkspaces r c = Ok wss
       /\ fold_left TrelloTreeRoot_Update_body wss (workspaces h, root h, [])
          = (arena, node, news)
       /\ h' = set_root (set_workspaces h arena)
                 (TrelloTreeRoot.mk (markUpdated (TrelloTreeRoot.base node) now)
                    (TrelloTreeRoot.workspaces node) (TrelloTreeRoot.byID node)
                    (TrelloTreeRoot.byName node))
       /\ res = updateOk news.
Proof.
  unfold TrelloTreeRoot_Update. intros E.
  destruct (Trello.GetWorkspaces r c) as [wss|e].
  - right. destruct (fold_left _ _ _) as [[arena node] news] eqn:F.
    inversion E; subst. exists wss, arena, node, news. auto.
  - left. inversion E; subst. eauto.
Qed.

Lemma FSWorkspace_Update_shape (r : Trello.Remote) (now : Time) (p : nat)
    (h h' : Heap) (res : UpdateResult) :
  FSWorkspace_Update r now p h = Done (h', res) ->
  exists node0,
    workspaces h !! p = Some node0
    /\ ((exists e, Trello.Workspace_GetBoards r (FSWorkspace.Workspace node0) = Err e
                   /\ h' = h /\ res = updateFailed e)
        \/ exists bs arena node news,
             Trello.Workspace_GetBoards r (FSWorkspace.Workspace node0) = Ok bs
             /\ fold_left FSWorkspace_Update_body bs (boards h, node0, [])
                = (arena, node, news)
             /\ h' = set_workspaces (set_boards h arena)
                       (<[p:=FSWorkspace.mk (markUpdated (FSWorkspace.base node) now)
                               (FSWorkspace.Boards node) (FSWorkspace.ByID node)
                               (FSWorkspace.ByName node) (FSWorkspace.Workspace node)]>
                          (workspaces h))
             /\ res = updateOk news).
Proof.
  unfold FSWorkspace_Update. intros E.
  apply bind_Done in E as (node0 & Hp & E). apply deref_Done in Hp.
  exists node0. split; [exact Hp|].
  destruct (Trello.Workspace_GetBoards r _) as [bs|e].
  - right. destruct (fold_left _ _ _) as [[arena node] news] eqn:F.
    inversion E; subst. exists bs, arena, node, news. auto.
  - left. inversion E; subst. eauto.
Qed.

Lemma FSBoard_Update_shape (now : Time) (p : nat) (h h' : Heap)
    (res : UpdateResult) :
  FSBoard_Update now p h = Done (h', res) ->
  exists node,
    boards h !! p = Some node
    /\ ((exists pc pl, FSBoard.MetaCardsDir node = Some pc
                       /\ FSBoard.MetaListsDir node = Some pl
                       /\ h' = h /\ res = updateOk [])
        \/ ((FSBoard.MetaCardsDir node = None \/ FSBoard.MetaListsDir node = None)
            /\ h' = set_boards
                      (set_listsDirs
                         (set_cardsDirs h
                            (cardsDirs h
                             ++ [FSBoardCardsDirMeta.mk
                                   (newDirBase "cards" (uid (FSBoard.base node))
                                      (gid (FSBoard.base node))
                                      (TrelloID (FSBoard.base node) +:+ "/cards")) p]))
                         (listsDirs h
                          ++ [FSBoardListsDirMeta.mk
                                (newDirBase "lists" (uid (FSBoard.base node))
                                   (gid (FSBoard.base node))
                                   (TrelloID (FSBoard.base node) +:+ "/lists")) p]))
                      (<[p:=FSBoard.mk (markUpdated (FSBoard.base node) now)
                              (Some (length (cardsDirs h)))
                              (Some (length (listsDirs h)))
                              (FSBoard.Cards node) (FSBoard.ByCardID node)
                              (FSBoard.ByCardName node) (FSBoard.Lists node)
                              (FSBoard.ByListID node) (FSBoard.ByListName node)
                              (FSBoard.Board node)]> (boards h))
            /\ res = updateOk [NFSBoardCardsDirMeta (length (cardsDirs h));
                               NFSBoardListsDirMeta (length (listsDirs h))])).
Proof.
  unfold FSBoard_Update. intros E.
  apply bind_Done in E as (node & Hp & E). apply deref_Done in Hp.
  exists node. split; [exact Hp|].
  destruct (FSBoard.MetaCardsDir node) as [pc|] eqn:Hc;
    destruct (FSBoard.MetaListsDir node) as [pl|] eqn:Hl;
    inversion E; subst; clear E.
  - left. exists pc, pl. auto.
  - right. auto.
  - right. auto.
  - right. auto.
Qed.

Section Shapes.
Context {tc : GoToolchain}.

Lemma FSBoardCardsDirMeta_Update_shape (r : Trello.Remote) (now : Time)
    (p : nat) (h h' : Heap) (res : UpdateResult) :
  FSBoardCardsDirMeta_Update r now p h = Done (h', res) ->
  exists node bn0,
    cardsDirs h !! p = Some node
    /\ boards h !! FSBoardCardsDirMeta.BoardNode node = Some bn0
    /\ ((exists e, Trello.Board_GetCards r (FSBoard.Board bn0) = Err e
                   /\ h' = h /\ res = updateFailed e)
        \/ exists cs arena vars bn news,
             Trello.Board_GetCards r (FSBoard.Board bn0) = Ok cs
             /\ fold_left
                  (FSBoardCardsDirMeta_Update_body
                     (uid (FSBoardCardsDirMeta.base node))
                     (gid (FSBoardCardsDirMeta.base node)) (length (cardVars h)))
                  cs (cards h, enterLoop (cardVars h) Trello.Card.zero, bn0, [])
                = (arena, vars, bn, news)
             /\ h' = set_cardsDirs
                       (set_boards (set_cardVars (set_cards h arena) vars)
                          (<[FSBoardCardsDirMeta.BoardNode node := bn]> (boards h)))
                       (<[p:=FSBoardCardsDirMeta.mk
                               (markUpdated (FSBoardCardsDirMeta.base node) now)
                               (FSBoardCardsDirMeta.BoardNode node)]> (cardsDirs h))
             /\ res = updateOk news).
Proof.
  unfold FSBoardCardsDirMeta_Update. intros E.
  apply bind_Done in E as (node & Hp & E). apply deref_Done in Hp.
  apply bind_Done in E as (bn0 & Hb & E). apply deref_Done in Hb.
  exists node, bn0. split; [exact Hp|]. split; [exact Hb|].
  destruct (Trello.Board_GetCards r _) as [cs|e].
  - right. destruct (fold_left _ _ _) as [[[arena vars] bn] news] eqn:F.
    inversion E; subst. exists cs, arena, vars, bn, news. auto.
  - left. inversion E; subst. eauto.
Qed.

Lemma FSBoardListsDirMeta_Update_shape (r : Trello.Remote) (now : Time)
    (p : nat) (h h' : Heap) (res : UpdateResult) :
  FSBoardListsDirMeta_Update r now p h = Done (h', res) ->
  exists node bn0,
    listsDirs h !! p = Some node
    /\ boards h !! FSBoardListsDirMeta.BoardNode node = Some bn0
    /\ ((exists e, Trello.Board_GetLists r (FSBoard.Board bn0) = Err e
                   /\ h' = h /\ res = updateFailed e)
        \/ exists ls arena vars bn news,
             Trello.Board_GetLists r (FSBoard.Board bn0) = Ok ls
             /\ fold_left
                  (FSBoardListsDirMeta_Update_body
                     (uid (FSBoardListsDirMeta.base node))
                     (gid (FSBoardListsDirMeta.base node))
                     (FSBoardListsDirMeta.BoardNode node) (length (listVars h)))
                  ls (lists h, enterLoop (listVars h) Trello.List.zero, bn0, [])
                = (arena, vars, bn, news)
             /\ h' = set_listsDirs
                       (set_boards (set_listVars (set_lists h arena) vars)
                          (<[FSBoardListsDirMeta.BoardNode node := bn]> (boards h)))
                       (<[p:=FSBoardListsDirMeta.mk
                               (markUpdated (FSBoardListsDirMeta.base node) now)
                               (FSBoardListsDirMeta.BoardNode node)]> (listsDirs h))
             /\ res = updateOk news).
Proof.
  unfold FSBoardListsDirMeta_Update. intros E.
  apply bind_Done in E as (node & Hp & E). apply deref_Done in Hp.
  apply bind_Done in E as (bn0 & Hb & E). apply deref_Done in Hb.
  exists node, bn0. split; [exact Hp|]. split; [exact Hb|].
  destruct (Trello.Board_GetLists r _) as [ls|e].
  - right. destruct (fold_left _ _ _) as [[[arena vars] bn] news] eqn:F.
    inversion E; subst. exists ls, arena, vars, bn, news. auto.
  - left. inversion E; subst. eauto.
Qed.

Lemma FSList_Update_shape (r : Trello.Remote) (now : Time)
    (p : nat) (h h' : Heap) (res : UpdateResult) :
  FSList_Update r now p h = Done (h', res) ->
  exists node0 bn0 l,
    lists h !! p = Some node0
    /\ boards h !! FSList.BoardNode node0 = Some bn0
    /\ listVars h !! FSList.List node0 = Some l
    /\ ((exists e, Trello.List_GetCards r l = Err e /\ h' = h /\ res = updateFailed e)
        \/ exists cs arena vars node bn news,
             Trello.List_GetCards r l = Ok cs
             /\ fold_left
                  (FSList_Update_body (uid (FSList.base node0))
                     (gid (FSList.base node0)) (length (cardVars h)))
                  cs (cards h, enterLoop (cardVars h) Trello.Card.zero,
                      node0, bn0, [])
                = (arena, vars, node, bn, news)
             /\ h' = set_lists
                       (set_boards (set_cardVars (set_cards h arena) vars)
                          (<[FSList.BoardNode node0 := bn]> (boards h)))
                       (<[p:=FSList.mk (markUpdated (FSList.base node) now)
                               (FSList.Cards node) (FSList.ByID node)
                               (FSList.ByName node) (FSList.BoardNode node)
                               (FSList.List node)]> (lists h))
             /\ res = updateOk news).
Proof.
  unfold FSList_Update. intros E.
  apply bind_Done in E as (node0 & Hp & E). apply deref_Done in Hp.
  apply bind_Done in E as (bn0 & Hb & E). apply deref_Done in Hb.
  apply bind_Done in E as (l & Hl & E). apply deref_Done in Hl.
  exists node0, bn0, l. split; [exact Hp|]. split; [exact Hb|]. split; [exact Hl|].
  destruct (Trello.List_GetCards r l) as [cs|e].
  - right. destruct (fold_left _ _ _) as [[[[arena vars] node] bn] news] eqn:F.
    inversion E; subst. exists cs, arena, vars, node, bn, news. auto.
  - left. inversion E; subst. eauto.
Qed.

End Shapes.

Lemma FSCard_Update_shape (p : nat) (h h' : Heap) (res : UpdateResult) :
  FSCard_Update p h = Done (h', res) ->
  exists node0 card board meta arena node news,
    cards h !! p = Some node0
    /\ cardVars h !! FSCard.Card node0 = Some card
    /\ Trello.Card.Board card = Some board
    /\ getMeta (Reflect.ofCard card) = Done meta
    /\ fold_left FSCard_Update_body meta (metaFiles h, node0, [])
       = (arena, node, news)
    /\ h' = set_cards (set_metaFiles h arena) (<[p:=node]> (cards h))
    /\ res = updateOk news.
Proof.
  unfold FSCard_Update. intros E.
  apply bind_Done in E as (node0 & Hp & E). apply deref_Done in Hp.
  apply bind_Done in E as (card & Hc & E). apply deref_Done in Hc.
  destruct (Trello.Card.Board card) as [board|] eqn:Hb; [|discriminate].
  apply bind_Done in E as (meta & Hm & E).
  destruct (fold_left _ _ _) as [[arena node] news] eqn:F.
  inversion E; subst. exists node0, card, board, meta, arena, node, news.
  split_and!; auto.
Qed.

(** ** Nodes only grow *)

Lemma stampless_markUpdated (b : BaseFSNode) (t : Time) :
  stampless (markUpdated b t) = stampless b.
Proof. reflexivity. Qed.

Lemma root_ev_refl (x : TrelloTreeRoot.t) : root_ev x x.
Proof. split; reflexivity. Qed.

Lemma workspace_ev_refl (x : FSWorkspace.t) : workspace_ev x x.
Proof. split; reflexivity. Qed.

Lemma board_ev_refl (x : FSBoard.t) : board_ev x x.
Proof. split; try reflexivity. auto. Qed.

Lemma cardsDir_ev_refl (x : FSBoardCardsDirMeta.t) : cardsDir_ev x x.
Proof. split; reflexivity. Qed.

Lemma listsDir_ev_refl (x : FSBoardListsDirMeta.t) : listsDir_ev x x.
Proof. split; reflexivity. Qed.

Lemma list_ev_refl (x : FSList.t) : list_ev x x.
Proof. split; reflexivity. Qed.

Lemma card_ev_refl (x : FSCard.t) : card_ev x x.
Proof. split; reflexivity. Qed.

Lemma file_ev_refl (x : FSCardMetaFile.t) : file_ev x x.
Proof. split; reflexivity. Qed.

Lemma root_ev_trans (x y z : TrelloTreeRoot.t) :
  root_ev x y -> root_ev y z -> root_ev x z.
Proof. intros [] []. split; etransitivity; eassumption. Qed.

Lemma workspace_ev_trans (x y z : FSWorkspace.t) :
  workspace_ev x y -> workspace_ev y z -> workspace_ev x z.
Proof. intros [] []. split; etransitivity; eassumption. Qed.

Lemma board_ev_trans (x y z : FSBoard.t) :
  board_ev x y -> board_ev y z -> board_ev x z.
Proof.
  intros [B1 D1 C1 I1 L1 J1 R1] [B2 D2 C2 I2 L2 J2 R2].
  split; try (etransitivity; eassumption).
  intros pc pl Hc Hl. destruct (D1 pc pl Hc Hl) as [Hc' Hl']. apply D2; assumption.
Qed.

Lemma cardsDir_ev_trans (x y z : FSBoardCardsDirMeta.t) :
  cardsDir_ev x y -> cardsDir_ev y z -> cardsDir_ev x z.
Proof. intros [] []. split; etransitivity; eassumption. Qed.

Lemma listsDir_ev_trans (x y z : FSBoardListsDirMeta.t) :
  listsDir_ev x y -> listsDir_ev y z -> listsDir_ev x z.
Proof. intros [] []. split; etransitivity; eassumption. Qed.

Lemma list_ev_trans (x y z : FSList.t) :
  list_ev x y -> list_ev y z -> list_ev x z.
Proof. intros [] []. split; etransitivity; eassumption. Qed.

Lemma card_ev_trans (x y z : FSCard.t) :
  card_ev x y -> card_ev y z -> card_ev x z.
Proof. intros [] []. split; etransitivity; eassumption. Qed.

Lemma file_ev_trans (x y z : FSCardMetaFile.t) :
  file_ev x y -> file_ev y z -> file_ev x z.
Proof. intros [] []. split; etransitivity; eassumption. Qed.

Lemma arena_ev_refl {A : Type} (R : A -> A -> Prop) (l : list A) :
  (forall x, R x x) -> arena_ev R l l.
Proof. intros HR i x H. eauto. Qed.

Lemma arena_ev_trans {A : Type} (R : A -> A -> Prop) (l1 l2 l3 : list A) :
  (forall x y z, R x y -> R y z -> R x z) ->
  arena_ev R l1 l2 -> arena_ev R l2 l3 -> arena_ev R l1 l3.
Proof.
  intros HR H12 H23 i x Hx.
  destruct (H12 i x Hx) as (y & Hy & Rxy).
  destruct (H23 i y Hy) as (z & Hz & Ryz). eauto.
Qed.

Lemma arena_ev_app {A : Type} (R : A -> A -> Prop) (l ext : list A) :
  (forall x, R x x) -> arena_ev R l (l ++ ext).
Proof.
  intros HR i x H. exists x. split; [apply lookup_app_l_Some; exact H | apply HR].
Qed.

Lemma arena_ev_insert {A : Type} (R : A -> A -> Prop) (l : list A)
    (p : nat) (x y : A) :
  (forall x, R x x) ->
  l !! p = Some x -> R x y -> arena_ev R l (<[p:=y]> l).
Proof.
  intros HR Hp Hxy i z Hz. destruct (decide (p = i)) as [<-|Hne].
  - exists y. rewrite list_lookup_insert_eq by (eapply lookup_lt_Some; exact Hp).
    rewrite Hp in Hz. inversion Hz; subst. auto.
  - exists z. rewrite list_lookup_insert_ne by exact Hne. auto.
Qed.

(** An arena in which one node was replaced and then another. *)
Lemma arena_ev_alter {A : Type} (R : A -> A -> Prop) (l : list A)
    (f : A -> A) (p : nat) :
  (forall x, R x x) ->
  (forall x, l !! p = Some x -> R x (f x)) ->
  arena_ev R l (alter f p l).
Proof.
  intros HR Hf i z Hz. destruct (decide (p = i)) as [<-|Hne].
  - exists (f z). rewrite list_lookup_alter_eq, Hz. split; [reflexivity | auto].
  - exists z. rewrite list_lookup_alter_ne by exact Hne. auto.
Qed.

Lemma evolves_refl (h : Heap) : evolves h h.
Proof.
  split; try reflexivity.
  - apply root_ev_refl.
  - apply arena_ev_refl, workspace_ev_refl.
  - apply arena_ev_refl, board_ev_refl.
  - apply arena_ev_refl, cardsDir_ev_refl.
  - apply arena_ev_refl, listsDir_ev_refl.
  - apply arena_ev_refl, list_ev_refl.
  - apply arena_ev_refl, card_ev_refl.
  - apply arena_ev_refl, file_ev_refl.
Qed.

Lemma evolves_trans (h1 h2 h3 : Heap) :
  evolves h1 h2 -> evolves h2 h3 -> evolves h1 h3.
Proof.
  intros [] []. split; try (etransitivity; eassumption).
  - eapply root_ev_trans; eassumption.
  - eapply arena_ev_trans; [apply workspace_ev_trans | |]; eassumption.
  - eapply arena_ev_trans; [apply board_ev_trans | |]; eassumption.
  - eapply arena_ev_trans; [apply cardsDir_ev_trans | |]; eassumption.
  - eapply arena_ev_trans; [apply listsDir_ev_trans | |]; eassumption.
  - eapply arena_ev_trans; [apply list_ev_trans | |]; eassumption.
  - eapply arena_ev_trans; [apply card_ev_trans | |]; eassumption.
  - eapply arena_ev_trans; [apply file_ev_trans | |]; eassumption.
Qed.

(** ** The variables of the range loops *)

Section LoopVariables.
Context {tc : GoToolchain} {A : Type}.

Lemma enterLoop_take (vars : list A) (zero : A) :
  take (length vars) (enterLoop vars zero) = vars
  /\ (length vars <= length (enterLoop vars zero))%nat.
Proof.
  unfold enterLoop. destruct loopvar_per_iteration.
  - split; [apply firstn_all | lia].
  - split; [apply take_app_length | rewrite length_app; lia].
Qed.

Lemma loopVar_take (vars : list A) (shared : nat) (x : A) :
  (shared <= length vars)%nat ->
  take shared (loopVar vars shared x).1 = take shared vars
  /\ (shared <= length (loopVar vars shared x).1)%nat.
Proof.
  intros Hle. unfold loopVar. destruct loopvar_per_iteration; simpl.
  - split; [apply take_app_le; exact Hle | rewrite length_app; lia].
  - split; [apply take_insert_ge; lia | rewrite length_insert; exact Hle].
Qed.

Lemma take_prefix (vars vars' : list A) :
  take (length vars) vars' = vars -> vars `prefix_of` vars'.
Proof. intros H. exists (drop (length vars) vars'). rewrite <- H at 1. symmetry. apply take_drop. Qed.

End LoopVariables.

(** ** The loops extend what they work on *)

Lemma TrelloTreeRoot_loop_ev (wss : list Trello.Workspace.t)
    (s : list FSWorkspace.t * TrelloTreeRoot.t * list FSNode) :
  let s' := fold_left TrelloTreeRoot_Update_body wss s in
  s.1.1 `prefix_of` s'.1.1 /\ root_ev s.1.2 s'.1.2.
Proof.
  apply (fold_left_rel
           (fun s s' : list FSWorkspace.t * TrelloTreeRoot.t * list FSNode =>
              s.1.1 `prefix_of` s'.1.1 /\ root_ev s.1.2 s'.1.2)).
  - intros a. split; [reflexivity | apply root_ev_refl].
  - intros a b c [] []. split; [etransitivity | eapply root_ev_trans]; eassumption.
  - intros [[a n] w] x. unfold TrelloTreeRoot_Update_body.
    destruct (TrelloTreeRoot.byID n !! Trello.Workspace.ID x) eqn:Hk; simpl.
    + split; [reflexivity | apply root_ev_refl].
    + split; [apply prefix_app_r; reflexivity|].
      split; simpl; [reflexivity | apply prefix_app_r; reflexivity
                    | apply insert_subseteq; exact Hk].
Qed.

Lemma FSWorkspace_loop_ev (bs : list Trello.Board.t)
    (s : list FSBoard.t * FSWorkspace.t * list FSNode) :
  let s' := fold_left FSWorkspace_Update_body bs s in
  s.1.1 `prefix_of` s'.1.1 /\ workspace_ev s.1.2 s'.1.2.
Proof.
  apply (fold_left_rel
           (fun s s' : list FSBoard.t * FSWorkspace.t * list FSNode =>
              s.1.1 `prefix_of` s'.1.1 /\ workspace_ev s.1.2 s'.1.2)).
  - intros a. split; [reflexivity | apply workspace_ev_refl].
  - intros a b c [] []. split; [etransitivity | eapply workspace_ev_trans]; eassumption.
  - intros [[a n] w] x. unfold FSWorkspace_Update_body.
    destruct (FSWorkspace.ByID n !! Trello.Board.ID x) eqn:Hk; simpl.
    + split; [reflexivity | apply workspace_ev_refl].
    + split; [apply prefix_app_r; reflexivity|].
      split; simpl; [reflexivity | apply prefix_app_r; reflexivity
                    | apply insert_subseteq; exact Hk | reflexivity].
Qed.

Lemma FSCard_loop_ev (meta : list MetaEntry)
    (s : list FSCardMetaFile.t * FSCard.t * list FSNode) :
  let s' := fold_left FSCard_Update_body meta s in
  s.1.1 `prefix_of` s'.1.1 /\ card_ev s.1.2 s'.1.2.
Proof.
  apply (fold_left_rel
           (fun s s' : list FSCardMetaFile.t * FSCard.t * list FSNode =>
              s.1.1 `prefix_of` s'.1.1 /\ card_ev s.1.2 s'.1.2)).
  - intros a. split; [reflexivity | apply card_ev_refl].
  - intros a b c [] []. split; [etransitivity | eapply card_ev_trans]; eassumption.
  - intros [[a n] w] x. unfold FSCard_Update_body.
    destruct (FSCard.ByName n !! entryName x) eqn:Hk; simpl.
    + split; [reflexivity | apply card_ev_refl].
    + split; [apply prefix_app_r; reflexivity|].
      split; simpl; [reflexivity | apply prefix_app_r; reflexivity
                    | apply insert_subseteq; exact Hk | reflexivity].
Qed.

Lemma keeps_below_refl {A : Type} (shared : nat) (v : list A) :
  keeps_below shared v v.
Proof. intros H. auto. Qed.

Lemma keeps_below_trans {A : Type} (shared : nat) (v1 v2 v3 : list A) :
  keeps_below shared v1 v2 -> keeps_below shared v2 v3 -> keeps_below shared v1 v3.
Proof.
  intros H12 H23 H1. destruct (H12 H1) as [E12 H2]. destruct (H23 H2) as [E23 H3].
  split; [congruence | exact H3].
Qed.

Lemma keeps_below_loopVar {tc : GoToolchain} {A : Type} (shared : nat)
    (v : list A) (x : A) :
  keeps_below shared v (loopVar v shared x).1.
Proof. intros H. apply loopVar_take. exact H. Qed.

(** After a loop entered with the arena [vars], that arena is still
    there, at the head of the arena of the loop. *)
Lemma keeps_below_prefix {tc : GoToolchain} {A : Type} (vars v' : list A) (zero : A) :
  keeps_below (length vars) (enterLoop vars zero) v' -> vars `prefix_of` v'.
Proof.
  intros H. destruct (enterLoop_take vars zero) as [Ht Hl].
  destruct (H Hl) as [E _]. apply take_prefix. congruence.
Qed.

Section BoardLoops.
Context {tc : GoToolchain}.

Lemma FSBoardCardsDirMeta_loop_ev (u g : Z) (shared : nat)
    (cs : list Trello.Card.t)
    (s : list FSCard.t * list Trello.Card.t * FSBoard.t * list FSNode) :
  let s' := fold_left (FSBoardCardsDirMeta_Update_body u g shared) cs s in
  s.1.1.1 `prefix_of` s'.1.1.1
  /\ keeps_below shared s.1.1.2 s'.1.1.2
  /\ board_ev s.1.2 s'.1.2.
Proof.
  apply (fold_left_rel
           (fun s s' : list FSCard.t * list Trello.Card.t * FSBoard.t * list FSNode =>
              s.1.1.1 `prefix_of` s'.1.1.1
              /\ keeps_below shared s.1.1.2 s'.1.1.2
              /\ board_ev s.1.2 s'.1.2)).
  - intros a. split_and!; [reflexivity | apply keeps_below_refl | apply board_ev_refl].
  - intros a b c (? & ? & ?) (? & ? & ?).
    split_and!; [etransitivity | eapply keeps_below_trans | eapply board_ev_trans];
      eassumption.
  - intros [[[a v] b] w] x. unfold FSBoardCardsDirMeta_Update_body.
    pose proof (keeps_below_loopVar shared v x) as Hv.
    destruct (loopVar v shared x) as [v' cell]. simpl in Hv.
    destruct (FSBoard.ByCardID b !! Trello.Card.ID x) eqn:Hk; simpl.
    + split_and!; [reflexivity | exact Hv | apply board_ev_refl].
    + split_and!; [apply prefix_app_r; reflexivity | exact Hv |].
      split; simpl; try reflexivity; auto.
      * apply prefix_app_r; reflexivity.
      * apply insert_subseteq; exact Hk.
Qed.

Lemma FSBoardListsDirMeta_loop_ev (u g : Z) (pb shared : nat)
    (ls : list Trello.List.t)
    (s : list FSList.t * list Trello.List.t * FSBoard.t * list FSNode) :
  let s' := fold_left (FSBoardListsDirMeta_Update_body u g pb shared) ls s in
  s.1.1.1 `prefix_of` s'.1.1.1
  /\ keeps_below shared s.1.1.2 s'.1.1.2
  /\ board_ev s.1.2 s'.1.2.
Proof.
  apply (fold_left_rel
           (fun s s' : list FSList.t * list Trello.List.t * FSBoard.t * list FSNode =>
              s.1.1.1 `prefix_of` s'.1.1.1
              /\ keeps_below shared s.1.1.2 s'.1.1.2
              /\ board_ev s.1.2 s'.1.2)).
  - intros a. split_and!; [reflexivity | apply keeps_below_refl | apply board_ev_refl].
  - intros a b c (? & ? & ?) (? & ? & ?).
    split_and!; [etransitivity | eapply keeps_below_trans | eapply board_ev_trans];
      eassumption.
  - intros [[[a v] b] w] x. unfold FSBoardListsDirMeta_Update_body.
    pose proof (keeps_below_loopVar shared v x) as Hv.
    destruct (loopVar v shared x) as [v' cell]. simpl in Hv.
    destruct (FSBoard.ByListID b !! Trello.List.ID x) eqn:Hk; simpl.
    + split_and!; [reflexivity | exact Hv | apply board_ev_refl].
    + split_and!; [apply prefix_app_r; reflexivity | exact Hv |].
      split; simpl; try reflexivity; auto.
      * apply prefix_app_r; reflexivity.
      * apply insert_subseteq; exact Hk.
Qed.

Lemma FSList_loop_ev (u g : Z) (shared : nat) (cs : list Trello.Card.t)
    (s : list FSCard.t * list Trello.Card.t * FSList.t * FSBoard.t * list FSNode) :
  let s' := fold_left (FSList_Update_body u g shared) cs s in
  s.1.1.1.1 `prefix_of` s'.1.1.1.1
  /\ keeps_below shared s.1.1.1.2 s'.1.1.1.2
  /\ list_ev s.1.1.2 s'.1.1.2
  /\ board_ev s.1.2 s'.1.2.
Proof.
  apply (fold_left_rel
           (fun s s' : list FSCard.t * list Trello.Card.t * FSList.t * FSBoard.t
                       * list FSNode =>
              s.1.1.1.1 `prefix_of` s'.1.1.1.1
              /\ keeps_below shared s.1.1.1.2 s'.1.1.1.2
              /\ list_ev s.1.1.2 s'.1.1.2
              /\ board_ev s.1.2 s'.1.2)).
  - intros a. split_and!; [reflexivity | apply keeps_below_refl
                          | apply list_ev_refl | apply board_ev_refl].
  - intros a b c (? & ? & ? & ?) (? & ? & ? & ?).
    split_and!; [etransitivity | eapply keeps_below_trans
                | eapply list_ev_trans | eapply board_ev_trans];
      eassumption.
  - intros [[[[a v] n] b] w] x. unfold FSList_Update_body.
    pose proof (keeps_below_loopVar shared v x) as Hv.
    destruct (loopVar v shared x) as [v' cell]. simpl in Hv.
    assert (Hboard : forall q,
              (FSBoard.ByCardID b !! Trello.Card.ID x = None
               \/ FSBoard.ByCardID b !! Trello.Card.ID x = Some q) ->
              board_ev b (FSBoard_addCard b x q)).
    { intros q Hq. split; simpl; try reflexivity; auto.
      - apply prefix_app_r; reflexivity.
      - destruct Hq as [Hq|Hq]; [apply insert_subseteq; exact Hq|].
        rewrite (insert_id _ _ _ Hq). reflexivity. }
    assert (Hlist : forall q,
              FSList.ByID n !! Trello.Card.ID x = None ->
              list_ev n (FSList_addCard n x q)).
    { intros q Hq. split; simpl; try reflexivity.
      - apply prefix_app_r; reflexivity.
      - apply insert_subseteq; exact Hq. }
    destruct (FSBoard.ByCardID b !! Trello.Card.ID x) as [q|] eqn:Hk;
      destruct (FSList.ByID n !! Trello.Card.ID x) eqn:Hl; simpl;
      split_and!;
      first [ reflexivity | exact Hv | apply list_ev_refl | apply board_ev_refl
            | (apply prefix_app_r; reflexivity)
            | (apply Hlist; reflexivity)
            | (apply Hboard; auto) ].
Qed.

End BoardLoops.

(** ** Every [Update] lets the heap evolve *)

Ltac ev_arenas :=
  first
    [ reflexivity
    | apply root_ev_refl
    | (apply arena_ev_refl;
       first [ apply workspace_ev_refl | apply board_ev_refl | apply cardsDir_ev_refl
             | apply listsDir_ev_refl | apply list_ev_refl | apply card_ev_refl
             | apply file_ev_refl ])
    | (apply arena_ev_app;
       first [ apply workspace_ev_refl | apply board_ev_refl | apply cardsDir_ev_refl
             | apply listsDir_ev_refl | apply list_ev_refl | apply card_ev_refl
             | apply file_ev_refl ]) ].

Lemma TrelloTreeRoot_Update_evolves (r : Trello.Remote) (c : Trello.TrelloCtx.t)
    (now : Time) (h h' : Heap) (res : UpdateResult) :
  TrelloTreeRoot_Update r c now h = Done (h', res) -> evolves h h'.
Proof.
  intros E. apply TrelloTreeRoot_Update_shape in E
    as [(e & _ & -> & _)|(wss & arena & node & news & _ & F & -> & _)].
  { apply evolves_refl. }
  pose proof (TrelloTreeRoot_loop_ev wss (workspaces h, root h, [])) as L.
  rewrite F in L. simpl in L. destruct L as [[ext ->] Hev].
  split; simpl; try ev_arenas.
  destruct Hev. split; simpl; assumption.
Qed.

Lemma FSWorkspace_Update_evolves (r : Trello.Remote) (now : Time) (p : nat)
    (h h' : Heap) (res : UpdateResult) :
  FSWorkspace_Update r now p h = Done (h', res) -> evolves h h'.
Proof.
  intros E. apply FSWorkspace_Update_shape in E
    as (node0 & Hp & [(e & _ & -> & _)|(bs & arena & node & news & _ & F & -> & _)]).
  { apply evolves_refl. }
  pose proof (FSWorkspace_loop_ev bs (boards h, node0, [])) as L.
  rewrite F in L. simpl in L. destruct L as [[ext ->] Hev].
  split; simpl; try ev_arenas.
  apply (arena_ev_insert _ _ _ node0); [apply workspace_ev_refl | exact Hp |].
  destruct Hev. split; simpl; assumption.
Qed.

Lemma FSBoard_Update_evolves (now : Time) (p : nat) (h h' : Heap)
    (res : UpdateResult) :
  FSBoard_Update now p h = Done (h', res) -> evolves h h'.
Proof.
  intros E. apply FSBoard_Update_shape in E
    as (node & Hp & [(pc & pl & _ & _ & -> & _)|(Hnone & -> & _)]).
  { apply evolves_refl. }
  split; simpl; try ev_arenas.
  apply (arena_ev_insert _ _ _ node); [apply board_ev_refl | exact Hp |].
  split; simpl; try reflexivity.
  intros pc pl Hc Hl. destruct Hnone as [Hn|Hn]; rewrite Hn in *; discriminate.
Qed.

Section Evolution.
Context {tc : GoToolchain}.

Lemma FSBoardCardsDirMeta_Update_evolves (r : Trello.Remote) (now : Time)
    (p : nat) (h h' : Heap) (res : UpdateResult) :
  FSBoardCardsDirMeta_Update r now p h = Done (h', res) -> evolves h h'.
Proof.
  intros E. apply FSBoardCardsDirMeta_Update_shape in E
    as (node & bn0 & Hp & Hb
        & [(e & _ & -> & _)|(cs & arena & vars & bn & news & _ & F & -> & _)]).
  { apply evolves_refl. }
  pose proof (FSBoardCardsDirMeta_loop_ev
                (uid (FSBoardCardsDirMeta.base node))
                (gid (FSBoardCardsDirMeta.base node)) (length (cardVars h)) cs
                (cards h, enterLoop (cardVars h) Trello.Card.zero, bn0, [])) as L.
  rewrite F in L. simpl in L. destruct L as ([ext ->] & Hv & Hev).
  split; simpl; try ev_arenas.
  - apply (arena_ev_insert _ _ _ bn0); [apply board_ev_refl | exact Hb | exact Hev].
  - apply (arena_ev_insert _ _ _ node); [apply cardsDir_ev_refl | exact Hp |].
    split; reflexivity.
  - apply (keeps_below_prefix _ _ _ Hv).
Qed.

Lemma FSBoardListsDirMeta_Update_evolves (r : Trello.Remote) (now : Time)
    (p : nat) (h h' : Heap) (res : UpdateResult) :
  FSBoardListsDirMeta_Update r now p h = Done (h', res) -> evolves h h'.
Proof.
  intros E. apply FSBoardListsDirMeta_Update_shape in E
    as (node & bn0 & Hp & Hb
        & [(e & _ & -> & _)|(ls & arena & vars & bn & news & _ & F & -> & _)]).
  { apply evolves_refl. }
  pose proof (FSBoardListsDirMeta_loop_ev
                (uid (FSBoardListsDirMeta.base node))
                (gid (FSBoardListsDirMeta.base node))
                (FSBoardListsDirMeta.BoardNode node) (length (listVars h)) ls
                (lists h, enterLoop (listVars h) Trello.List.zero, bn0, [])) as L.
  rewrite F in L. simpl in L. destruct L as ([ext ->] & Hv & Hev).
  split; simpl; try ev_arenas.
  - apply (arena_ev_insert _ _ _ bn0); [apply board_ev_refl | exact Hb | exact Hev].
  - apply (arena_ev_insert _ _ _ node); [apply listsDir_ev_refl | exact Hp |].
    split; reflexivity.
  - apply (keeps_below_prefix _ _ _ Hv).
Qed.

Lemma FSList_Update_evolves (r : Trello.Remote) (now : Time)
    (p : nat) (h h' : Heap) (res : UpdateResult) :
  FSList_Update r now p h = Done (h', res) -> evolves h h'.
Proof.
  intros E. apply FSList_Update_shape in E
    as (node0 & bn0 & l & Hp & Hb & Hl
        & [(e & _ & -> & _)|(cs & arena & vars & node & bn & news & _ & F & -> & _)]).
  { apply evolves_refl. }
  pose proof (FSList_loop_ev (uid (FSList.base node0)) (gid (FSList.base node0))
                (length (cardVars h)) cs
                (cards h, enterLoop (cardVars h) Trello.Card.zero, node0, bn0, []))
    as L.
  rewrite F in L. simpl in L. destruct L as ([ext ->] & Hv & Hlev & Hev).
  split; simpl; try ev_arenas.
  - apply (arena_ev_insert _ _ _ bn0); [apply board_ev_refl | exact Hb | exact Hev].
  - apply (arena_ev_insert _ _ _ node0); [apply list_ev_refl | exact Hp |].
    destruct Hlev. split; simpl; assumption.
  - apply (keeps_below_prefix _ _ _ Hv).
Qed.

End Evolution.

Lemma FSCard_Update_evolves (p : nat) (h h' : Heap) (res : UpdateResult) :
  FSCard_Update p h = Done (h', res) -> evolves h h'.
Proof.
  intros E. apply FSCard_Update_shape in E
    as (node0 & card & board & meta & arena & node & news
        & Hp & _ & _ & _ & F & -> & _).
  pose proof (FSCard_loop_ev meta (metaFiles h, node0, [])) as L.
  rewrite F in L. simpl in L. destruct L as [[ext ->] Hev].
  split; simpl; try ev_arenas.
  apply (arena_ev_insert _ _ _ node0); [apply card_ev_refl | exact Hp | exact Hev].
Qed.

Lemma Update_evolves {tc : GoToolchain} (r : Trello.Remote)
    (c : Trello.TrelloCtx.t) (now : Time) (n : FSNode) (h h' : Heap)
    (res : UpdateResult) :
  Update r c now n h = Done (h', res) -> evolves h h'.
Proof.
  destruct n as [|p|p|p|p|p|p|p]; simpl.
  - apply TrelloTreeRoot_Update_evolves.
  - apply FSWorkspace_Update_evolves.
  - apply FSBoard_Update_evolves.
  - apply FSBoardCardsDirMeta_Update_evolves.
  - apply FSBoardListsDirMeta_Update_evolves.
  - apply FSList_Update_evolves.
  - apply FSCard_Update_evolves.
  - unfold FSCardMetaFile_Update. intros E; inversion E; subst. apply evolves_refl.
Qed.

(** ** Live nodes *)

Lemma deref_live {A : Type} (arena : list A) (p : nat) :
  (exists x, deref arena p = Done x) <-> (p < length arena)%nat.
Proof.
  unfold deref. split.
  - intros [x Hx]. destruct (arena !! p) eqn:E; [|discriminate].
    eapply lookup_lt_Some. exact E.
  - intros Hlt. destruct (lookup_lt_is_Some_2 arena p Hlt) as [x Hx].
    rewrite Hx. eauto.
Qed.

Lemma getBase_live (h : Heap) (n : FSNode) :
  (exists b, getBase h n = Done b) <-> live h n.
Proof.
  destruct n as [|p|p|p|p|p|p|p]; simpl.
  - split; eauto.
  - rewrite <- deref_live. split; intros [x Hx].
    + apply bind_Done in Hx as (y & Hy & _). eauto.
    + rewrite Hx. simpl. eauto.
  - rewrite <- deref_live. split; intros [x Hx].
    + apply bind_Done in Hx as (y & Hy & _). eauto.
    + rewrite Hx. simpl. eauto.
  - rewrite <- deref_live. split; intros [x Hx].
    + apply bind_Done in Hx as (y & Hy & _). eauto.
    + rewrite Hx. simpl. eauto.
  - rewrite <- deref_live. split; intros [x Hx].
    + apply bind_Done in Hx as (y & Hy & _). eauto.
    + rewrite Hx. simpl. eauto.
  - rewrite <- deref_live. split; intros [x Hx].
    + apply bind_Done in Hx as (y & Hy & _). eauto.
    + rewrite Hx. simpl. eauto.
  - rewrite <- deref_live. split; intros [x Hx].
    + apply bind_Done in Hx as (y & Hy & _). eauto.
    + rewrite Hx. simpl. eauto.
  - rewrite <- deref_live. split; intros [x Hx].
    + apply bind_Done in Hx as (y & Hy & _). eauto.
    + rewrite Hx. simpl. eauto.
Qed.

Lemma dangling_not_live (h : Heap) (n : FSNode) (w : abort) :
  getBase h n = Abort w -> ~ live h n.
Proof.
  intros Hd Hl. apply getBase_live in Hl as [b Hb]. rewrite Hb in Hd. discriminate.
Qed.

Lemma live_setNodeID (h : Heap) (m n : FSNode) (id : InodeID) :
  live (setNodeID h m id) n <-> live h n.
Proof.
  destruct m, n; simpl; try reflexivity; rewrite length_alter; reflexivity.
Qed.

(** ** Numbering a new node leaves the evolution of the old ones alone *)

Lemma arena_ev_alter_new {A : Type} (R : A -> A -> Prop) (l0 l1 : list A)
    (f : A -> A) (p : nat) :
  ~ (p < length l0)%nat ->
  arena_ev R l0 l1 -> arena_ev R l0 (alter f p l1).
Proof.
  intros Hp H i x Hx. destruct (H i x Hx) as (x' & Hx' & HR).
  exists x'. split; [|exact HR].
  rewrite list_lookup_alter_ne; [exact Hx'|].
  apply lookup_lt_Some in Hx. lia.
Qed.

Lemma evolves_setNodeID (h0 h1 : Heap) (n : FSNode) (id : InodeID) :
  evolves h0 h1 -> ~ live h0 n -> evolves h0 (setNodeID h1 n id).
Proof.
  intros [] Hn. destruct n as [|p|p|p|p|p|p|p]; simpl in Hn.
  - exfalso. apply Hn. exact I.
  - split; simpl; try assumption. apply arena_ev_alter_new; assumption.
  - split; simpl; try assumption. apply arena_ev_alter_new; assumption.
  - split; simpl; try assumption. apply arena_ev_alter_new; assumption.
  - split; simpl; try assumption. apply arena_ev_alter_new; assumption.
  - split; simpl; try assumption. apply arena_ev_alter_new; assumption.
  - split; simpl; try assumption. apply arena_ev_alter_new; assumption.
  - split; simpl; try assumption. apply arena_ev_alter_new; assumption.
Qed.

Lemma addNodes_evolves (h0 : Heap) (add : list FSNode) :
  forall fs fs',
    evolves h0 (heap fs) ->
    (forall n, n ∈ add -> ~ live h0 n) ->
    addNodes fs add = Done fs' ->
    evolves h0 (heap fs').
Proof.
  induction add as [|n add IH]; intros fs fs' Hev Hnew E; simpl in E.
  - inversion E; subst. exact Hev.
  - apply bind_Done in E as (fs1 & E1 & E).
    apply (IH fs1 fs'); [| |exact E].
    + unfold addNode in E1. apply bind_Done in E1 as (b & _ & E1).
      apply bind_Done in E1 as ([[id ino] free] & _ & E1).
      inversion E1; subst fs1; clear E1. simpl.
      apply evolves_setNodeID; [exact Hev|]. apply Hnew. left.
    + intros m Hm. apply Hnew. right. exact Hm.
Qed.

Section LifetimeEvolution.
Context {tc : GoToolchain} {fl : FuseLib}.

Lemma refreshNode_evolves (r : Trello.Remote) (now : Time) (fs fs' : trelloFS)
    (n : FSNode) :
  refreshNode r now fs n = Done fs' -> evolves (heap fs) (heap fs').
Proof.
  intros E. unfold refreshNode in E.
  apply bind_Done in E as (due & _ & E). destruct due; simpl in E.
  2: { inversion E; subst. apply evolves_refl. }
  apply bind_Done in E as ([h res] & EU & E).
  pose proof (Update_evolves r (ctx fs) now n (heap fs) h res EU) as Hev.
  destruct (Update_frame r (ctx fs) now n (heap fs) h res EU) as (_ & [_ Hfresh] & _).
  destruct (failure res).
  - inversion E; subst. exact Hev.
  - apply (addNodes_evolves (heap fs) (added res) (with_heap fs h) fs');
      [exact Hev | | exact E].
    intros m Hm. destruct (Hfresh m Hm) as [Hd _].
    apply (dangling_not_live _ _ _ Hd).
Qed.

(** What a request leaves behind is what a refresh leaves behind, or
    nothing. *)
Lemma serve_refreshes (fs fs' : trelloFS) (e : Trello.Remote * Time * request) :
  serve fs e = Done fs' ->
  fs' = fs \/ exists n, refreshNode e.1.1 e.1.2 fs n = Done fs'.
Proof.
  intros E. destruct e as [[r now] req].
  destruct req as [pid parent nm|pid id|id dstLen offset|pid id dst offset];
    simpl in E |- *.
  - apply bind_Done in E as ([fs1 reply] & E1 & E). inversion E; subst fs1; clear E.
    unfold LookUpInode in E1. destruct (pid =? 0).
    + inversion E1; subst. left. reflexivity.
    + apply bind_Done in E1 as (s & _ & E1). destruct s as [parent'|]; [|discriminate].
      apply bind_Done in E1 as (fs1 & Er & E1).
      apply bind_Done in E1 as (found' & _ & E1).
      assert (fs' = fs1).
      { destruct found' as [child|x].
        - apply bind_Done in E1 as (b & _ & E1). inversion E1. reflexivity.
        - inversion E1. reflexivity. }
      subst fs1. right. exists parent'. exact Er.
  - apply bind_Done in E as (reply & _ & E). inversion E; subst. left. reflexivity.
  - apply bind_Done in E as ([fs1 reply] & E1 & E). inversion E; subst fs1; clear E.
    unfold fsReadDir in E1.
    apply bind_Done in E1 as (s & _ & E1). destruct s as [parent'|].
    + apply bind_Done in E1 as (fs1 & Er & E1).
      apply bind_Done in E1 as (out & _ & E1). inversion E1; subst fs1.
      right. exists parent'. exact Er.
    + inversion E1; subst. left. reflexivity.
  - apply bind_Done in E as (reply & _ & E). inversion E; subst. left. reflexivity.
Qed.

Lemma serve_evolves (fs fs' : trelloFS) (e : Trello.Remote * Time * request) :
  serve fs e = Done fs' -> evolves (heap fs) (heap fs').
Proof.
  intros E. destruct (serve_refreshes fs fs' e E) as [->|[n Hn]].
  - apply evolves_refl.
  - apply (refreshNode_evolves _ _ _ _ _ Hn).
Qed.

Lemma serveAll_evolves (trace : list (Trello.Remote * Time * request)) :
  forall fs fs', serveAll fs trace = Done fs' -> evolves (heap fs) (heap fs').
Proof.
  induction trace as [|e trace IH]; intros fs fs' E; simpl in E.
  - inversion E; subst. apply evolves_refl.
  - apply bind_Done in E as (fs1 & E1 & E).
    eapply evolves_trans; [apply (serve_evolves _ _ _ E1) | apply (IH _ _ E)].
Qed.

End LifetimeEvolution.

(** ** What the loops append *)

Lemma TrelloTreeRoot_loop_grows (wss : list Trello.Workspace.t)
    (s : list FSWorkspace.t * TrelloTreeRoot.t * list FSNode) :
  let s' := fold_left TrelloTreeRoot_Update_body wss s in
  grows (fun _ => True) NFSWorkspace s.1.1 s.2 s'.1.1 s'.2.
Proof.
  apply (fold_left_grows (fun _ => True) NFSWorkspace TrelloTreeRoot_Update_body
           (fun s => s.1.1) (fun s => s.2)).
  intros [[a n] w] x. unfold TrelloTreeRoot_Update_body. simpl.
  destruct (TrelloTreeRoot.byID n !! Trello.Workspace.ID x);
    [apply grows_refl | apply grows_one; exact I].
Qed.

Lemma FSWorkspace_loop_grows (bs : list Trello.Board.t)
    (s : list FSBoard.t * FSWorkspace.t * list FSNode) :
  let s' := fold_left FSWorkspace_Update_body bs s in
  grows board_is_new NFSBoard s.1.1 s.2 s'.1.1 s'.2.
Proof.
  apply (fold_left_grows board_is_new NFSBoard FSWorkspace_Update_body
           (fun s => s.1.1) (fun s => s.2)).
  intros [[a n] w] x. unfold FSWorkspace_Update_body. simpl.
  destruct (FSWorkspace.ByID n !! Trello.Board.ID x);
    [apply grows_refl | apply grows_one; repeat split].
Qed.

Lemma FSCard_loop_grows (meta : list MetaEntry) (card : nat) :
  forall s : list FSCardMetaFile.t * FSCard.t * list FSNode,
    FSCard.Card s.1.2 = card ->
    let s' := fold_left FSCard_Update_body meta s in
    grows (fun f => file_attrs_ok f /\ FSCardMetaFile.Card f = card)
      NFSCardMetaFile s.1.1 s.2 s'.1.1 s'.2.
Proof.
  induction meta as [|e meta IH]; intros [[a n] w] Hc; simpl.
  - apply grows_refl.
  - simpl in Hc. unfold FSCard_Update_body at 2.
    destruct (FSCard.ByName n !! entryName e).
    + apply (IH (a, n, w)). exact Hc.
    + eapply grows_trans; [|apply IH; exact Hc].
      apply grows_one. split; [repeat split | exact Hc].
Qed.

Section BoardLoopsGrow.
Context {tc : GoToolchain}.

Lemma FSBoardCardsDirMeta_loop_grows (u g : Z) (shared : nat)
    (cs : list Trello.Card.t)
    (s : list FSCard.t * list Trello.Card.t * FSBoard.t * list FSNode) :
  let s' := fold_left (FSBoardCardsDirMeta_Update_body u g shared) cs s in
  grows (fun _ => True) NFSCard s.1.1.1 s.2 s'.1.1.1 s'.2.
Proof.
  apply (fold_left_grows (fun _ => True) NFSCard
           (FSBoardCardsDirMeta_Update_body u g shared)
           (fun s => s.1.1.1) (fun s => s.2)).
  intros [[[a v] b] w] x. unfold FSBoardCardsDirMeta_Update_body. simpl.
  destruct (loopVar v shared x).
  destruct (FSBoard.ByCardID b !! Trello.Card.ID x);
    [apply grows_refl | apply grows_one; exact I].
Qed.

Lemma FSBoardListsDirMeta_loop_grows (u g : Z) (pb shared : nat)
    (ls : list Trello.List.t)
    (s : list FSList.t * list Trello.List.t * FSBoard.t * list FSNode) :
  let s' := fold_left (FSBoardListsDirMeta_Update_body u g pb shared) ls s in
  grows (fun _ => True) NFSList s.1.1.1 s.2 s'.1.1.1 s'.2.
Proof.
  apply (fold_left_grows (fun _ => True) NFSList
           (FSBoardListsDirMeta_Update_body u g pb shared)
           (fun s => s.1.1.1) (fun s => s.2)).
  intros [[[a v] b] w] x. unfold FSBoardListsDirMeta_Update_body. simpl.
  destruct (loopVar v shared x).
  destruct (FSBoard.ByListID b !! Trello.List.ID x);
    [apply grows_refl | apply grows_one; exact I].
Qed.

Lemma FSList_loop_grows (u g : Z) (shared : nat) (cs : list Trello.Card.t)
    (s : list FSCard.t * list Trello.Card.t * FSList.t * FSBoard.t * list FSNode) :
  let s' := fold_left (FSList_Update_body u g shared) cs s in
  grows (fun _ => True) NFSCard s.1.1.1.1 s.2 s'.1.1.1.1 s'.2.
Proof.
  apply (fold_left_grows (fun _ => True) NFSCard (FSList_Update_body u g shared)
           (fun s => s.1.1.1.1) (fun s => s.2)).
  intros [[[[a v] n] b] w] x. unfold FSList_Update_body. simpl.
  destruct (loopVar v shared x).
  destruct (FSBoard.ByCardID b !! Trello.Card.ID x);
    destruct (FSList.ByID n !! Trello.Card.ID x);
    first [apply grows_refl | apply grows_one; exact I].
Qed.

(** The loops over the cards and lists of a board leave the base of the
    board node and its two sub-directories alone. *)
Lemma FSBoardCardsDirMeta_loop_keeps (u g : Z) (shared : nat)
    (cs : list Trello.Card.t)
    (s : list FSCard.t * list Trello.Card.t * FSBoard.t * list FSNode) :
  let proj := fun x => (FSBoard.base x, FSBoard.MetaCardsDir x, FSBoard.MetaListsDir x) in
  proj (fold_left (FSBoardCardsDirMeta_Update_body u g shared) cs s).1.2 = proj s.1.2.
Proof.
  apply (fold_left_keeps (FSBoardCardsDirMeta_Update_body u g shared)
           (fun s => (FSBoard.base s.1.2, FSBoard.MetaCardsDir s.1.2,
                      FSBoard.MetaListsDir s.1.2))).
  intros [[[a v] b] w] x. unfold FSBoardCardsDirMeta_Update_body. simpl.
  destruct (loopVar v shared x).
  destruct (FSBoard.ByCardID b !! Trello.Card.ID x); reflexivity.
Qed.

Lemma FSBoardListsDirMeta_loop_keeps (u g : Z) (pb shared : nat)
    (ls : list Trello.List.t)
    (s : list FSList.t * list Trello.List.t * FSBoard.t * list FSNode) :
  let proj := fun x => (FSBoard.base x, FSBoard.MetaCardsDir x, FSBoard.MetaListsDir x) in
  proj (fold_left (FSBoardListsDirMeta_Update_body u g pb shared) ls s).1.2 = proj s.1.2.
Proof.
  apply (fold_left_keeps (FSBoardListsDirMeta_Update_body u g pb shared)
           (fun s => (FSBoard.base s.1.2, FSBoard.MetaCardsDir s.1.2,
                      FSBoard.MetaListsDir s.1.2))).
  intros [[[a v] b] w] x. unfold FSBoardListsDirMeta_Update_body. simpl.
  destruct (loopVar v shared x).
  destruct (FSBoard.ByListID b !! Trello.List.ID x); reflexivity.
Qed.

Lemma FSList_loop_keeps (u g : Z) (shared : nat) (cs : list Trello.Card.t)
    (s : list FSCard.t * list Trello.Card.t * FSList.t * FSBoard.t * list FSNode) :
  let proj := fun x => (FSBoard.base x, FSBoard.MetaCardsDir x, FSBoard.MetaListsDir x) in
  proj (fold_left (FSList_Update_body u g shared) cs s).1.2 = proj s.1.2.
Proof.
  apply (fold_left_keeps (FSList_Update_body u g shared)
           (fun s => (FSBoard.base s.1.2, FSBoard.MetaCardsDir s.1.2,
                      FSBoard.MetaListsDir s.1.2))).
  intros [[[[a v] n] b] w] x. unfold FSList_Update_body. simpl.
  destruct (loopVar v shared x).
  destruct (FSBoard.ByCardID b !! Trello.Card.ID x);
    destruct (FSList.ByID n !! Trello.Card.ID x); reflexivity.
Qed.

End BoardLoopsGrow.

(** ** Every [Update] settles the heap *)

Lemma settles_failed (h : Heap) (e : error) : settles h h (updateFailed e).
Proof. split_and!; auto. intros n Hn. left. exact Hn. Qed.

Lemma settles_nothing (h : Heap) : settles h h (updateOk []).
Proof. split_and!; auto. intros n Hn. left. exact Hn. Qed.

(** The addresses past an arena that grew are among the new nodes. *)
Lemma new_address (mk : nat -> FSNode) {A : Type} (arena ext : list A) (p : nat) :
  (p < length (arena ++ ext))%nat ->
  (p < length arena)%nat \/ mk p ∈ map mk (seq (length arena) (length ext)).
Proof.
  rewrite length_app. intros Hp.
  destruct (decide (p < length arena)%nat) as [Hlt|Hge]; [left; exact Hlt|].
  right. apply list_elem_of_fmap. exists p. split; [reflexivity|].
  apply elem_of_seq. lia.
Qed.

Lemma boarded_prefix (vars vars' : list Trello.Card.t) (cell : nat) :
  vars `prefix_of` vars' -> boarded vars cell -> boarded vars' cell.
Proof.
  intros Hpre (card & board & Hc & Hb). exists card, board. split; [|exact Hb].
  eapply prefix_lookup_Some; eassumption.
Qed.

Lemma file_ok_prefix (vars vars' : list Trello.Card.t) (f : FSCardMetaFile.t) :
  vars `prefix_of` vars' -> file_ok vars f -> file_ok vars' f.
Proof.
  intros Hpre (H1 & H2 & H3 & H4 & H5). split_and!; auto.
  eapply boarded_prefix; eassumption.
Qed.

Lemma paired_insert (l : list FSBoard.t) (p : nat) (x y : FSBoard.t) :
  l !! p = Some x ->
  (FSBoard.base y, FSBoard.MetaCardsDir y, FSBoard.MetaListsDir y)
  = (FSBoard.base x, FSBoard.MetaCardsDir x, FSBoard.MetaListsDir x) ->
  Forall (fun x =>
            (exists pc pl, FSBoard.MetaCardsDir x = Some pc
                           /\ FSBoard.MetaListsDir x = Some pl)
            \/ (FSBoard.MetaCardsDir x = None /\ FSBoard.MetaListsDir x = None
                /\ lastUpdate (FSBoard.base x) = zeroTime)) l ->
  Forall (fun x =>
            (exists pc pl, FSBoard.MetaCardsDir x = Some pc
                           /\ FSBoard.MetaListsDir x = Some pl)
            \/ (FSBoard.MetaCardsDir x = None /\ FSBoard.MetaListsDir x = None
                /\ lastUpdate (FSBoard.base x) = zeroTime)) (<[p:=y]> l).
Proof.
  intros Hp Heq Hall. apply Forall_insert; [exact Hall|].
  eapply Forall_lookup_1 in Hall; [|exact Hp]. simpl in Hall.
  inversion Heq as [[Hb Hc Hl]]. rewrite Hb, Hc, Hl. exact Hall.
Qed.

Lemma TrelloTreeRoot_Update_settles (r : Trello.Remote) (c : Trello.TrelloCtx.t)
    (now : Time) (h h' : Heap) (res : UpdateResult) :
  TrelloTreeRoot_Update r c now h = Done (h', res) -> settles h h' res.
Proof.
  intros E. apply TrelloTreeRoot_Update_shape in E
    as [(e & _ & -> & ->)|(wss & arena & node & news & _ & F & -> & ->)].
  { apply settles_failed. }
  pose proof (TrelloTreeRoot_loop_grows wss (workspaces h, root h, [])) as G.
  rewrite F in G. simpl in G. destruct G as (ext & -> & -> & _).
  split_and!; simpl; auto.
  - intros n Hn. destruct n as [|p|p|p|p|p|p|p]; simpl in Hn |- *; auto.
    apply (new_address NFSWorkspace). exact Hn.
  - intros Hf. contradiction.
Qed.

Lemma FSWorkspace_Update_settles (r : Trello.Remote) (now : Time) (p : nat)
    (h h' : Heap) (res : UpdateResult) :
  FSWorkspace_Update r now p h = Done (h', res) -> settles h h' res.
Proof.
  intros E. apply FSWorkspace_Update_shape in E
    as (node0 & Hp & [(e & _ & -> & ->)|(bs & arena & node & news & _ & F & -> & ->)]).
  { apply settles_failed. }
  pose proof (FSWorkspace_loop_grows bs (boards h, node0, [])) as G.
  rewrite F in G. simpl in G. destruct G as (ext & -> & -> & Pext).
  split_and!; simpl; auto.
  - intros n Hn. destruct n as [|q|q|q|q|q|q|q]; simpl in Hn |- *; auto.
    + rewrite length_insert in Hn. auto.
    + apply (new_address NFSBoard). exact Hn.
  - intros Hf. contradiction.
  - unfold paired. simpl. intros Hpaired. apply Forall_app. split; [exact Hpaired|].
    eapply Forall_impl; [exact Pext|]. intros x Hx. right. exact Hx.
Qed.

Lemma FSBoard_Update_settles (now : Time) (p : nat) (h h' : Heap)
    (res : UpdateResult) :
  FSBoard_Update now p h = Done (h', res) -> settles h h' res.
Proof.
  intros E. apply FSBoard_Update_shape in E
    as (node & Hp & [(pc & pl & _ & _ & -> & ->)|(Hnone & -> & ->)]).
  { apply settles_nothing. }
  split_and!; simpl; auto.
  - intros n Hn. destruct n as [|q|q|q|q|q|q|q]; simpl in Hn |- *; auto.
    + rewrite length_insert in Hn. auto.
    + rewrite length_app in Hn. simpl in Hn.
      destruct (decide (q < length (cardsDirs h))%nat); [auto|].
      right. replace q with (length (cardsDirs h)) by lia. left.
    + rewrite length_app in Hn. simpl in Hn.
      destruct (decide (q < length (listsDirs h))%nat); [auto|].
      right. replace q with (length (listsDirs h)) by lia. right. left.
  - intros Hf. contradiction.
  - unfold paired. simpl. intros Hpaired. apply Forall_insert; [exact Hpaired|].
    left. eauto.
Qed.

Section Settling.
Context {tc : GoToolchain}.

Lemma FSBoardCardsDirMeta_Update_settles (r : Trello.Remote) (now : Time)
    (p : nat) (h h' : Heap) (res : UpdateResult) :
  FSBoardCardsDirMeta_Update r now p h = Done (h', res) -> settles h h' res.
Proof.
  intros E. apply FSBoardCardsDirMeta_Update_shape in E
    as (node & bn0 & Hp & Hb
        & [(e & _ & -> & ->)|(cs & arena & vars & bn & news & _ & F & -> & ->)]).
  { apply settles_failed. }
  set (s0 := (cards h, enterLoop (cardVars h) Trello.Card.zero, bn0, @nil FSNode)) in *.
  set (u := uid (FSBoardCardsDirMeta.base node)) in *.
  set (g := gid (FSBoardCardsDirMeta.base node)) in *.
  pose proof (FSBoardCardsDirMeta_loop_grows u g (length (cardVars h)) cs s0) as G.
  pose proof (FSBoardCardsDirMeta_loop_keeps u g (length (cardVars h)) cs s0) as K.
  pose proof (FSBoardCardsDirMeta_loop_ev u g (length (cardVars h)) cs s0) as L.
  rewrite F in G, K, L. simpl in G, K, L.
  destruct G as (ext & -> & -> & _). destruct L as (_ & Hv & _).
  apply keeps_below_prefix in Hv.
  split_and!; simpl; auto.
  - intros n Hn. destruct n as [|q|q|q|q|q|q|q]; simpl in Hn |- *; auto.
    + rewrite length_insert in Hn. auto.
    + rewrite length_insert in Hn. auto.
    + apply (new_address NFSCard). exact Hn.
  - intros Hf. contradiction.
  - unfold paired. simpl. apply (paired_insert _ _ bn0); [exact Hb | exact K].
  - unfold files_ok. simpl. intros Hok.
    eapply Forall_impl; [exact Hok|]. intros f. apply file_ok_prefix. exact Hv.
Qed.

Lemma FSBoardListsDirMeta_Update_settles (r : Trello.Remote) (now : Time)
    (p : nat) (h h' : Heap) (res : UpdateResult) :
  FSBoardListsDirMeta_Update r now p h = Done (h', res) -> settles h h' res.
Proof.
  intros E. apply FSBoardListsDirMeta_Update_shape in E
    as (node & bn0 & Hp & Hb
        & [(e & _ & -> & ->)|(ls & arena & vars & bn & news & _ & F & -> & ->)]).
  { apply settles_failed. }
  set (s0 := (lists h, enterLoop (listVars h) Trello.List.zero, bn0, @nil FSNode)) in *.
  set (u := uid (FSBoardListsDirMeta.base node)) in *.
  set (g := gid (FSBoardListsDirMeta.base node)) in *.
  set (pb := FSBoardListsDirMeta.BoardNode node) in *.
  pose proof (FSBoardListsDirMeta_loop_grows u g pb (length (listVars h)) ls s0) as G.
  pose proof (FSBoardListsDirMeta_loop_keeps u g pb (length (listVars h)) ls s0) as K.
  rewrite F in G, K. simpl in G, K.
  destruct G as (ext & -> & -> & _).
  split_and!; simpl; auto.
  - intros n Hn. destruct n as [|q|q|q|q|q|q|q]; simpl in Hn |- *; auto.
    + rewrite length_insert in Hn. auto.
    + rewrite length_insert in Hn. auto.
    + apply (new_address NFSList). exact Hn.
  - intros Hf. contradiction.
  - unfold paired. simpl. apply (paired_insert _ _ bn0); [exact Hb | exact K].
Qed.

Lemma FSList_Update_settles (r : Trello.Remote) (now : Time)
    (p : nat) (h h' : Heap) (res : UpdateResult) :
  FSList_Update r now p h = Done (h', res) -> settles h h' res.
Proof.
  intros E. apply FSList_Update_shape in E
    as (node0 & bn0 & l & Hp & Hb & Hl
        & [(e & _ & -> & ->)|(cs & arena & vars & node & bn & news & _ & F & -> & ->)]).
  { apply settles_failed. }
  set (s0 := (cards h, enterLoop (cardVars h) Trello.Card.zero, node0, bn0,
              @nil FSNode)) in *.
  set (u := uid (FSList.base node0)) in *.
  set (g := gid (FSList.base node0)) in *.
  pose proof (FSList_loop_grows u g (length (cardVars h)) cs s0) as G.
  pose proof (FSList_loop_keeps u g (length (cardVars h)) cs s0) as K.
  pose proof (FSList_loop_ev u g (length (cardVars h)) cs s0) as L.
  rewrite F in G, K, L. simpl in G, K, L.
  destruct G as (ext & -> & -> & _). destruct L as (_ & Hv & _).
  apply keeps_below_prefix in Hv.
  split_and!; simpl; auto.
  - intros n Hn. destruct n as [|q|q|q|q|q|q|q]; simpl in Hn |- *; auto.
    + rewrite length_insert in Hn. auto.
    + rewrite length_insert in Hn. auto.
    + apply (new_address NFSCard). exact Hn.
  - intros Hf. contradiction.
  - unfold paired. simpl. apply (paired_insert _ _ bn0); [exact Hb | exact K].
  - unfold files_ok. simpl. intros Hok.
    eapply Forall_impl; [exact Hok|]. intros f. apply file_ok_prefix. exact Hv.
Qed.

End Settling.

Lemma FSCard_Update_settles (p : nat) (h h' : Heap) (res : UpdateResult) :
  FSCard_Update p h = Done (h', res) -> settles h h' res.
Proof.
  intros E. apply FSCard_Update_shape in E
    as (node0 & card & board & meta & arena & node & news
        & Hp & Hc & Hb & _ & F & -> & ->).
  pose proof (FSCard_loop_grows meta (FSCard.Card node0) (metaFiles h, node0, [])
                eq_refl) as G.
  rewrite F in G. simpl in G. destruct G as (ext & -> & -> & Pext).
  split_and!; simpl; auto.
  - intros n Hn. destruct n as [|q|q|q|q|q|q|q]; simpl in Hn |- *; auto.
    + rewrite length_insert in Hn. auto.
    + apply (new_address NFSCardMetaFile). exact Hn.
  - intros Hf. contradiction.
  - unfold files_ok. simpl. intros Hok. apply Forall_app. split; [exact Hok|].
    eapply Forall_impl; [exact Pext|]. intros f [(H1 & H2 & H3 & H4) H5].
    split_and!; auto. exists card, board. rewrite H5. auto.
Qed.

Lemma Update_settles {tc : GoToolchain} (r : Trello.Remote)
    (c : Trello.TrelloCtx.t) (now : Time) (n : FSNode) (h h' : Heap)
    (res : UpdateResult) :
  Update r c now n h = Done (h', res) -> settles h h' res.
Proof.
  destruct n as [|p|p|p|p|p|p|p]; simpl.
  - apply TrelloTreeRoot_Update_settles.
  - apply FSWorkspace_Update_settles.
  - apply FSBoard_Update_settles.
  - apply FSBoardCardsDirMeta_Update_settles.
  - apply FSBoardListsDirMeta_Update_settles.
  - apply FSList_Update_settles.
  - apply FSCard_Update_settles.
  - unfold FSCardMetaFile_Update. intros E; inversion E; subst. apply settles_failed.
Qed.

(** ** The invariant over the lifetime of a mount *)

Lemma paired_setNodeID (h : Heap) (n : FSNode) (id : InodeID) :
  paired h -> paired (setNodeID h n id).
Proof.
  unfold paired. intros Hp. destruct n; simpl; try exact Hp.
  apply Forall_alter; [exact Hp|]. intros x _ Hx. exact Hx.
Qed.

Lemma files_ok_setNodeID (h : Heap) (n : FSNode) (id : InodeID) :
  files_ok h -> files_ok (setNodeID h n id).
Proof.
  unfold files_ok. intros Hp. destruct n; simpl; try exact Hp.
  apply Forall_alter; [exact Hp|]. intros x _ Hx. exact Hx.
Qed.

Lemma addNodes_heap (P : Heap -> Prop) (add : list FSNode) :
  (forall h n id, P h -> P (setNodeID h n id)) ->
  forall fs fs', P (heap fs) -> addNodes fs add = Done fs' -> P (heap fs').
Proof.
  intros Hset. induction add as [|n add IH]; intros fs fs' HP E; simpl in E.
  - inversion E; subst. exact HP.
  - apply bind_Done in E as (fs1 & E1 & E). apply (IH fs1 fs'); [|exact E].
    unfold addNode in E1. apply bind_Done in E1 as (b & _ & E1).
    apply bind_Done in E1 as ([[id ino] free] & _ & E1).
    inversion E1; subst fs1; clear E1. simpl. apply Hset. exact HP.
Qed.

Lemma addNodes_live (add : list FSNode) :
  forall fs fs' n,
    addNodes fs add = Done fs' -> (live (heap fs') n <-> live (heap fs) n).
Proof.
  intros fs fs' n E.
  apply (addNodes_heap (fun h => live h n <-> live (heap fs) n) add) with (fs := fs);
    [|reflexivity | exact E].
  intros h m id Hh. rewrite live_setNodeID. exact Hh.
Qed.

Section Soundness.
Context {tc : GoToolchain} {fl : FuseLib}.

Lemma refreshNode_sound (r : Trello.Remote) (now : Time) (fs fs' : trelloFS)
    (n : FSNode) :
  sound fs -> refreshNode r now fs n = Done fs' -> sound fs'.
Proof.
  intros (Hwf & Htab & Hpair & Hfiles) E.
  split; [apply (refreshNode_well_formed r now fs fs' n Hwf E)|].
  unfold refreshNode in E.
  apply bind_Done in E as (due & _ & E). destruct due; simpl in E.
  2: { inversion E; subst. auto. }
  apply bind_Done in E as ([h res] & EU & E).
  destruct (Update_settles r (ctx fs) now n (heap fs) h res EU)
    as (Hcomplete & Hnone & Hp & Hf).
  destruct (failure res) as [e|] eqn:Hfail.
  - inversion E; subst fs'; clear E. simpl.
    rewrite Hnone in Hcomplete by discriminate.
    split_and!; auto.
    intros m Hm. simpl in Hm. destruct (Hcomplete m Hm) as [Hl|Hin].
    + apply Htab. exact Hl.
    + inversion Hin.
  - split_and!.
    + intros m Hm.
      rewrite (addNodes_live _ _ _ m E) in Hm. simpl in Hm.
      destruct Hwf as (Hfree & _).
      destruct (addNodes_appends (added res) (with_heap fs h) fs' Hfree E) as [Hi _].
      simpl in Hi. rewrite Hi.
      destruct (Hcomplete m Hm) as [Hl|Hin].
      * destruct (Htab m Hl) as [i Hi']. exists i.
        apply lookup_app_l_Some. exact Hi'.
      * apply list_elem_of_lookup in Hin as [k Hk].
        exists (length (inodes fs) + k)%nat.
        rewrite lookup_app_r by lia.
        replace (length (inodes fs) + k - length (inodes fs))%nat with k by lia.
        rewrite list_lookup_fmap, Hk. reflexivity.
    + apply (addNodes_heap paired (added res) paired_setNodeID (with_heap fs h) fs');
        [apply Hp; exact Hpair | exact E].
    + apply (addNodes_heap files_ok (added res) files_ok_setNodeID (with_heap fs h) fs');
        [apply Hf; exact Hfiles | exact E].
Qed.

Lemma serve_sound (fs fs' : trelloFS) (e : Trello.Remote * Time * request) :
  sound fs -> serve fs e = Done fs' -> sound fs'.
Proof.
  intros Hs E. destruct (serve_refreshes fs fs' e E) as [->|[n Hn]].
  - exact Hs.
  - apply (refreshNode_sound _ _ _ _ _ Hs Hn).
Qed.

Lemma NewTrelloFS_sound (u g : Z) (c : Trello.TrelloCtx.t) :
  sound (NewTrelloFS u g c).
Proof.
  split; [apply NewTrelloFS_well_formed|]. split_and!.
  - intros n Hn. destruct n; simpl in Hn; try lia. exists 1%nat. reflexivity.
  - apply Forall_nil. exact I.
  - apply Forall_nil. exact I.
Qed.

Lemma serveAll_sound (trace : list (Trello.Remote * Time * request)) :
  forall fs fs', sound fs -> serveAll fs trace = Done fs' -> sound fs'.
Proof.
  induction trace as [|e trace IH]; intros fs fs' Hs E; simpl in E.
  - inversion E; subst. exact Hs.
  - apply bind_Done in E as (fs1 & E1 & E).
    apply (IH fs1 fs'); [|exact E]. apply (serve_sound fs fs1 e Hs E1).
Qed.

(** On a mount, every state that requests lead to is sound. *)
Lemma mount_sound (u g : Z) (c : Trello.TrelloCtx.t)
    (trace : list (Trello.Remote * Time * request)) (fs : trelloFS) :
  serveAll (NewTrelloFS u g c) trace = Done fs -> sound fs.
Proof. apply serveAll_sound, NewTrelloFS_sound. Qed.

End Soundness.

(** ** What stays as it is while the heap evolves *)

Lemma stampless_fields (b b' : BaseFSNode) :
  stampless b' = stampless b ->
  name b' = name b /\ NodeID b' = NodeID b /\ NodeAttrs b' = NodeAttrs b
  /\ isDir b' = isDir b /\ TrelloID b' = TrelloID b.
Proof.
  unfold stampless, markUpdated. intros H. inversion H. auto.
Qed.

Lemma getBase_evolves (h h' : Heap) (n : FSNode) (b : BaseFSNode) :
  evolves h h' ->
  getBase h n = Done b ->
  exists b', getBase h' n = Done b' /\ stampless b' = stampless b.
Proof.
  intros Hev E. destruct n as [|p|p|p|p|p|p|p]; simpl in E |- *.
  - inversion E; subst. eexists. split; [reflexivity|]. apply (ev_root _ _ Hev).
  - apply bind_Done in E as (x & Ex & E). inversion E; subst. apply deref_Done in Ex.
    destruct (ev_workspaces _ _ Hev _ _ Ex) as (x' & Hx' & R).
    rewrite (deref_Some _ _ _ Hx'). simpl. eexists. split; [reflexivity | apply R].
  - apply bind_Done in E as (x & Ex & E). inversion E; subst. apply deref_Done in Ex.
    destruct (ev_boards _ _ Hev _ _ Ex) as (x' & Hx' & R).
    rewrite (deref_Some _ _ _ Hx'). simpl. eexists. split; [reflexivity | apply R].
  - apply bind_Done in E as (x & Ex & E). inversion E; subst. apply deref_Done in Ex.
    destruct (ev_cardsDirs _ _ Hev _ _ Ex) as (x' & Hx' & R).
    rewrite (deref_Some _ _ _ Hx'). simpl. eexists. split; [reflexivity | apply R].
  - apply bind_Done in E as (x & Ex & E). inversion E; subst. apply deref_Done in Ex.
    destruct (ev_listsDirs _ _ Hev _ _ Ex) as (x' & Hx' & R).
    rewrite (deref_Some _ _ _ Hx'). simpl. eexists. split; [reflexivity | apply R].
  - apply bind_Done in E as (x & Ex & E). inversion E; subst. apply deref_Done in Ex.
    destruct (ev_lists _ _ Hev _ _ Ex) as (x' & Hx' & R).
    rewrite (deref_Some _ _ _ Hx'). simpl. eexists. split; [reflexivity | apply R].
  - apply bind_Done in E as (x & Ex & E). inversion E; subst. apply deref_Done in Ex.
    destruct (ev_cards _ _ Hev _ _ Ex) as (x' & Hx' & R).
    rewrite (deref_Some _ _ _ Hx'). simpl. eexists. split; [reflexivity | apply R].
  - apply bind_Done in E as (x & Ex & E). inversion E; subst. apply deref_Done in Ex.
    destruct (ev_metaFiles _ _ Hev _ _ Ex) as (x' & Hx' & R).
    rewrite (deref_Some _ _ _ Hx'). simpl. eexists. split; [reflexivity | apply R].
Qed.

(** A name found among the children is found again, at the same child,
    once the children were extended and the nodes have evolved. *)
Lemma lookupName_evolves {A : Type} (R : A -> A -> Prop)
    (baseOf : A -> BaseFSNode) (arena arena' : list A)
    (children children' : list nat) (nm : string) (q : nat) :
  (forall x x', R x x' -> stampless (baseOf x') = stampless (baseOf x)) ->
  arena_ev R arena arena' ->
  children `prefix_of` children' ->
  lookupName arena baseOf children nm = Done (Some q) ->
  lookupName arena' baseOf children' nm = Done (Some q).
Proof.
  intros HR Hev [rest ->]. revert q.
  induction children as [|p children IH]; intros q E; simpl in E |- *.
  - discriminate.
  - apply bind_Done in E as (x & Ex & E). apply deref_Done in Ex.
    destruct (Hev _ _ Ex) as (x' & Hx' & Rx).
    rewrite (deref_Some _ _ _ Hx'). cbn [bind].
    destruct (stampless_fields _ _ (HR _ _ Rx)) as (Hn & _). rewrite Hn.
    destruct (String.eqb (name (baseOf x)) nm); [exact E | apply IH; exact E].
Qed.

Lemma found_Ok (mk : nat -> FSNode) (o : option nat) (child : FSNode) :
  Done (found mk o) = Done (Ok child) -> exists q, o = Some q /\ child = mk q.
Proof. destruct o as [q|]; intros E; inversion E. eauto. Qed.

Lemma LookupChild_evolves (h h' : Heap) (n : FSNode) (nm : string)
    (child : FSNode) :
  paired h ->
  evolves h h' ->
  LookupChild h n nm = Done (Ok child) ->
  LookupChild h' n nm = Done (Ok child).
Proof.
  intros Hpair Hev E. destruct n as [|p|p|p|p|p|p|p]; simpl in E |- *.
  - unfold TrelloTreeRoot_LookupChild in *.
    apply bind_Done in E as (o & Eo & E). apply found_Ok in E as (q & -> & ->).
    rewrite (lookupName_evolves workspace_ev FSWorkspace.base _ (workspaces h') _
               (TrelloTreeRoot.workspaces (root h')) nm q
               (fun x x' => workspace_base x x') (ev_workspaces _ _ Hev)
               (root_children _ _ (ev_root _ _ Hev)) Eo).
    reflexivity.
  - unfold FSWorkspace_LookupChild in *.
    apply bind_Done in E as (x & Ex & E). apply deref_Done in Ex.
    destruct (ev_workspaces _ _ Hev _ _ Ex) as (x' & Hx' & Rx).
    rewrite (deref_Some _ _ _ Hx'). cbn [bind].
    apply bind_Done in E as (o & Eo & E). apply found_Ok in E as (q & -> & ->).
    rewrite (lookupName_evolves board_ev FSBoard.base _ (boards h') _
               (FSWorkspace.Boards x') nm q
               (fun x x' => board_base x x') (ev_boards _ _ Hev)
               (workspace_children _ _ Rx) Eo).
    reflexivity.
  - unfold FSBoard_LookupChild in *.
    apply bind_Done in E as (x & Ex & E). apply deref_Done in Ex.
    destruct (ev_boards _ _ Hev _ _ Ex) as (x' & Hx' & Rx).
    rewrite (deref_Some _ _ _ Hx'). cbn [bind].
    eapply Forall_lookup_1 in Hpair; [|exact Ex]. simpl in Hpair.
    destruct Hpair as [(pc & pl & Hc & Hl)|(Hc & Hl & _)].
    + destruct (board_dirs _ _ Rx pc pl Hc Hl) as [Hc' Hl'].
      rewrite Hc, Hl in E. rewrite Hc', Hl'. exact E.
    + rewrite Hc, Hl in E.
      destruct (String.eqb nm "lists"); [discriminate|].
      destruct (String.eqb nm "cards"); discriminate.
  - unfold FSBoardCardsDirMeta_LookupChild in *.
    apply bind_Done in E as (x & Ex & E). apply deref_Done in Ex.
    destruct (ev_cardsDirs _ _ Hev _ _ Ex) as (x' & Hx' & Rx).
    rewrite (deref_Some _ _ _ Hx'). cbn [bind].
    apply bind_Done in E as (bn & Eb & E). apply deref_Done in Eb.
    destruct (ev_boards _ _ Hev _ _ Eb) as (bn' & Hbn' & Rb).
    rewrite (cardsDir_board _ _ Rx), (deref_Some _ _ _ Hbn'). cbn [bind].
    apply bind_Done in E as (o & Eo & E). apply found_Ok in E as (q & -> & ->).
    rewrite (lookupName_evolves card_ev FSCard.base _ (cards h') _
               (FSBoard.Cards bn') nm q
               (fun x x' => card_base x x') (ev_cards _ _ Hev)
               (board_cards_ev _ _ Rb) Eo).
    reflexivity.
  - unfold FSBoardListsDirMeta_LookupChild in *.
    apply bind_Done in E as (x & Ex & E). apply deref_Done in Ex.
    destruct (ev_listsDirs _ _ Hev _ _ Ex) as (x' & Hx' & Rx).
    rewrite (deref_Some _ _ _ Hx'). cbn [bind].
    apply bind_Done in E as (bn & Eb & E). apply deref_Done in Eb.
    destruct (ev_boards _ _ Hev _ _ Eb) as (bn' & Hbn' & Rb).
    rewrite (listsDir_board _ _ Rx), (deref_Some _ _ _ Hbn'). cbn [bind].
    apply bind_Done in E as (o & Eo & E). apply found_Ok in E as (q & -> & ->).
    rewrite (lookupName_evolves list_ev FSList.base _ (lists h') _
               (FSBoard.Lists bn') nm q
               (fun x x' => list_base x x') (ev_lists _ _ Hev)
               (board_lists _ _ Rb) Eo).
    reflexivity.
  - unfold FSList_LookupChild in *.
    apply bind_Done in E as (x & Ex & E). apply deref_Done in Ex.
    destruct (ev_lists _ _ Hev _ _ Ex) as (x' & Hx' & Rx).
    rewrite (deref_Some _ _ _ Hx'). cbn [bind].
    apply bind_Done in E as (o & Eo & E). apply found_Ok in E as (q & -> & ->).
    rewrite (lookupName_evolves card_ev FSCard.base _ (cards h') _
               (FSList.Cards x') nm q
               (fun x x' => card_base x x') (ev_cards _ _ Hev)
               (list_children _ _ Rx) Eo).
    reflexivity.
  - unfold FSCard_LookupChild in *.
    apply bind_Done in E as (x & Ex & E). apply deref_Done in Ex.
    destruct (ev_cards _ _ Hev _ _ Ex) as (x' & Hx' & Rx).
    rewrite (deref_Some _ _ _ Hx'). cbn [bind].
    apply bind_Done in E as (o & Eo & E). apply found_Ok in E as (q & -> & ->).
    rewrite (lookupName_evolves file_ev FSCardMetaFile.base _ (metaFiles h') _
               (FSCard.MetaFiles x') nm q
               (fun x x' => file_base x x') (ev_metaFiles _ _ Hev)
               (card_children _ _ Rx) Eo).
    reflexivity.
  - discriminate.
Qed.

Lemma ReadAt_evolves (h h' : Heap) (n : FSNode) (dst : list byte) (offset : Z)
    (out : list byte * Z * option error) :
  evolves h h' ->
  ReadAt h n dst offset = Done out ->
  ReadAt h' n dst offset = Done out.
Proof.
  intros Hev E. destruct n as [|p|p|p|p|p|p|p]; simpl in E |- *; try exact E.
  unfold FSCardMetaFile_ReadAt in *.
  apply bind_Done in E as (x & Ex & E). apply deref_Done in Ex.
  destruct (ev_metaFiles _ _ Hev _ _ Ex) as (x' & Hx' & Rx).
  rewrite (deref_Some _ _ _ Hx'). cbn [bind].
  apply bind_Done in E as (card & Ec & E). apply deref_Done in Ec.
  rewrite (file_record _ _ Rx).
  rewrite (deref_Some _ _ _ (prefix_lookup_Some _ _ _ _ Ec (ev_cardVars _ _ Hev))).
  cbn [bind]. rewrite (file_contents _ _ Rx). exact E.
Qed.

(** ** The table and the tree over the lifetime of a mount *)

Lemma slot_Done (fs : trelloFS) (id : InodeID) (s : option FSNode) :
  slot fs id = Done s ->
  0 <= id < Z.of_nat (length (inodes fs)) /\ inodes fs !! Z.to_nat id = Some s.
Proof.
  unfold slot. intros E.
  destruct (Z.leb_spec 0 id); simpl in E; [|discriminate].
  destruct (Z.ltb_spec id (Z.of_nat (length (inodes fs)))); simpl in E; [|discriminate].
  destruct (inodes fs !! Z.to_nat id) eqn:Hl; [|discriminate].
  inversion E; subst. auto.
Qed.

Lemma slot_prefix (fs fs' : trelloFS) (id : InodeID) (s : option FSNode) :
  inodes fs `prefix_of` inodes fs' ->
  slot fs id = Done s -> slot fs' id = Done s.
Proof.
  intros Hpre E. apply slot_Done in E as [Hr Hl].
  apply slot_Some; [lia|]. eapply prefix_lookup_Some; eassumption.
Qed.

Section Stability.
Context {tc : GoToolchain} {fl : FuseLib}.

Lemma serveAll_appends (trace : list (Trello.Remote * Time * request)) :
  forall fs fs',
    freeInodes fs = [] ->
    serveAll fs trace = Done fs' ->
    exists add, inodes fs' = inodes fs ++ map Some add.
Proof.
  induction trace as [|e trace IH]; intros fs fs' Hfree E; simpl in E.
  - inversion E; subst. exists []. rewrite app_nil_r. reflexivity.
  - apply bind_Done in E as (fs1 & E1 & E).
    destruct (serve_appends fs fs1 e Hfree E1) as [Hf1 [add1 Hi1]].
    destruct (IH fs1 fs' Hf1 E) as [add2 Hi2].
    exists (add1 ++ add2). rewrite Hi2, Hi1, map_app, <- app_assoc. reflexivity.
Qed.

Lemma serveAll_table_prefix (trace : list (Trello.Remote * Time * request))
    (fs fs' : trelloFS) :
  sound fs -> serveAll fs trace = Done fs' -> inodes fs `prefix_of` inodes fs'.
Proof.
  intros ((Hfree & _) & _) E.
  destruct (serveAll_appends trace fs fs' Hfree E) as [add ->].
  apply prefix_app_r. reflexivity.
Qed.

Lemma refreshNode_table_prefix (r : Trello.Remote) (now : Time)
    (fs fs' : trelloFS) (n : FSNode) :
  sound fs -> refreshNode r now fs n = Done fs' -> inodes fs `prefix_of` inodes fs'.
Proof.
  intros ((Hfree & _) & _) E.
  destruct (refreshNode_appends r now fs fs' n Hfree E) as [_ [add ->]].
  apply prefix_app_r. reflexivity.
Qed.

(** What a successful [LookUpInode] did. *)
Lemma LookUpInode_Ok (r : Trello.Remote) (now : Time) (fs fs' : trelloFS)
    (pid : Z) (parentID : InodeID) (nm : string) (entry : ChildInodeEntry) :
  LookUpInode r now fs pid parentID nm = Done (fs', Ok entry) ->
  exists parent child b,
    slot fs parentID = Done (Some parent)
    /\ refreshNode r now fs parent = Done fs'
    /\ LookupChild (heap fs') parent nm = Done (Ok child)
    /\ getBase (heap fs') child = Done b
    /\ Child entry = NodeID b /\ Attributes entry = NodeAttrs b.
Proof.
  unfold LookUpInode. intros E. destruct (pid =? 0); [discriminate|].
  apply bind_Done in E as (s & Hs & E). destruct s as [parent|]; [|discriminate].
  apply bind_Done in E as (fs1 & Er & E).
  apply bind_Done in E as (found' & Hl & E).
  destruct found' as [child|x]; [|discriminate].
  apply bind_Done in E as (b & Hb & E). inversion E; subst.
  exists parent, child, b. split_and!; auto.
Qed.

(** X14: what a read of an inode returns, it returns for as long as the
    mount lives: the contents of a field file are those of its first
    refresh, whatever the card has become on the service since. *)
Theorem ReadFile_stable (u g : Z) (c : Trello.TrelloCtx.t)
    (before between : list (Trello.Remote * Time * request))
    (fs fs' : trelloFS) (pid : Z) (id : InodeID) (dst : list byte)
    (offset : Z) (out : ReadFileResult) :
  serveAll (NewTrelloFS u g c) before = Done fs ->
  ReadFile fs pid id dst offset = Done out ->
  serveAll fs between = Done fs' ->
  ReadFile fs' pid id dst offset = Done out.
Proof.
  intros Hrun E Hbetween.
  pose proof (mount_sound u g c before fs Hrun) as Hs.
  pose proof (serveAll_table_prefix _ _ _ Hs Hbetween) as Hpre.
  pose proof (serveAll_evolves _ _ _ Hbetween) as Hev.
  unfold ReadFile in *. destruct (pid =? 0); [exact E|].
  destruct (Z.leb_spec (Z.of_nat (length (inodes fs))) (int_of_uint64 id));
    [discriminate|].
  destruct (Z.leb_spec (Z.of_nat (length (inodes fs'))) (int_of_uint64 id)).
  { apply prefix_length in Hpre. lia. }
  apply bind_Done in E as (s & Hslot & E).
  rewrite (slot_prefix _ _ _ _ Hpre Hslot). cbn [bind].
  destruct s as [node|]; [|discriminate].
  apply bind_Done in E as ([[dst' bytes] e] & Hr & E).
  rewrite (ReadAt_evolves _ _ _ _ _ _ Hev Hr). cbn [bind].
  apply bind_Done in E as (b & Hb & E).
  destruct (getBase_evolves _ _ _ _ Hev Hb) as (b' & Hb' & _).
  rewrite Hb'. cbn [bind]. exact E.
Qed.

(** X15: the inode number that [LookUpInode] hands out is the number of
    a slot of the table that holds the very node it found: from then on
    [GetInodeAttributes] for that number answers with the attributes of
    the reply. *)
Theorem LookUpInode_then_GetInodeAttributes (u g : Z) (c : Trello.TrelloCtx.t)
    (before between : list (Trello.Remote * Time * request))
    (fs fs1 fs2 : trelloFS) (r : Trello.Remote) (t : Time) (pid : Z)
    (parentID : InodeID) (nm : string) (entry : ChildInodeEntry)
    (later : Time) (pid' : Z) :
  serveAll (NewTrelloFS u g c) before = Done fs ->
  LookUpInode r t fs pid parentID nm = Done (fs1, Ok entry) ->
  serveAll fs1 between = Done fs2 ->
  pid' <> 0 ->
  GetInodeAttributes later fs2 pid' (Child entry)
  = Done (Ok (Attributes entry, later + oneYear)).
Proof.
  intros Hrun E1 Hbetween Hpid.
  pose proof (mount_sound u g c before fs Hrun) as Hs.
  apply LookUpInode_Ok in E1
    as (parent & child & b & Hslot & Er & Hl & Hb & Hchild & Hattrs).
  pose proof (refreshNode_sound _ _ _ _ _ Hs Er) as Hs1.
  destruct Hs1 as (Hwf1 & Htab1 & Hrest1).
  destruct (Htab1 child) as [i Hi].
  { apply getBase_live. eauto. }
  destruct Hwf1 as (Hfree1 & Htable1 & Hz1).
  destruct (Htable1 i child Hi) as (b0 & Hb0 & Hid0).
  rewrite Hb in Hb0. inversion Hb0; subst b0; clear Hb0.
  assert (Hslot1 : slot fs1 (Child entry) = Done (Some child)).
  { apply slot_Some; [lia|]. rewrite Hchild, Hid0, Nat2Z.id. exact Hi. }
  assert (Hs1 : sound fs1) by (split; [split|]; auto).
  pose proof (slot_prefix _ _ _ _ (serveAll_table_prefix _ _ _ Hs1 Hbetween) Hslot1)
    as Hslot2.
  destruct (getBase_evolves _ _ _ _ (serveAll_evolves _ _ _ Hbetween) Hb)
    as (b' & Hb' & Hst).
  destruct (stampless_fields _ _ Hst) as (_ & _ & Hat & _).
  unfold GetInodeAttributes. destruct (Z.eqb_spec pid' 0); [contradiction|].
  rewrite Hslot2. cbn [bind]. rewrite Hb'. cbn [bind]. congruence.
Qed.

End Stability.

Section Files.
Context {tc : GoToolchain} {fl : FuseLib}.

(** X16: on a mount, every inode that is a field file has the attributes
    of a regular file of mode 0600 with one link and the size of its
    contents, and a read of that many bytes from offset 0 returns the
    contents, complete, with a nil error. *)
Theorem field_file_reads_its_size (u g : Z) (c : Trello.TrelloCtx.t)
    (trace : list (Trello.Remote * Time * request)) (fs : trelloFS)
    (id : InodeID) (p : nat) (pid : Z) (now : Time) :
  serveAll (NewTrelloFS u g c) trace = Done fs ->
  slot fs id = Done (Some (NFSCardMetaFile p)) ->
  pid <> 0 ->
  exists f attrs,
    metaFiles (heap fs) !! p = Some f
    /\ GetInodeAttributes now fs pid id = Done (Ok (attrs, now + oneYear))
    /\ Size attrs = Z.of_nat (length (FSCardMetaFile.contents f))
    /\ Nlink attrs = 1
    /\ Mode attrs = 384
    /\ forall dst,
         length dst = length (FSCardMetaFile.contents f) ->
         ReadFile fs pid id dst 0
         = Done (mkReadFileResult (FSCardMetaFile.contents f)
                   (Z.of_nat (length (FSCardMetaFile.contents f))) None).
Proof.
  intros Hrun Hslot Hpid.
  destruct (mount_sound u g c trace fs Hrun) as ((_ & Htable & _) & _ & _ & Hfiles).
  pose proof Hslot as Hs. apply slot_Done in Hs as [Hrange Hl].
  destruct (Htable _ _ Hl) as (b & Hb & _).
  simpl in Hb. apply bind_Done in Hb as (f & Hf & Hb). inversion Hb; subst b; clear Hb.
  pose proof Hf as Hf'. apply deref_Done in Hf'.
  eapply Forall_lookup_1 in Hfiles; [|exact Hf'].
  destruct Hfiles as (Hsize & Hnlink & Hmode & _ & (card & board & Hc & Hboard)).
  exists f, (NodeAttrs (FSCardMetaFile.base f)). split_and!; auto.
  - unfold GetInodeAttributes. destruct (Z.eqb_spec pid 0); [contradiction|].
    rewrite Hslot. cbn [bind]. simpl. rewrite Hf. reflexivity.
  - intros dst Hlen. unfold ReadFile.
    destruct (Z.eqb_spec pid 0); [contradiction|].
    pose proof (int_of_uint64_le id).
    destruct (Z.leb_spec (Z.of_nat (length (inodes fs))) (int_of_uint64 id)); [lia|].
    rewrite Hslot. cbn [bind]. simpl. unfold FSCardMetaFile_ReadAt.
    rewrite Hf. cbn [bind]. rewrite (deref_Some _ _ _ Hc). cbn [bind]. rewrite Hboard.
    destruct (Z.ltb_spec (Z.of_nat (length (FSCardMetaFile.contents f))) 0); [lia|].
    change (0 <? 0) with false. change (Z.to_nat 0) with 0%nat. cbv iota.
    rewrite drop_0. unfold copy. rewrite Hlen, Nat.min_id, firstn_all.
    rewrite drop_ge by lia. rewrite app_nil_r, Z.ltb_irrefl. reflexivity.
Qed.

(** X17: on a mount, slot 0 of the table never holds a node and every
    other slot always does.  A request for inode 0 is a fatal error for
    [LookUpInode], a panic for [GetInodeAttributes] and [ReadFile], and
    the error [ENOENT] for [ReadDir]. *)
Theorem inode_zero_is_no_node (u g : Z) (c : Trello.TrelloCtx.t)
    (trace : list (Trello.Remote * Time * request)) (fs : trelloFS) :
  serveAll (NewTrelloFS u g c) trace = Done fs ->
  slot fs 0 = Done None
  /\ (forall id, 1 <= id < Z.of_nat (length (inodes fs)) ->
        exists n, slot fs id = Done (Some n))
  /\ (forall r now pid nm, pid <> 0 ->
        LookUpInode r now fs pid 0 nm = Abort LogFatal)
  /\ (forall now pid, pid <> 0 ->
        GetInodeAttributes now fs pid 0 = Abort NilDeref)
  /\ (forall r now dstLen offset,
        fsReadDir r now fs 0 dstLen offset = Done (fs, Err ENOENT))
  /\ (forall pid dst offset, pid <> 0 ->
        ReadFile fs pid 0 dst offset = Abort NilDeref).
Proof.
  intros Hrun.
  destruct (serveAll_appends trace (NewTrelloFS u g c) fs eq_refl Hrun) as [add Hadd].
  simpl in Hadd.
  assert (H0 : slot fs 0 = Done None).
  { apply slot_Some; [lia|]. rewrite Hadd. reflexivity. }
  split_and!.
  - exact H0.
  - intros id Hid.
    destruct (lookup_lt_is_Some_2 (inodes fs) (Z.to_nat id)) as [s Hs]; [lia|].
    rewrite Hadd in Hs.
    destruct (Z.to_nat id) as [|[|k]] eqn:Hk; [lia| |].
    + simpl in Hs. inversion Hs; subst s. exists NTrelloTreeRoot.
      apply slot_Some; [lia|]. rewrite Hadd, Hk. reflexivity.
    + simpl in Hs. rewrite list_lookup_fmap in Hs.
      destruct (add !! k) as [n|] eqn:Hn; [|discriminate]. exists n.
      apply slot_Some; [lia|]. rewrite Hadd, Hk. simpl.
      rewrite list_lookup_fmap, Hn. reflexivity.
  - intros r now pid nm Hpid. unfold LookUpInode.
    destruct (Z.eqb_spec pid 0); [contradiction|]. rewrite H0. reflexivity.
  - intros now pid Hpid. unfold GetInodeAttributes.
    destruct (Z.eqb_spec pid 0); [contradiction|]. rewrite H0. reflexivity.
  - intros r now dstLen offset. unfold fsReadDir. rewrite H0. reflexivity.
  - intros pid dst offset Hpid. unfold ReadFile.
    destruct (Z.eqb_spec pid 0); [contradiction|].
    change (int_of_uint64 0) with 0.
    destruct (Z.leb_spec (Z.of_nat (length (inodes fs))) 0).
    { rewrite Hadd in *. simpl in *. lia. }
    rewrite H0. reflexivity.
Qed.

End Files.

(** ** The first listing of the root *)

Lemma TrelloTreeRoot_Update_loop (wss : list Trello.Workspace.t) :
  forall (arena : list FSWorkspace.t) (node : TrelloTreeRoot.t) (news : list FSNode),
    NoDup (map Trello.Workspace.ID wss) ->
    (forall w, w ∈ wss -> TrelloTreeRoot.byID node !! Trello.Workspace.ID w = None) ->
    exists byID byName,
      fold_left TrelloTreeRoot_Update_body wss (arena, node, news)
      = (arena
         ++ map (fun ws =>
                   FSWorkspace.mk
                     (newDirBase (Trello.Workspace.Name ws)
                        (uid (TrelloTreeRoot.base node)) (gid (TrelloTreeRoot.base node))
                        (Trello.Workspace.ID ws))
                     [] ∅ ∅ ws) wss,
         TrelloTreeRoot.mk (TrelloTreeRoot.base node)
           (TrelloTreeRoot.workspaces node ++ seq (length arena) (length wss))
           byID byName,
         news ++ map NFSWorkspace (seq (length arena) (length wss))).
Proof.
  induction wss as [|w wss IH]; intros arena node news Hnd Hnew.
  - simpl. rewrite !app_nil_r. destruct node. eauto.
  - cbn [fold_left].
    set (item := FSWorkspace.mk
                   (newDirBase (Trello.Workspace.Name w)
                      (uid (TrelloTreeRoot.base node)) (gid (TrelloTreeRoot.base node))
                      (Trello.Workspace.ID w))
                   [] ∅ ∅ w).
    set (node1 :=
           TrelloTreeRoot.mk (TrelloTreeRoot.base node)
             (TrelloTreeRoot.workspaces node ++ [length arena])
             (<[Trello.Workspace.ID w := length arena]> (TrelloTreeRoot.byID node))
             (<[Trello.Workspace.Name w := length arena]> (TrelloTreeRoot.byName node))).
    assert (Eb : TrelloTreeRoot_Update_body (arena, node, news) w
                 = (arena ++ [item], node1, news ++ [NFSWorkspace (length arena)])).
    { unfold TrelloTreeRoot_Update_body. rewrite (Hnew w) by left. reflexivity. }
    rewrite Eb.
    simpl in Hnd. apply NoDup_cons in Hnd as [Hnotin Hnd].
    destruct (IH (arena ++ [item]) node1 (news ++ [NFSWorkspace (length arena)]) Hnd)
      as (i1 & n1 & E).
    + intros w' Hw'. unfold node1. cbn [TrelloTreeRoot.byID].
      rewrite lookup_insert_ne.
      * apply Hnew. right. exact Hw'.
      * intros Heq. apply Hnotin. rewrite Heq.
        apply list_elem_of_fmap. exists w'. split; [reflexivity | exact Hw'].
    + rewrite E. exists i1, n1. unfold node1, item.
      cbn [TrelloTreeRoot.base TrelloTreeRoot.workspaces].
      rewrite length_app. simpl length.
      replace (length arena + 1)%nat with (S (length arena)) by lia.
      rewrite <- !app_assoc. reflexivity.
Qed.

(** A base without its inode number. *)
Lemma getBase_setNodeID_rest (h : Heap) (m n : FSNode) (id : InodeID)
    (b : BaseFSNode) :
  getBase h n = Done b ->
  exists b', getBase (setNodeID h m id) n = Done b'
             /\ SetNodeID b' 0 = SetNodeID b 0.
Proof.
  intros Hb. destruct (decide (m = n)) as [->|Hne].
  - rewrite (getBase_setNodeID _ _ _ _ Hb). eexists. split; reflexivity.
  - rewrite (getBase_setNodeID_other _ _ _ _ Hne). eauto.
Qed.

Lemma addNodes_rest (add : list FSNode) :
  forall fs fs' n b,
    addNodes fs add = Done fs' ->
    getBase (heap fs) n = Done b ->
    exists b', getBase (heap fs') n = Done b' /\ SetNodeID b' 0 = SetNodeID b 0.
Proof.
  induction add as [|m add IH]; intros fs fs' n b E Hb; simpl in E.
  - inversion E; subst. eauto.
  - apply bind_Done in E as (fs1 & E1 & E).
    unfold addNode in E1. apply bind_Done in E1 as (bm & _ & E1).
    apply bind_Done in E1 as ([[id ino] free] & _ & E1).
    inversion E1; subst fs1; clear E1.
    destruct (getBase_setNodeID_rest (heap fs) m n id b Hb) as (b1 & Hb1 & Hs1).
    destruct (IH _ fs' n b1 E Hb1) as (b' & Hb' & Hs').
    exists b'. split; [exact Hb' | congruence].
Qed.

Lemma addNodes_root (add : list FSNode) :
  forall fs fs',
    NTrelloTreeRoot ∉ add ->
    addNodes fs add = Done fs' ->
    root (heap fs') = root (heap fs).
Proof.
  induction add as [|m add IH]; intros fs fs' Hn E; simpl in E.
  - inversion E; subst. reflexivity.
  - apply not_elem_of_cons in Hn as [Hm Hn].
    apply bind_Done in E as (fs1 & E1 & E).
    rewrite (IH fs1 fs' Hn E).
    unfold addNode in E1. apply bind_Done in E1 as (bm & _ & E1).
    apply bind_Done in E1 as ([[id ino] free] & _ & E1).
    inversion E1; subst fs1; clear E1. simpl.
    destruct m; try reflexivity. contradiction.
Qed.

Lemma entriesFrom_lookup (ty : DirentType) (bs : list BaseFSNode) (i : Z) (j : nat) :
  entriesFrom ty bs i !! j
  = (fun b => mkDirent (i + Z.of_nat j + 1) (NodeID b) (name b) ty) <$> bs !! j.
Proof.
  revert i j. induction bs as [|b bs IH]; intros i j; simpl; [reflexivity|].
  destruct j as [|j]; simpl.
  - f_equal. f_equal. lia.
  - rewrite IH. destruct (bs !! j); simpl; [|reflexivity]. do 2 f_equal. lia.
Qed.

Lemma mapM_lookup {C B : Type} (f : C -> outcome B) (l : list C) (bs : list B) :
  mapM f l = Done bs ->
  length bs = length l
  /\ forall j c, l !! j = Some c -> exists b, bs !! j = Some b /\ f c = Done b.
Proof.
  revert bs. induction l as [|c l IH]; intros bs E; simpl in E.
  - inversion E; subst. split; [reflexivity|]. intros j c Hc. discriminate.
  - apply bind_Done in E as (b & Eb & E). apply bind_Done in E as (bs' & Ebs & E).
    inversion E; subst bs; clear E. destruct (IH bs' Ebs) as [Hlen Hall].
    split; [simpl; lia|]. intros j c' Hc'. destruct j as [|j]; simpl in *.
    + inversion Hc'; subst. eauto.
    + apply Hall. exact Hc'.
Qed.

Lemma mapM_total {C B : Type} (f : C -> outcome B) (l : list C) :
  (forall c, c ∈ l -> exists b, f c = Done b) ->
  exists bs, mapM f l = Done bs.
Proof.
  induction l as [|c l IH]; intros Hall; simpl; [eauto|].
  destruct (Hall c) as [b Hb]; [left|]. rewrite Hb. cbn [bind].
  destruct IH as [bs Hbs]; [intros c' Hc'; apply Hall; right; exact Hc'|].
  rewrite Hbs. cbn [bind]. eauto.
Qed.

Section FirstListing.
Context {tc : GoToolchain} {fl : FuseLib}.

(** X18.  The first listing of the root of a fresh mount, a minute or
    more after the zero time, when the service answers with workspaces of
    distinct ids and the buffer has room for all of them: the workspaces
    appear in the order of the answer, under their names, the one at
    position [i] with offset [i + 1] and inode [i + 2]; the inode table
    grows by exactly these nodes. *)
Theorem root_first_listing (u g : Z) (c : Trello.TrelloCtx.t)
    (r : Trello.Remote) (now : Time) (wss : list Trello.Workspace.t)
    (dstLen : Z) :
  Trello.GetWorkspaces r c = Ok wss ->
  NoDup (map Trello.Workspace.ID wss) ->
  60 * 1000000000 <= now ->
  let ds := imap (fun i ws =>
                    mkDirent (Z.of_nat i + 1) (Z.of_nat i + 2)
                      (Trello.Workspace.Name ws) DT_Directory) wss in
  totalLen ds <= dstLen ->
  exists fs',
    fsReadDir r now (NewTrelloFS u g c) RootInodeID dstLen 0
    = Done (fs', Ok (totalLen ds, ds))
    /\ inodes fs'
       = [None; Some NTrelloTreeRoot]
         ++ map (fun i => Some (NFSWorkspace i)) (seq 0 (length wss)).
Proof.
  intros Hget Hnd Hnow ds Hroom.
  unfold fsReadDir.
  change (slot (NewTrelloFS u g c) RootInodeID) with (Done (Some NTrelloTreeRoot)).
  cbn [bind].
  unfold refreshNode.
  assert (Hdue : ShouldUpdate (heap (NewTrelloFS u g c)) now NTrelloTreeRoot = Done true).
  { simpl. unfold shouldUpdate, Since. simpl lastUpdate. f_equal.
    apply Z.leb_le. unfold zeroTime, int64_max. lia. }
  rewrite Hdue. cbn [bind negb].
  destruct (TrelloTreeRoot_Update_loop wss [] (initRoot u g) [] Hnd)
    as (byID & byName & E); [intros w _; apply lookup_empty|].
  cbn [Update]. unfold TrelloTreeRoot_Update.
  cbn [ctx NewTrelloFS]. rewrite Hget.
  change (workspaces (heap (NewTrelloFS u g c))) with (@nil FSWorkspace.t).
  change (root (heap (NewTrelloFS u g c))) with (initRoot u g).
  rewrite E. cbn [bind failure updateOk added].
  cbn [app length TrelloTreeRoot.base TrelloTreeRoot.workspaces
       TrelloTreeRoot.byID TrelloTreeRoot.byName initRoot].
  set (arena := map _ wss).
  set (h1 := set_root _ _).
  set (fs1 := with_heap _ h1).
  assert (Hlen : length arena = length wss) by (unfold arena; apply length_map).
  assert (Hlive : forall i, (i < length wss)%nat ->
            exists ws, wss !! i = Some ws
              /\ getBase h1 (NFSWorkspace i)
                 = Done (newDirBase (Trello.Workspace.Name ws) u g (Trello.Workspace.ID ws))).
  { intros i Hi. destruct (lookup_lt_is_Some_2 wss i Hi) as [ws Hws].
    exists ws. split; [exact Hws|]. simpl. unfold deref, arena.
    rewrite list_lookup_fmap, Hws. reflexivity. }
  destruct (addNodes_well_formed (map NFSWorkspace (seq 0 (length wss))) fs1)
    as (fs' & Eadd & Hwf & Hino).
  { split; [reflexivity|]. split.
    - intros i n Hi. destruct i as [|[|i]]; simpl in Hi; try discriminate.
      inversion Hi; subst n. eexists. split; [reflexivity|]. reflexivity.
    - apply Forall_nil_2. }
  { apply NoDup_fmap_2; [intros x y Hxy; congruence | apply NoDup_seq]. }
  { intros n Hn. apply list_elem_of_fmap in Hn as (i & -> & Hi).
    apply elem_of_seq in Hi. destruct (Hlive i) as (ws & _ & Hb); [lia|].
    split; [eauto|]. intros j Hj.
    destruct j as [|[|j]]; simpl in Hj; discriminate. }
  rewrite Eadd. cbn [bind].
  assert (Hnoroot : NTrelloTreeRoot ∉ map NFSWorkspace (seq 0 (length wss))).
  { intros Hin. apply list_elem_of_fmap in Hin as (i & Hi & _). discriminate. }
  assert (Hroot : TrelloTreeRoot.workspaces (root (heap fs')) = seq 0 (length wss)).
  { rewrite (addNodes_root _ fs1 fs' Hnoroot Eadd). reflexivity. }
  destruct (mapM_total (baseAt (workspaces (heap fs')) FSWorkspace.base)
              (seq 0 (length wss))) as [bs Hbs].
  { intros i Hi. apply elem_of_seq in Hi.
    destruct (Hlive i) as (ws & _ & Hb); [lia|].
    destruct (addNodes_rest _ fs1 fs' (NFSWorkspace i) _ Eadd Hb) as (b' & Hb' & _).
    exists b'. exact Hb'. }
  assert (Hdir : dirChildren (heap fs') NTrelloTreeRoot = Done (DT_Directory, bs)).
  { simpl. rewrite Hroot, Hbs. reflexivity. }
  destruct (mapM_lookup _ _ _ Hbs) as [Hbl Hbj].
  rewrite length_seq in Hbl.
  assert (Hds : entriesFrom DT_Directory bs 0 = ds).
  { apply list_eq. intros j. rewrite entriesFrom_lookup. unfold ds.
    rewrite list_lookup_imap.
    destruct (decide (j < length wss)%nat) as [Hj|Hj].
    - destruct (Hlive j Hj) as (ws & Hws & Hb).
      destruct (Hbj j j) as (b & Hbsj & Hbase).
      { rewrite lookup_seq. split; [reflexivity | lia]. }
      rewrite Hbsj, Hws. simpl.
      destruct (addNodes_rest _ fs1 fs' (NFSWorkspace j) _ Eadd Hb) as (b' & Hb' & Hrest).
      change (getBase (heap fs') (NFSWorkspace j)) with
        (baseAt (workspaces (heap fs')) FSWorkspace.base j) in Hb'.
      rewrite Hbase in Hb'. inversion Hb'; subst b'; clear Hb'.
      destruct Hwf as (_ & Htab & _).
      destruct (Htab (2 + j)%nat (NFSWorkspace j)) as (b2 & Hb2 & Hid).
      { rewrite Hino. change (inodes fs1) with [@None FSNode; Some NTrelloTreeRoot].
        simpl. rewrite list_lookup_fmap, list_lookup_fmap, lookup_seq_lt by lia.
        reflexivity. }
      change (getBase (heap fs') (NFSWorkspace j)) with
        (baseAt (workspaces (heap fs')) FSWorkspace.base j) in Hb2.
      rewrite Hbase in Hb2. inversion Hb2; subst b2; clear Hb2.
      assert (Hname : name b = Trello.Workspace.Name ws).
      { change (name b) with (name (SetNodeID b 0)). rewrite Hrest. reflexivity. }
      rewrite Hid, Hname. f_equal. f_equal; lia.
    - rewrite (lookup_ge_None_2 bs j) by lia.
      rewrite (lookup_ge_None_2 wss j) by lia. reflexivity. }
  pose proof (ReadDir_spec (heap fs') NTrelloTreeRoot DT_Directory bs dstLen 0 Hdir) as HR.
  cbn zeta in HR. rewrite drop_0, Hds in HR.
  rewrite (fitCount_all dstLen ds Hroom), firstn_all in HR.
  change (int_of_uint64 0) with 0. change (Z.of_nat 0) with 0 in HR.
  rewrite HR. cbn [bind].
  exists fs'. split; [reflexivity|].
  rewrite Hino. simpl. rewrite map_map. reflexivity.
Qed.

End FirstListing.

Lemma root_first_listing_witness :
  exists fs',
    fsReadDir Demo.remote3 Session.noon Session.start RootInodeID 4096 0
    = Done (fs', Ok (96, [ mkDirent 1 2 "a" DT_Directory;
                           mkDirent 2 3 "b" DT_Directory;
                           mkDirent 3 4 "c" DT_Directory ]))
    /\ inodes fs'
       = [ None; Some NTrelloTreeRoot; Some (NFSWorkspace 0);
           Some (NFSWorkspace 1); Some (NFSWorkspace 2) ].
Proof.
  destruct (root_first_listing 1000 1000 Session.credentials Demo.remote3
              Session.noon
              [ Trello.Workspace.mk "w1" "a" "A" EmptyString;
                Trello.Workspace.mk "w2" "b" "B" EmptyString;
                Trello.Workspace.mk "w3" "c" "C" EmptyString ] 4096)
    as (fs' & E & Hi).
  - reflexivity.
  - simpl. refine (@bool_decide_unpack _ (NoDup_dec _) _). vm_compute. exact I.
  - unfold Session.noon. lia.
  - vm_compute. discriminate.
  - exists fs'. split; [exact E | exact Hi].
Defined.

Lemma FSCard_Update_fresh_witness :
  exists h',
    FSCard_Update 0 Demo.cardHeap
    = Done (h', updateOk (map NFSCardMetaFile (seq 0 8)))
    /\ LookupChild h' (NFSCard 0) "Name" = Done (Ok (NFSCardMetaFile 1))
    /\ exists f,
         metaFiles h' !! 1%nat = Some f
         /\ FSCardMetaFile.contents f = list_byte_of_string "C".
Proof.
  destruct (FSCard_Update_fresh Demo.cardHeap 0 (newFSCard 1000 1000 Demo.card 0)
              Demo.card Demo.board)
    as (h' & E & _ & Hall); [reflexivity..|].
  exists h'. split; [exact E|].
  destruct (Hall 1%nat "Name" "C" eq_refl) as (Hl & f & Hf & Hc & _).
  split; [exact Hl|]. exists f. split; [exact Hf | exact Hc].
Defined.

Lemma FSList_Update_appends_to_board_witness :
  exists h' res node' bn',
    FSList_Update Demo.oneCard Session.noon 0 Demo.boardHeap = Done (h', res)
    /\ lists h' !! 0%nat = Some node'
    /\ boards h' !! 0%nat = Some bn'
    /\ FSList.Cards node' = FSBoard.Cards bn'.
Proof.
  destruct (FSList_Update Demo.oneCard Session.noon 0 Demo.boardHeap)
    as [[h' res]|e] eqn:E; [|vm_compute in E; discriminate].
  destruct (FSList_Update_appends_to_board Demo.oneCard Session.noon 0
              Demo.boardHeap h' res
              (FSList.mk (SetNodeID (newDirBase "L" 1000 1000 "l1") 6) [] ∅ ∅ 0 0)
              (FSBoard.mk (SetNodeID (newDirBase "B" 1000 1000 "b1") 3)
                 (Some 0%nat) (Some 0%nat) [] ∅ ∅ [0%nat] (<["l1" := 0%nat]> ∅)
                 (<["L" := 0%nat]> ∅) Demo.board))
    as (node' & bn' & ext & Hn & Hb & Hc & Hbc); [reflexivity | reflexivity | exact E |].
  exists h', res, node', bn'. split; [reflexivity|].
  split; [exact Hn|]. split; [exact Hb|]. rewrite Hc, Hbc. reflexivity.
Defined.

Lemma refresh_throttled_witness :
  exists fs',
    refreshNode Demo.remote3 Session.noon Session.start NTrelloTreeRoot = Done fs'
    /\ refreshNode Demo.twins (Session.noon + 59000000000) fs' NTrelloTreeRoot
       = Done fs'.
Proof.
  destruct (refreshNode Demo.remote3 Session.noon Session.start NTrelloTreeRoot)
    as [fs'|e] eqn:ER; [|vm_compute in ER; discriminate].
  destruct (Update Demo.remote3 (ctx Session.start) Session.noon NTrelloTreeRoot
              (heap Session.start)) as [[h res]|e] eqn:EU;
    [|vm_compute in EU; discriminate].
  exists fs'. split; [reflexivity|].
  apply (refresh_throttled Demo.remote3 Session.noon Session.start fs'
           NTrelloTreeRoot h res) with (interval := 60).
  - vm_compute. reflexivity.
  - exact EU.
  - pose proof EU as EU'. vm_compute in EU'. inversion EU'. reflexivity.
  - exact ER.
  - reflexivity.
  - lia.
Defined.

Lemma card_records_by_toolchain_witness :
  (exists h' res,
     @FSBoardCardsDirMeta_Update go_1_21 Demo.twoCards Session.noon 0 Demo.boardHeap
     = Done (h', res)
     /\ forall q, NFSCard q ∈ added res ->
          exists c, cards h' !! q = Some c
                    /\ cardVars h' !! FSCard.Card c = Some (Demo.cardNamed "c2"))
  /\ (exists h' res,
        @FSBoardCardsDirMeta_Update go_1_22 Demo.twoCards Session.noon 0 Demo.boardHeap
        = Done (h', res)
        /\ forall q, NFSCard q ∈ added res ->
             exists c card,
               cards h' !! q = Some c
               /\ cardVars h' !! FSCard.Card c = Some card
               /\ name (FSCard.base c) = Trello.Card.Name card
               /\ TrelloID (FSCard.base c) = Trello.Card.ID card).
Proof.
  apply (card_records_by_toolchain Demo.twoCards Session.noon 0 Demo.boardHeap
           (FSBoardCardsDirMeta.mk
              (SetNodeID (newDirBase "cards" 1000 1000 "b1/cards") 4) 0)
           (FSBoard.mk (SetNodeID (newDirBase "B" 1000 1000 "b1") 3)
              (Some 0%nat) (Some 0%nat) [] ∅ ∅ [0%nat] (<["l1" := 0%nat]> ∅)
              (<["L" := 0%nat]> ∅) Demo.board)
           [Demo.cardNamed "c1"; Demo.cardNamed "c2"]); reflexivity.
Defined.

Lemma ReadFile_stable_witness :
  ReadFile Session.mount' 7 8 (repeat "x"%byte 2) 0
  = Done (mkReadFileResult (list_byte_of_string "c2") 2 None).
Proof.
  apply (ReadFile_stable 1000 1000 Session.credentials Session.path
           Session.afterwards Session.mount Session.mount').
  - vm_compute. reflexivity.
  - vm_compute. reflexivity.
  - vm_compute. reflexivity.
Defined.

Lemma LookUpInode_then_GetInodeAttributes_witness :
  exists fs1 entry,
    LookUpInode Demo.twoCards Session.noon Session.mount 7 6 "ID"
    = Done (fs1, Ok entry)
    /\ GetInodeAttributes (Session.noon + 1) Session.mount' 9 (Child entry)
       = Done (Ok (Attributes entry, Session.noon + 1 + oneYear)).
Proof.
  destruct (LookUpInode Demo.twoCards Session.noon Session.mount 7 6 "ID")
    as [[fs1 reply1]|e] eqn:E1; [|vm_compute in E1; discriminate].
  destruct reply1 as [entry|x]; [|vm_compute in E1; discriminate].
  exists fs1, entry. split; [reflexivity|].
  apply (LookUpInode_then_GetInodeAttributes 1000 1000 Session.credentials
           Session.path Session.afterwards Session.mount fs1 Session.mount'
           Demo.twoCards Session.noon 7 6 "ID").
  - vm_compute. reflexivity.
  - exact E1.
  - pose proof E1 as E1'. vm_compute in E1'. inversion E1'. vm_compute. reflexivity.
  - discriminate.
Defined.

Lemma field_file_reads_its_size_witness :
  exists attrs,
    GetInodeAttributes Session.noon Session.mount 7 8
    = Done (Ok (attrs, Session.noon + oneYear))
    /\ Size attrs = 2
    /\ ReadFile Session.mount 7 8 (repeat "x"%byte 2) 0
       = Done (mkReadFileResult (list_byte_of_string "c2") 2 None).
Proof.
  destruct (field_file_reads_its_size 1000 1000 Session.credentials Session.path
              Session.mount 8 0 7 Session.noon)
    as (f & attrs & Hf & Ha & Hs & _ & _ & Hr).
  - vm_compute. reflexivity.
  - reflexivity.
  - discriminate.
  - pose proof Hf as Hf'. vm_compute in Hf'. inversion Hf'; subst f.
    exists attrs. split; [exact Ha|]. split; [exact Hs|].
    apply (Hr (repeat "x"%byte 2)). reflexivity.
Defined.

Lemma inode_zero_is_no_node_witness :
  slot Session.mount 0 = Done None
  /\ GetInodeAttributes Session.noon Session.mount 7 0 = Abort NilDeref
  /\ fsReadDir Demo.offline Session.noon Session.mount 0 4096 0
     = Done (Session.mount, Err ENOENT).
Proof.
  destruct (inode_zero_is_no_node 1000 1000 Session.credentials Session.path
              Session.mount) as (H0 & _ & _ & Hg & Hd & _).
  - vm_compute. reflexivity.
  - split; [exact H0|]. split; [apply Hg; discriminate | apply Hd].
Defined.

(** ** Every [Update] leaves no dangling pointer *)

Lemma below_mono (n n' : nat) (l : list nat) :
  (n <= n')%nat -> Forall (fun q => (q < n)%nat) l -> Forall (fun q => (q < n')%nat) l.
Proof. intros Hn H. apply (Forall_impl _ _ _ H). intros q Hq. lia. Qed.

Lemma below_snoc (n : nat) (l : list nat) :
  Forall (fun q => (q < n)%nat) l -> Forall (fun q => (q < S n)%nat) (l ++ [n]).
Proof.
  intros H. apply Forall_app. split.
  - apply (below_mono n); [lia | exact H].
  - apply Forall_singleton. lia.
Qed.

Lemma workspace_closed_mono (nB nB' : nat) (x : FSWorkspace.t) :
  (nB <= nB')%nat -> workspace_closed nB x -> workspace_closed nB' x.
Proof. apply below_mono. Qed.

Lemma board_closed_mono (nCD nLD nC nL nCD' nLD' nC' nL' : nat) (x : FSBoard.t) :
  (nCD <= nCD')%nat -> (nLD <= nLD')%nat -> (nC <= nC')%nat -> (nL <= nL')%nat ->
  board_closed nCD nLD nC nL x -> board_closed nCD' nLD' nC' nL' x.
Proof.
  intros H1 H2 H3 H4 (A & B & C & D & E). split_and!.
  - intros pc Hpc. specialize (A pc Hpc). lia.
  - intros pl Hpl. specialize (B pl Hpl). lia.
  - apply (below_mono nC); assumption.
  - intros id q Hq. specialize (D id q Hq). lia.
  - apply (below_mono nL); assumption.
Qed.

Lemma list_closed_mono (nB nLV nC nB' nLV' nC' : nat) (x : FSList.t) :
  (nB <= nB')%nat -> (nLV <= nLV')%nat -> (nC <= nC')%nat ->
  list_closed nB nLV nC x -> list_closed nB' nLV' nC' x.
Proof.
  intros H1 H2 H3 (A & B & C). split_and!; [lia | lia |].
  apply (below_mono nC); assumption.
Qed.

Lemma card_closed_mono (nF nF' : nat) (x : FSCard.t) :
  (nF <= nF')%nat -> card_closed nF x -> card_closed nF' x.
Proof. apply below_mono. Qed.

Lemma board_closed_addCard (nCD nLD nC nL : nat) (x : FSBoard.t)
    (card : Trello.Card.t) (q : nat) :
  (q < nC)%nat ->
  board_closed nCD nLD nC nL x ->
  board_closed nCD nLD nC nL (FSBoard_addCard x card q).
Proof.
  intros Hq (A & B & C & D & E). split_and!; simpl; auto.
  - apply Forall_app. split; [exact C | apply Forall_singleton; exact Hq].
  - intros id q' Hl. destruct (decide (id = Trello.Card.ID card)) as [->|Hne].
    + rewrite lookup_insert_eq in Hl. inversion Hl; subst. exact Hq.
    + rewrite lookup_insert_ne in Hl by congruence. apply (D id q' Hl).
Qed.

Lemma board_closed_addList (nCD nLD nC nL : nat) (x : FSBoard.t)
    (l : Trello.List.t) (q : nat) :
  (q < nL)%nat ->
  board_closed nCD nLD nC nL x ->
  board_closed nCD nLD nC nL (FSBoard_addList x l q).
Proof.
  intros Hq (A & B & C & D & E). split_and!; simpl; auto.
  apply Forall_app. split; [exact E | apply Forall_singleton; exact Hq].
Qed.

Lemma Forall_snoc_mono {A : Type} (P Q : A -> Prop) (l : list A) (x : A) :
  (forall y, P y -> Q y) -> Forall P l -> Q x -> Forall Q (l ++ [x]).
Proof.
  intros HPQ Hl Hx. apply Forall_app. split.
  - apply (Forall_impl _ _ _ Hl). exact HPQ.
  - apply Forall_singleton. exact Hx.
Qed.

(** *** The root *)

Lemma TrelloTreeRoot_Update_closed (r : Trello.Remote) (c : Trello.TrelloCtx.t)
    (now : Time) (h h' : Heap) (res : UpdateResult) :
  TrelloTreeRoot_Update r c now h = Done (h', res) -> closed h -> closed h'.
Proof.
  intros E Hc.
  destruct (TrelloTreeRoot_Update_shape r c now h h' res E)
    as [(e & _ & -> & _)|(wss & arena & node & news & _ & F & -> & _)]; [exact Hc|].
  destruct Hc as [Cr Cw Cb Ccd Cld Cl Cc].
  pose proof (fold_left_inv
                (fun s : list FSWorkspace.t * TrelloTreeRoot.t * list FSNode =>
                   Forall (fun q => (q < length s.1.1)%nat)
                     (TrelloTreeRoot.workspaces s.1.2)
                   /\ Forall (workspace_closed (length (boards h))) s.1.1)
                TrelloTreeRoot_Update_body wss) as Hinv.
  specialize (Hinv ltac:(
    intros [[a n] w] x _ [H1 H2]; unfold TrelloTreeRoot_Update_body;
    destruct (TrelloTreeRoot.byID n !! Trello.Workspace.ID x); simpl in *;
    [split; assumption|];
    split;
    [ rewrite length_app; simpl; rewrite Nat.add_1_r; apply below_snoc; exact H1
    | apply Forall_app; split; [exact H2 | apply Forall_singleton; apply Forall_nil_2] ])
    (workspaces h, root h, []) (conj Cr Cw)).
  rewrite F in Hinv. simpl in Hinv. destruct Hinv as [I1 I2].
  split; simpl; assumption.
Qed.

(** *** A workspace *)

Lemma FSWorkspace_Update_closed (r : Trello.Remote) (now : Time) (p : nat)
    (h h' : Heap) (res : UpdateResult) :
  FSWorkspace_Update r now p h = Done (h', res) -> closed h -> closed h'.
Proof.
  intros E Hc.
  destruct (FSWorkspace_Update_shape r now p h h' res E) as (node0 & Hp & [S|S]).
  { destruct S as (e & _ & -> & _). exact Hc. }
  destruct S as (bs & arena & node & news & _ & F & -> & _).
  destruct Hc as [Cr Cw Cb Ccd Cld Cl Cc].
  pose proof (FSWorkspace_loop_grows bs (boards h, node0, [])) as G.
  rewrite F in G. simpl in G. destruct G as (ext & Hext & _ & _).
  assert (Hle : (length (boards h) <= length arena)%nat)
    by (rewrite Hext, length_app; lia).
  pose proof (fold_left_inv
                (fun s : list FSBoard.t * FSWorkspace.t * list FSNode =>
                   workspace_closed (length s.1.1) s.1.2
                   /\ Forall (board_closed (length (cardsDirs h)) (length (listsDirs h))
                                (length (cards h)) (length (lists h))) s.1.1)
                FSWorkspace_Update_body bs) as Hinv.
  specialize (Hinv ltac:(
    intros [[a n] w] x _ [H1 H2]; unfold FSWorkspace_Update_body;
    destruct (FSWorkspace.ByID n !! Trello.Board.ID x); simpl in *;
    [split; assumption|];
    split;
    [ unfold workspace_closed; simpl; rewrite length_app; simpl;
      rewrite Nat.add_1_r; apply below_snoc; exact H1
    | apply Forall_app; split; [exact H2|]; apply Forall_singleton;
      split_and!; simpl; try discriminate; try apply Forall_nil_2;
      intros id q Hq; rewrite lookup_empty in Hq; discriminate ])
    (boards h, node0, [])).
  rewrite F in Hinv. simpl in Hinv.
  destruct Hinv as [I1 I2].
  { split; [|exact Cb]. apply (Forall_lookup_1 _ _ _ _ Cw Hp). }
  split; simpl.
  - rewrite length_insert. exact Cr.
  - apply Forall_insert; [|exact I1].
    apply (Forall_impl _ _ _ Cw). intros x. apply workspace_closed_mono. exact Hle.
  - exact I2.
  - apply (Forall_impl _ _ _ Ccd). intros x Hx. lia.
  - apply (Forall_impl _ _ _ Cld). intros x Hx. lia.
  - apply (Forall_impl _ _ _ Cl). intros x.
    apply list_closed_mono; [exact Hle | lia | lia].
  - exact Cc.
Qed.

(** *** A board *)

Lemma FSBoard_Update_closed (now : Time) (p : nat) (h h' : Heap)
    (res : UpdateResult) :
  FSBoard_Update now p h = Done (h', res) -> closed h -> closed h'.
Proof.
  intros E Hc. unfold FSBoard_Update in E.
  apply bind_Done in E as (node & Hp & E). apply deref_Done in Hp.
  destruct Hc as [Cr Cw Cb Ccd Cld Cl Cc].
  pose proof (Forall_lookup_1 _ _ _ _ Cb Hp) as (A & B & C & D & F).
  pose proof (lookup_lt_Some _ _ _ Hp) as Hlt.
  assert (Hnew : closed
            (set_boards
               (set_listsDirs
                  (set_cardsDirs h
                     (cardsDirs h
                      ++ [FSBoardCardsDirMeta.mk
                            (newDirBase "cards" (uid (FSBoard.base node))
                               (gid (FSBoard.base node))
                               (TrelloID (FSBoard.base node) +:+ "/cards")) p]))
                  (listsDirs h
                   ++ [FSBoardListsDirMeta.mk
                         (newDirBase "lists" (uid (FSBoard.base node))
                            (gid (FSBoard.base node))
                            (TrelloID (FSBoard.base node) +:+ "/lists")) p]))
               (<[p:=FSBoard.mk (markUpdated (FSBoard.base node) now)
                       (Some (length (cardsDirs h))) (Some (length (listsDirs h)))
                       (FSBoard.Cards node) (FSBoard.ByCardID node)
                       (FSBoard.ByCardName node) (FSBoard.Lists node)
                       (FSBoard.ByListID node) (FSBoard.ByListName node)
                       (FSBoard.Board node)]> (boards h)))).
  { split; simpl; rewrite ?length_insert, ?length_app; simpl.
    - exact Cr.
    - exact Cw.
    - apply Forall_insert.
      + apply (Forall_impl _ _ _ Cb). intros x.
        apply board_closed_mono; lia.
      + split_and!; simpl; auto.
        * intros pc Hpc. inversion Hpc. lia.
        * intros pl Hpl. inversion Hpl. lia.
    - apply Forall_app. split; [exact Ccd | apply Forall_singleton; exact Hlt].
    - apply Forall_app. split; [exact Cld | apply Forall_singleton; exact Hlt].
    - exact Cl.
    - exact Cc. }
  destruct (FSBoard.MetaCardsDir node) as [pc|];
    [destruct (FSBoard.MetaListsDir node) as [pl|]|];
    inversion E; subst; clear E; first [exact Hnew | split; assumption].
Qed.

(** *** A card *)

Lemma FSCard_Update_closed (p : nat) (h h' : Heap) (res : UpdateResult) :
  FSCard_Update p h = Done (h', res) -> closed h -> closed h'.
Proof.
  intros E Hc.
  destruct (FSCard_Update_shape p h h' res E)
    as (node0 & card & board & meta & arena & node & news & Hp & _ & _ & _ & F & -> & _).
  destruct Hc as [Cr Cw Cb Ccd Cld Cl Cc].
  pose proof (FSCard_loop_grows meta (FSCard.Card node0) (metaFiles h, node0, [])
                eq_refl) as G.
  rewrite F in G. simpl in G. destruct G as (ext & Hext & _ & _).
  assert (Hle : (length (metaFiles h) <= length arena)%nat)
    by (rewrite Hext, length_app; lia).
  pose proof (fold_left_inv
                (fun s : list FSCardMetaFile.t * FSCard.t * list FSNode =>
                   card_closed (length s.1.1) s.1.2)
                FSCard_Update_body meta) as Hinv.
  specialize (Hinv ltac:(
    intros [[a n] w] x _ H1; unfold FSCard_Update_body;
    destruct (FSCard.ByName n !! entryName x); simpl in *; [assumption|];
    unfold card_closed; simpl; rewrite length_app; simpl;
    rewrite Nat.add_1_r; apply below_snoc; exact H1)
    (metaFiles h, node0, []) (Forall_lookup_1 _ _ _ _ Cc Hp)).
  rewrite F in Hinv. simpl in Hinv.
  split; simpl; rewrite ?length_insert; try assumption.
  apply Forall_insert; [|exact Hinv].
  apply (Forall_impl _ _ _ Cc). intros x. apply card_closed_mono. exact Hle.
Qed.

Section BoardLoopsClosed.
Context {tc : GoToolchain}.

Lemma loopVar_length {A : Type} (vars : list A) (shared : nat) (x : A) :
  (length vars <= length (loopVar vars shared x).1)%nat.
Proof.
  unfold loopVar. destruct loopvar_per_iteration; simpl.
  - rewrite length_app. lia.
  - rewrite length_insert. lia.
Qed.

Lemma enterLoop_length {A : Type} (vars : list A) (zero : A) :
  (length vars <= length (enterLoop vars zero))%nat.
Proof.
  unfold enterLoop. destruct loopvar_per_iteration; [lia|].
  rewrite length_app. lia.
Qed.

(** The address of the loop variable lies in the arena of variables. *)
Lemma loopVar_cell {A : Type} (vars : list A) (shared : nat) (x : A) :
  (loopvar_per_iteration = false -> (shared < length vars)%nat) ->
  ((loopVar vars shared x).2 < length (loopVar vars shared x).1)%nat
  /\ (loopvar_per_iteration = false ->
      (shared < length (loopVar vars shared x).1)%nat).
Proof.
  unfold loopVar. intros H. destruct loopvar_per_iteration; simpl.
  - rewrite length_app. simpl. split; [lia | discriminate].
  - rewrite length_insert. split; [apply H; reflexivity | exact H].
Qed.

Lemma enterLoop_cell {A : Type} (vars : list A) (zero : A) :
  loopvar_per_iteration = false ->
  (length vars < length (enterLoop vars zero))%nat.
Proof.
  unfold enterLoop. intros ->. rewrite length_app. simpl. lia.
Qed.

(** *** The [cards] directory of a board *)

Lemma FSBoardCardsDirMeta_Update_closed (r : Trello.Remote) (now : Time)
    (p : nat) (h h' : Heap) (res : UpdateResult) :
  FSBoardCardsDirMeta_Update r now p h = Done (h', res) -> closed h -> closed h'.
Proof.
  intros E Hc.
  destruct (FSBoardCardsDirMeta_Update_shape r now p h h' res E)
    as (node & bn0 & Hp & Hb & [S|S]).
  { destruct S as (e & _ & -> & _). exact Hc. }
  destruct S as (cs & arena & vars & bn & news & _ & F & -> & _).
  destruct Hc as [Cr Cw Cb Ccd Cld Cl Cc].
  set (u := uid (FSBoardCardsDirMeta.base node)) in *.
  set (g := gid (FSBoardCardsDirMeta.base node)) in *.
  pose proof (FSBoardCardsDirMeta_loop_grows u g (length (cardVars h)) cs
                (cards h, enterLoop (cardVars h) Trello.Card.zero, bn0, [])) as G.
  rewrite F in G. simpl in G. destruct G as (ext & Hext & _ & _).
  assert (Hle : (length (cards h) <= length arena)%nat)
    by (rewrite Hext, length_app; lia).
  pose proof (fold_left_inv
                (fun s : list FSCard.t * list Trello.Card.t * FSBoard.t * list FSNode =>
                   Forall (card_closed (length (metaFiles h))) s.1.1.1
                   /\ board_closed (length (cardsDirs h)) (length (listsDirs h))
                        (length s.1.1.1) (length (lists h)) s.1.2)
                (FSBoardCardsDirMeta_Update_body u g (length (cardVars h))) cs) as Hinv.
  specialize (Hinv ltac:(
    intros [[[a v] b] w] x _ [H1 H2]; unfold FSBoardCardsDirMeta_Update_body;
    destruct (loopVar v (length (cardVars h)) x) as [v' cell];
    destruct (FSBoard.ByCardID b !! Trello.Card.ID x); simpl in *;
    [split; assumption|];
    split;
    [ apply Forall_app; split; [exact H1 | apply Forall_singleton; apply Forall_nil_2]
    | rewrite length_app; simpl; rewrite Nat.add_1_r;
      apply board_closed_addCard; [lia|];
      apply (board_closed_mono _ _ _ _ _ _ _ _ b
               (Nat.le_refl _) (Nat.le_refl _) (Nat.le_succ_diag_r _) (Nat.le_refl _) H2) ])
    (cards h, enterLoop (cardVars h) Trello.Card.zero, bn0, [])).
  rewrite F in Hinv. simpl in Hinv.
  destruct Hinv as [I1 I2].
  { split; [exact Cc|]. apply (Forall_lookup_1 _ _ _ _ Cb Hb). }
  split; simpl; rewrite ?length_insert; try assumption.
  - apply Forall_insert; [|exact I2].
    apply (Forall_impl _ _ _ Cb). intros x.
    apply board_closed_mono; lia.
  - apply Forall_insert; [exact Ccd|]. simpl.
    apply (Forall_lookup_1 _ _ _ _ Ccd Hp).
  - apply (Forall_impl _ _ _ Cl). intros x.
    apply list_closed_mono; lia.
Qed.

(** *** The [lists] directory of a board *)

Lemma FSBoardListsDirMeta_Update_closed (r : Trello.Remote) (now : Time)
    (p : nat) (h h' : Heap) (res : UpdateResult) :
  FSBoardListsDirMeta_Update r now p h = Done (h', res) -> closed h -> closed h'.
Proof.
  intros E Hc.
  destruct (FSBoardListsDirMeta_Update_shape r now p h h' res E)
    as (node & bn0 & Hp & Hb & [S|S]).
  { destruct S as (e & _ & -> & _). exact Hc. }
  destruct S as (ls & arena & vars & bn & news & _ & F & -> & _).
  destruct Hc as [Cr Cw Cb Ccd Cld Cl Cc].
  set (u := uid (FSBoardListsDirMeta.base node)) in *.
  set (g := gid (FSBoardListsDirMeta.base node)) in *.
  set (pb := FSBoardListsDirMeta.BoardNode node) in *.
  pose proof (lookup_lt_Some _ _ _ Hb) as Hpb.
  pose proof (FSBoardListsDirMeta_loop_grows u g pb (length (listVars h)) ls
                (lists h, enterLoop (listVars h) Trello.List.zero, bn0, [])) as G.
  rewrite F in G. simpl in G. destruct G as (ext & Hext & _ & _).
  assert (Hle : (length (lists h) <= length arena)%nat)
    by (rewrite Hext, length_app; lia).
  pose proof (fold_left_inv
                (fun s : list FSList.t * list Trello.List.t * FSBoard.t * list FSNode =>
                   Forall (list_closed (length (boards h)) (length s.1.1.2)
                             (length (cards h))) s.1.1.1
                   /\ board_closed (length (cardsDirs h)) (length (listsDirs h))
                        (length (cards h)) (length s.1.1.1) s.1.2
                   /\ (loopvar_per_iteration = false ->
                       (length (listVars h) < length s.1.1.2)%nat))
                (FSBoardListsDirMeta_Update_body u g pb (length (listVars h))) ls)
    as Hinv.
  specialize (Hinv ltac:(
    intros [[[a v] b] w] x _ (H1 & H2 & H3); unfold FSBoardListsDirMeta_Update_body;
    pose proof (loopVar_length v (length (listVars h)) x) as HL;
    pose proof (loopVar_cell v (length (listVars h)) x H3) as [HC1 HC2];
    destruct (loopVar v (length (listVars h)) x) as [v' cell];
    assert (H1' : Forall (list_closed (length (boards h)) (length v')
                            (length (cards h))) a)
      by (apply (Forall_impl _ _ _ H1); intros y;
          apply list_closed_mono; simpl in *; lia);
    destruct (FSBoard.ByListID b !! Trello.List.ID x); simpl in *;
    [split_and!; assumption|];
    split_and!;
    [ apply Forall_app; split; [exact H1'|]; apply Forall_singleton;
      split_and!; simpl; [exact Hpb | exact HC1 | apply Forall_nil_2]
    | rewrite length_app; simpl; rewrite Nat.add_1_r;
      apply board_closed_addList; [lia|];
      apply (board_closed_mono _ _ _ _ _ _ _ _ b
               (Nat.le_refl _) (Nat.le_refl _) (Nat.le_refl _) (Nat.le_succ_diag_r _) H2)
    | exact HC2 ])
    (lists h, enterLoop (listVars h) Trello.List.zero, bn0, [])).
  rewrite F in Hinv. simpl in Hinv.
  destruct Hinv as (I1 & I2 & _).
  { split_and!.
    - apply (Forall_impl _ _ _ Cl). intros x. apply list_closed_mono; try lia.
      apply enterLoop_length.
    - apply (Forall_lookup_1 _ _ _ _ Cb Hb).
    - apply enterLoop_cell. }
  split; simpl; rewrite ?length_insert; try assumption.
  - apply Forall_insert; [|exact I2].
    apply (Forall_impl _ _ _ Cb). intros x.
    apply board_closed_mono; lia.
  - apply Forall_insert; [exact Cld|]. simpl. exact Hpb.
Qed.

(** *** A list *)

Lemma FSList_Update_closed (r : Trello.Remote) (now : Time)
    (p : nat) (h h' : Heap) (res : UpdateResult) :
  FSList_Update r now p h = Done (h', res) -> closed h -> closed h'.
Proof.
  intros E Hc.
  destruct (FSList_Update_shape r now p h h' res E)
    as (node0 & bn0 & l & Hp & Hb & Hl & [S|S]).
  { destruct S as (e & _ & -> & _). exact Hc. }
  destruct S as (cs & arena & vars & node & bn & news & _ & F & -> & _).
  destruct Hc as [Cr Cw Cb Ccd Cld Cl Cc].
  set (u := uid (FSList.base node0)) in *.
  set (g := gid (FSList.base node0)) in *.
  pose proof (FSList_loop_grows u g (length (cardVars h)) cs
                (cards h, enterLoop (cardVars h) Trello.Card.zero, node0, bn0, []))
    as G.
  rewrite F in G. simpl in G. destruct G as (ext & Hext & _ & _).
  assert (Hle : (length (cards h) <= length arena)%nat)
    by (rewrite Hext, length_app; lia).
  pose proof (fold_left_inv
                (fun s : list FSCard.t * list Trello.Card.t * FSList.t * FSBoard.t
                         * list FSNode =>
                   Forall (card_closed (length (metaFiles h))) s.1.1.1.1
                   /\ list_closed (length (boards h)) (length (listVars h))
                        (length s.1.1.1.1) s.1.1.2
                   /\ board_closed (length (cardsDirs h)) (length (listsDirs h))
                        (length s.1.1.1.1) (length (lists h)) s.1.2)
                (FSList_Update_body u g (length (cardVars h))) cs) as Hinv.
  specialize (Hinv ltac:(
    intros [[[[a v] n] b] w] x _ (H1 & H2 & H3); unfold FSList_Update_body;
    destruct (loopVar v (length (cardVars h)) x) as [v' cell];
    destruct (FSBoard.ByCardID b !! Trello.Card.ID x) as [q|] eqn:Hq;
    destruct (FSList.ByID n !! Trello.Card.ID x); simpl in *;
    [ split_and!; assumption
    | split_and!;
      [ exact H1
      | destruct H2 as (A & B & C); split_and!; simpl; auto;
        apply Forall_app; split; [exact C|]; apply Forall_singleton;
        destruct H3 as (_ & _ & _ & D & _); apply (D _ _ Hq)
      | apply board_closed_addCard; [|exact H3];
        destruct H3 as (_ & _ & _ & D & _); apply (D _ _ Hq) ]
    | split_and!;
      [ apply Forall_app; split; [exact H1 | apply Forall_singleton; apply Forall_nil_2]
      | rewrite length_app; simpl;
        apply (list_closed_mono _ _ _ _ _ _ n (Nat.le_refl _) (Nat.le_refl _)
                 (Nat.le_add_r _ _) H2)
      | rewrite length_app; simpl;
        apply (board_closed_mono _ _ _ _ _ _ _ _ b
                 (Nat.le_refl _) (Nat.le_refl _) (Nat.le_add_r _ _) (Nat.le_refl _) H3) ]
    | split_and!;
      [ apply Forall_app; split; [exact H1 | apply Forall_singleton; apply Forall_nil_2]
      | rewrite length_app; simpl; rewrite Nat.add_1_r;
        destruct H2 as (A & B & C); split_and!; simpl; auto;
        apply below_snoc; exact C
      | rewrite length_app; simpl; rewrite Nat.add_1_r;
        apply board_closed_addCard; [lia|];
        apply (board_closed_mono _ _ _ _ _ _ _ _ b
                 (Nat.le_refl _) (Nat.le_refl _) (Nat.le_succ_diag_r _) (Nat.le_refl _) H3) ] ])
    (cards h, enterLoop (cardVars h) Trello.Card.zero, node0, bn0, [])).
  rewrite F in Hinv. simpl in Hinv.
  destruct Hinv as (I1 & I2 & I3).
  { split_and!; [exact Cc | apply (Forall_lookup_1 _ _ _ _ Cl Hp)
                | apply (Forall_lookup_1 _ _ _ _ Cb Hb)]. }
  split; simpl; rewrite ?length_insert; try assumption.
  - apply Forall_insert; [|exact I3].
    apply (Forall_impl _ _ _ Cb). intros x.
    apply board_closed_mono; lia.
  - apply Forall_insert; [|exact I2].
    apply (Forall_impl _ _ _ Cl). intros x.
    apply list_closed_mono; lia.
Qed.

Lemma Update_closed (r : Trello.Remote) (c : Trello.TrelloCtx.t) (now : Time)
    (n : FSNode) (h h' : Heap) (res : UpdateResult) :
  Update r c now n h = Done (h', res) -> closed h -> closed h'.
Proof.
  destruct n as [|p|p|p|p|p|p|p]; simpl.
  - apply TrelloTreeRoot_Update_closed.
  - apply FSWorkspace_Update_closed.
  - apply FSBoard_Update_closed.
  - apply FSBoardCardsDirMeta_Update_closed.
  - apply FSBoardListsDirMeta_Update_closed.
  - apply FSList_Update_closed.
  - apply FSCard_Update_closed.
  - intros E. inversion E; subst. auto.
Qed.

End BoardLoopsClosed.

(** ** No dangling pointer over the lifetime of a mount *)

Lemma closed_setNodeID (h : Heap) (n : FSNode) (id : InodeID) :
  closed h -> closed (setNodeID h n id).
Proof.
  intros [Cr Cw Cb Ccd Cld Cl Cc].
  destruct n as [|p|p|p|p|p|p|p]; split; simpl; rewrite ?length_alter;
    try assumption;
    (apply Forall_alter; [assumption|]; intros x _ Hx; exact Hx).
Qed.

Section ClosedLifetime.
Context {tc : GoToolchain} {fl : FuseLib}.

Lemma refreshNode_closed (r : Trello.Remote) (now : Time) (fs fs' : trelloFS)
    (n : FSNode) :
  closed (heap fs) -> refreshNode r now fs n = Done fs' -> closed (heap fs').
Proof.
  intros Hc E. unfold refreshNode in E.
  apply bind_Done in E as (due & _ & E). destruct due; simpl in E.
  2: { inversion E; subst. exact Hc. }
  apply bind_Done in E as ([h res] & EU & E).
  pose proof (Update_closed r (ctx fs) now n (heap fs) h res EU Hc) as Hc1.
  destruct (failure res).
  - inversion E; subst. exact Hc1.
  - apply (addNodes_heap closed (added res) closed_setNodeID (with_heap fs h) fs');
      [exact Hc1 | exact E].
Qed.

Lemma serve_closed (fs fs' : trelloFS) (e : Trello.Remote * Time * request) :
  closed (heap fs) -> serve fs e = Done fs' -> closed (heap fs').
Proof.
  intros Hc E. destruct (serve_refreshes fs fs' e E) as [->|[n Hn]].
  - exact Hc.
  - apply (refreshNode_closed _ _ _ _ _ Hc Hn).
Qed.

Lemma serveAll_closed (trace : list (Trello.Remote * Time * request)) :
  forall fs fs', closed (heap fs) -> serveAll fs trace = Done fs' -> closed (heap fs').
Proof.
  induction trace as [|e trace IH]; intros fs fs' Hc E; simpl in E.
  - inversion E; subst. exact Hc.
  - apply bind_Done in E as (fs1 & E1 & E).
    apply (IH fs1 fs'); [|exact E]. apply (serve_closed fs fs1 e Hc E1).
Qed.

Lemma mount_closed (u g : Z) (c : Trello.TrelloCtx.t)
    (trace : list (Trello.Remote * Time * request)) (fs : trelloFS) :
  serveAll (NewTrelloFS u g c) trace = Done fs -> closed (heap fs).
Proof.
  apply serveAll_closed. split; simpl; apply Forall_nil_2.
Qed.

(** ** What a refresh needs to go through *)

Lemma deref_below {A : Type} (arena : list A) (p : nat) :
  (p < length arena)%nat -> exists x, deref arena p = Done x /\ arena !! p = Some x.
Proof.
  intros Hlt. destruct (lookup_lt_is_Some_2 arena p Hlt) as [x Hx].
  exists x. split; [apply deref_Some; exact Hx | exact Hx].
Qed.

Lemma getMeta_ofCard_total (card : Trello.Card.t) :
  exists meta, getMeta (Reflect.ofCard card) = Done meta.
Proof. eexists. reflexivity. Qed.

Lemma Update_total (r : Trello.Remote) (c : Trello.TrelloCtx.t) (now : Time)
    (n : FSNode) (h : Heap) :
  closed h ->
  live h n ->
  (forall p, n = NFSCard p -> renders h p) ->
  exists h' res, Update r c now n h = Done (h', res).
Proof.
  intros [Cr Cw Cb Ccd Cld Cl Cc] Hlive Hcard.
  destruct n as [|p|p|p|p|p|p|p]; simpl in Hlive |- *.
  - unfold TrelloTreeRoot_Update. destruct (Trello.GetWorkspaces r c); [|eauto].
    destruct (fold_left _ _ _) as [[? ?] ?]. eauto.
  - unfold FSWorkspace_Update.
    destruct (deref_below _ _ Hlive) as (x & -> & _). cbn [bind].
    destruct (Trello.Workspace_GetBoards r _); [|eauto].
    destruct (fold_left _ _ _) as [[? ?] ?]. eauto.
  - unfold FSBoard_Update.
    destruct (deref_below _ _ Hlive) as (x & -> & _). cbn [bind].
    destruct (FSBoard.MetaCardsDir x); [destruct (FSBoard.MetaListsDir x)|]; eauto.
  - unfold FSBoardCardsDirMeta_Update.
    destruct (deref_below _ _ Hlive) as (x & -> & Hx). cbn [bind].
    destruct (deref_below _ _ (Forall_lookup_1 _ _ _ _ Ccd Hx)) as (b & -> & _).
    cbn [bind]. destruct (Trello.Board_GetCards r _); [|eauto].
    destruct (fold_left _ _ _) as [[[? ?] ?] ?]. eauto.
  - unfold FSBoardListsDirMeta_Update.
    destruct (deref_below _ _ Hlive) as (x & -> & Hx). cbn [bind].
    destruct (deref_below _ _ (Forall_lookup_1 _ _ _ _ Cld Hx)) as (b & -> & _).
    cbn [bind]. destruct (Trello.Board_GetLists r _); [|eauto].
    destruct (fold_left _ _ _) as [[[? ?] ?] ?]. eauto.
  - unfold FSList_Update.
    destruct (deref_below _ _ Hlive) as (x & -> & Hx). cbn [bind].
    destruct (Forall_lookup_1 _ _ _ _ Cl Hx) as (HB & HL & _).
    destruct (deref_below _ _ HB) as (b & -> & _). cbn [bind].
    destruct (deref_below _ _ HL) as (l & -> & _). cbn [bind].
    destruct (Trello.List_GetCards r _); [|eauto].
    destruct (fold_left _ _ _) as [[[[? ?] ?] ?] ?]. eauto.
  - destruct (Hcard p eq_refl) as (node & Hp & card & board & Hcv & Hb).
    unfold FSCard_Update.
    rewrite (deref_Some _ _ _ Hp). cbn [bind].
    rewrite (deref_Some _ _ _ Hcv). cbn [bind]. rewrite Hb.
    destruct (getMeta_ofCard_total card) as [meta ->]. cbn [bind].
    destruct (fold_left _ _ _) as [[? ?] ?]. eauto.
  - eauto.
Qed.

Lemma refreshNode_total (r : Trello.Remote) (now : Time) (fs : trelloFS)
    (n : FSNode) :
  well_formed fs ->
  closed (heap fs) ->
  live (heap fs) n ->
  (forall p, n = NFSCard p -> renders (heap fs) p) ->
  exists fs', refreshNode r now fs n = Done fs'.
Proof.
  intros Hwf Hc Hlive Hcard. unfold refreshNode.
  assert (Hdue : exists due, ShouldUpdate (heap fs) now n = Done due).
  { apply getBase_live in Hlive as [b Hb].
    unfold ShouldUpdate. destruct n; try (rewrite Hb; cbn [bind]; eauto). eauto. }
  destruct Hdue as [due ->]. cbn [bind]. destruct due; simpl; [|eauto].
  destruct (Update_total r (ctx fs) now n (heap fs) Hc Hlive Hcard) as (h & res & EU).
  rewrite EU. cbn [bind].
  destruct (Update_frame r (ctx fs) now n (heap fs) h res EU) as (L & [Hnd Hfresh] & Hz).
  destruct Hwf as (Hfree & Htab & Hst).
  destruct (failure res); [eauto|].
  destruct (addNodes_well_formed (added res) (with_heap fs h)) as (fs2 & E2 & _).
  - split; [exact Hfree|]. split; [|apply Hz; exact Hst].
    intros i m Hi. simpl in Hi |- *.
    destruct (Htab i m Hi) as (b & Hb & Hid).
    destruct (heap_le_getBase _ _ _ _ L Hb) as (b' & Hb' & Hid').
    exists b'. split; [exact Hb' | congruence].
  - exact Hnd.
  - intros m Hm. destruct (Hfresh m Hm) as [Hdang Hl]. split; [exact Hl|].
    intros i Hi. simpl in Hi. destruct (Htab i m Hi) as (b & Hb & _).
    rewrite Hb in Hdang. discriminate.
  - eauto.
Qed.

End ClosedLifetime.

(** ** Listings only grow *)

Section ListingsGrow.
Context {fl : FuseLib}.

(** The loop over children that all have a base goes through, and keeps
    what was written. *)
Lemma readDirLoop_total {C : Type} (f : C -> outcome BaseFSNode)
    (ty : DirentType) (l : list C) :
  Forall (fun c => exists b, f c = Done b) l ->
  forall i dstLen size written,
    exists size' ds',
      readDirLoop f ty l i dstLen size written = Done (size', ds')
      /\ written `prefix_of` ds' /\ size <= size'.
Proof.
  induction l as [|c l IH]; intros Hall i dstLen size written; simpl.
  - exists size, written. split; [reflexivity|]. split; [reflexivity | lia].
  - apply Forall_cons in Hall as [[b Hb] Hall]. rewrite Hb. cbn [bind].
    set (d := mkDirent (i + 1) (NodeID b) (name b) ty).
    unfold WriteDirent. pose proof (direntLen_pos d) as Hpos.
    destruct (direntLen d <=? dstLen - size).
    + destruct (Z.eqb_spec (direntLen d) 0); [lia|].
      destruct (IH Hall (i + 1) dstLen (size + direntLen d) (written ++ [d]))
        as (s' & ds' & E & Hpre & Hle).
      exists s', ds'. split; [exact E|]. split; [|lia].
      etransitivity; [|exact Hpre]. apply prefix_app_r. reflexivity.
    + simpl. exists size, written. split; [reflexivity|].
      split; [reflexivity | lia].
Qed.

(** The loop over children that stand where the old ones stood, followed
    by children that all have a base, writes what the loop over the old
    ones wrote, and then possibly more. *)
Lemma readDirLoop_grows {C C' : Type} (f : C -> outcome BaseFSNode)
    (f' : C' -> outcome BaseFSNode) (ty : DirentType)
    (l : list C) (l' rest : list C') :
  Forall2 (stands f f') l l' ->
  Forall (fun c => exists b, f' c = Done b) rest ->
  forall i dstLen size written s ds,
    readDirLoop f ty l i dstLen size written = Done (s, ds) ->
    exists s' ds',
      readDirLoop f' ty (l' ++ rest) i dstLen size written = Done (s', ds')
      /\ ds `prefix_of` ds' /\ s <= s'.
Proof.
  intros H2 Hrest. induction H2 as [|c c' l l' Hc H2 IH];
    intros i dstLen size written s ds E; simpl in E.
  - inversion E; subst; clear E. simpl. apply readDirLoop_total. exact Hrest.
  - apply bind_Done in E as (b & Eb & E).
    destruct (Hc b Eb) as (b' & Eb' & Hn & Hi).
    simpl. rewrite Eb'. cbn [bind]. rewrite Hn, Hi.
    destruct (WriteDirent (dstLen - size) (mkDirent (i + 1) (NodeID b) (name b) ty)
              =? 0).
    + inversion E; subst. exists s, ds. split; [reflexivity|].
      split; [reflexivity | lia].
    + apply (IH _ _ _ _ _ _ E).
Qed.

Lemma readDir_grows {C C' : Type} (f : C -> outcome BaseFSNode)
    (f' : C' -> outcome BaseFSNode) (ty : DirentType)
    (l : list C) (l' rest : list C') (dstLen offset s : Z) (ds : list Dirent) :
  Forall2 (stands f f') l l' ->
  Forall (fun c => exists b, f' c = Done b) rest ->
  readDir f ty l dstLen offset = Done (s, ds) ->
  exists s' ds',
    readDir f' ty (l' ++ rest) dstLen offset = Done (s', ds')
    /\ ds `prefix_of` ds' /\ s <= s'.
Proof.
  intros H2 Hrest E. unfold readDir in *.
  destruct (offset <? 0); [discriminate|].
  rewrite drop_app.
  apply (readDirLoop_grows f f' ty (drop (Z.to_nat offset) l)
           (drop (Z.to_nat offset) l')
           (drop (Z.to_nat offset - length l') rest)); [| |exact E].
  - apply Forall2_drop. exact H2.
  - apply Forall_drop. exact Hrest.
Qed.

(** The instance for children in an arena. *)
Lemma readDir_evolves {A : Type} (R : A -> A -> Prop)
    (baseOf : A -> BaseFSNode) (arena arena' : list A) (l l' : list nat)
    (ty : DirentType) (dstLen offset s : Z) (ds : list Dirent) :
  (forall x x', R x x' -> stampless (baseOf x') = stampless (baseOf x)) ->
  arena_ev R arena arena' ->
  l `prefix_of` l' ->
  Forall (fun q => (q < length arena')%nat) l' ->
  readDir (baseAt arena baseOf) ty l dstLen offset = Done (s, ds) ->
  exists s' ds',
    readDir (baseAt arena' baseOf) ty l' dstLen offset = Done (s', ds')
    /\ ds `prefix_of` ds' /\ s <= s'.
Proof.
  intros HR Hev [rest ->] Hlive E.
  apply Forall_app in Hlive as [_ Hlive].
  apply (readDir_grows (baseAt arena baseOf) (baseAt arena' baseOf) ty l l rest);
    [| |exact E].
  - apply Forall2_same_length_lookup_2; [reflexivity|].
    intros i c c' Hc Hc'. rewrite Hc in Hc'. inversion Hc'; subst c'.
    intros b Eb. unfold baseAt in Eb |- *.
    apply bind_Done in Eb as (x & Ex & Eb). inversion Eb; subst b; clear Eb.
    apply deref_Done in Ex. destruct (Hev c x Ex) as (x' & Hx' & Rx).
    rewrite (deref_Some _ _ _ Hx'). cbn [bind].
    destruct (stampless_fields _ _ (HR x x' Rx)) as (Hn & Hi & _). eauto.
  - apply (Forall_impl _ _ _ Hlive). intros q Hq.
    destruct (lookup_lt_is_Some_2 arena' q Hq) as [x Hx].
    exists (baseOf x). unfold baseAt. rewrite (deref_Some _ _ _ Hx). reflexivity.
Qed.

Lemma ReadDir_evolves (h h' : Heap) (n : FSNode) (dstLen offset s : Z)
    (ds : list Dirent) :
  evolves h h' ->
  paired h ->
  closed h' ->
  ReadDir h n dstLen offset = Done (s, ds) ->
  exists s' ds',
    ReadDir h' n dstLen offset = Done (s', ds')
    /\ ds `prefix_of` ds' /\ s <= s'.
Proof.
  intros Hev Hpair [Cr Cw Cb Ccd Cld Cl Cc] E.
  destruct n as [|p|p|p|p|p|p|p]; simpl in E |- *.
  - apply (readDir_evolves workspace_ev FSWorkspace.base _ _ _ _ _ _ _ _ _
             (fun x x' => workspace_base x x') (ev_workspaces _ _ Hev)
             (root_children _ _ (ev_root _ _ Hev)) Cr E).
  - unfold FSWorkspace_ReadDir in *.
    apply bind_Done in E as (x & Ex & E). apply deref_Done in Ex.
    destruct (ev_workspaces _ _ Hev _ _ Ex) as (x' & Hx' & Rx).
    rewrite (deref_Some _ _ _ Hx'). cbn [bind].
    apply (readDir_evolves board_ev FSBoard.base _ _ _ _ _ _ _ _ _
             (fun x x' => board_base x x') (ev_boards _ _ Hev)
             (workspace_children _ _ Rx) (Forall_lookup_1 _ _ _ _ Cw Hx') E).
  - unfold FSBoard_ReadDir in *.
    apply bind_Done in E as (x & Ex & E). apply deref_Done in Ex.
    destruct (ev_boards _ _ Hev _ _ Ex) as (x' & Hx' & Rx).
    rewrite (deref_Some _ _ _ Hx'). cbn [bind].
    assert (H2 : Forall2 (stands (fun e => e) (fun e => e))
                   [ match FSBoard.MetaCardsDir x with
                     | Some q => baseAt (cardsDirs h) FSBoardCardsDirMeta.base q
                     | None => Abort NilDeref
                     end;
                     match FSBoard.MetaListsDir x with
                     | Some q => baseAt (listsDirs h) FSBoardListsDirMeta.base q
                     | None => Abort NilDeref
                     end ]
                   [ match FSBoard.MetaCardsDir x' with
                     | Some q => baseAt (cardsDirs h') FSBoardCardsDirMeta.base q
                     | None => Abort NilDeref
                     end;
                     match FSBoard.MetaListsDir x' with
                     | Some q => baseAt (listsDirs h') FSBoardListsDirMeta.base q
                     | None => Abort NilDeref
                     end ]).
    { eapply Forall_lookup_1 in Hpair; [|exact Ex]. simpl in Hpair.
      destruct Hpair as [(pc & pl & Hc & Hl)|(Hc & Hl & _)].
      + destruct (board_dirs _ _ Rx pc pl Hc Hl) as [Hc' Hl'].
        rewrite Hc, Hl, Hc', Hl'.
        constructor; [|constructor; [|constructor]].
        * intros b Eb. unfold baseAt in Eb |- *.
          apply bind_Done in Eb as (y & Ey & Eb). inversion Eb; subst b; clear Eb.
          apply deref_Done in Ey.
          destruct (ev_cardsDirs _ _ Hev _ _ Ey) as (y' & Hy' & Ry).
          rewrite (deref_Some _ _ _ Hy'). cbn [bind].
          destruct (stampless_fields _ _ (cardsDir_base _ _ Ry)) as (Hn & Hi & _).
          eauto.
        * intros b Eb. unfold baseAt in Eb |- *.
          apply bind_Done in Eb as (y & Ey & Eb). inversion Eb; subst b; clear Eb.
          apply deref_Done in Ey.
          destruct (ev_listsDirs _ _ Hev _ _ Ey) as (y' & Hy' & Ry).
          rewrite (deref_Some _ _ _ Hy'). cbn [bind].
          destruct (stampless_fields _ _ (listsDir_base _ _ Ry)) as (Hn & Hi & _).
          eauto.
      + rewrite Hc, Hl.
        constructor; [|constructor; [|constructor]];
          intros b Eb; discriminate. }
    pose proof (readDir_grows (fun e => e) (fun e => e) DT_Directory _ _ []
                  dstLen offset s ds H2 (Forall_nil_2 _) E) as G.
    rewrite app_nil_r in G. exact G.
  - unfold FSBoardCardsDirMeta_ReadDir in *.
    apply bind_Done in E as (x & Ex & E). apply deref_Done in Ex.
    destruct (ev_cardsDirs _ _ Hev _ _ Ex) as (x' & Hx' & Rx).
    rewrite (deref_Some _ _ _ Hx'). cbn [bind].
    apply bind_Done in E as (bn & Eb & E). apply deref_Done in Eb.
    destruct (ev_boards _ _ Hev _ _ Eb) as (bn' & Hbn' & Rb).
    rewrite (cardsDir_board _ _ Rx), (deref_Some _ _ _ Hbn'). cbn [bind].
    destruct (Forall_lookup_1 _ _ _ _ Cb Hbn') as (_ & _ & HC & _).
    apply (readDir_evolves card_ev FSCard.base _ _ _ _ _ _ _ _ _
             (fun x x' => card_base x x') (ev_cards _ _ Hev)
             (board_cards_ev _ _ Rb) HC E).
  - unfold FSBoardListsDirMeta_ReadDir in *.
    apply bind_Done in E as (x & Ex & E). apply deref_Done in Ex.
    destruct (ev_listsDirs _ _ Hev _ _ Ex) as (x' & Hx' & Rx).
    rewrite (deref_Some _ _ _ Hx'). cbn [bind].
    apply bind_Done in E as (bn & Eb & E). apply deref_Done in Eb.
    destruct (ev_boards _ _ Hev _ _ Eb) as (bn' & Hbn' & Rb).
    rewrite (listsDir_board _ _ Rx), (deref_Some _ _ _ Hbn'). cbn [bind].
    destruct (Forall_lookup_1 _ _ _ _ Cb Hbn') as (_ & _ & _ & _ & HL).
    apply (readDir_evolves list_ev FSList.base _ _ _ _ _ _ _ _ _
             (fun x x' => list_base x x') (ev_lists _ _ Hev)
             (board_lists _ _ Rb) HL E).
  - unfold FSList_ReadDir in *.
    apply bind_Done in E as (x & Ex & E). apply deref_Done in Ex.
    destruct (ev_lists _ _ Hev _ _ Ex) as (x' & Hx' & Rx).
    rewrite (deref_Some _ _ _ Hx'). cbn [bind].
    apply bind_Done in E as (bn & Eb & E). apply deref_Done in Eb.
    destruct (ev_boards _ _ Hev _ _ Eb) as (bn' & Hbn' & Rb).
    rewrite (list_board _ _ Rx), (deref_Some _ _ _ Hbn'). cbn [bind].
    destruct (Forall_lookup_1 _ _ _ _ Cl Hx') as (_ & _ & HC).
    apply (readDir_evolves card_ev FSCard.base _ _ _ _ _ _ _ _ _
             (fun x x' => card_base x x') (ev_cards _ _ Hev)
             (list_children _ _ Rx) HC E).
  - unfold FSCard_ReadDir in *.
    apply bind_Done in E as (x & Ex & E). apply deref_Done in Ex.
    destruct (ev_cards _ _ Hev _ _ Ex) as (x' & Hx' & Rx).
    rewrite (deref_Some _ _ _ Hx'). cbn [bind].
    apply bind_Done in E as (card & Ecard & E). apply deref_Done in Ecard.
    rewrite (card_record _ _ Rx).
    rewrite (deref_Some _ _ _ (prefix_lookup_Some _ _ _ _ Ecard (ev_cardVars _ _ Hev))).
    cbn [bind].
    destruct (Trello.Card.Board card); [|discriminate].
    apply (readDir_evolves file_ev FSCardMetaFile.base _ _ _ _ _ _ _ _ _
             (fun x x' => file_base x x') (ev_metaFiles _ _ Hev)
             (card_children _ _ Rx) (Forall_lookup_1 _ _ _ _ Cc Hx') E).
  - inversion E; subst. exists 0, []. split; [reflexivity|].
    split; [reflexivity | lia].
Qed.

End ListingsGrow.

(** ** What was served once is served again *)

Lemma renders_evolves (h h' : Heap) (p : nat) :
  evolves h h' -> renders h p -> renders h' p.
Proof.
  intros Hev (node & Hp & Hb).
  destruct (ev_cards _ _ Hev _ _ Hp) as (node' & Hp' & R).
  exists node'. split; [exact Hp'|].
  rewrite (card_record _ _ R).
  apply (boarded_prefix _ _ _ (ev_cardVars _ _ Hev) Hb).
Qed.

Section ServedAgain.
Context {tc : GoToolchain} {fl : FuseLib}.

Lemma slot_live (fs : trelloFS) (id : InodeID) (n : FSNode) :
  well_formed fs -> slot fs id = Done (Some n) -> live (heap fs) n.
Proof.
  intros (_ & Htab & _) Hs. apply slot_Done in Hs as [_ Hl].
  destruct (Htab _ _ Hl) as (b & Hb & _). apply getBase_live. eauto.
Qed.

(** X19: a listing, once served, is served again for as long as the
    mount lives, and it only grows: a later [ReadDir] of the same inode
    with the same buffer size and offset goes through, whatever the
    service answers, and writes the entries of the earlier one, in
    order, with the same offsets, inodes and names, possibly followed by
    more. *)
Theorem ReadDir_only_grows (u g : Z) (c : Trello.TrelloCtx.t)
    (before between : list (Trello.Remote * Time * request))
    (fs fs1 fs2 : trelloFS) (r1 r2 : Trello.Remote) (t1 t2 : Time)
    (id : InodeID) (dstLen offset size : Z) (ds : list Dirent) :
  serveAll (NewTrelloFS u g c) before = Done fs ->
  fsReadDir r1 t1 fs id dstLen offset = Done (fs1, Ok (size, ds)) ->
  serveAll fs1 between = Done fs2 ->
  exists fs3 size' ds',
    fsReadDir r2 t2 fs2 id dstLen offset = Done (fs3, Ok (size', ds'))
    /\ ds `prefix_of` ds'
    /\ size <= size'.
Proof.
  intros Hrun E1 Hbetween.
  pose proof (mount_sound u g c before fs Hrun) as Hs.
  pose proof (mount_closed u g c before fs Hrun) as Hc.
  unfold fsReadDir in E1.
  apply bind_Done in E1 as (s0 & Hslot & E1).
  destruct s0 as [parent|]; [|discriminate].
  apply bind_Done in E1 as (fs1' & Er & E1).
  apply bind_Done in E1 as (out & ER & E1).
  inversion E1; subst fs1' out; clear E1.
  pose proof (refreshNode_sound _ _ _ _ _ Hs Er) as Hs1.
  pose proof (refreshNode_closed _ _ _ _ _ Hc Er) as Hc1.
  pose proof (serveAll_sound between fs1 fs2 Hs1 Hbetween) as Hs2.
  pose proof (serveAll_closed between fs1 fs2 Hc1 Hbetween) as Hc2.
  pose proof (slot_prefix _ _ _ _ (refreshNode_table_prefix _ _ _ _ _ Hs Er) Hslot)
    as Hslot1.
  pose proof (slot_prefix _ _ _ _ (serveAll_table_prefix _ _ _ Hs1 Hbetween) Hslot1)
    as Hslot2.
  pose proof (serveAll_evolves _ _ _ Hbetween) as Hev12.
  destruct (refreshNode_total r2 t2 fs2 parent (proj1 Hs2) Hc2
              (slot_live _ _ _ (proj1 Hs2) Hslot2)) as [fs3 Er2].
  { intros p ->. apply (renders_evolves _ _ _ Hev12).
    simpl in ER. unfold FSCard_ReadDir in ER.
    apply bind_Done in ER as (x & Ex & ER). apply deref_Done in Ex.
    apply bind_Done in ER as (card & Ecard & ER). apply deref_Done in Ecard.
    destruct (Trello.Card.Board card) as [board|] eqn:Hb; [|discriminate].
    exists x. split; [exact Ex|]. exists card, board. auto. }
  assert (Hev : evolves (heap fs1) (heap fs3)).
  { eapply evolves_trans; [exact Hev12 | apply (refreshNode_evolves _ _ _ _ _ Er2)]. }
  destruct Hs1 as (_ & _ & Hpair & _).
  destruct (ReadDir_evolves _ _ _ _ _ _ _ Hev Hpair
              (refreshNode_closed _ _ _ _ _ Hc2 Er2) ER) as (s' & ds' & ER' & Hpre & Hle).
  exists fs3, s', ds'. split; [|auto].
  unfold fsReadDir. rewrite Hslot2. cbn [bind]. rewrite Er2. cbn [bind].
  rewrite ER'. reflexivity.
Qed.

(** X13: a name, once resolved at an instant 30 seconds or more past the
    zero time, resolves again for as long as the mount lives: a later
    [LookUpInode] of the same name under the same parent goes through,
    whatever the service answers, and finds the same inode with the same
    attributes. *)
Theorem LookUpInode_stable (u g : Z) (c : Trello.TrelloCtx.t)
    (before between : list (Trello.Remote * Time * request))
    (fs fs1 fs2 : trelloFS) (r1 r2 : Trello.Remote) (t1 t2 : Time)
    (pid1 pid2 : Z) (parentID : InodeID) (nm : string)
    (entry : ChildInodeEntry) :
  serveAll (NewTrelloFS u g c) before = Done fs ->
  LookUpInode r1 t1 fs pid1 parentID nm = Done (fs1, Ok entry) ->
  30 * 1000000000 <= t1 ->
  serveAll fs1 between = Done fs2 ->
  pid2 <> 0 ->
  exists fs3 entry',
    LookUpInode r2 t2 fs2 pid2 parentID nm = Done (fs3, Ok entry')
    /\ Child entry' = Child entry
    /\ Attributes entry' = Attributes entry.
Proof.
  intros Hrun E1 Ht1 Hbetween Hpid.
  pose proof (mount_sound u g c before fs Hrun) as Hs.
  pose proof (mount_closed u g c before fs Hrun) as Hc.
  apply LookUpInode_Ok in E1
    as (parent & child & b & Hslot & Er & Hl & Hb & Hchild & Hattrs).
  pose proof (refreshNode_sound _ _ _ _ _ Hs Er) as Hs1.
  pose proof (refreshNode_closed _ _ _ _ _ Hc Er) as Hc1.
  pose proof (serveAll_sound between fs1 fs2 Hs1 Hbetween) as Hs2.
  pose proof (serveAll_closed between fs1 fs2 Hc1 Hbetween) as Hc2.
  pose proof (slot_prefix _ _ _ _ (refreshNode_table_prefix _ _ _ _ _ Hs Er) Hslot)
    as Hslot1.
  pose proof (slot_prefix _ _ _ _ (serveAll_table_prefix _ _ _ Hs1 Hbetween) Hslot1)
    as Hslot2.
  pose proof (serveAll_evolves _ _ _ Hbetween) as Hev12.
  pose proof (refreshNode_evolves _ _ _ _ _ Er) as Hev01.
  destruct (refreshNode_total r2 t2 fs2 parent (proj1 Hs2) Hc2
              (slot_live _ _ _ (proj1 Hs2) Hslot2)) as [fs3 Er2].
  { intros p ->.
    apply (renders_evolves (heap fs)); [eapply evolves_trans; eassumption|].
    pose proof (slot_live _ _ _ (proj1 Hs) Hslot) as Hlive. simpl in Hlive.
    destruct (lookup_lt_is_Some_2 _ _ Hlive) as [node Hnode].
    pose proof (card_refresh_always_due u g c before fs p node t1 Hrun Hnode Ht1)
      as Hdue.
    unfold refreshNode in Er. rewrite Hdue in Er. cbn [bind negb] in Er.
    apply bind_Done in Er as ([h res] & EU & _). simpl in EU.
    destruct (FSCard_Update_shape p (heap fs) h res EU)
      as (node0 & card & board & _ & _ & _ & _ & Hp & Hcv & Hbd & _).
    exists node0. split; [exact Hp|]. exists card, board. auto. }
  assert (Hev : evolves (heap fs1) (heap fs3)).
  { eapply evolves_trans; [exact Hev12 | apply (refreshNode_evolves _ _ _ _ _ Er2)]. }
  destruct Hs1 as (_ & _ & Hpair & _).
  pose proof (LookupChild_evolves _ _ _ _ _ Hpair Hev Hl) as Hl'.
  destruct (getBase_evolves _ _ _ _ Hev Hb) as (b' & Hb' & Hst).
  destruct (stampless_fields _ _ Hst) as (_ & Hid & Hat & _).
  exists fs3, (mkEntry (NodeID b') (NodeAttrs b') (t2 + oneYear) (t2 + oneYear)).
  split; [|simpl; split; congruence].
  unfold LookUpInode. destruct (Z.eqb_spec pid2 0); [contradiction|].
  rewrite Hslot2. cbn [bind]. rewrite Er2. cbn [bind]. rewrite Hl'. cbn [bind].
  rewrite Hb'. reflexivity.
Qed.

End ServedAgain.

(** ** Requests in order go through *)

Lemma lookupName_total {A : Type} (arena : list A) (baseOf : A -> BaseFSNode)
    (children : list nat) (nm : string) :
  Forall (fun q => (q < length arena)%nat) children ->
  exists o, lookupName arena baseOf children nm = Done o
            /\ forall q, o = Some q -> (q < length arena)%nat.
Proof.
  induction children as [|p rest IH]; intros Hall; simpl.
  - exists None. split; [reflexivity | discriminate].
  - apply Forall_cons in Hall as [Hp Hall].
    destruct (deref_below _ _ Hp) as (x & -> & _). cbn [bind].
    destruct (String.eqb (name (baseOf x)) nm).
    + exists (Some p). split; [reflexivity|]. intros q Hq. inversion Hq; subst. exact Hp.
    + apply IH. exact Hall.
Qed.

Lemma LookupChild_total (h : Heap) (n : FSNode) (nm : string) :
  closed h ->
  live h n ->
  board_has_dirs h n ->
  exists res, LookupChild h n nm = Done res
              /\ forall child, res = Ok child -> live h child.
Proof.
  intros [Cr Cw Cb Ccd Cld Cl Cc] Hlive Hdirs.
  destruct n as [|p|p|p|p|p|p|p]; simpl in Hlive |- *.
  - unfold TrelloTreeRoot_LookupChild.
    destruct (lookupName_total (workspaces h) FSWorkspace.base _ nm Cr) as (o & -> & Ho).
    cbn [bind]. eexists. split; [reflexivity|].
    intros child Hc. destruct o; inversion Hc; subst. simpl. auto.
  - unfold FSWorkspace_LookupChild.
    destruct (deref_below _ _ Hlive) as (x & -> & Hx). cbn [bind].
    destruct (lookupName_total (boards h) FSBoard.base _ nm
                (Forall_lookup_1 _ _ _ _ Cw Hx)) as (o & -> & Ho).
    cbn [bind]. eexists. split; [reflexivity|].
    intros child Hc. destruct o; inversion Hc; subst. simpl. auto.
  - unfold FSBoard_LookupChild.
    destruct (Hdirs p eq_refl) as (x & pc & pl & Hx & Hpc & Hpl).
    rewrite (deref_Some _ _ _ Hx). cbn [bind]. rewrite Hpc, Hpl.
    destruct (Forall_lookup_1 _ _ _ _ Cb Hx) as (A & B & _).
    destruct (String.eqb nm "lists").
    + eexists. split; [reflexivity|]. intros child Hc. inversion Hc; subst.
      simpl. apply B. exact Hpl.
    + destruct (String.eqb nm "cards").
      * eexists. split; [reflexivity|]. intros child Hc. inversion Hc; subst.
        simpl. apply A. exact Hpc.
      * eexists. split; [reflexivity|]. discriminate.
  - unfold FSBoardCardsDirMeta_LookupChild.
    destruct (deref_below _ _ Hlive) as (x & -> & Hx). cbn [bind].
    destruct (deref_below _ _ (Forall_lookup_1 _ _ _ _ Ccd Hx)) as (b & -> & Hb).
    cbn [bind].
    destruct (Forall_lookup_1 _ _ _ _ Cb Hb) as (_ & _ & HC & _).
    destruct (lookupName_total (cards h) FSCard.base _ nm HC) as (o & -> & Ho).
    cbn [bind]. eexists. split; [reflexivity|].
    intros child Hc. destruct o; inversion Hc; subst. simpl. auto.
  - unfold FSBoardListsDirMeta_LookupChild.
    destruct (deref_below _ _ Hlive) as (x & -> & Hx). cbn [bind].
    destruct (deref_below _ _ (Forall_lookup_1 _ _ _ _ Cld Hx)) as (b & -> & Hb).
    cbn [bind].
    destruct (Forall_lookup_1 _ _ _ _ Cb Hb) as (_ & _ & _ & _ & HL).
    destruct (lookupName_total (lists h) FSList.base _ nm HL) as (o & -> & Ho).
    cbn [bind]. eexists. split; [reflexivity|].
    intros child Hc. destruct o; inversion Hc; subst. simpl. auto.
  - unfold FSList_LookupChild.
    destruct (deref_below _ _ Hlive) as (x & -> & Hx). cbn [bind].
    destruct (Forall_lookup_1 _ _ _ _ Cl Hx) as (_ & _ & HC).
    destruct (lookupName_total (cards h) FSCard.base _ nm HC) as (o & -> & Ho).
    cbn [bind]. eexists. split; [reflexivity|].
    intros child Hc. destruct o; inversion Hc; subst. simpl. auto.
  - unfold FSCard_LookupChild.
    destruct (deref_below _ _ Hlive) as (x & -> & Hx). cbn [bind].
    destruct (lookupName_total (metaFiles h) FSCardMetaFile.base _ nm
                (Forall_lookup_1 _ _ _ _ Cc Hx)) as (o & -> & Ho).
    cbn [bind]. eexists. split; [reflexivity|].
    intros child Hc. destruct o; inversion Hc; subst. simpl. auto.
  - eexists. split; [reflexivity|]. discriminate.
Qed.

Section ReadDirTotal.
Context {fl : FuseLib}.

Lemma readDir_total {C : Type} (f : C -> outcome BaseFSNode) (ty : DirentType)
    (l : list C) (dstLen offset : Z) :
  0 <= offset ->
  Forall (fun c => exists b, f c = Done b) l ->
  exists out, readDir f ty l dstLen offset = Done out.
Proof.
  intros Ho Hall. unfold readDir. destruct (Z.ltb_spec offset 0); [lia|].
  destruct (readDirLoop_total f ty (drop (Z.to_nat offset) l)
              (Forall_drop _ _ _ Hall) offset dstLen 0 []) as (s & ds & E & _).
  rewrite E. eauto.
Qed.

Lemma baseAt_total {A : Type} (arena : list A) (baseOf : A -> BaseFSNode)
    (l : list nat) :
  Forall (fun q => (q < length arena)%nat) l ->
  Forall (fun c => exists b, baseAt arena baseOf c = Done b) l.
Proof.
  intros H. apply (Forall_impl _ _ _ H). intros q Hq.
  destruct (deref_below _ _ Hq) as (x & Hx & _).
  exists (baseOf x). unfold baseAt. rewrite Hx. reflexivity.
Qed.

Lemma ReadDir_total (h : Heap) (n : FSNode) (dstLen offset : Z) :
  closed h ->
  live h n ->
  board_has_dirs h n ->
  card_has_board h n ->
  0 <= offset ->
  exists out, ReadDir h n dstLen offset = Done out.
Proof.
  intros [Cr Cw Cb Ccd Cld Cl Cc] Hlive Hdirs Hcard Ho.
  destruct n as [|p|p|p|p|p|p|p]; simpl in Hlive |- *.
  - apply readDir_total; [exact Ho | apply baseAt_total; exact Cr].
  - unfold FSWorkspace_ReadDir.
    destruct (deref_below _ _ Hlive) as (x & -> & Hx). cbn [bind].
    apply readDir_total; [exact Ho|]. apply baseAt_total.
    apply (Forall_lookup_1 _ _ _ _ Cw Hx).
  - unfold FSBoard_ReadDir.
    destruct (Hdirs p eq_refl) as (x & pc & pl & Hx & Hpc & Hpl).
    rewrite (deref_Some _ _ _ Hx). cbn [bind]. rewrite Hpc, Hpl.
    destruct (Forall_lookup_1 _ _ _ _ Cb Hx) as (A & B & _).
    apply readDir_total; [exact Ho|].
    destruct (deref_below _ _ (A pc Hpc)) as (y & Hy & _).
    destruct (deref_below _ _ (B pl Hpl)) as (z & Hz & _).
    repeat constructor; unfold baseAt; [rewrite Hy | rewrite Hz]; simpl; eauto.
  - unfold FSBoardCardsDirMeta_ReadDir.
    destruct (deref_below _ _ Hlive) as (x & -> & Hx). cbn [bind].
    destruct (deref_below _ _ (Forall_lookup_1 _ _ _ _ Ccd Hx)) as (b & -> & Hb).
    cbn [bind].
    destruct (Forall_lookup_1 _ _ _ _ Cb Hb) as (_ & _ & HC & _).
    apply readDir_total; [exact Ho | apply baseAt_total; exact HC].
  - unfold FSBoardListsDirMeta_ReadDir.
    destruct (deref_below _ _ Hlive) as (x & -> & Hx). cbn [bind].
    destruct (deref_below _ _ (Forall_lookup_1 _ _ _ _ Cld Hx)) as (b & -> & Hb).
    cbn [bind].
    destruct (Forall_lookup_1 _ _ _ _ Cb Hb) as (_ & _ & _ & _ & HL).
    apply readDir_total; [exact Ho | apply baseAt_total; exact HL].
  - unfold FSList_ReadDir.
    destruct (deref_below _ _ Hlive) as (x & -> & Hx). cbn [bind].
    destruct (Forall_lookup_1 _ _ _ _ Cl Hx) as (HB & _ & HC).
    destruct (deref_below _ _ HB) as (b & -> & _). cbn [bind].
    apply readDir_total; [exact Ho | apply baseAt_total; exact HC].
  - unfold FSCard_ReadDir.
    destruct (Hcard p eq_refl) as (x & Hx & card & board & Hcv & Hb).
    rewrite (deref_Some _ _ _ Hx). cbn [bind].
    rewrite (deref_Some _ _ _ Hcv). cbn [bind]. rewrite Hb.
    apply readDir_total; [exact Ho|]. apply baseAt_total.
    apply (Forall_lookup_1 _ _ _ _ Cc Hx).
  - eauto.
Qed.

End ReadDirTotal.

Lemma ReadAt_total (h : Heap) (n : FSNode) (dst : list byte) (offset : Z) :
  files_ok h ->
  live h n ->
  0 <= offset ->
  exists out, ReadAt h n dst offset = Done out.
Proof.
  intros Hf Hlive Ho. destruct n as [|p|p|p|p|p|p|p]; simpl; eauto.
  simpl in Hlive. unfold FSCardMetaFile_ReadAt.
  destruct (deref_below _ _ Hlive) as (x & -> & Hx). cbn [bind].
  destruct (Forall_lookup_1 _ _ _ _ Hf Hx) as (_ & _ & _ & _ & card & board & Hc & Hb).
  rewrite (deref_Some _ _ _ Hc). cbn [bind]. rewrite Hb.
  destruct (_ <? offset); [eauto|].
  destruct (Z.ltb_spec offset 0); [lia|].
  destruct (copy dst _) as [dst' k]. destruct (k <? _); eauto.
Qed.

Lemma board_has_dirs_setNodeID (h : Heap) (n m : FSNode) (id : InodeID) :
  board_has_dirs h n -> board_has_dirs (setNodeID h m id) n.
Proof.
  intros H p Hn. destruct (H p Hn) as (x & pc & pl & Hx & Hpc & Hpl).
  destruct m as [|q|q|q|q|q|q|q]; simpl; try solve [exists x, pc, pl; auto].
  destruct (decide (q = p)) as [->|Hne].
  - eexists _, pc, pl.
    rewrite list_lookup_alter, Hx. simpl. rewrite decide_True by reflexivity.
    split; [reflexivity|]. simpl. split; assumption.
  - rewrite list_lookup_alter_ne by exact Hne. exists x, pc, pl. auto.
Qed.

Section InOrder.
Context {tc : GoToolchain} {fl : FuseLib}.

(** Half a minute or more past the zero time, a board that was
    refreshed has its two sub-directories. *)
Lemma refreshNode_board_dirs (r : Trello.Remote) (now : Time)
    (fs fs' : trelloFS) (n : FSNode) :
  sound fs ->
  30 * 1000000000 <= now ->
  live (heap fs) n ->
  refreshNode r now fs n = Done fs' ->
  board_has_dirs (heap fs') n.
Proof.
  intros Hs Hnow Hlive E p ->. simpl in Hlive.
  destruct (lookup_lt_is_Some_2 _ _ Hlive) as [x Hx].
  destruct Hs as (_ & _ & Hpair & _).
  pose proof (Forall_lookup_1 _ _ _ _ Hpair Hx) as Hp. simpl in Hp.
  destruct Hp as [(pc & pl & Hpc & Hpl)|(Hpc & Hpl & Hz)].
  - destruct (ev_boards _ _ (refreshNode_evolves _ _ _ _ _ E) _ _ Hx) as (x' & Hx' & R).
    destruct (board_dirs _ _ R pc pl Hpc Hpl) as [Hc' Hl'].
    exists x', pc, pl. auto.
  - unfold refreshNode in E.
    assert (Hdue : ShouldUpdate (heap fs) now (NFSBoard p) = Done true).
    { unfold ShouldUpdate, getBase. rewrite (deref_Some _ _ _ Hx). cbn [bind].
      unfold shouldUpdate, Since. rewrite Hz. unfold zeroTime, int64_max.
      f_equal. apply Z.leb_le. lia. }
    rewrite Hdue in E. cbn [bind negb] in E.
    simpl in E. unfold FSBoard_Update in E.
    rewrite (deref_Some _ _ _ Hx) in E. cbn [bind] in E.
    rewrite Hpc in E. cbn [bind failure updateOk added] in E.
    apply (addNodes_heap (fun h => board_has_dirs h (NFSBoard p)) _
             (fun h m id H => board_has_dirs_setNodeID h _ m id H) _ fs')
      in E; [apply (E p eq_refl)|].
    intros q Hq. inversion Hq; subst q. simpl.
    eexists _, _, _. rewrite list_lookup_insert_eq by exact Hlive.
    split; [reflexivity|]. simpl. split; reflexivity.
Qed.

(** X20: on a mount, half a minute or more past the zero time, a request
    in order goes through, whatever the service answers: no reply of the
    service, and no state the mount can reach, makes it panic. *)
Theorem requests_in_order_go_through (u g : Z) (c : Trello.TrelloCtx.t)
    (trace : list (Trello.Remote * Time * request)) (fs : trelloFS)
    (r : Trello.Remote) (now : Time) (req : request) :
  serveAll (NewTrelloFS u g c) trace = Done fs ->
  30 * 1000000000 <= now ->
  in_order fs req ->
  exists fs', serve fs (r, now, req) = Done fs'.
Proof.
  intros Hrun Hnow Hreq.
  pose proof (mount_sound u g c trace fs Hrun) as Hs.
  pose proof (mount_closed u g c trace fs Hrun) as Hc.
  assert (Hrefresh : forall n,
            live (heap fs) n -> card_has_board (heap fs) n ->
            exists fs1,
              refreshNode r now fs n = Done fs1
              /\ sound fs1 /\ closed (heap fs1) /\ live (heap fs1) n
              /\ board_has_dirs (heap fs1) n /\ card_has_board (heap fs1) n).
  { intros n Hlive Hcard.
    destruct (refreshNode_total r now fs n (proj1 Hs) Hc Hlive Hcard) as [fs1 Er].
    exists fs1. split; [exact Er|].
    pose proof (refreshNode_evolves _ _ _ _ _ Er) as Hev.
    split_and!.
    - apply (refreshNode_sound _ _ _ _ _ Hs Er).
    - apply (refreshNode_closed _ _ _ _ _ Hc Er).
    - apply getBase_live. apply getBase_live in Hlive as [b Hb].
      destruct (getBase_evolves _ _ _ _ Hev Hb) as (b' & Hb' & _). eauto.
    - apply (refreshNode_board_dirs r now fs fs1 n Hs Hnow Hlive Er).
    - intros p Hp. apply (renders_evolves _ _ _ Hev). apply (Hcard p Hp). }
  destruct req as [pid parent nm|pid id|id dstLen offset|pid id dst offset];
    simpl in Hreq |- *.
  - unfold LookUpInode. destruct (Z.eqb_spec pid 0) as [|Hpid]; [simpl; eauto|].
    destruct Hreq as [|(n & Hslot & Hcard)]; [contradiction|].
    rewrite Hslot. cbn [bind].
    destruct (Hrefresh n (slot_live _ _ _ (proj1 Hs) Hslot) Hcard)
      as (fs1 & -> & Hs1 & Hc1 & Hl1 & Hd1 & _).
    cbn [bind].
    destruct (LookupChild_total (heap fs1) n nm Hc1 Hl1 Hd1) as (res & -> & Hres).
    cbn [bind]. destruct res as [child|x]; [|simpl; eauto].
    destruct (proj2 (getBase_live (heap fs1) child) (Hres child eq_refl)) as [b ->].
    simpl. eauto.
  - unfold GetInodeAttributes. destruct (Z.eqb_spec pid 0) as [|Hpid]; [simpl; eauto|].
    destruct Hreq as [|(n & Hslot)]; [contradiction|].
    rewrite Hslot. cbn [bind].
    destruct (proj2 (getBase_live (heap fs) n) (slot_live _ _ _ (proj1 Hs) Hslot))
      as [b ->].
    simpl. eauto.
  - destruct Hreq as (Ho & s & Hslot & Hcard).
    unfold fsReadDir. rewrite Hslot. cbn [bind].
    destruct s as [n|]; [|simpl; eauto].
    destruct (Hrefresh n (slot_live _ _ _ (proj1 Hs) Hslot) (Hcard n eq_refl))
      as (fs1 & -> & Hs1 & Hc1 & Hl1 & Hd1 & Hb1).
    cbn [bind].
    assert (Hoff : int_of_uint64 offset = offset).
    { unfold int_of_uint64. destruct (Z.leb_spec offset int64_max); lia. }
    rewrite Hoff.
    destruct (ReadDir_total (heap fs1) n dstLen offset Hc1 Hl1 Hd1 Hb1 (proj1 Ho))
      as [out ->].
    simpl. eauto.
  - unfold ReadFile. destruct (Z.eqb_spec pid 0) as [|Hpid]; [simpl; eauto|].
    destruct Hreq as [|(Ho & n & Hslot)]; [contradiction|].
    pose proof (slot_Done _ _ _ Hslot) as [Hid _].
    assert (Hin : (Z.of_nat (length (inodes fs)) <=? int_of_uint64 id) = false).
    { apply Z.leb_gt. unfold int_of_uint64. destruct (id <=? int64_max); lia. }
    rewrite Hin, Hslot. cbn [bind].
    destruct Hs as (Hwf & _ & _ & Hfiles).
    pose proof (slot_live _ _ _ Hwf Hslot) as Hlive.
    destruct (ReadAt_total (heap fs) n dst offset Hfiles Hlive Ho) as [[[d k] e] ->].
    cbn [bind]. destruct (proj2 (getBase_live (heap fs) n) Hlive) as [b ->].
    cbn [bind]. destruct e as [[]|]; simpl; eauto.
Qed.

End InOrder.

Lemma ReadDir_only_grows_witness :
  exists fs3 size' ds',
    fsReadDir Demo.twoCards (Session.noon + 7200000000000) Session.mount' 1 4096 0
    = Done (fs3, Ok (size', ds'))
    /\ [mkDirent 1 2 "W" DT_Directory] `prefix_of` ds'
    /\ 32 <= size'.
Proof.
  apply (ReadDir_only_grows 1000 1000 Session.credentials Session.path
           Session.afterwards Session.mount Session.mount Session.mount'
           Demo.offline Demo.twoCards Session.noon).
  - vm_compute. reflexivity.
  - vm_compute. reflexivity.
  - vm_compute. reflexivity.
Defined.

Lemma LookUpInode_stable_witness :
  exists fs3 entry',
    LookUpInode Demo.offline (Session.noon + 7200000000000) Session.mount' 9 6 "ID"
    = Done (fs3, Ok entry')
    /\ Child entry' = 8
    /\ Attributes entry' = mkAttrs 2 1 384 1000 1000.
Proof.
  apply (LookUpInode_stable 1000 1000 Session.credentials Session.path
           Session.afterwards Session.mount Session.mount Session.mount'
           Demo.twoCards Demo.offline Session.noon (Session.noon + 7200000000000)
           7 9 6 "ID"
           (mkEntry 8 (mkAttrs 2 1 384 1000 1000) (Session.noon + oneYear)
              (Session.noon + oneYear))).
  - vm_compute. reflexivity.
  - vm_compute. reflexivity.
  - vm_compute. discriminate.
  - vm_compute. reflexivity.
  - discriminate.
Defined.

Lemma requests_in_order_go_through_witness :
  exists fs',
    serve Session.mount (Demo.offline, Session.noon, ReqReadDir 6 4096 0) = Done fs'.
Proof.
  apply (requests_in_order_go_through 1000 1000 Session.credentials Session.path).
  - vm_compute. reflexivity.
  - vm_compute. discriminate.
  - split; [unfold int64_max; lia|].
    exists (Some (NFSCard 0)). split; [reflexivity|].
    intros n Hn p Hp. subst n. inversion Hn; subst p.
    eexists. split; [reflexivity|]. eexists. eexists. split; reflexivity.
Defined.

(** ** A card of the board that a list reports is listed twice *)

Section Relisted.
Context {tc : GoToolchain}.

Lemma FSList_loop_appends (u g : Z) (shared : nat) (cs : list Trello.Card.t)
    (s : list FSCard.t * list Trello.Card.t * FSList.t * FSBoard.t * list FSNode) :
  let s' := fold_left (FSList_Update_body u g shared) cs s in
  exists ext,
    FSList.Cards s'.1.1.2 = FSList.Cards s.1.1.2 ++ ext
    /\ FSBoard.Cards s'.1.2 = FSBoard.Cards s.1.2 ++ ext.
Proof.
  apply (fold_left_rel
           (fun s s' : list FSCard.t * list Trello.Card.t * FSList.t
                       * FSBoard.t * list FSNode =>
              exists ext,
                FSList.Cards s'.1.1.2 = FSList.Cards s.1.1.2 ++ ext
                /\ FSBoard.Cards s'.1.2 = FSBoard.Cards s.1.2 ++ ext)
           (FSList_Update_body u g shared)).
  - intros s0. exists []. rewrite !app_nil_r. auto.
  - intros a b c (e1 & H1 & H2) (e2 & H3 & H4).
    exists (e1 ++ e2). rewrite H3, H1, H4, H2, !app_assoc. auto.
  - intros [[[[a v] n] b] w] x. unfold FSList_Update_body. simpl.
    destruct (loopVar v shared x).
    destruct (FSBoard.ByCardID b !! Trello.Card.ID x);
      destruct (FSList.ByID n !! Trello.Card.ID x); simpl;
      first [ exists []; rewrite !app_nil_r; split; reflexivity
            | eexists [_]; split; reflexivity ].
Qed.

Lemma FSList_loop_relists (u g : Z) (shared : nat) (id : string) (q : nat)
    (cs : list Trello.Card.t) :
  forall (s : list FSCard.t * list Trello.Card.t * FSList.t * FSBoard.t
              * list FSNode),
    (exists c, c ∈ cs /\ Trello.Card.ID c = id) ->
    FSBoard.ByCardID s.1.2 !! id = Some q ->
    FSList.ByID s.1.1.2 !! id = None ->
    let s' := fold_left (FSList_Update_body u g shared) cs s in
    exists ext,
      FSList.Cards s'.1.1.2 = FSList.Cards s.1.1.2 ++ ext
      /\ FSBoard.Cards s'.1.2 = FSBoard.Cards s.1.2 ++ ext
      /\ q ∈ ext.
Proof.
  induction cs as [|c cs IH]; intros [[[[a v] n] b] w] (c0 & Hin & Hid) Hb Hn.
  { inversion Hin. }
  cbn [fold_left]. simpl in Hb, Hn.
  destruct (decide (Trello.Card.ID c = id)) as [Hc|Hc].
  - assert (Hstep : exists v',
              FSList_Update_body u g shared (a, v, n, b, w) c
              = (a, v', FSList_addCard n c q, FSBoard_addCard b c q, w)).
    { unfold FSList_Update_body. destruct (loopVar v shared c) as [v' cell].
      rewrite Hc, Hb, Hn. eauto. }
    destruct Hstep as [v' ->].
    destruct (FSList_loop_appends u g shared cs
                (a, v', FSList_addCard n c q, FSBoard_addCard b c q, w))
      as (ext & H1 & H2).
    simpl in H1, H2. exists (q :: ext). simpl. split_and!.
    + rewrite H1, <- app_assoc. reflexivity.
    + rewrite H2, <- app_assoc. reflexivity.
    + left.
  - assert (Hrest : exists c1, c1 ∈ cs /\ Trello.Card.ID c1 = id).
    { apply elem_of_cons in Hin as [->|Hin]; [contradiction | eauto]. }
    destruct (FSList_loop_appends u g shared [c] (a, v, n, b, w)) as (e1 & H1 & H2).
    cbn [fold_left fst snd] in H1, H2.
    assert (Hb1 : FSBoard.ByCardID
                    (FSList_Update_body u g shared (a, v, n, b, w) c).1.2 !! id
                  = Some q).
    { unfold FSList_Update_body. destruct (loopVar v shared c) as [v' cell].
      destruct (FSBoard.ByCardID b !! Trello.Card.ID c);
        destruct (FSList.ByID n !! Trello.Card.ID c); simpl;
        rewrite ?lookup_insert_ne by exact Hc; exact Hb. }
    assert (Hn1 : FSList.ByID
                    (FSList_Update_body u g shared (a, v, n, b, w) c).1.1.2 !! id
                  = None).
    { unfold FSList_Update_body. destruct (loopVar v shared c) as [v' cell].
      destruct (FSBoard.ByCardID b !! Trello.Card.ID c);
        destruct (FSList.ByID n !! Trello.Card.ID c); simpl;
        rewrite ?lookup_insert_ne by exact Hc; exact Hn. }
    destruct (IH (FSList_Update_body u g shared (a, v, n, b, w) c) Hrest Hb1 Hn1)
      as (ext & H3 & H4 & Hq).
    exists (e1 ++ ext). cbn [fst snd]. split_and!.
    + rewrite H3, H1, <- app_assoc. reflexivity.
    + rewrite H4, H2, <- app_assoc. reflexivity.
    + apply elem_of_app. right. exact Hq.
Qed.

(** X21: when a list reports, for the first time, a card that the board
    already lists, the refresh of the list appends the card's node to
    the list and once more to the board: the board's sequence of cards,
    which is what its [cards] directory lists, then holds the node
    twice. *)
Theorem FSList_Update_relists (r : Trello.Remote) (now : Time) (p : nat)
    (h : Heap) (node0 : FSList.t) (bn0 : FSBoard.t) (l : Trello.List.t)
    (cs : list Trello.Card.t) (card : Trello.Card.t) (q : nat) :
  lists h !! p = Some node0 ->
  boards h !! FSList.BoardNode node0 = Some bn0 ->
  listVars h !! FSList.List node0 = Some l ->
  Trello.List_GetCards r l = Ok cs ->
  card ∈ cs ->
  FSBoard.ByCardID bn0 !! Trello.Card.ID card = Some q ->
  q ∈ FSBoard.Cards bn0 ->
  FSList.ByID node0 !! Trello.Card.ID card = None ->
  exists h' res node' bn' ext,
    FSList_Update r now p h = Done (h', res)
    /\ lists h' !! p = Some node'
    /\ boards h' !! FSList.BoardNode node0 = Some bn'
    /\ FSList.Cards node' = FSList.Cards node0 ++ ext
    /\ FSBoard.Cards bn' = FSBoard.Cards bn0 ++ ext
    /\ q ∈ ext
    /\ ~ NoDup (FSBoard.Cards bn').
Proof.
  intros Hp Hb Hl Hq Hin Hknown Hlisted Hnew. unfold FSList_Update.
  rewrite (deref_Some _ _ _ Hp). cbn [bind].
  rewrite (deref_Some _ _ _ Hb). cbn [bind].
  rewrite (deref_Some _ _ _ Hl). cbn [bind]. rewrite Hq.
  destruct (FSList_loop_relists (uid (FSList.base node0)) (gid (FSList.base node0))
              (length (cardVars h)) (Trello.Card.ID card) q cs
              (cards h, enterLoop (cardVars h) Trello.Card.zero, node0, bn0, []))
    as (ext & H1 & H2 & H3); [eauto | exact Hknown | exact Hnew |].
  destruct (fold_left _ cs _) as [[[[arena vars] node] bn] news].
  simpl in H1, H2.
  eexists _, _, _, bn, ext. split; [reflexivity|]. simpl. split_and!.
  - apply list_lookup_insert_eq. eapply lookup_lt_Some. exact Hp.
  - apply list_lookup_insert_eq. eapply lookup_lt_Some. exact Hb.
  - exact H1.
  - exact H2.
  - exact H3.
  - rewrite H2. intros Hnd. apply NoDup_app in Hnd as (_ & Hdis & _).
    apply (Hdis q Hlisted H3).
Qed.

End Relisted.

Lemma FSList_Update_relists_witness :
  exists h' res node' bn',
    FSList_Update Demo.oneCard Session.noon 0 Session.boardHeap1 = Done (h', res)
    /\ lists h' !! 0%nat = Some node'
    /\ boards h' !! 0%nat = Some bn'
    /\ FSList.Cards node' = [0%nat]
    /\ FSBoard.Cards bn' = [0%nat; 0%nat].
Proof.
  destruct (FSList_Update_relists Demo.oneCard Session.noon 0 Session.boardHeap1
              (FSList.mk (SetNodeID (newDirBase "L" 1000 1000 "l1") 6) [] ∅ ∅ 0 0)
              (FSBoard.mk (SetNodeID (newDirBase "B" 1000 1000 "b1") 3)
                 (Some 0%nat) (Some 0%nat) [0%nat]
                 (<["c1" := 0%nat]> ∅) (<["#c1" := 0%nat]> ∅)
                 [0%nat] (<["l1" := 0%nat]> ∅) (<["L" := 0%nat]> ∅) Demo.board)
              (Trello.List.mk "l1" "L" false None)
              [Demo.cardNamed "c1"] (Demo.cardNamed "c1") 0)
    as (h' & res & node' & bn' & ext & E & Hn & Hb & H1 & H2 & _).
  - reflexivity.
  - vm_compute. reflexivity.
  - reflexivity.
  - reflexivity.
  - left.
  - vm_compute. reflexivity.
  - left.
  - reflexivity.
  - exists h', res, node', bn'. split; [exact E|]. split; [exact Hn|].
    split; [exact Hb|].
    pose proof E as E'. vm_compute in E'. inversion E'; subst h' res.
    vm_compute in Hn. inversion Hn; subst node'.
    vm_compute in Hb. inversion Hb; subst bn'.
    split; reflexivity.
Defined.

(** ** [ReadFile] by the kind of inode *)

Section ReadFileKinds.
Context {tc : GoToolchain} {fl : FuseLib}.

(** On a mount, slot 0 of the table is nil and every other slot holds a
    node. *)
Lemma mount_slots (u g : Z) (c : Trello.TrelloCtx.t)
    (trace : list (Trello.Remote * Time * request)) (fs : trelloFS) :
  serveAll (NewTrelloFS u g c) trace = Done fs ->
  inodes fs !! 0%nat = Some None
  /\ forall i, (1 <= i < length (inodes fs))%nat ->
       exists n, inodes fs !! i = Some (Some n).
Proof.
  intros Hrun.
  destruct (serveAll_appends trace (NewTrelloFS u g c) fs eq_refl Hrun) as [add Hadd].
  simpl in Hadd. rewrite Hadd. split; [reflexivity|].
  intros i Hi.
  destruct (lookup_lt_is_Some_2 _ i (proj2 Hi)) as [s Hs].
  destruct i as [|[|k]]; [lia| |].
  - exists NTrelloTreeRoot. reflexivity.
  - simpl in Hs |- *. rewrite list_lookup_fmap in Hs |- *.
    destruct (add !! k) as [n|]; [|discriminate]. exists n. reflexivity.
Qed.

(** C8 (amended): on a mount, a [ReadFile] request from a process other
    than 0 goes one of three ways by its inode number.  For inode 0,
    whose slot is nil, it is a panic: the nil node is dereferenced.  For
    an inode number at or past the end of the table it is a panic: the
    explicit one of the bounds check up to the largest [int], an index
    out of range above it.  Every other inode number has a node; when
    that node is not a field file, a directory of any variant, the
    request completes without an error: 0 bytes read, the buffer
    untouched. *)
Theorem ReadFile_by_inode (u g : Z) (c : Trello.TrelloCtx.t)
    (trace : list (Trello.Remote * Time * request)) (fs : trelloFS)
    (pid : Z) (id : InodeID) (dst : list byte) (offset : Z) :
  serveAll (NewTrelloFS u g c) trace = Done fs ->
  pid <> 0 ->
  0 <= id <= uint64_max ->
  (id = 0 /\ ReadFile fs pid id dst offset = Abort NilDeref)
  \/ (Z.of_nat (length (inodes fs)) <= id
      /\ ReadFile fs pid id dst offset
         = Abort (if id <=? int64_max then ExplicitPanic else IndexOutOfRange))
  \/ (1 <= id < Z.of_nat (length (inodes fs))
      /\ exists n,
           slot fs id = Done (Some n)
           /\ ((forall p, n <> NFSCardMetaFile p) ->
               ReadFile fs pid id dst offset = Done (mkReadFileResult dst 0 None))).
Proof.
  intros Hrun Hpid Hid.
  destruct (mount_slots u g c trace fs Hrun) as [H0 Hrest].
  destruct (mount_sound u g c trace fs Hrun) as ((_ & Htable & _) & _).
  pose proof (lookup_lt_Some _ _ _ H0) as Hlen.
  destruct (Z.eq_dec id 0) as [->|Hne]; [left|right].
  { split; [reflexivity|]. unfold ReadFile.
    destruct (Z.eqb_spec pid 0); [contradiction|].
    change (int_of_uint64 0) with 0.
    destruct (Z.leb_spec (Z.of_nat (length (inodes fs))) 0); [lia|].
    rewrite (slot_Some fs 0 None); [reflexivity | lia | exact H0]. }
  destruct (Z.le_gt_cases (Z.of_nat (length (inodes fs))) id) as [Hpast|Hin];
    [left|right].
  { split; [exact Hpast|]. unfold ReadFile.
    destruct (Z.eqb_spec pid 0); [contradiction|].
    unfold int_of_uint64. destruct (Z.leb_spec id int64_max).
    - destruct (Z.leb_spec (Z.of_nat (length (inodes fs))) id); [reflexivity | lia].
    - unfold uint64_max in Hid.
      destruct (Z.leb_spec (Z.of_nat (length (inodes fs))) (id - 2 ^ 64)); [lia|].
      unfold slot.
      destruct (Z.ltb_spec id (Z.of_nat (length (inodes fs)))); [lia|].
      rewrite andb_false_r. reflexivity. }
  split; [lia|].
  destruct (Hrest (Z.to_nat id)) as [n Hn]; [lia|].
  exists n. split; [apply slot_Some; [lia | exact Hn]|].
  intros Hdir.
  destruct (Htable _ _ Hn) as (b & Hb & _).
  apply (ReadFile_of_directory fs pid id n b dst offset);
    [exact Hpid | lia | exact Hn | exact Hdir | exact Hb].
Qed.

End ReadFileKinds.

Lemma ReadFile_by_inode_witness :
  ReadFile (NewTrelloFS 1000 1000 Scenario.ctx) 7 RootInodeID [] 0
  = Done (mkReadFileResult [] 0 None).
Proof.
  destruct (ReadFile_by_inode 1000 1000 Scenario.ctx [] (NewTrelloFS 1000 1000 Scenario.ctx)
              7 RootInodeID [] 0)
    as [[H _]|[[H _]|(_ & n & Hn & H)]].
  - reflexivity.
  - lia.
  - unfold RootInodeID, uint64_max. lia.
  - discriminate H.
  - simpl in H. unfold RootInodeID in H. lia.
  - apply H. intros p Hp. subst n. vm_compute in Hn. discriminate Hn.
Defined.

(** ** A card that has been refreshed stays as it is *)

Lemma FSCard_Update_rendered (h : Heap) (p : nat) :
  rendered h p -> FSCard_Update p h = Done (h, updateOk []).
Proof.
  intros (node & card & board & meta & Hp & Hc & Hb & Hm & Hall).
  unfold FSCard_Update.
  rewrite (deref_Some _ _ _ Hp). cbn [bind].
  rewrite (deref_Some _ _ _ Hc). cbn [bind]. rewrite Hb, Hm. cbn [bind].
  rewrite (FSCard_Update_loop_skip meta (metaFiles h) node [] Hall).
  rewrite (list_insert_id _ _ _ Hp). destruct h; reflexivity.
Qed.

Lemma FSCard_Update_renders (h h' : Heap) (p : nat) (res : UpdateResult) :
  FSCard_Update p h = Done (h', res) -> rendered h' p.
Proof.
  intros E.
  destruct (FSCard_Update_shape p h h' res E)
    as (node0 & card & board & meta & arena & node & news
        & Hp & Hc & Hb & Hm & F & -> & _).
  destruct (FSCard_Update_loop_names _ _ _ _ _ _ _ F) as (_ & Hcard & _ & Hall).
  exists node, card, board, meta. simpl. split_and!; auto.
  - apply list_lookup_insert_eq. eapply lookup_lt_Some. exact Hp.
  - rewrite Hcard. exact Hc.
Qed.

Lemma rendered_keeps (h h' : Heap) (p : nat) :
  rendered h p ->
  cards h' !! p = cards h !! p ->
  cardVars h `prefix_of` cardVars h' ->
  rendered h' p.
Proof.
  intros (node & card & board & meta & Hp & Hc & Hb & Hm & Hall) Hsame Hpre.
  exists node, card, board, meta. split_and!; auto.
  - rewrite Hsame. exact Hp.
  - eapply prefix_lookup_Some; eassumption.
Qed.

Lemma rendered_renders (h : Heap) (p : nat) : rendered h p -> renders h p.
Proof.
  intros (node & card & board & meta & Hp & Hc & Hb & _).
  exists node. split; [exact Hp|]. exists card, board. auto.
Qed.

(** No [Update] of any node touches a card node that has all its files. *)
Lemma Update_keeps_card {tc : GoToolchain} (r : Trello.Remote)
    (c : Trello.TrelloCtx.t) (now : Time) (n : FSNode) (h h' : Heap)
    (res : UpdateResult) (p : nat) :
  Update r c now n h = Done (h', res) ->
  rendered h p ->
  cards h' !! p = cards h !! p.
Proof.
  intros E Hr.
  assert (Hlt : (p < length (cards h))%nat).
  { destruct Hr as (node & _ & _ & _ & Hp & _). eapply lookup_lt_Some. exact Hp. }
  destruct n as [|q|q|q|q|q|q|q]; simpl in E.
  - destruct (TrelloTreeRoot_Update_shape _ _ _ _ _ _ E)
      as [(e & _ & -> & _)|(wss & arena & node & news & _ & _ & -> & _)];
      reflexivity.
  - destruct (FSWorkspace_Update_shape _ _ _ _ _ _ E)
      as (node0 & _ & [(e & _ & -> & _)|(bs & arena & node & news & _ & _ & -> & _)]);
      reflexivity.
  - destruct (FSBoard_Update_shape _ _ _ _ _ E)
      as (node & _ & [(pc & pl & _ & _ & -> & _)|(_ & -> & _)]);
      reflexivity.
  - destruct (FSBoardCardsDirMeta_Update_shape _ _ _ _ _ _ E)
      as (node & bn0 & _ & _
          & [(e & _ & -> & _)|(cs & arena & vars & bn & news & _ & F & -> & _)]);
      [reflexivity|].
    simpl.
    pose proof (FSBoardCardsDirMeta_loop_grows
                  (uid (FSBoardCardsDirMeta.base node))
                  (gid (FSBoardCardsDirMeta.base node)) (length (cardVars h)) cs
                  (cards h, enterLoop (cardVars h) Trello.Card.zero, bn0, [])) as G.
    simpl in G. rewrite F in G. destruct G as (ext & Harena & _). simpl in Harena.
    rewrite Harena. apply lookup_app_l. exact Hlt.
  - destruct (FSBoardListsDirMeta_Update_shape _ _ _ _ _ _ E)
      as (node & bn0 & _ & _
          & [(e & _ & -> & _)|(ls & arena & vars & bn & news & _ & _ & -> & _)]);
      reflexivity.
  - destruct (FSList_Update_shape _ _ _ _ _ _ E)
      as (node0 & bn0 & l & _ & _ & _
          & [(e & _ & -> & _)
            |(cs & arena & vars & node & bn & news & _ & F & -> & _)]);
      [reflexivity|].
    simpl.
    pose proof (FSList_loop_grows (uid (FSList.base node0)) (gid (FSList.base node0))
                  (length (cardVars h)) cs
                  (cards h, enterLoop (cardVars h) Trello.Card.zero, node0, bn0, []))
      as G.
    simpl in G. rewrite F in G. destruct G as (ext & Harena & _). simpl in Harena.
    rewrite Harena. apply lookup_app_l. exact Hlt.
  - destruct (decide (q = p)) as [->|Hne].
    + rewrite (FSCard_Update_rendered h p Hr) in E. inversion E; subst. reflexivity.
    + destruct (FSCard_Update_shape _ _ _ _ E)
        as (node0 & card & board & meta & arena & node & news
            & _ & _ & _ & _ & _ & -> & _).
      simpl. apply list_lookup_insert_ne. exact Hne.
  - unfold FSCardMetaFile_Update in E. inversion E; subst. reflexivity.
Qed.

Lemma setNodeID_keeps_card (h : Heap) (m : FSNode) (id : InodeID) (p : nat) :
  m <> NFSCard p -> cards (setNodeID h m id) !! p = cards h !! p.
Proof.
  intros Hne. destruct m as [|q|q|q|q|q|q|q]; try reflexivity.
  simpl. apply list_lookup_alter_ne. intros ->. apply Hne. reflexivity.
Qed.

Lemma setNodeID_cardVars (h : Heap) (m : FSNode) (id : InodeID) :
  cardVars (setNodeID h m id) = cardVars h.
Proof. destruct m; reflexivity. Qed.

Lemma addNodes_keeps_card (p : nat) (add : list FSNode) :
  forall fs fs',
    NFSCard p ∉ add ->
    addNodes fs add = Done fs' ->
    cards (heap fs') !! p = cards (heap fs) !! p
    /\ cardVars (heap fs') = cardVars (heap fs).
Proof.
  induction add as [|n add IH]; intros fs fs' Hnot E; simpl in E.
  - inversion E; subst. auto.
  - apply bind_Done in E as (fs1 & E1 & E).
    apply not_elem_of_cons in Hnot as [Hne Hnot].
    destruct (IH fs1 fs' Hnot E) as [A B]. rewrite A, B.
    unfold addNode in E1. apply bind_Done in E1 as (b & _ & E1).
    apply bind_Done in E1 as ([[id ino] free] & _ & E1).
    inversion E1; subst fs1; clear E1. simpl.
    split; [apply setNodeID_keeps_card; congruence | apply setNodeID_cardVars].
Qed.

Section CardStays.
Context {tc : GoToolchain} {fl : FuseLib}.

(** A refresh of any node leaves a card that has all its files as it
    is. *)
Lemma refreshNode_keeps_card (r : Trello.Remote) (now : Time)
    (fs fs' : trelloFS) (n : FSNode) (p : nat) :
  rendered (heap fs) p ->
  refreshNode r now fs n = Done fs' ->
  cards (heap fs') !! p = cards (heap fs) !! p /\ rendered (heap fs') p.
Proof.
  intros Hr E.
  assert (Hsame : cards (heap fs') !! p = cards (heap fs) !! p).
  { unfold refreshNode in E.
    apply bind_Done in E as (due & _ & E). destruct due; simpl in E.
    2: { inversion E; subst. reflexivity. }
    apply bind_Done in E as ([h res] & EU & E).
    pose proof (Update_keeps_card _ _ _ _ _ _ _ p EU Hr) as HU.
    destruct (Update_frame r (ctx fs) now n (heap fs) h res EU) as (_ & [_ Hfresh] & _).
    destruct (failure res).
    - inversion E; subst. exact HU.
    - destruct (addNodes_keeps_card p (added res) (with_heap fs h) fs') as [A _];
        [|exact E|].
      + intros Hin. destruct (Hfresh _ Hin) as [Hd _].
        destruct Hr as (node & _ & _ & _ & Hp & _).
        simpl in Hd. rewrite (deref_Some _ _ _ Hp) in Hd. discriminate.
      + rewrite A. exact HU. }
  split; [exact Hsame|].
  apply (rendered_keeps _ _ _ Hr Hsame).
  apply (ev_cardVars _ _ (refreshNode_evolves _ _ _ _ _ E)).
Qed.

Lemma serveAll_keeps_card (p : nat)
    (trace : list (Trello.Remote * Time * request)) :
  forall fs fs',
    rendered (heap fs) p ->
    serveAll fs trace = Done fs' ->
    cards (heap fs') !! p = cards (heap fs) !! p /\ rendered (heap fs') p.
Proof.
  induction trace as [|e trace IH]; intros fs fs' Hr E; simpl in E.
  - inversion E; subst. auto.
  - apply bind_Done in E as (fs1 & E1 & E).
    assert (H1 : cards (heap fs1) !! p = cards (heap fs) !! p /\ rendered (heap fs1) p).
    { destruct (serve_refreshes fs fs1 e E1) as [->|[n Hn]]; [auto|].
      apply (refreshNode_keeps_card _ _ _ _ _ _ Hr Hn). }
    destruct H1 as [A Hr1]. destruct (IH fs1 fs' Hr1 E) as [B Hr2].
    split; [congruence | exact Hr2].
Qed.

(** A refresh of a card node that is due leaves it with all its
    files. *)
Lemma refreshNode_renders (r : Trello.Remote) (now : Time)
    (fs fs' : trelloFS) (p : nat) :
  ShouldUpdate (heap fs) now (NFSCard p) = Done true ->
  refreshNode r now fs (NFSCard p) = Done fs' ->
  rendered (heap fs') p.
Proof.
  intros Hdue E. unfold refreshNode in E. rewrite Hdue in E. simpl in E.
  apply bind_Done in E as ([h res] & EU & E).
  pose proof (FSCard_Update_renders _ _ _ _ EU) as Hr.
  destruct (Update_frame r (ctx fs) now (NFSCard p) (heap fs) h res EU)
    as (_ & [_ Hfresh] & _).
  destruct (failure res).
  - inversion E; subst. exact Hr.
  - destruct (addNodes_keeps_card p (added res) (with_heap fs h) fs') as [A B];
      [|exact E|].
    + intros Hin. destruct (Hfresh _ Hin) as [Hd _].
      apply bind_Done in EU as (node0 & Hp & _).
      simpl in Hd. rewrite Hp in Hd. discriminate.
    + apply (rendered_keeps _ _ _ Hr A). rewrite B. reflexivity.
Qed.

(** C9: once a request has refreshed a card directory, every later run
    of [FSCard.Update] on it, whatever the mount has served in between,
    returns no new node and leaves the heap as it is, and every later
    refresh of the card leaves the file system as it is, the inode table
    included: the card node is the one the first refresh left, and each
    of its field files is at its address with the name, the inode number
    and the contents it had, in the table under that number.  The time
    stamp of the card is never advanced: the card is due for a refresh
    at every instant at least 30 seconds after the zero time, so every
    request on the card directory runs [FSCard.Update] again, and goes
    through. *)
Theorem FSCard_Update_later_runs (u g : Z) (c : Trello.TrelloCtx.t)
    (before between : list (Trello.Remote * Time * request))
    (fs fs1 fs2 : trelloFS) (r1 : Trello.Remote) (t1 : Time) (p : nat) :
  serveAll (NewTrelloFS u g c) before = Done fs ->
  30 * 1000000000 <= t1 ->
  refreshNode r1 t1 fs (NFSCard p) = Done fs1 ->
  serveAll fs1 between = Done fs2 ->
  exists node,
    cards (heap fs1) !! p = Some node
    /\ cards (heap fs2) !! p = Some node
    /\ FSCard_Update p (heap fs2) = Done (heap fs2, updateOk [])
    /\ (forall now, 30 * 1000000000 <= now ->
          ShouldUpdate (heap fs2) now (NFSCard p) = Done true)
    /\ (forall r now, refreshNode r now fs2 (NFSCard p) = Done fs2)
    /\ Forall (file_stays fs1 fs2) (FSCard.MetaFiles node)
    /\ slot fs2 (NodeID (FSCard.base node)) = Done (Some (NFSCard p))
    /\ (forall r now dstLen offset, 0 <= offset <= int64_max ->
          exists out,
            fsReadDir r now fs2 (NodeID (FSCard.base node)) dstLen offset
            = Done (fs2, Ok out)).
Proof.
  intros Hrun Ht1 Er Hbetween.
  pose proof (mount_sound u g c before fs Hrun) as Hs.
  pose proof (mount_closed u g c before fs Hrun) as Hc.
  pose proof (refreshNode_sound _ _ _ _ _ Hs Er) as Hs1.
  pose proof (refreshNode_closed _ _ _ _ _ Hc Er) as Hc1.
  pose proof (serveAll_sound between fs1 fs2 Hs1 Hbetween) as Hs2.
  pose proof (serveAll_closed between fs1 fs2 Hc1 Hbetween) as Hc2.
  pose proof (serveAll_evolves _ _ _ Hbetween) as Hev.
  assert (Hdue : forall fs0 now, sound fs0 -> 30 * 1000000000 <= now ->
            (p < length (cards (heap fs0)))%nat ->
            ShouldUpdate (heap fs0) now (NFSCard p) = Done true).
  { intros fs0 now ((_ & _ & Hz) & _) Hnow Hlt.
    destruct (lookup_lt_is_Some_2 _ _ Hlt) as [x Hx].
    pose proof (Forall_lookup_1 _ _ _ _ Hz Hx) as Hzero. simpl in Hzero.
    unfold ShouldUpdate. simpl. rewrite (deref_Some _ _ _ Hx). cbn [bind].
    unfold shouldUpdate, Since. rewrite Hzero. unfold zeroTime, int64_max.
    f_equal. apply Z.leb_le. lia. }
  assert (Hlive : (p < length (cards (heap fs)))%nat).
  { unfold refreshNode in Er. apply bind_Done in Er as (due & Hd & _).
    unfold ShouldUpdate in Hd. apply bind_Done in Hd as (b & Hb & _).
    simpl in Hb. apply bind_Done in Hb as (x & Hx & _).
    apply deref_Done in Hx. eapply lookup_lt_Some. exact Hx. }
  pose proof (refreshNode_renders r1 t1 fs fs1 p (Hdue fs t1 Hs Ht1 Hlive) Er) as Hr1.
  destruct (serveAll_keeps_card p between fs1 fs2 Hr1 Hbetween) as [Hsame Hr2].
  pose proof Hr1 as (node & _ & _ & _ & Hp1 & _).
  assert (Hp2 : cards (heap fs2) !! p = Some node) by (rewrite Hsame; exact Hp1).
  pose proof (FSCard_Update_rendered _ _ Hr2) as HU.
  assert (Hdue2 : forall now, 30 * 1000000000 <= now ->
            ShouldUpdate (heap fs2) now (NFSCard p) = Done true).
  { intros now Hnow. apply (Hdue fs2 now Hs2 Hnow). eapply lookup_lt_Some. exact Hp2. }
  assert (Hagain : forall r now, refreshNode r now fs2 (NFSCard p) = Done fs2).
  { intros r now. unfold refreshNode.
    assert (Hd : exists due, ShouldUpdate (heap fs2) now (NFSCard p) = Done due).
    { unfold ShouldUpdate. simpl. rewrite (deref_Some _ _ _ Hp2). cbn [bind]. eauto. }
    destruct Hd as [due ->]. cbn [bind]. destruct due; simpl; [|reflexivity].
    rewrite HU. cbn [bind]. simpl. rewrite with_heap_same. reflexivity. }
  destruct Hs2 as ((Hfree2 & Htab2 & Hz2) & Htabled2 & Hpair2 & Hfiles2).
  assert (Hslot : slot fs2 (NodeID (FSCard.base node)) = Done (Some (NFSCard p))).
  { destruct (Htabled2 (NFSCard p)) as [i Hi].
    { simpl. eapply lookup_lt_Some. exact Hp2. }
    destruct (Htab2 _ _ Hi) as (b & Hb & Hid).
    simpl in Hb. rewrite (deref_Some _ _ _ Hp2) in Hb. inversion Hb; subst b.
    rewrite Hid. apply slot_Some; [lia|]. rewrite Nat2Z.id. exact Hi. }
  exists node. split_and!; auto.
  - apply Forall_forall. intros q Hq.
    pose proof (Forall_lookup_1 _ _ _ _ (cl_cards _ Hc1) Hp1) as Hcl.
    unfold card_closed in Hcl. rewrite Forall_forall in Hcl.
    destruct (lookup_lt_is_Some_2 _ _ (Hcl q Hq)) as [f1 Hf1].
    destruct (ev_metaFiles _ _ Hev _ _ Hf1) as (f2 & Hf2 & R).
    destruct (stampless_fields _ _ (file_base _ _ R)) as (Hn & Hid & _).
    exists f1, f2. split_and!; auto.
    + apply (file_contents _ _ R).
    + destruct (Htabled2 (NFSCardMetaFile q)) as [i Hi].
      { simpl. eapply lookup_lt_Some. exact Hf2. }
      destruct (Htab2 _ _ Hi) as (b & Hb & Hidb).
      simpl in Hb. rewrite (deref_Some _ _ _ Hf2) in Hb. inversion Hb; subst b.
      rewrite Hidb. apply slot_Some; [lia|]. rewrite Nat2Z.id. exact Hi.
  - intros r now dstLen offset Ho. unfold fsReadDir.
    rewrite Hslot. cbn [bind]. rewrite Hagain. cbn [bind].
    destruct (ReadDir_total (heap fs2) (NFSCard p) dstLen (int_of_uint64 offset))
      as [out Hout].
    + exact Hc2.
    + simpl. eapply lookup_lt_Some. exact Hp2.
    + intros q Hq. discriminate Hq.
    + intros q Hq. inversion Hq; subst q. apply rendered_renders. exact Hr2.
    + unfold int_of_uint64. destruct (Z.leb_spec offset int64_max); lia.
    + rewrite Hout. eauto.
Qed.

End CardStays.

Lemma FSCard_Update_later_runs_witness :
  FSCard_Update 0 (heap Session.mount') = Done (heap Session.mount', updateOk [])
  /\ refreshNode Demo.offline (Session.noon + 7200000000000) Session.mount' (NFSCard 0)
     = Done Session.mount'
  /\ Forall (file_stays Session.mount Session.mount') (seq 0 8)
  /\ slot Session.mount' 6 = Done (Some (NFSCard 0)).
Proof.
  destruct (FSCard_Update_later_runs 1000 1000 Session.credentials
              Again.before Session.afterwards Again.mount Session.mount
              Session.mount' Demo.twoCards Session.noon 0)
    as (node & Hp1 & _ & HU & _ & Hagain & Hfiles & Hslot & _).
  - vm_compute. reflexivity.
  - unfold Session.noon. lia.
  - vm_compute. reflexivity.
  - vm_compute. reflexivity.
  - vm_compute in Hp1. inversion Hp1; subst node; clear Hp1.
    split; [exact HU|]. split; [apply Hagain|]. split; [exact Hfiles | exact Hslot].
Defined.

(** ** Which record a list node holds, by toolchain *)

Lemma own_record_prefix (vars vars' : list Trello.List.t) (x : FSList.t) :
  vars `prefix_of` vars' -> own_record vars x -> own_record vars' x.
Proof.
  intros Hpre (l & Hl & Hid & Hn). exists l. split; [|auto].
  eapply prefix_lookup_Some; eassumption.
Qed.

(** With a variable per iteration, the loop of
    [FSBoardListsDirMeta.Update] gives every list node it makes the
    record of its own list. *)
Lemma FSBoardListsDirMeta_loop_own (u g : Z) (pb shared : nat)
    (ls : list Trello.List.t) :
  forall s : list FSList.t * list Trello.List.t * FSBoard.t * list FSNode,
    Forall (own_record s.1.1.2) s.1.1.1 ->
    let s' :=
      fold_left (FSBoardListsDirMeta_Update_body (tc := go_1_22) u g pb shared) ls s in
    Forall (own_record s'.1.1.2) s'.1.1.1.
Proof.
  induction ls as [|x ls IH]; intros [[[a v] b] w] H; cbn [fold_left]; [exact H|].
  apply IH. unfold FSBoardListsDirMeta_Update_body.
  cbv [loopVar loopvar_per_iteration go_1_22]. simpl in H.
  assert (Hold : Forall (own_record (v ++ [x])) a).
  { apply (Forall_impl _ _ _ H). intros y. apply own_record_prefix.
    apply prefix_app_r. reflexivity. }
  destruct (FSBoard.ByListID b !! Trello.List.ID x); simpl; [exact Hold|].
  apply Forall_app. split; [exact Hold|].
  apply Forall_cons. split; [|apply Forall_nil; exact I].
  exists x. simpl. split; [|auto]. apply list_lookup_middle. reflexivity.
Qed.

Lemma lists_own_evolves (h h' : Heap) :
  evolves h h' ->
  length (lists h') = length (lists h) ->
  lists_own h -> lists_own h'.
Proof.
  intros Hev Hlen Hown. apply Forall_lookup_2. intros i x' Hx'.
  destruct (lookup_lt_is_Some_2 (lists h) i) as [x Hx].
  { rewrite <- Hlen. eapply lookup_lt_Some. exact Hx'. }
  destruct (ev_lists _ _ Hev _ _ Hx) as (x'' & Hx'' & R).
  rewrite Hx' in Hx''. inversion Hx''; subst x''; clear Hx''.
  pose proof (Forall_lookup_1 _ _ _ _ Hown Hx) as (l & Hl & Hid & Hn).
  destruct (stampless_fields _ _ (list_base _ _ R)) as (Hname & _ & _ & _ & Htid).
  exists l. rewrite (list_record _ _ R), Hname, Htid. split; [|auto].
  eapply prefix_lookup_Some; [exact Hl | apply (ev_listVars _ _ Hev)].
Qed.

Lemma Update_lists_own (r : Trello.Remote) (c : Trello.TrelloCtx.t) (now : Time)
    (n : FSNode) (h h' : Heap) (res : UpdateResult) :
  Update (tc := go_1_22) r c now n h = Done (h', res) ->
  lists_own h -> lists_own h'.
Proof.
  intros E Hown.
  pose proof (Update_evolves r c now n h h' res E) as Hev.
  destruct n as [|q|q|q|q|q|q|q]; simpl in E.
  - apply (lists_own_evolves h h' Hev); [|exact Hown].
    destruct (TrelloTreeRoot_Update_shape _ _ _ _ _ _ E)
      as [(e & _ & -> & _)|(wss & arena & node & news & _ & _ & -> & _)];
      reflexivity.
  - apply (lists_own_evolves h h' Hev); [|exact Hown].
    destruct (FSWorkspace_Update_shape _ _ _ _ _ _ E)
      as (node0 & _ & [(e & _ & -> & _)|(bs & arena & node & news & _ & _ & -> & _)]);
      reflexivity.
  - apply (lists_own_evolves h h' Hev); [|exact Hown].
    destruct (FSBoard_Update_shape _ _ _ _ _ E)
      as (node & _ & [(pc & pl & _ & _ & -> & _)|(_ & -> & _)]);
      reflexivity.
  - apply (lists_own_evolves h h' Hev); [|exact Hown].
    destruct (FSBoardCardsDirMeta_Update_shape _ _ _ _ _ _ E)
      as (node & bn0 & _ & _
          & [(e & _ & -> & _)|(cs & arena & vars & bn & news & _ & _ & -> & _)]);
      reflexivity.
  - destruct (FSBoardListsDirMeta_Update_shape _ _ _ _ _ _ E)
      as (node & bn0 & _ & _
          & [(e & _ & -> & _)|(ls & arena & vars & bn & news & _ & F & -> & _)]);
      [exact Hown|].
    unfold lists_own. simpl.
    pose proof (FSBoardListsDirMeta_loop_own
                  (uid (FSBoardListsDirMeta.base node))
                  (gid (FSBoardListsDirMeta.base node))
                  (FSBoardListsDirMeta.BoardNode node) (length (listVars h)) ls
                  (lists h, listVars h, bn0, [])) as G.
    change (enterLoop (listVars h) Trello.List.zero) with (listVars h) in F.
    cbv zeta in G. rewrite F in G. apply G. exact Hown.
  - apply (lists_own_evolves h h' Hev); [|exact Hown].
    destruct (FSList_Update_shape _ _ _ _ _ _ E)
      as (node0 & bn0 & l & _ & _ & _
          & [(e & _ & -> & _)
            |(cs & arena & vars & node & bn & news & _ & _ & -> & _)]);
      [reflexivity|].
    simpl. apply length_insert.
  - apply (lists_own_evolves h h' Hev); [|exact Hown].
    destruct (FSCard_Update_shape _ _ _ _ E)
      as (node0 & card & board & meta & arena & node & news
          & _ & _ & _ & _ & _ & -> & _).
    reflexivity.
  - unfold FSCardMetaFile_Update in E. inversion E; subst. exact Hown.
Qed.

Lemma lists_own_setNodeID (h : Heap) (m : FSNode) (id : InodeID) :
  lists_own h -> lists_own (setNodeID h m id).
Proof.
  intros Hown. destruct m as [|q|q|q|q|q|q|q]; try exact Hown.
  unfold lists_own. simpl. apply Forall_alter; [exact Hown|].
  intros x _ (l & Hl & Hid & Hn). exists l. simpl. auto.
Qed.

Section OwnRecords.
Context {fl : FuseLib}.

Lemma refreshNode_lists_own (r : Trello.Remote) (now : Time) (fs fs' : trelloFS)
    (n : FSNode) :
  lists_own (heap fs) ->
  refreshNode (tc := go_1_22) r now fs n = Done fs' ->
  lists_own (heap fs').
Proof.
  intros Hown E. unfold refreshNode in E.
  apply bind_Done in E as (due & _ & E). destruct due; simpl in E.
  2: { inversion E; subst. exact Hown. }
  apply bind_Done in E as ([h res] & EU & E).
  pose proof (Update_lists_own _ _ _ _ _ _ _ EU Hown) as H1.
  destruct (failure res).
  - inversion E; subst. exact H1.
  - apply (addNodes_heap lists_own (added res) lists_own_setNodeID
             (with_heap fs h) fs'); [exact H1 | exact E].
Qed.

Lemma serveAll_lists_own (trace : list (Trello.Remote * Time * request)) :
  forall fs fs',
    lists_own (heap fs) ->
    serveAll (tc := go_1_22) fs trace = Done fs' ->
    lists_own (heap fs').
Proof.
  induction trace as [|e trace IH]; intros fs fs' Hown E; simpl in E.
  - inversion E; subst. exact Hown.
  - apply bind_Done in E as (fs1 & E1 & E). apply (IH fs1 fs'); [|exact E].
    destruct (serve_refreshes (tc := go_1_22) fs fs1 e E1) as [->|[n Hn]];
      [exact Hown|].
    apply (refreshNode_lists_own _ _ _ _ _ Hown Hn).
Qed.

(** With a variable per iteration (Go 1.22 and later), every list node of
    a mount holds the record of its own list, at every moment. *)
Lemma list_nodes_hold_own_record (u g : Z) (c : Trello.TrelloCtx.t)
    (trace : list (Trello.Remote * Time * request)) (fs : trelloFS)
    (pl : nat) (nl : FSList.t) :
  serveAll (tc := go_1_22) (NewTrelloFS u g c) trace = Done fs ->
  lists (heap fs) !! pl = Some nl ->
  exists lrec,
    listVars (heap fs) !! FSList.List nl = Some lrec
    /\ Trello.List.ID lrec = TrelloID (FSList.base nl)
    /\ Trello.List.Name lrec = name (FSList.base nl).
Proof.
  intros Hrun Hl.
  assert (Hown : lists_own (heap fs)).
  { apply (serveAll_lists_own trace (NewTrelloFS u g c) fs); [|exact Hrun].
    apply Forall_nil. exact I. }
  apply (Forall_lookup_1 _ _ _ _ Hown Hl).
Qed.

End OwnRecords.

(** With one variable for the whole loop (before Go 1.22), the loop of
    [FSBoardListsDirMeta.Update] gives every list node it makes the
    address of that variable, which holds the last list of the reply
    when the loop is over. *)
Lemma FSBoardListsDirMeta_loop_shared (u g : Z) (pb shared : nat)
    (ls : list Trello.List.t) :
  forall (arena : list FSList.t) (vars : list Trello.List.t) (b : FSBoard.t)
         (news : list FSNode) arena' vars' b' news',
    fold_left (FSBoardListsDirMeta_Update_body (tc := go_1_21) u g pb shared) ls
      (arena, vars, b, news) = (arena', vars', b', news') ->
    (shared < length vars)%nat ->
    (exists ext, arena' = arena ++ ext
                 /\ Forall (fun x => FSList.List x = shared) ext)
    /\ (shared < length vars')%nat
    /\ forall l, last ls = Some l -> vars' !! shared = Some l.
Proof.
  induction ls as [|x ls IH]; intros arena vars b news arena' vars' b' news' F Hlt;
    cbn [fold_left] in F.
  - inversion F; subst. split; [exists []; rewrite app_nil_r; auto|].
    split; [exact Hlt|]. intros l Hl. discriminate Hl.
  - unfold FSBoardListsDirMeta_Update_body at 2 in F.
    cbv [loopVar loopvar_per_iteration go_1_21] in F.
    assert (Hlt1 : (shared < length (<[shared:=x]> vars))%nat)
      by (rewrite length_insert; exact Hlt).
    assert (Hlast : forall vars'', (shared < length vars'')%nat ->
              (forall l, last ls = Some l -> vars'' !! shared = Some l) ->
              (ls = [] -> vars'' = <[shared:=x]> vars) ->
              forall l, last (x :: ls) = Some l -> vars'' !! shared = Some l).
    { intros vars'' Hlt'' Hrest Hnil l Hl. rewrite last_cons in Hl.
      destruct (last ls) as [y|] eqn:Hy.
      - inversion Hl; subst y. apply Hrest. reflexivity.
      - inversion Hl; subst l. apply last_None in Hy.
        rewrite (Hnil Hy). apply list_lookup_insert_eq. exact Hlt. }
    assert (Hnil : forall a0 b0 n0, ls = [] ->
              fold_left (FSBoardListsDirMeta_Update_body (tc := go_1_21) u g pb shared)
                ls (a0, <[shared:=x]> vars, b0, n0) = (arena', vars', b', news') ->
              vars' = <[shared:=x]> vars).
    { intros a0 b0 n0 -> E. simpl in E. inversion E. reflexivity. }
    destruct (FSBoard.ByListID b !! Trello.List.ID x).
    + destruct (IH _ _ _ _ _ _ _ _ F Hlt1) as (Hext & Hlt' & Hl).
      split; [exact Hext|]. split; [exact Hlt'|].
      apply (Hlast vars' Hlt' Hl). intros E. apply (Hnil _ _ _ E F).
    + destruct (IH _ _ _ _ _ _ _ _ F Hlt1) as ((ext & -> & Hext) & Hlt' & Hl).
      split.
      * eexists (_ :: ext). rewrite <- app_assoc. split; [reflexivity|].
        apply Forall_cons. split; [reflexivity | exact Hext].
      * split; [exact Hlt'|].
        apply (Hlast vars' Hlt' Hl). intros E. apply (Hnil _ _ _ E F).
Qed.

(** Before Go 1.22: every list node that a refresh of [lists] makes
    holds the record of the last list of the reply. *)
Lemma FSBoardListsDirMeta_Update_shares_record (r : Trello.Remote) (now : Time)
    (p : nat) (h h' : Heap) (res : UpdateResult)
    (node : FSBoardListsDirMeta.t) (bn : FSBoard.t)
    (ls : list Trello.List.t) (l : Trello.List.t) (q : nat) :
  FSBoardListsDirMeta_Update (tc := go_1_21) r now p h = Done (h', res) ->
  listsDirs h !! p = Some node ->
  boards h !! FSBoardListsDirMeta.BoardNode node = Some bn ->
  Trello.Board_GetLists r (FSBoard.Board bn) = Ok ls ->
  last ls = Some l ->
  NFSList q ∈ added res ->
  exists x,
    lists h' !! q = Some x /\ listVars h' !! FSList.List x = Some l.
Proof.
  intros E Hp Hb Hq Hlast Hin.
  destruct (FSBoardListsDirMeta_Update_shape _ _ _ _ _ _ E)
    as (node' & bn0 & Hp' & Hb'
        & [(e & He & _)|(ls' & arena & vars & bn' & news & Hq' & F & -> & ->)]).
  { rewrite Hp in Hp'. inversion Hp'; subst node'.
    rewrite Hb in Hb'. inversion Hb'; subst bn0. congruence. }
  rewrite Hp in Hp'. inversion Hp'; subst node'; clear Hp'.
  rewrite Hb in Hb'. inversion Hb'; subst bn0; clear Hb'.
  rewrite Hq in Hq'. inversion Hq'; subst ls'; clear Hq'.
  pose proof (FSBoardListsDirMeta_loop_grows
                (uid (FSBoardListsDirMeta.base node))
                (gid (FSBoardListsDirMeta.base node))
                (FSBoardListsDirMeta.BoardNode node) (length (listVars h)) ls
                (lists h, enterLoop (listVars h) Trello.List.zero, bn, [])) as G.
  simpl in G. rewrite F in G. destruct G as (ext & Harena & Hnews & _).
  simpl in Harena, Hnews.
  destruct (FSBoardListsDirMeta_loop_shared _ _ _ _ _ _ _ _ _ _ _ _ _ F)
    as ((ext' & Harena' & Hext) & _ & Hl).
  { cbv [enterLoop loopvar_per_iteration go_1_21]. rewrite length_app. simpl. lia. }
  assert (ext' = ext) by (rewrite Harena in Harena'; apply app_inv_head in Harena'; auto).
  subst ext'. simpl in Hin. rewrite Hnews in Hin.
  apply list_elem_of_fmap in Hin as (i & Hi & Hin). inversion Hi; subst i; clear Hi.
  apply elem_of_seq in Hin.
  destruct (lookup_lt_is_Some_2 ext (q - length (lists h))) as [x Hx]; [lia|].
  exists x. simpl. split.
  - rewrite Harena, lookup_app_r by lia. exact Hx.
  - rewrite (Forall_lookup_1 _ _ _ _ Hext Hx). apply Hl. exact Hlast.
Qed.

(** The board [B] has the lists [L1] and [L2], and the card [#c1] is on
    [L1].  Under a toolchain before Go 1.22, the card resolves under
    [cards] and does not exist under [lists/L1], whose node holds the
    record of [L2]; from Go 1.22 it resolves to the same inode both
    ways. *)
Lemma card_under_its_list_by_toolchain :
  TwoLists.views go_1_21 = Done (Ok 6, Err ENOENT)
  /\ TwoLists.views go_1_22 = Done (Ok 6, Ok 6).
Proof. split; vm_compute; reflexivity. Qed.

Lemma card_shared_by_both_views_witness :
  exists h2 q node,
    refreshBoth (tc := go_1_22) false TwoLists.remote Scenario.now 0 0 TwoLists.heap22
    = Done h2
    /\ LookupChild h2 (NFSBoardCardsDirMeta 0) "#c1" = Done (Ok (NFSCard q))
    /\ LookupChild h2 (NFSList 0) "#c1" = Done (Ok (NFSCard q))
    /\ cards h2 !! q = Some node
    /\ TrelloID (FSCard.base node) = "c1".
Proof.
  eapply (card_shared_by_both_views (tc := go_1_22) Demo.naming TwoLists.remote
            Scenario.now TwoLists.heap22 0 0 0 _ _ _ _
            [Demo.cardNamed "c1"] [Demo.cardNamed "c1"] (Demo.cardNamed "c1") false).
  - intros a b E. cbv in E. injection E as E'. exact E'.
  - reflexivity.
  - reflexivity.
  - reflexivity.
  - reflexivity.
  - reflexivity.
  - reflexivity.
  - reflexivity.
  - apply shared_cards_empty; reflexivity.
  - reflexivity.
  - reflexivity.
  - apply Forall_cons. split; [reflexivity | apply Forall_nil; exact I].
  - apply Forall_cons. split; [reflexivity | apply Forall_nil; exact I].
  - left.
  - left.
Defined.
